(** * Apidog test tooling: merger, forward converter, reverse converter

    A shallow embedding of the three scripts of the repository

    - [scripts/merge_test_cases.js]      (class [TestCaseMerger]),
    - [scripts/node/convert_scenario.js] (class [ApidogConverter]),
    - the reverse converter              (class [ApidogReverseConverter]),

    over a common model of the JavaScript values they manipulate, and the
    properties of the specification stated and settled on that embedding. *)

From Stdlib Require Import Ascii String ZArith Lia.
From stdpp Require Import base option gmap strings list sorting pretty.

Local Open Scope string_scope.
Local Open Scope Z_scope.
Local Open Scope list_scope.

Set Warnings "-clear-no-such-hyp,-level-tolerance".

(** ** JavaScript values

    Every document the scripts touch comes out of [JSON.parse] or
    [yaml.load] and goes back through [JSON.stringify] or [yaml.dump], so a
    value is a JSON tree.  Numbers are the integers (identifiers, ordinals
    and durations are integral; the behaviour of IEEE doubles above 2^53 is
    outside the model).  An object is the list of its own enumerable
    properties in enumeration order; property names of a JavaScript object
    are pairwise distinct.  [None : option json] stands for [undefined]. *)

#[warnings="-register-all"]
Inductive json : Type :=
| JNull
| JBool (b : bool)
| JNum (n : Z)
| JStr (s : string)
| JArr (items : list json)
| JObj (fields : list (string * json)).

Abbreviation jsval := (option json).
Abbreviation obj := (list (string * json)).

Section json_induction.
Variable P : json → Prop.
Hypothesis Hnull : P JNull.
Hypothesis Hbool : ∀ b, P (JBool b).
Hypothesis Hnum : ∀ n, P (JNum n).
Hypothesis Hstr : ∀ s, P (JStr s).
Hypothesis Harr : ∀ l, Forall P l → P (JArr l).
Hypothesis Hobj : ∀ fs, Forall (λ kv, P kv.2) fs → P (JObj fs).

Fixpoint json_nested_ind (v : json) : P v :=
  match v with
  | JNull => Hnull
  | JBool b => Hbool b
  | JNum n => Hnum n
  | JStr s => Hstr s
  | JArr l =>
      Harr l (list_ind (Forall P) (Forall_nil_2 P)
                (λ x r IH, Forall_cons_2 P x r (json_nested_ind x) IH) l)
  | JObj fs =>
      Hobj fs (list_ind (Forall (λ kv, P kv.2)) (Forall_nil_2 _)
                 (λ kv r IH, Forall_cons_2 (λ kv, P kv.2) kv r
                               (json_nested_ind kv.2) IH) fs)
  end.
End json_induction.

(** [!v] is false for [undefined], [null], [false], [0] and [""]. *)
Definition truthy (v : jsval) : bool :=
  match v with
  | None | Some JNull => false
  | Some (JBool b) => b
  | Some (JNum n) => negb (n =? 0)
  | Some (JStr s) => negb (String.eqb s "")
  | Some (JArr _) | Some (JObj _) => true
  end.

(** [a || b] *)
Definition js_or (a : jsval) (b : json) : json :=
  match a with
  | Some v => if truthy a then v else b
  | None => b
  end.

(** Own property read [o[k]] on the property list of an object. *)
Fixpoint obj_get (k : string) (fs : obj) : jsval :=
  match fs with
  | [] => None
  | (k', v) :: r => if String.eqb k k' then Some v else obj_get k r
  end.

(** Property write [o[k] = v]: an existing property keeps its place in the
    enumeration order, a new one goes last. *)
Fixpoint obj_set (k : string) (v : json) (fs : obj) : obj :=
  match fs with
  | [] => [(k, v)]
  | (k', v') :: r =>
      if String.eqb k k' then (k, v) :: r else (k', v') :: obj_set k v r
  end.

(** [delete o[k]] *)
Definition obj_remove (k : string) (fs : obj) : obj :=
  filter (λ kv, negb (String.eqb k kv.1) = true) fs.

(** Property read [v.k] on a value that is neither [null] nor [undefined]:
    primitives and arrays have none of the data properties the scripts ask
    for, so the read gives [undefined]. *)
Definition get (k : string) (v : json) : jsval :=
  match v with
  | JObj fs => obj_get k fs
  | _ => None
  end.

(** The same read on a value that may be [undefined], in the places where
    the scripts have made sure that it is not or use [?.]. *)
Definition getv (k : string) (v : jsval) : jsval :=
  match v with
  | Some o => get k o
  | None => None
  end.

Definition is_null (v : json) : bool :=
  match v with JNull => true | _ => false end.

(** Strict equality [a === b] between values of two different documents:
    primitives are compared by type and value; two arrays or objects are
    never the same reference. *)
Definition strict_eq (a b : jsval) : bool :=
  match a, b with
  | None, None => true
  | Some JNull, Some JNull => true
  | Some (JBool x), Some (JBool y) => Bool.eqb x y
  | Some (JNum x), Some (JNum y) => x =? y
  | Some (JStr x), Some (JStr y) => String.eqb x y
  | _, _ => false
  end.

(** An object literal some of whose values may be [undefined]: such
    properties are not printed by [JSON.stringify] and read back as
    [undefined] all the same, so they are left out. *)
Definition mk_obj (fs : list (string * jsval)) : obj :=
  omap (λ kv, v ← kv.2; Some (kv.1, v)) fs.

(** [c !== undefined ? c : d] *)
Definition if_defined (c : jsval) (d : json) : json := default d c.

Definition JTrue : json := JBool true.
Definition JFalse : json := JBool false.

(** *** Strings

    A string is the sequence of the bytes of its UTF-8 encoding: the
    files are read and written as UTF-8, and two strings are equal when
    their encodings are.  (A string with an unpaired surrogate, which a
    JSON escape can produce, has no encoding and is outside the model.)
    Trimming takes off the blanks of ECMAScript, in their encodings; case
    mapping is modelled on the ASCII range. *)

(** The characters that [trim] and [parseInt] skip, [WhiteSpace] and
    [LineTerminator] of ECMAScript: of one byte (U+0009 to U+000D and
    U+0020), of two (U+00A0, [C2 A0]) and of three (U+1680, [E1 9A 80];
    U+2000 to U+200A, U+2028, U+2029 and U+202F, [E2 80 80] to [E2 80 8A],
    [E2 80 A8], [E2 80 A9] and [E2 80 AF]; U+205F, [E2 81 9F]; U+3000,
    [E3 80 80]; U+FEFF, [EF BB BF]). *)
Definition is_space (a : ascii) : bool :=
  let n := nat_of_ascii a in
  ((9 <=? n) && (n <=? 13) || (n =? 32))%nat.

Definition is_space2 (a b : ascii) : bool :=
  ((nat_of_ascii a =? 194) && (nat_of_ascii b =? 160))%nat.

Definition is_space3 (a b c : ascii) : bool :=
  let x := nat_of_ascii a in
  let y := nat_of_ascii b in
  let z := nat_of_ascii c in
  ((x =? 225) && (y =? 154) && (z =? 128)
   || (x =? 226) && (y =? 128)
      && ((128 <=? z) && (z <=? 138) || (z =? 168) || (z =? 169) || (z =? 175))
   || (x =? 226) && (y =? 129) && (z =? 159)
   || (x =? 227) && (y =? 128) && (z =? 128)
   || (x =? 239) && (y =? 187) && (z =? 191))%nat.

(** A string without the blanks it starts with; [sp2] and [sp3] tell the
    blanks of two and of three bytes. *)
Fixpoint strip (sp2 : ascii → ascii → bool) (sp3 : ascii → ascii → ascii → bool)
    (s : string) : string :=
  match s with
  | String a r =>
      if is_space a then strip sp2 sp3 r
      else match r with
           | String b r1 =>
               if sp2 a b then strip sp2 sp3 r1
               else match r1 with
                    | String c r2 => if sp3 a b c then strip sp2 sp3 r2 else s
                    | EmptyString => s
                    end
           | EmptyString => s
           end
  | EmptyString => EmptyString
  end.

(** [s.trimStart()] *)
Definition trim_start : string → string := strip is_space2 is_space3.

Definition string_rev (s : string) : string :=
  string_of_list_ascii (rev (list_ascii_of_string s)).

(** [s.trimEnd()]: the blanks at the end are those that the reversed
    string starts with, their bytes in the reverse order. *)
Definition trim_end (s : string) : string :=
  string_rev (strip (λ a b, is_space2 b a) (λ a b c, is_space3 c b a) (string_rev s)).

(** [s.trim()] *)
Definition trim (s : string) : string := trim_end (trim_start s).

Definition lower_ascii (a : ascii) : ascii :=
  let n := nat_of_ascii a in
  if ((65 <=? n) && (n <=? 90))%nat then ascii_of_nat (n + 32) else a.

Definition upper_ascii (a : ascii) : ascii :=
  let n := nat_of_ascii a in
  if ((97 <=? n) && (n <=? 122))%nat then ascii_of_nat (n - 32) else a.

Fixpoint string_map (f : ascii → ascii) (s : string) : string :=
  match s with
  | String a r => String (f a) (string_map f r)
  | EmptyString => EmptyString
  end.

(** [s.toLowerCase()], [s.toUpperCase()] *)
Definition toLowerCase : string → string := string_map lower_ascii.
Definition toUpperCase : string → string := string_map upper_ascii.

Definition CR : ascii := ascii_of_nat 13.
Definition LF : ascii := ascii_of_nat 10.

(** [s.replace(/\r\n/g, '\n')] *)
Fixpoint replace_crlf (s : string) : string :=
  match s with
  | String a r =>
      match r with
      | String b r' =>
          if Ascii.eqb a CR && Ascii.eqb b LF then String LF (replace_crlf r')
          else String a (replace_crlf r)
      | EmptyString => s
      end
  | EmptyString => EmptyString
  end.

(** [s.replace(/\r/g, '\n')] *)
Definition replace_cr : string → string :=
  string_map (λ a, if Ascii.eqb a CR then LF else a).

(** [s.replace(/\n/g, '\r\n')] *)
Fixpoint replace_lf (s : string) : string :=
  match s with
  | String a r =>
      if Ascii.eqb a LF then String CR (String LF (replace_lf r))
      else String a (replace_lf r)
  | EmptyString => EmptyString
  end.

(** The line endings of a script as Apidog stores them, and as the YAML
    side stores them. *)
Definition to_crlf (s : string) : string := replace_lf (replace_cr (replace_crlf s)).
Definition to_lf (s : string) : string := replace_cr (replace_crlf s).

(** [s.endsWith(suffix)] *)
Definition endsWith (s suffix : string) : bool :=
  let n := String.length s in
  let m := String.length suffix in
  (m <=? n)%nat && String.eqb (substring (n - m) m s) suffix.

(** [String(v)], also the conversion of a template literal. *)
Fixpoint js_String (v : json) : string :=
  match v with
  | JNull => "null"
  | JBool true => "true"
  | JBool false => "false"
  | JNum n => pretty n
  | JStr s => s
  | JArr l =>
      String.concat ","
        (map (λ x, match x with JNull => "" | _ => js_String x end) l)
  | JObj _ => "[object Object]"
  end.

(** ** Outcomes of a run

    [TypeError]: the script raises a [TypeError] (a property of [null] or
    [undefined] is read, a method that the value lacks is called).
    [Unsupported]: the input lies outside the model (a value of another
    shape than the scripts expect, where JavaScript would go on with
    coerced values); nothing is claimed about such runs. *)
Inductive result (A : Type) : Type :=
| Ok (a : A)
| TypeError
| Unsupported.
Arguments Ok {A} a.
Arguments TypeError {A}.
Arguments Unsupported {A}.

Definition result_bind {A B : Type} (f : A → result B) (r : result A) : result B :=
  match r with
  | Ok a => f a
  | TypeError => TypeError
  | Unsupported => Unsupported
  end.

#[global] Instance result_mbind : MBind result := @result_bind.
#[global] Instance result_mret : MRet result := @Ok.

(** [parseInt(v)] for the values met here: [None] is [NaN].  A string is
    read as an optional sign and a run of decimal digits after leading
    blanks; hexadecimal literals are outside the model. *)
Definition digit_of (a : ascii) : option Z :=
  let n := nat_of_ascii a in
  if ((48 <=? n) && (n <=? 57))%nat then Some (Z.of_nat (n - 48)) else None.

Fixpoint parse_digits (s : string) (acc : option Z) : option Z :=
  match s with
  | String a r =>
      match digit_of a with
      | Some d => parse_digits r (Some (default 0 acc * 10 + d))
      | None => acc
      end
  | EmptyString => acc
  end.

Definition parseInt_string (s : string) : result (option Z) :=
  match trim_start s with
  | String "-" r => Ok (Z.opp <$> parse_digits r None)
  | String "+" r => Ok (parse_digits r None)
  | String "0" (String "x" _) | String "0" (String "X" _) => Unsupported
  | s' => Ok (parse_digits s' None)
  end.

Definition parseInt (v : jsval) : result (option Z) :=
  match v with
  | Some (JNum n) => Ok (Some n)
  | Some (JStr s) => parseInt_string s
  | Some (JArr _) | Some (JObj _) => Unsupported
  | _ => Ok None
  end.

(** A number that may be [NaN], as [JSON.stringify] prints it. *)
Definition num_or_nan (n : option Z) : json :=
  match n with Some z => JNum z | None => JNull end.

(** [v.k] where [v] may be [null] or [undefined]. *)
Definition prop (k : string) (v : jsval) : result jsval :=
  match v with
  | None | Some JNull => TypeError
  | Some o => Ok (get k o)
  end.

(** ** The collection merger, [class TestCaseMerger] *)

Module TestCaseMerger.

(** [this.usedIds] and [this.nextId]; the constructor starts them at the
    empty set and at 10000000. *)
Record merger := Merger { usedIds : gset Z; nextId : Z }.

Definition constructor : merger := Merger ∅ 10000000.

(** [while (this.usedIds.has(this.nextId)) this.nextId++].  The set is
    finite, so the loop leaves it after at most [size usedIds] rounds;
    [skip_used] runs the loop with that many rounds of fuel and one more
    (see [skip_used_fresh]). *)
Fixpoint skip_used (fuel : nat) (used : gset Z) (n : Z) : Z :=
  match fuel with
  | O => n
  | S fuel' =>
      if decide (n ∈ used) then skip_used fuel' used (n + 1) else n
  end.

Definition getNextId (m : merger) : Z * merger :=
  let n := skip_used (S (size (usedIds m))) (usedIds m) (nextId m) in
  (n, Merger ({[ n ]} ∪ usedIds m) (n + 1)).

(** [collectUsedIds(obj)], as a function from the set before the call
    to the set after it. *)
Fixpoint collectUsedIds (v : json) (used : gset Z) : gset Z :=
  match v with
  | JArr l => foldl (λ u item, collectUsedIds item u) used l
  | JObj fs =>
      let used1 :=
        match obj_get "id" fs with
        | Some (JNum n) => if n =? 0 then used else {[ n ]} ∪ used
        | _ => used
        end in
      foldl (λ u kv, collectUsedIds kv.2 u) used1 fs
  | _ => used
  end.

(** The state of one [reassignIds] call: the merger and the local
    [idMap]. *)
Definition rstate : Type := merger * gmap Z Z.

(** The body of [if (key === 'id' && typeof value === 'number')]. *)
Definition reassign_id (value : Z) (st : rstate) : Z * rstate :=
  let '(m, idMap) := st in
  if decide (value ∈ usedIds m) then
    match idMap !! value with
    | Some n => (n, st)
    | None =>
        let '(n, m') := getNextId m in (n, (m', <[ value := n ]> idMap))
    end
  else (value, (Merger ({[ value ]} ∪ usedIds m) (nextId m), idMap)).

(** [obj.map(item => reassignRecursive(item))] *)
Definition reassign_items (reassignRecursive : json → rstate → json * rstate)
    : list json → rstate → list json * rstate :=
  fix go (l : list json) (st : rstate) : list json * rstate :=
    match l with
    | [] => ([], st)
    | item :: r =>
        let '(item', st1) := reassignRecursive item st in
        let '(r', st2) := go r st1 in
        (item' :: r', st2)
    end.

(** [for (const [key, value] of Object.entries(obj))]: the keys being
    distinct, the assignments to [newObj] list the properties in the order
    of the source.  The key [__proto__] is the exception: [obj], which
    comes out of [JSON.parse], has it as a property of its own, but the
    assignment [newObj['__proto__'] = v] goes to the setter of
    [Object.prototype], which makes [v] the prototype of [newObj] when it
    is an object, an array or [null], does nothing otherwise, and in no
    case gives [newObj] a property.  The value has been walked all the
    same, so its ids are in [usedIds] and in [idMap].  The object
    returned is its own properties, which are what [JSON.stringify]
    prints; what is read through a prototype is dealt with at the reads,
    in [merge_one]. *)
Definition reassign_entries (reassignRecursive : json → rstate → json * rstate)
    : obj → rstate → obj * rstate :=
  fix go (fs : obj) (st : rstate) : obj * rstate :=
    match fs with
    | [] => ([], st)
    | (key, value) :: r =>
        let '(value', st1) :=
          match String.eqb key "id", value with
          | true, JNum n => let '(n', st1) := reassign_id n st in (JNum n', st1)
          | _, _ => reassignRecursive value st
          end in
        let '(r', st2) := go r st1 in
        (if String.eqb key "__proto__" then r' else (key, value') :: r', st2)
    end.

(** [reassignRecursive]: primitives and [null] are returned as they are,
    an array is mapped, an object is rebuilt property by property. *)
Fixpoint reassignRecursive (v : json) (st : rstate) : json * rstate :=
  match v with
  | JArr l =>
      let '(l', st') := reassign_items reassignRecursive l st in (JArr l', st')
  | JObj fs =>
      let '(fs', st') := reassign_entries reassignRecursive fs st in (JObj fs', st')
  | _ => (v, st)
  end.

Definition reassignIds (testCase : json) (m : merger) : json * merger :=
  let '(v, (m', _)) := reassignRecursive testCase (m, ∅) in (v, m').

(** The check of [loadTestCasesFromFolder]: a file is kept when
    [testCase.steps] and [testCase.name] are both truthy.  A file whose
    content is [null] raises inside the [try] and is skipped as well. *)
Definition valid_test_case (testCase : json) : bool :=
  truthy (get "steps" testCase) && truthy (get "name" testCase).

Definition loadTestCases (files : list json) : list json :=
  filter (λ t, valid_test_case t = true) files.

(** *** [mergeIntoApidog]

    The function works on the parsed base file [apidogData] and returns
    what it writes to the output file.  [None] is returned when the
    script stops with a [TypeError] (a [null] where an object is read, a
    non-array where [forEach], [find] or [push] is called), and on the
    inputs left outside the model: an array in the place of the root
    collection, an incoming test case whose [name] is not a string or
    whose [_folder] is truthy and not a string, an [ordering] that is
    truthy and not a number (the comparator of [sort] is then
    inconsistent and the order implementation-defined), an incoming test
    case with a property [__proto__] whose value is an object
    ([reassignIds] makes that object the prototype of the test case it
    returns, and [_folder], [name] and [ordering] are then read through
    it; an array or [null] as the prototype has none of the three).

    The name maps are JavaScript [Map]s from a name to an index.  Only
    string names are recorded: the incoming names are strings, and no
    other key can ever be hit by [has] or [get]. *)

(** [items.forEach((item, index) => map.set(item.name, index))] *)
Fixpoint index_items (items : list json) (index : nat)
    (map : gmap string nat) : option (gmap string nat) :=
  match items with
  | [] => Some map
  | JNull :: _ => None
  | item :: r =>
      index_items r (S index)
        match get "name" item with
        | Some (JStr n) => <[ n := index ]> map
        | _ => map
        end
  end.

(** [existingTestCasesByFolder]: the entry of the key [null] (the root
    level) and the entries of the string keys. *)
Record folder_maps := FolderMaps {
  root_map : gmap string nat;
  by_folder : gmap string (gmap string nat)
}.

(** [rootCollection.children.forEach(folder => ...)]: a folder whose
    [items] is an array gets a map under its [name]; a folder named
    [null] overwrites the root entry. *)
Fixpoint index_folders (children : list json) (maps : folder_maps)
    : option folder_maps :=
  match children with
  | [] => Some maps
  | JNull :: _ => None
  | folder :: r =>
      match get "items" folder with
      | Some (JArr items) =>
          match index_items items 0 ∅ with
          | Some fm =>
              index_folders r
                match get "name" folder with
                | Some (JStr n) =>
                    FolderMaps (root_map maps) (<[ n := fm ]> (by_folder maps))
                | Some JNull => FolderMaps fm (by_folder maps)
                | _ => maps
                end
          | None => None
          end
      | _ => index_folders r maps
      end
  end.

(** [arr[index] = v]: past the end JavaScript extends the array and
    leaves holes.  A hole is written [JNull]: [JSON.stringify] prints it
    as [null], and no genuine [null] is among the items once they have
    been indexed. *)
Definition js_array_set (index : nat) (v : json) (l : list json) : list json :=
  if (index <? length l)%nat then <[ index := v ]> l
  else l ++ replicate (index - length l) JNull ++ [v].

(** [a.ordering || 0] *)
Definition ordering_key (item : json) : option Z :=
  match get "ordering" item with
  | Some (JNum n) => Some n
  | v => if truthy v then None else Some 0
  end.

(** [items.sort((a, b) => orderA - orderB)]: the sort is stable, holes
    go last and are never passed to the comparator. *)
Fixpoint insert_by_key (x : Z * json) (l : list (Z * json)) : list (Z * json) :=
  match l with
  | [] => [x]
  | y :: r => if x.1 <=? y.1 then x :: l else y :: insert_by_key x r
  end.

Definition stable_sort (l : list (Z * json)) : list (Z * json) :=
  foldr insert_by_key [] l.

Definition sort_items (items : list json) : option (list json) :=
  let present := filter (λ v, is_null v = false) items in
  let holes := filter (λ v, is_null v = true) items in
  keyed ← mapM (λ v, k ← ordering_key v; Some (k, v)) present;
  Some ((stable_sort keyed).*2 ++ holes).

Definition sort_folder (folder : json) : option json :=
  match folder with
  | JObj ffs =>
      match obj_get "items" ffs with
      | Some (JArr items) =>
          items' ← sort_items items; Some (JObj (obj_set "items" (JArr items') ffs))
      | _ => Some folder
      end
  | _ => Some folder
  end.

(** The variables of the merge loop: the merger, [rootCollection.items],
    [rootCollection.children] and the name maps. *)
Record mstate := MState {
  st_merger : merger;
  st_items : list json;
  st_children : list json;
  st_maps : folder_maps
}.

(** [children.find(child => child.name === folderName)], as an index. *)
Fixpoint find_folder (folderName : string) (children : list json) : option nat :=
  match children with
  | [] => None
  | child :: r =>
      match get "name" child with
      | Some (JStr n) =>
          if String.eqb n folderName then Some 0%nat
          else S <$> find_folder folderName r
      | _ => S <$> find_folder folderName r
      end
  end.

Definition new_folder (folderName : string) : json :=
  JObj [("name", JStr folderName); ("description", JStr "");
        ("children", JArr []); ("items", JArr [])].

(** [if (testCasesMap.has(name)) items[index] = tc; else { items.push(tc);
    testCasesMap.set(name, items.length - 1) }] *)
Definition place (name : string) (tc : json) (items : list json)
    (map : gmap string nat) : list json * gmap string nat :=
  match map !! name with
  | Some index => (js_array_set index tc items, map)
  | None => (items ++ [tc], <[ name := length items ]> map)
  end.

(** [if (!o[k]) o[k] = []] *)
Definition ensure_array (k : string) (fs : obj) : obj :=
  if truthy (obj_get k fs) then fs else obj_set k (JArr []) fs.

(** [processedTestCase._folder || null]: the inner [None] is [null], the
    root level. *)
Definition target_folder (pfs : obj) : option (option string) :=
  match obj_get "_folder" pfs with
  | Some (JStr s) => Some (if String.eqb s "" then None else Some s)
  | v => if truthy v then None else Some None
  end.

(** Whether the test case that [reassignIds] returns for [data] has an
    object as its prototype. *)
Definition inherits (data : json) : bool :=
  match get "__proto__" data with
  | Some (JObj _) => true
  | _ => false
  end.

(** One round of [for (const { file, data } of this.testCases)]. *)
Definition merge_one (st : mstate) (data : json) : option mstate :=
  if inherits data then None else
  let '(processed, m) := reassignIds data (st_merger st) in
  match processed with
  | JObj pfs =>
      folderName ← target_folder pfs;
      let tc := obj_remove "_folder" pfs in
      match obj_get "name" tc with
      | Some (JStr name) =>
          match folderName with
          | None =>
              let '(items, rm) :=
                place name (JObj tc) (st_items st) (root_map (st_maps st)) in
              Some (MState m items (st_children st)
                      (FolderMaps rm (by_folder (st_maps st))))
          | Some fname =>
              (* findOrCreateFolder *)
              let '(i, children1) :=
                match find_folder fname (st_children st) with
                | Some i => (i, st_children st)
                | None => (length (st_children st),
                           st_children st ++ [new_folder fname])
                end in
              match children1 !! i with
              | Some (JObj ffs) =>
                  let ffs1 := ensure_array "items" ffs in
                  let fm := default ∅ (by_folder (st_maps st) !! fname) in
                  match obj_get "items" ffs1 with
                  | Some (JArr fitems) =>
                      let '(fitems', fm') := place name (JObj tc) fitems fm in
                      Some (MState m (st_items st)
                              (<[ i := JObj (obj_set "items" (JArr fitems') ffs1) ]>
                                 children1)
                              (FolderMaps (root_map (st_maps st))
                                 (<[ fname := fm' ]> (by_folder (st_maps st)))))
                  | _ => None
                  end
              | _ => None
              end
          end
      | _ => None
      end
  | _ => None
  end.

Fixpoint merge_all (st : mstate) (testCases : list json) : option mstate :=
  match testCases with
  | [] => Some st
  | data :: r => st' ← merge_one st data; merge_all st' r
  end.

Definition root_collection : json :=
  JObj [("name", JStr "Root"); ("children", JArr []); ("items", JArr [])].

Definition mergeIntoApidog (m : merger) (apidogData : json)
    (testCases : list json) : option json :=
  match apidogData with
  | JObj fs =>
      let m0 := Merger (collectUsedIds apidogData (usedIds m)) (nextId m) in
      let fs1 := ensure_array "apiTestCaseCollection" fs in
      match obj_get "apiTestCaseCollection" fs1 with
      | Some (JArr coll) =>
          let coll1 := match coll with [] => [root_collection] | _ => coll end in
          match coll1 with
          | JObj rfs :: rest =>
              let rfs1 := ensure_array "children" (ensure_array "items" rfs) in
              match obj_get "items" rfs1, obj_get "children" rfs1 with
              | Some (JArr items), Some (JArr children) =>
                  rm ← index_items items 0 ∅;
                  maps ← index_folders children (FolderMaps rm ∅);
                  st ← merge_all (MState m0 items children maps) testCases;
                  items' ← sort_items (st_items st);
                  children' ← mapM sort_folder (st_children st);
                  Some (JObj (obj_set "apiTestCaseCollection"
                                (JArr (JObj (obj_set "children" (JArr children')
                                               (obj_set "items" (JArr items') rfs1))
                                       :: rest))
                                fs1))
              | _, _ => None
              end
          | _ => None
          end
      | _ => None
      end
  | _ => None
  end.

(** [merge(C, T)] of the specification: a fresh merger, the files of the
    folder that pass the loader's check, one [mergeIntoApidog]. *)
Definition merge (C : json) (T : list json) : option json :=
  mergeIntoApidog constructor C (loadTestCases T).

End TestCaseMerger.

(** ** The forward converter, [class ApidogConverter] *)

Module ApidogConverter.

(** *** The converter object

    [apiDefinitions] and [apiByPath] are the two [Map]s of the constructor;
    both refer to the same API items of the source file, which
    [convertHttpStep] mutates through [api.requestBody.parameters].  The
    items therefore live in a store, [apiStore], and the maps hold
    positions in it.  A name shared by several items is mapped to the
    array of its [{ item, path }] entries.  [testCases] and
    [testCasesById] are created by [loadSourceApidog] only: until then
    they are [undefined], here [None].  Keys of a [Map] are compared by
    value. *)

Inductive api_entry : Type :=
| OneApi (item : nat)
| ManyApis (entries : list (nat * string)).

Record converter : Type := Converter {
  nextId : Z;
  uuidCalls : nat;
  apiStore : list json;
  apiDefinitions : list (string * api_entry);
  apiByPath : list (string * nat);
  testCases : option (list (json * json));
  testCasesById : option (list (json * json))
}.

(** [new ApidogConverter()] *)
Definition constructor : converter := Converter 10000000 0 [] [] [] None None.

(** [map.get(key)] on a [Map] with string keys, and with any keys. *)
Fixpoint alist_get {A : Type} (k : string) (l : list (string * A)) : option A :=
  match l with
  | [] => None
  | (k', v) :: r => if String.eqb k k' then Some v else alist_get k r
  end.

Fixpoint map_get (k : json) (l : list (json * json)) : jsval :=
  match l with
  | [] => None
  | (k', v) :: r => if strict_eq (Some k) (Some k') then Some v else map_get k r
  end.

(** A method of the class: it reads and updates the converter, and may
    stop with an error. *)
Definition conv (A : Type) : Type := converter → result (A * converter).

Definition conv_ret {A : Type} (a : A) : conv A := λ c, Ok (a, c).

Definition conv_bind {A B : Type} (f : A → conv B) (m : conv A) : conv B :=
  λ c, match m c with
       | Ok (a, c') => f a c'
       | TypeError => TypeError
       | Unsupported => Unsupported
       end.

#[global] Instance conv_mret : MRet conv := @conv_ret.
#[global] Instance conv_mbind : MBind conv := @conv_bind.

Definition lift {A : Type} (r : result A) : conv A :=
  λ c, match r with
       | Ok a => Ok (a, c)
       | TypeError => TypeError
       | Unsupported => Unsupported
       end.

Definition this : conv converter := λ c, Ok (c, c).

(** [generateId() { return ++this.nextId; }] *)
Definition generateId : conv Z :=
  λ c, Ok (nextId c + 1,
           Converter (nextId c + 1) (uuidCalls c) (apiStore c) (apiDefinitions c)
             (apiByPath c) (testCases c) (testCasesById c)).

(** [`custom_${this.generateId()}`] *)
Definition custom_id : conv json :=
  n ← generateId; mret (JStr ("custom_" +:+ pretty n)).

(** A converted step is printed when [convert] has returned.  The
    [requestBody.parameters] of an http step may be the very array of the
    API item, which later steps can still change; so a converted step is
    kept as a function of the store at printing time. *)
Definition delayed : Type := list json → json.

Definition now (v : json) : delayed := λ _, v.

(** [for (const x of xs) out.push(...f(x))] and [for (const x of xs)
    out.push(f(x))], in a monad given by its two operations. *)
Definition flat_mapM {M : Type → Type} {A B : Type}
    (ret : list B → M (list B))
    (bind : (list B → M (list B)) → M (list B) → M (list B))
    (f : A → M (list B)) : list A → M (list B) :=
  fix go (l : list A) : M (list B) :=
    match l with
    | [] => ret []
    | x :: r => bind (λ ys, bind (λ zs, ret (ys ++ zs)) (go r)) (f x)
    end.

Definition conv_flat_mapM {A B : Type} (f : A → conv (list B)) : list A → conv (list B) :=
  flat_mapM conv_ret conv_bind f.

Definition conv_mapM {A B : Type} (f : A → conv B) : list A → conv (list B) :=
  conv_flat_mapM (λ x, y ← f x; mret [y]).

Definition result_mapM {A B : Type} (f : A → result B) : list A → result (list B) :=
  flat_mapM Ok result_bind (λ x, y ← f x; mret [y]).

(** The value of a position [for ... of] can run over: an array. *)
Definition elements (v : json) : result (list json) :=
  match v with
  | JArr l => Ok l
  | _ => Unsupported
  end.

(** *** The API definition index *)

Definition store_get (c : converter) (ref : nat) : jsval := apiStore c !! ref.

(** [item.api] when [item] is truthy, else [undefined]. *)
Definition api_of (item : jsval) : jsval :=
  if truthy item then getv "api" item else None.

(** [findApiByMethodAndPath(method, apiPath)] *)
Definition findApiByMethodAndPath (c : converter) (method apiPath : json) : option nat :=
  if truthy (Some apiPath) then
    let desiredMethod :=
      if truthy (Some method) then toLowerCase (js_String method) else "" in
    snd <$> List.find
      (λ entry : string * nat,
         let api := api_of (store_get c entry.2) in
         truthy api
         && strict_eq (getv "path" api) (Some apiPath)
         && (if String.eqb desiredMethod "" then true
             else String.eqb
                    (toLowerCase (js_String (js_or (getv "method" api) (JStr ""))))
                    desiredMethod))
      (apiByPath c)
  else None.

(** The name under which an API is looked up: the scripts index by
    [item.name]; names that are not strings are outside the model. *)
Definition string_key (name : json) : result string :=
  match name with
  | JStr s => Ok s
  | _ => Unsupported
  end.

(** [findApiByName(name, folderPath)], called with a truthy [folderPath]. *)
Definition findApiByName (c : converter) (name folderPath : json) : result (option nat) :=
  let fullPath := js_String folderPath +:+ "/" +:+ js_String name in
  let byFullPath := alist_get fullPath (apiByPath c) in
  if truthy (byFullPath ≫= store_get c) then Ok byFullPath
  else
    match List.find (λ entry : string * nat, endsWith entry.1 ("/" +:+ fullPath))
            (apiByPath c) with
    | Some entry => Ok (Some entry.2)
    | None =>
        key ← string_key name;
        match alist_get key (apiDefinitions c) with
        | None => Ok None
        | Some (ManyApis []) => TypeError
        | Some (ManyApis (entry :: _)) => Ok (Some entry.1)
        | Some (OneApi ref) => Ok (Some ref)
        end
    end.

(** [findApiByNameAndPath(name, expectedPath, folderPath)]; [expectedPath]
    and [folderPath] are [null] when the step does not give them. *)
Definition findApiByNameAndPath (c : converter) (name expectedPath folderPath : json)
    : result (option nat) :=
  byFolder ←
    (if truthy (Some folderPath) then
       found ← findApiByName c name folderPath;
       let api := api_of (found ≫= store_get c) in
       if truthy api
          && negb (truthy (Some expectedPath)
                   && negb (strict_eq (getv "path" api) (Some expectedPath)))
       then Ok found else Ok None
     else Ok None);
  match byFolder with
  | Some ref => Ok (Some ref)
  | None =>
      key ← string_key name;
      match alist_get key (apiDefinitions c) with
      | None => Ok None
      | Some (OneApi ref) => Ok (Some ref)
      | Some (ManyApis entries) =>
          let matching :=
            if truthy (Some expectedPath) then
              List.find
                (λ entry : nat * string,
                   let api := api_of (store_get c entry.1) in
                   truthy api && strict_eq (getv "path" api) (Some expectedPath))
                entries
            else None in
          match matching, entries with
          | Some entry, _ => Ok (Some entry.1)
          | None, entry :: _ =>
              if truthy (store_get c entry.1) then Ok (Some entry.1) else Ok None
          | None, [] => Ok None
          end
      end
  end.

(** *** Processors *)

(** The [defaultEnable] and [enable] of a processor, in camelCase or in
    snake_case, with their defaults. *)
Definition default_enable_of (processor : json) (d : json) : json :=
  if_defined (get "default_enable" processor)
    (if_defined (get "defaultEnable" processor) d).

Definition enable_of (processor : json) : json :=
  if_defined (get "enable" processor) JTrue.

(** The script of a [customScript] processor: [processor.data] if it is a
    string, [String(processor.data)] if it is neither [null] nor
    [undefined], the empty script otherwise. *)
Definition script_data (data : jsval) : string :=
  match data with
  | Some (JStr s) => s
  | None | Some JNull => ""
  | Some v => js_String v
  end.

Definition customScript_processor (processor : json) : json :=
  JObj [("type", JStr "customScript");
        ("data", JStr (to_crlf (script_data (get "data" processor))));
        ("defaultEnable", default_enable_of processor JFalse);
        ("enable", enable_of processor)].

(** The pass-through of a processor of another type: the four fields,
    then [for (const key in processor)] over the remaining ones.  The
    assignment [converted['__proto__'] = v] sets the prototype of
    [converted] or does nothing, and gives it no property. *)
Definition passthrough_keys : list string :=
  ["type"; "data"; "defaultEnable"; "default_enable"; "enable"].

Definition other_processor (fs : obj) : json :=
  JObj (foldl (λ converted kv,
                 if existsb (String.eqb kv.1) passthrough_keys
                    || String.eqb kv.1 "__proto__"
                 then converted
                 else obj_set kv.1 kv.2 converted)
          [("type", js_or (obj_get "type" fs) (JStr "unknown"));
           ("data", js_or (obj_get "data" fs) (JObj []));
           ("defaultEnable", default_enable_of (JObj fs) JFalse);
           ("enable", enable_of (JObj fs))]
          fs).

(** A processor is an object; [null] raises on [processor.type]. *)
Definition as_processor (processor : json) : result obj :=
  match processor with
  | JObj fs => Ok fs
  | JNull => TypeError
  | _ => Unsupported
  end.

Definition placeholder_processor : json :=
  JObj [("type", JStr "placeholder"); ("renderType", JStr "dynamicValueDivider");
        ("defaultEnable", JFalse); ("enable", JFalse)].

(** [convertPreProcessors(preProcessors)] *)
Definition convertPreProcessors (preProcessors : json) : result (list json) :=
  if negb (truthy (Some preProcessors)) then Ok [placeholder_processor]
  else
    l ← elements preProcessors;
    match l with
    | [] => Ok [placeholder_processor]
    | _ =>
        result_mapM
          (λ processor,
             fs ← as_processor processor;
             if strict_eq (obj_get "type" fs) (Some (JStr "customScript"))
             then Ok (customScript_processor processor)
             else Ok (other_processor fs))
          l
    end.

Definition extract_settings (path : json) : json :=
  JObj [("expression", path);
        ("continueExtractorSettings",
         JObj [("isContinueExtractValue", JFalse);
               ("JsonArrayValueIndexValue", JStr "")])].

(** The [data] of an assertion processor, from the fields of an assertion
    written in the scenario. *)
Definition assertion_data (a : json) (multipleValue extractSettings : json) : json :=
  JObj [("name", js_or (get "name" a) (JStr ""));
        ("subject", js_or (get "subject" a) (JStr "responseJson"));
        ("comparison",
         js_or (get "comparison" a) (js_or (get "operator" a) (JStr "equal")));
        ("value", js_or (get "value" a) (JStr ""));
        ("path", js_or (get "path" a) (JStr ""));
        ("multipleValue", multipleValue);
        ("extractSettings", extractSettings)].

(** [convertAssertions(assertions)] *)
Definition convertAssertion (assertion : json) : result json :=
  match assertion with
  | JNull => TypeError
  | _ =>
      Ok (JObj [("type", JStr "assertion");
                ("data",
                 assertion_data assertion (JArr [])
                   (extract_settings (js_or (get "path" assertion) (JStr ""))));
                ("defaultEnable", JFalse);
                ("enable", JTrue)])
  end.

Definition convertAssertions (assertions : json) : result (list json) :=
  if negb (truthy (Some assertions)) then Ok []
  else l ← elements assertions; result_mapM convertAssertion l.

(** [convertPostProcessors(postProcessors)] *)
Definition convertPostProcessor (processor : json) : result json :=
  fs ← as_processor processor;
  let processorType := obj_get "type" fs in
  if strict_eq processorType (Some (JStr "assertion")) then
    let assertionData := js_or (obj_get "data" fs) (JObj []) in
    Ok (JObj [("type", JStr "assertion");
              ("data",
               assertion_data assertionData
                 (js_or (get "multipleValue" assertionData) (JArr []))
                 (js_or (get "extractSettings" assertionData)
                    (extract_settings (js_or (get "path" assertionData) (JStr "")))));
              ("defaultEnable", default_enable_of processor JFalse);
              ("enable", enable_of processor)])
  else if strict_eq processorType (Some (JStr "customScript")) then
    Ok (customScript_processor processor)
  else Ok (other_processor fs).

Definition convertPostProcessors (postProcessors : json) : result (list json) :=
  if negb (truthy (Some postProcessors)) then Ok []
  else l ← elements postProcessors; result_mapM convertPostProcessor l.

(** [v && v.length > 0] for the value of a list field of the scenario:
    the elements when the test holds.  A number or a boolean has no
    [length]; a string or an object in this place is outside the model. *)
Definition nonempty (v : json) : result (option (list json)) :=
  match v with
  | JArr [] => Ok None
  | JArr l => Ok (Some l)
  | JNull | JBool _ | JNum _ => Ok None
  | JStr s => if String.eqb s "" then Ok None else Unsupported
  | JObj _ => Unsupported
  end.

(** [mergePostProcessors(assertions, customPostProcessors)] *)
Definition mergePostProcessors (assertions customPostProcessors : json)
    : result (list json) :=
  a ← nonempty assertions;
  fromAssertions ← (match a with Some _ => convertAssertions assertions | None => Ok [] end);
  p ← nonempty customPostProcessors;
  fromCustom ← (match p with
                | Some _ => convertPostProcessors customPostProcessors
                | None => Ok []
                end);
  Ok (fromAssertions ++ fromCustom).

(** *** Parameter overrides

    The loops over [query_params_override], [path_params_override],
    [cookie_params_override] and [header_params_override] are written out
    four times in [convertHttpStep], four times in [createBasicHttpStep]
    and once in [convertLinkedSteps]; they differ in the test that finds
    the parameter and in the fields of a parameter that is added. *)

(** [p => p.name === paramName] on an element of a parameter list.  The
    elements are objects; [null] raises. *)
Definition name_is (paramName : jsval) (p : json) : result bool :=
  match p with
  | JObj fs => Ok (strict_eq (obj_get "name" fs) paramName)
  | JNull => TypeError
  | _ => Unsupported
  end.

(** [p => p.name && p.name.toLowerCase() === paramName.toLowerCase()] *)
Definition header_name_is (paramName : jsval) (p : json) : result bool :=
  match p with
  | JObj fs =>
      match obj_get "name" fs with
      | Some (JStr s) =>
          if String.eqb s "" then Ok false
          else match paramName with
               | Some (JStr n) => Ok (String.eqb (toLowerCase s) (toLowerCase n))
               | _ => TypeError
               end
      | name => if truthy name then TypeError else Ok false
      end
  | JNull => TypeError
  | _ => Unsupported
  end.

(** [list.findIndex(test)]; [list.find(test)] gives the element there. *)
Fixpoint findIndex (test : json → result bool) (l : list json) : result (option nat) :=
  match l with
  | [] => Ok None
  | p :: r =>
      b ← test p;
      if b : bool then Ok (Some 0%nat)
      else i ← findIndex test r; Ok (option_map S i)
  end.

(** [existingParam.value = paramValue; existingParam.enable = true] *)
Definition set_value (paramValue : json) (p : json) : json :=
  match p with
  | JObj fs => JObj (obj_set "enable" JTrue (obj_set "value" paramValue fs))
  | _ => p
  end.

Definition added_param (id : json) (paramName : jsval) (paramValue : json)
    (extra : obj) : json :=
  JObj (mk_obj [("id", Some id); ("name", paramName); ("required", Some JFalse);
                ("enable", Some JTrue); ("value", Some paramValue);
                ("type", Some (JStr "string")); ("description", Some (JStr ""))]
        ++ extra).

(** One round of the loop, for one [override] of the list. *)
Definition apply_override (test : jsval → json → result bool) (extra : obj)
    (params : list json) (override : json) : conv (list json) :=
  paramName ← lift (prop "name" (Some override));
  paramValue ← lift (prop "value" (Some override));
  index ← lift (findIndex (test paramName) params);
  match paramValue with
  | None | Some JNull =>
      match index with
      | Some i => mret (delete i params)
      | None => mret params
      end
  | Some value =>
      match index with
      | Some i => mret (alter (set_value value) i params)
      | None => id ← custom_id; mret (params ++ [added_param id paramName value extra])
      end
  end.

Fixpoint apply_overrides (test : jsval → json → result bool) (extra : obj)
    (params : list json) (overrides : list json) : conv (list json) :=
  match overrides with
  | [] => mret params
  | override :: r =>
      params' ← apply_override test extra params override;
      apply_overrides test extra params' r
  end.

(** [if (step.k && Array.isArray(step.k)) for (const override of step.k)] *)
Definition override_list (k : string) (step : json) : list json :=
  match get k step with
  | Some (JArr l) => l
  | _ => []
  end.

(** The four parameter lists of [httpApiCase.parameters]. *)
Record parameters : Type := Parameters {
  query : list json;
  header : list json;
  cookie : list json;
  path : list json
}.

Definition parameters_json (p : parameters) : json :=
  JObj [("query", JArr (query p)); ("header", JArr (header p));
        ("cookie", JArr (cookie p)); ("path", JArr (path p))].

(** The four loops, in the order of the source: query, path, cookie,
    header. *)
Definition override_parameters (step : json) (p : parameters) : conv parameters :=
  q ← apply_overrides name_is [] (query p) (override_list "query_params_override" step);
  pa ← apply_overrides name_is [] (path p) (override_list "path_params_override" step);
  ck ← apply_overrides name_is [("isDelete", JFalse)] (cookie p)
          (override_list "cookie_params_override" step);
  h ← apply_overrides header_name_is [] (header p)
          (override_list "header_params_override" step);
  mret (Parameters q h ck pa).

(** [const userAgent = step.user_agent; if (userAgent) ...] *)
Definition apply_user_agent (step : json) (headers : list json) : conv (list json) :=
  match get "user_agent" step with
  | Some userAgent =>
      if truthy (Some userAgent) then
        index ← lift (findIndex (header_name_is (Some (JStr "user-agent"))) headers);
        match index with
        | Some i => mret (alter (set_value userAgent) i headers)
        | None =>
            id ← custom_id;
            mret (headers ++
                  [JObj [("id", id); ("name", JStr "User-Agent"); ("required", JFalse);
                         ("enable", JTrue); ("value", userAgent);
                         ("type", JStr "string"); ("description", JStr "")]])
        end
      else mret headers
  | None => mret headers
  end.

(** *** Form data

    [request_form_data_override]: a field that names a parameter of
    [httpApiCase.requestBody.parameters] updates it in place, the others
    are collected and pushed after the loop. *)

Definition set_form_field (fieldValue fieldEnable fieldType : json) (p : json) : json :=
  match p with
  | JObj fs =>
      JObj (obj_set "type" fieldType
              (obj_set "enable" fieldEnable (obj_set "value" fieldValue fs)))
  | _ => p
  end.

Definition form_field_schema (fieldType description : json) : json :=
  if strict_eq (Some fieldType) (Some (JStr "file")) then
    JObj [("type", JStr "string"); ("format", JStr "binary");
          ("description", description)]
  else JObj [("type", JStr "string"); ("description", description)].

(** One round: the parameters of the body and the new parameters so far. *)
Definition apply_form_field (st : list json * list json) (formField : json)
    : conv (list json * list json) :=
  let '(params, added) := st in
  fieldName ← lift (prop "name" (Some formField));
  let fieldType := js_or (get "type" formField) (JStr "string") in
  let fieldValue := js_or (get "value" formField) (JStr "") in
  let fieldEnable := if_defined (get "enable" formField) JTrue in
  index ← lift (findIndex (name_is fieldName) params);
  match index with
  | Some i => mret (alter (set_form_field fieldValue fieldEnable fieldType) i params, added)
  | None =>
      id ← custom_id;
      let description := js_or (get "description" formField) (JStr "") in
      mret (params,
            added ++
            [JObj (mk_obj [("id", Some id); ("name", fieldName);
                           ("required", Some JFalse); ("enable", Some fieldEnable);
                           ("value", Some fieldValue); ("type", Some fieldType);
                           ("description", Some description);
                           ("schema", Some (form_field_schema fieldType description))])])
  end.

Fixpoint apply_form_fields (st : list json * list json) (fields : list json)
    : conv (list json * list json) :=
  match fields with
  | [] => mret st
  | formField :: r => st' ← apply_form_field st formField; apply_form_fields st' r
  end.

(** The request body of the case under construction: [parameters], and
    the other properties ([type], [data], [jsonSchema], [generateMode]). *)
Record request_body : Type := RequestBody {
  rb_parameters : list json;
  rb_fields : obj
}.

(** [if (step.request_body_override && step.request_body_override.data)];
    [data.trim()] needs a string. *)
Definition override_body_data (step : json) (fields : obj) : result obj :=
  let o := get "request_body_override" step in
  let data := if truthy o then getv "data" o else None in
  if truthy data then
    match data with
    | Some (JStr d) =>
        Ok (obj_set "type" (js_or (getv "type" o) (JStr "application/json"))
              (obj_set "data" (JStr (trim d)) fields))
    | _ => Unsupported
    end
  else Ok fields.

(** [if (step.request_form_data_override && Array.isArray(...))] *)
Definition override_form_data (step : json) (rb : request_body) : conv request_body :=
  match get "request_form_data_override" step with
  | Some (JArr fields) =>
      '(params, added) ← apply_form_fields (rb_parameters rb, []) fields;
      mret (RequestBody (params ++ added)
              (obj_set "generateMode" (JStr "normal")
                 (obj_set "type" (JStr "multipart/form-data") (rb_fields rb))))
  | _ => mret rb
  end.

(** The printed request body: [parameters] first, as in both object
    literals of the source. *)
Definition request_body_json (rb : request_body) : json :=
  JObj (("parameters", JArr (rb_parameters rb)) :: rb_fields rb).

(** *** Http steps *)

(** [step.number || 1] and [step.name || `Step ${stepNumber}`] *)
Definition step_number (step : json) : json := js_or (get "number" step) (JNum 1).

Definition step_name (step : json) : json :=
  js_or (get "name" step) (JStr ("Step " +:+ js_String (step_number step))).

(** The lookup at the head of [convertHttpStep]: by path and method when
    the step gives a path, then by name; [None] when the step is to be
    built by [createBasicHttpStep]. *)
Definition resolve_api (c : converter) (step : json) : result (option nat) :=
  let folderPath := js_or (get "folder" step) JNull in
  let stepPath := js_or (get "path" step) JNull in
  let stepMethod := js_or (get "method" step) JNull in
  match (if truthy (Some stepPath) then findApiByMethodAndPath c stepMethod stepPath
         else None) with
  | Some ref => Ok (Some ref)
  | None =>
      found ← findApiByNameAndPath c (step_name step) stepPath folderPath;
      Ok (ref ← found; if truthy (api_of (store_get c ref)) then Some ref else None)
  end.

(** [step.disable_response_validation !== undefined
       ? step.disable_response_validation
       : (step.response_validation === false)] *)
Definition disableResponseValidation (step : json) : bool :=
  truthy (Some (if_defined (get "disable_response_validation" step)
                  (JBool (strict_eq (get "response_validation" step) (Some JFalse))))).

(** The [responseId] of a resolved step. *)
Definition response_id (step api : json) : conv json :=
  if disableResponseValidation step then mret (JNum 0)
  else
    match get "responses" api with
    | Some (JArr (first :: _)) =>
        id ← lift (prop "id" (Some first));
        n ← lift (parseInt id);
        mret (num_or_nan n)
    | Some (JStr _) | Some (JObj _) => lift Unsupported
    | _ => n ← generateId; mret (JNum n)
    end.

(** The [requestBody] of a resolved step before the overrides, and
    whether its [parameters] is the array of the API item itself. *)
Definition base_request_body (api : json) : result (request_body * bool) :=
  let body := get "requestBody" api in
  if truthy body then
    let type := js_or (getv "type" body) (JStr "none") in
    let jsonSchema := getv "jsonSchema" body in
    let fields :=
      [("type", type); ("data", js_or (getv "data" body) (JStr ""))]
      ++ (if truthy jsonSchema && strict_eq (Some type) (Some (JStr "application/json"))
          then [("jsonSchema", default JNull jsonSchema)] else [])
      ++ [("generateMode", JStr "normal")] in
    match getv "parameters" body with
    | Some (JArr l) => Ok (RequestBody l fields, true)
    | p => if truthy p then Unsupported else Ok (RequestBody [] fields, false)
    end
  else
    Ok (RequestBody []
          [("type", JStr "none"); ("data", JStr ""); ("generateMode", JStr "normal")],
        false).

(** [v.k = f(v.k)] on an object that has the property. *)
Definition update_field (k : string) (f : json → json) (v : json) : json :=
  match v with
  | JObj fs =>
      match obj_get k fs with
      | Some x => JObj (obj_set k (f x) fs)
      | None => v
      end
  | _ => v
  end.

(** The effect on the store of the changes made to
    [item.api.requestBody.parameters]. *)
Definition set_request_parameters (params : list json) (item : json) : json :=
  update_field "api"
    (update_field "requestBody" (update_field "parameters" (λ _, JArr params))) item.

Definition write_request_parameters (ref : nat) (params : list json) : conv unit :=
  λ c, Ok (tt, Converter (nextId c) (uuidCalls c)
                 (alter (set_request_parameters params) ref (apiStore c))
                 (apiDefinitions c) (apiByPath c) (testCases c) (testCasesById c)).

(** [item.api.requestBody.parameters] in the store at printing time. *)
Definition read_request_parameters (ref : nat) (store : list json) : json :=
  default (JArr [])
    (getv "parameters" (getv "requestBody" (getv "api" (store !! ref)))).

(** [httpApiCase.auth = ...] under [if (step.auth)] *)
Definition override_auth (step : json) (auth : json) : json :=
  let a := get "auth" step in
  if truthy a then
    if strict_eq (getv "type" a) (Some (JStr "bearer")) then
      JObj [("type", JStr "bearer");
            ("bearer", JObj [("token", js_or (getv "token" a) (JStr ""))])]
    else default auth a
  else auth.

Definition empty_common_parameters : json :=
  JObj [("query", JArr []); ("body", JArr []); ("header", JArr []); ("cookie", JArr [])].

(** The step wrapper returned by both builders. *)
Definition http_step (stepName stepNumber bindId httpApiCase : json) : json :=
  JObj [("name", stepName); ("number", stepNumber); ("type", JStr "http");
        ("bind", JFalse); ("disable", JFalse); ("bindType", JStr "API");
        ("bindId", bindId); ("syncMode", JStr "MANUAL");
        ("httpApiCase", httpApiCase)].

(** [createBasicHttpStep(step, parentModuleId)] *)
Definition createBasicHttpStep (step : json) (parentModuleId : json) : conv delayed :=
  let stepNumber := step_number step in
  let stepName := step_name step in
  method ← lift (match js_or (get "method" step) (JStr "get") with
                 | JStr m => Ok (JStr (toLowerCase m))
                 | _ => Unsupported
                 end);
  let path := js_or (get "path" step) (JStr "/") in
  let requestBody :=
    js_or (get "request_body_override" step)
      (JObj [("type", JStr "none"); ("data", JStr "")]) in
  responseId ←
    (if disableResponseValidation step then mret (JNum 0)
     else n ← generateId; mret (JNum n));
  id ← generateId;
  data ← lift (match get "data" requestBody with
               | Some (JStr d) => Ok (JStr (trim d))
               | d => if truthy d then Unsupported else Ok (JStr "")
               end);
  preProcessors ←
    lift (convertPreProcessors
            (js_or (get "pre_processors" step)
               (js_or (get "preProcessors" step) (JArr []))));
  postProcessors ←
    lift (mergePostProcessors
            (js_or (get "assertions" step) (JArr []))
            (js_or (get "post_processors" step)
               (js_or (get "postProcessors" step) (JArr []))));
  fields ←
    lift (override_body_data step
            [("type", js_or (get "type" requestBody) (JStr "none"));
             ("data", data); ("generateMode", JStr "normal")]);
  rb ← override_form_data step (RequestBody [] fields);
  params ← override_parameters step (Parameters [] [] [] []);
  headers ← apply_user_agent step (header params);
  mret (now
    (http_step stepName stepNumber (JNum 0)
       (JObj [("id", JNum id); ("name", stepName); ("method", method);
              ("path", path); ("auth", JObj []); ("type", JStr "http");
              ("options", JObj []);
              ("parameters",
               parameters_json
                 (Parameters (query params) headers (cookie params) (ApidogConverter.path params)));
              ("responseId", responseId);
              ("requestBody", request_body_json rb);
              ("preProcessors", JArr preProcessors);
              ("postProcessors", JArr postProcessors);
              ("advancedSettings",
               JObj [("disabledSystemHeaders", JObj []);
                     ("isDefaultUrlEncoding", JNum 1)]);
              ("commonParameters", empty_common_parameters);
              ("inheritPreProcessors", JObj []);
              ("inheritPostProcessors", JObj []);
              ("inheritPreProcessorsSnapshot", JArr []);
              ("inheritPostProcessorsSnapshot", JArr []);
              ("moduleId", parentModuleId)]))).

(** The declared parameters of an API, [JSON.parse(JSON.stringify(
    api.parameters?.k || []))]: a copy that shares nothing with the item.
    A copy of a value of the store is the value itself. *)
Definition declared (api : json) (k : string) : result (list json) :=
  let v := getv k (get "parameters" api) in
  if truthy v then
    match v with
    | Some (JArr l) => Ok l
    | _ => Unsupported
    end
  else Ok [].

(** [convertHttpStep(step, parentModuleId = 936828)] *)
Definition convertHttpStep (step : json) (parentModuleId : json) : conv delayed :=
  c ← this;
  resolved ← lift (resolve_api c step);
  match resolved with
  | None => createBasicHttpStep step parentModuleId
  | Some ref =>
      let api := default JNull (api_of (store_get c ref)) in
      let stepNumber := step_number step in
      let stepName := step_name step in
      responseId ← response_id step api;
      '(rb0, shared) ← lift (base_request_body api);
      id ← generateId;
      q ← lift (declared api "query");
      h ← lift (declared api "header");
      ck ← lift (declared api "cookie");
      pa ← lift (declared api "path");
      preProcessors ←
        lift (convertPreProcessors
                (js_or (get "pre_processors" step)
                   (js_or (get "preProcessors" step) (JArr []))));
      postProcessors ←
        lift (mergePostProcessors
                (js_or (get "assertions" step) (JArr []))
                (js_or (get "post_processors" step)
                   (js_or (get "postProcessors" step) (JArr []))));
      apiId ← lift (if truthy (get "id" api) then parseInt (get "id" api) else Ok None);
      fields ← lift (override_body_data step (rb_fields rb0));
      rb ← override_form_data step (RequestBody (rb_parameters rb0) fields);
      _ ← (if shared : bool then write_request_parameters ref (rb_parameters rb)
           else mret tt);
      params ← override_parameters step (Parameters q h ck pa);
      let auth := override_auth step (js_or (get "auth" api) (JObj [])) in
      headers ← apply_user_agent step (header params);
      mret (λ store,
        http_step stepName stepNumber
          (if truthy (get "id" api) then num_or_nan apiId else JNum 0)
          (JObj (mk_obj
             [("id", Some (JNum id)); ("name", Some stepName);
              ("method", Some (js_or (get "method" api) (JStr "get")));
              ("path", Some (js_or (get "path" api) (JStr "/")));
              ("auth", Some auth); ("type", Some (JStr "http"));
              ("options", Some (JObj []));
              ("parameters",
               Some (parameters_json
                       (Parameters (query params) headers (cookie params)
                          (ApidogConverter.path params))));
              ("responseId", Some responseId);
              ("requestBody",
               Some (JObj (("parameters",
                            if shared : bool then read_request_parameters ref store
                            else JArr (rb_parameters rb))
                           :: rb_fields rb)));
              ("preProcessors", Some (JArr preProcessors));
              ("postProcessors", Some (JArr postProcessors));
              ("advancedSettings",
               Some (JObj [("disabledSystemHeaders", JObj []);
                           ("isDefaultUrlEncoding", JNum 1);
                           ("disableUrlEncoding", JFalse)]));
              ("commonParameters", Some empty_common_parameters);
              ("inheritPreProcessors", Some (JObj []));
              ("inheritPostProcessors", Some (JObj []));
              ("inheritPreProcessorsSnapshot", Some (JArr []));
              ("inheritPostProcessorsSnapshot", Some (JArr []));
              ("moduleId", Some parentModuleId);
              ("apiId",
               if truthy (get "id" api) then Some (num_or_nan apiId) else None)])))
  end.

(** The default value of [parentModuleId]. *)
Definition default_module : json := JNum 936828.

(** *** Link steps *)

(** The first property [k] of a property list, passed to [present]; the
    recursion of the step converters goes through it. *)
Definition with_field {A : Type} (k : string) (absent : A) (present : json → A)
    : obj → A :=
  fix go (fs : obj) : A :=
    match fs with
    | [] => absent
    | (k', v) :: r => if String.eqb k k' then present v else go r
    end.

(** [for (const x of l) { const found = f(x); if (found) return found; }
    return null;] *)
Definition first_found (f : json → result (option json)) : list json → result (option json) :=
  fix go (l : list json) : result (option json) :=
    match l with
    | [] => Ok None
    | x :: r =>
        found ← f x;
        match found with
        | Some s => Ok (Some s)
        | None => go r
        end
    end.

(** One round of the loop of [findStepByNumber]: the step itself, then
    its [children] when they are an array. *)
Fixpoint findStepIn (targetNumber : json) (step : json) : result (option json) :=
  match step with
  | JNull => TypeError
  | JObj fs =>
      if strict_eq (obj_get "number" fs) (Some targetNumber) then Ok (Some step)
      else
        with_field "children" (Ok None)
          (λ children,
             match children with
             | JArr l => first_found (findStepIn targetNumber) l
             | _ => Ok None
             end)
          fs
  | _ => Ok None
  end.

(** [findStepByNumber(steps, targetNumber)] *)
Definition findStepByNumber (steps : jsval) (targetNumber : json) : result (option json) :=
  match steps with
  | Some (JArr l) => first_found (findStepIn targetNumber) l
  | _ => Ok None
  end.

(** One round of the loop of [collectAllStepNumbers]: the number of the
    step when it is neither [undefined] nor [null], then the numbers of
    its [children] when they are an array. *)
Fixpoint collectNumbersIn (step : json) : result (list json) :=
  match step with
  | JNull => TypeError
  | JObj fs =>
      let own :=
        match obj_get "number" fs with
        | None | Some JNull => []
        | Some number => [number]
        end in
      nested ←
        with_field "children" (Ok [])
          (λ children,
             match children with
             | JArr l => flat_mapM Ok result_bind collectNumbersIn l
             | _ => Ok []
             end)
          fs;
      Ok (own ++ nested)
  | _ => Ok []
  end.

(** [collectAllStepNumbers(steps)] *)
Definition collectAllStepNumbers (steps : jsval) : result (list json) :=
  match steps with
  | Some (JArr l) => flat_mapM Ok result_bind collectNumbersIn l
  | _ => Ok []
  end.

(** [o.a.b.c], raising where a property of [null] or [undefined] is
    read. *)
Fixpoint read_path (ks : list string) (v : jsval) : result jsval :=
  match ks with
  | [] => Ok v
  | k :: r => x ← prop k v; read_path r x
  end.

(** [o.a.b.c = x] on objects that are all there. *)
Fixpoint write_path (ks : list string) (x : json) (v : json) : json :=
  match ks with
  | [] => x
  | k :: r =>
      match v with
      | JObj fs => JObj (obj_set k (write_path r x (default JNull (obj_get k fs))) fs)
      | _ => v
      end
  end.

(** The query overrides of a link step on a copied [http] step. *)
Definition link_http_overrides (overrides : list json) (copiedStep : json) : conv json :=
  match overrides with
  | [] => mret copiedStep
  | _ =>
      q ← lift (read_path ["httpApiCase"; "parameters"; "query"] (Some copiedStep));
      match q with
      | Some (JArr l) =>
          l' ← apply_overrides name_is [] l overrides;
          mret (write_path ["httpApiCase"; "parameters"; "query"] (JArr l') copiedStep)
      | None | Some JNull => lift TypeError
      | _ => lift Unsupported
      end
  end.

(** The same on a copied [customHttp] step: the parameters carry a
    [sampleValue] next to the [value]. *)
Definition set_custom_value (paramValue : json) (p : json) : json :=
  match p with
  | JObj fs =>
      JObj (obj_set "sampleValue" paramValue
              (obj_set "enable" JTrue (obj_set "value" paramValue fs)))
  | _ => p
  end.

Definition apply_custom_override (params : list json) (override : json)
    : result (list json) :=
  paramName ← prop "name" (Some override);
  paramValue ← prop "value" (Some override);
  index ← findIndex (name_is paramName) params;
  match paramValue with
  | None | Some JNull =>
      match index with
      | Some i => Ok (delete i params)
      | None => Ok params
      end
  | Some value =>
      match index with
      | Some i => Ok (alter (set_custom_value value) i params)
      | None =>
          Ok (params ++
              [JObj (mk_obj [("name", paramName); ("value", Some value);
                             ("sampleValue", Some value); ("enable", Some JTrue)])])
      end
  end.

Fixpoint apply_custom_overrides (params : list json) (overrides : list json)
    : result (list json) :=
  match overrides with
  | [] => Ok params
  | override :: r =>
      params' ← apply_custom_override params override;
      apply_custom_overrides params' r
  end.

(** [if (p && hasOwnProperty(p, 'value')) p.sampleValue = p.value] *)
Definition sync_sample_value (p : json) : json :=
  match p with
  | JObj fs =>
      match obj_get "value" fs with
      | Some v => JObj (obj_set "sampleValue" v fs)
      | None => p
      end
  | _ => p
  end.

Definition link_custom_overrides (overrides : list json) (copiedStep : json)
    : result json :=
  let request := default JNull (get "customHttpRequest" copiedStep) in
  parameters ←
    (let ps := get "parameters" request in
     if truthy ps then
       match ps with
       | Some (JObj fs) => Ok fs
       | _ => Unsupported
       end
     else Ok [("query", JArr []); ("header", JArr []); ("cookie", JArr []);
              ("path", JArr [])]);
  let q := match obj_get "query" parameters with
           | Some (JArr l) => l
           | _ => []
           end in
  q' ← apply_custom_overrides q overrides;
  match request with
  | JObj _ =>
      Ok (write_path ["customHttpRequest"; "parameters"]
            (JObj (obj_set "query" (JArr (sync_sample_value <$> q')) parameters))
            copiedStep)
  | _ => Unsupported
  end.

(** [step.query_params_override && Array.isArray(step.query_params_override)] *)
Definition has_query_overrides (step : json) : option (list json) :=
  match get "query_params_override" step with
  | Some (JArr l) => Some l
  | _ => None
  end.

(** [const linkStepNumber = step.link_step || step.link_step_number] *)
Definition linkStepNumber (step : json) : jsval :=
  if truthy (get "link_step" step) then get "link_step" step
  else get "link_step_number" step.

(** [convertLinkedSteps(step)] *)
Definition convertLinkedSteps (step : json) : conv (list json) :=
  let linkTo := get "link_to" step in
  if negb (truthy linkTo) then mret []
  else
    c ← this;
    match testCases c with
    | None => lift TypeError
    | Some cases =>
        let testCase := map_get (default JNull linkTo) cases in
        if negb (truthy testCase) then mret []
        else
          match linkStepNumber step with
          | None | Some JNull =>
              (* copy all the steps *)
              match getv "steps" testCase with
              | Some (JArr l) => mret l
              | None | Some JNull => lift TypeError
              | _ => lift Unsupported
              end
          | Some number =>
              linkedStep ← lift (findStepByNumber (getv "steps" testCase) number);
              match linkedStep with
              | None => mret []
              | Some (JObj fs) =>
                  let copiedStep :=
                    JObj (obj_set "number"
                            (js_or (get "number" step) (default number (obj_get "number" fs)))
                            fs) in
                  let type := get "type" copiedStep in
                  copiedStep ←
                    (match has_query_overrides step with
                     | Some overrides =>
                         if strict_eq type (Some (JStr "http"))
                            && truthy (get "httpApiCase" copiedStep)
                         then link_http_overrides overrides copiedStep
                         else if strict_eq type (Some (JStr "customHttp"))
                                 && truthy (get "customHttpRequest" copiedStep)
                         then lift (link_custom_overrides overrides copiedStep)
                         else mret copiedStep
                     | None => mret copiedStep
                     end);
                  mret [copiedStep]
              | Some _ => lift Unsupported
              end
          end
    end.

(** [for (const x of l) s = f(x, s)] *)
Definition foldM {A S : Type} (f : A → S → result S) : list A → S → result S :=
  fix go (l : list A) (s : S) : result S :=
    match l with
    | [] => Ok s
    | x :: r => s' ← f x s; go r s'
    end.

(** *** The test case index *)

(** [map.set(k, v)] keeps the place of a key that is there already. *)
Fixpoint map_set (k v : json) (m : list (json * json)) : list (json * json) :=
  match m with
  | [] => [(k, v)]
  | (k', v') :: r =>
      if strict_eq (Some k) (Some k') then (k, v) :: r else (k', v') :: map_set k v r
  end.

(** The two maps [testCases] and [testCasesById]. *)
Definition test_case_maps : Type := list (json * json) * list (json * json).

(** The body of the inner loop of [indexTestCases]. *)
Definition index_test_case (item : json) (maps : test_case_maps) : result test_case_maps :=
  name ← prop "name" (Some item);
  if truthy name && truthy (get "steps" item) then
    Ok (map_set (default JNull name) item maps.1,
        if truthy (get "id" item)
        then map_set (default JNull (get "id" item)) item maps.2
        else maps.2)
  else Ok maps.

(** The body of the outer loop of [indexTestCases].  A loop over a string
    runs over its characters, which have no [name], [items] or
    [children]: it changes nothing.  Any other value that is not an
    array cannot be run over. *)
Fixpoint indexTestCasesIn (collection : json) (maps : test_case_maps)
    : result test_case_maps :=
  match collection with
  | JNull => TypeError
  | JObj fs =>
      maps ← match obj_get "items" fs with
             | Some (JArr items) => foldM index_test_case items maps
             | Some (JStr _) => Ok maps
             | items => if truthy items then TypeError else Ok maps
             end;
      with_field "children" (Ok maps)
        (λ children,
           match children with
           | JArr l => foldM indexTestCasesIn l maps
           | JStr _ => Ok maps
           | _ => if truthy (Some children) then TypeError else Ok maps
           end) fs
  | _ => Ok maps
  end.

(** [indexTestCases(collections)] *)
Definition indexTestCases (collections : json) (maps : test_case_maps)
    : result test_case_maps :=
  match collections with
  | JArr l => foldM indexTestCasesIn l maps
  | JStr _ => Ok maps
  | _ => TypeError
  end.

(** *** The API index *)

(** [`${v}`] *)
Definition template (v : jsval) : string :=
  match v with
  | Some x => js_String x
  | None => "undefined"
  end.

(** [map.set(k, v)] on a [Map] with string keys. *)
Fixpoint alist_set {A : Type} (k : string) (v : A) (l : list (string * A))
    : list (string * A) :=
  match l with
  | [] => [(k, v)]
  | (k', v') :: r => if String.eqb k k' then (k, v) :: r else (k', v') :: alist_set k v r
  end.

(** [findPathForItem(searchItem)]: the items are compared as references,
    here as positions in the store. *)
Definition findPathForItem (c : converter) (searchItem : nat) : string :=
  match List.find (λ entry : string * nat, Nat.eqb entry.2 searchItem) (apiByPath c) with
  | Some entry => entry.1
  | None => "Unknown"
  end.

(** The body of the inner loop of [indexApiCollection] for an item with a
    name and an [api]: the item is a new object of the store. *)
Definition index_api (currentPath : jsval) (item : json) : converter → result converter :=
  λ c,
    name ← string_key (default JNull (get "name" item));
    let fullPath := template currentPath +:+ "/" +:+ name in
    let ref := length (apiStore c) in
    let byPath := alist_set fullPath ref (apiByPath c) in
    let c1 := Converter (nextId c) (uuidCalls c) (apiStore c ++ [item])
                (apiDefinitions c) byPath (testCases c) (testCasesById c) in
    let entry :=
      match alist_get name (apiDefinitions c) with
      | Some (ManyApis entries) => ManyApis (entries ++ [(ref, fullPath)])
      | Some (OneApi existing) =>
          if truthy (store_get c existing)
          then ManyApis [(existing, findPathForItem c1 existing); (ref, fullPath)]
          else OneApi ref
      | None => OneApi ref
      end in
    Ok (Converter (nextId c) (uuidCalls c) (apiStore c ++ [item])
          (alist_set name entry (apiDefinitions c)) byPath
          (testCases c) (testCasesById c)).

(** [parentPath ? `${parentPath}/${collection.name}` : collection.name] *)
Definition current_path (parentPath : jsval) (name : jsval) : jsval :=
  if truthy parentPath
  then Some (JStr (template parentPath +:+ "/" +:+ template name))
  else name.

(** The body of the outer loop of [indexApiCollection], for one
    collection below [parentPath].  As in [indexTestCasesIn], a loop over
    a string changes nothing. *)
Fixpoint indexApiCollectionIn (parentPath : jsval) (collection : json) (c : converter)
    : result converter :=
  match collection with
  | JNull => TypeError
  | JObj fs =>
      let currentPath := current_path parentPath (obj_get "name" fs) in
      c ← with_field "items" (Ok c)
            (λ items,
               match items with
               | JArr l =>
                   foldM (λ item c,
                            name ← prop "name" (Some item);
                            if truthy name && truthy (get "api" item)
                            then index_api currentPath item c
                            else if truthy (get "items" item)
                                 then indexApiCollectionIn currentPath item c
                                 else Ok c) l c
               | JStr _ => Ok c
               | _ => if truthy (Some items) then TypeError else Ok c
               end) fs;
      with_field "children" (Ok c)
        (λ children,
           match children with
           | JArr l => foldM (indexApiCollectionIn currentPath) l c
           | JStr _ => Ok c
           | _ => if truthy (Some children) then TypeError else Ok c
           end) fs
  | _ => Ok c
  end.

(** [indexApiCollection(collections, parentPath = '')] *)
Definition indexApiCollection (collections : json) (parentPath : jsval) (c : converter)
    : result converter :=
  match collections with
  | JArr l => foldM (indexApiCollectionIn parentPath) l c
  | JStr _ => Ok c
  | _ => TypeError
  end.

(** [loadSourceApidog(filePath)] from the point where the file has been
    read and parsed to [sourceApidog]. *)
Definition indexSourceApidog (sourceApidog : json) (c : converter) : result converter :=
  apiCollection ← prop "apiCollection" (Some sourceApidog);
  c ← (if truthy apiCollection
       then indexApiCollection (default JNull apiCollection) (Some (JStr "")) c
       else Ok c);
  let testCaseCollection := get "apiTestCaseCollection" sourceApidog in
  maps ← (if truthy testCaseCollection
          then indexTestCases (default JNull testCaseCollection) ([], [])
          else Ok ([], []));
  Ok (Converter (nextId c) (uuidCalls c) (apiStore c) (apiDefinitions c) (apiByPath c)
        (Some maps.1) (Some maps.2)).

(** *** The other step kinds

    [crypto.randomUUID()] is taken from the environment: the class counts
    its calls and [randomUUID n] is the result of the call number [n].
    [loadSourceApidog] reads and indexes the source file; the file system
    is not modelled, and the loader is a function from the converter
    before the call to the converter after it. *)

Section Environment.

Variable randomUUID : nat → string.
Variable loadSourceApidog : json → converter → result converter.

Definition fresh_uuid : conv json :=
  λ c, Ok (JStr (randomUUID (uuidCalls c)),
           Converter (nextId c) (S (uuidCalls c)) (apiStore c) (apiDefinitions c)
             (apiByPath c) (testCases c) (testCasesById c)).

(** A lookup in one of the two test-case maps. *)
Definition lookup_test_case (index : option (list (json * json))) (key : json)
    : result jsval :=
  match index with
  | None => TypeError
  | Some cases => Ok (map_get key cases)
  end.

(** [convertTestCaseRefStep(step)] *)
Definition convertTestCaseRefStep (step : json) : conv json :=
  let stepNumber := step_number step in
  let stepName := step_name step in
  let refName :=
    if truthy (get "ref_name" step) then get "ref_name" step
    else if truthy (get "refName" step) then get "refName" step
    else get "name" step in
  let refId :=
    if truthy (get "ref_id" step) then get "ref_id" step else get "refId" step in
  c ← this;
  '(relatedId, testCaseName) ←
    lift (if truthy refId then
            testCase ← lookup_test_case (testCasesById c) (default JNull refId);
            if truthy testCase then
              n ← parseInt (getv "id" testCase);
              Ok (n, js_or (getv "name" testCase) stepName)
            else Ok (None, stepName)
          else if truthy refName then
            testCase ← lookup_test_case (testCases c) (default JNull refName);
            if truthy testCase then
              n ← parseInt (getv "id" testCase);
              Ok (n, js_or (getv "name" testCase) (default JNull refName))
            else Ok (None, stepName)
          else Ok (None, stepName));
  relatedId ←
    (match relatedId with
     | Some n => if n =? 0 then generateId else mret n
     | None => generateId
     end);
  id ← fresh_uuid;
  mret (JObj [("id", id); ("type", JStr "testCaseRef");
              ("disable", if_defined (get "disable" step) JFalse);
              ("parameters", js_or (get "parameters" step) (JObj []));
              ("relatedId", JNum relatedId);
              ("name", testCaseName);
              ("number", stepNumber)]).

(** [String(this.generateId())] *)
Definition string_id : conv json := n ← generateId; mret (JStr (pretty n)).

(** [convertDelayStep(step)] *)
Definition convertDelayStep (step : json) : conv json :=
  let stepNumber := step_number step in
  let timeout := js_or (get "timeout" step) (js_or (get "duration" step) (JNum 1000)) in
  id ← string_id;
  mret (JObj [("id", id); ("type", JStr "delay"); ("disable", JFalse);
              ("parameters", JObj [("timeout", timeout)]);
              ("number", stepNumber)]).

(** [convertScriptStep(step)] *)
Definition convertScriptStep (step : json) : conv json :=
  let stepNumber := step_number step in
  let stepName := js_or (get "name" step) (JStr "") in
  normalizedScript ←
    lift (match js_or (get "data" step) (JStr "") with
          | JStr scriptData => Ok (to_crlf scriptData)
          | _ => Unsupported
          end);
  id ← string_id;
  mret (JObj [("id", id); ("type", JStr "script");
              ("disable", if_defined (get "disable" step) JFalse);
              ("parameters",
               JObj [("data", JStr normalizedScript); ("type", JStr "customScript");
                     ("defaultEnable", default_enable_of step JTrue);
                     ("enable", enable_of step)]);
              ("name", stepName);
              ("number", stepNumber)]).

(** [invertOperator(op)]: [map[op] || 'notEqual'].  The table is an object
    literal, so a name inherited from [Object.prototype] is found as well:
    eleven of them are functions, which [JSON.stringify] leaves out of the
    printed condition ([None]), and [__proto__] is the prototype itself,
    printed as an empty object. *)
Definition operator_table : list (string * string) :=
  [("equal", "notEqual"); ("not_equal", "equal"); ("notEqual", "equal");
   ("greater", "lessOrEqual"); ("less", "greaterOrEqual");
   ("greaterOrEqual", "less"); ("lessOrEqual", "greater");
   ("contains", "notContains"); ("notContains", "contains");
   ("exists", "notExists"); ("notExists", "exists")].

Definition inherited_functions : list string :=
  ["constructor"; "__defineGetter__"; "__defineSetter__"; "hasOwnProperty";
   "__lookupGetter__"; "__lookupSetter__"; "isPrototypeOf";
   "propertyIsEnumerable"; "toString"; "valueOf"; "toLocaleString"].

Definition invertOperator (op : json) : jsval :=
  let key := js_String op in
  match alist_get key operator_table with
  | Some inverse => Some (JStr inverse)
  | None =>
      if existsb (String.eqb key) inherited_functions then None
      else if String.eqb key "__proto__" then Some (JObj [])
      else Some (JStr "notEqual")
  end.

(** The [parameters] of an [if] node, from [step.parameters] or from the
    older [step.condition]. *)
Definition if_parameters (step : json) : obj :=
  let new := get "parameters" step in
  if truthy new then
    [("keyVariable", js_or (getv "keyVariable" new) (JStr ""));
     ("operator", js_or (getv "operator" new) (JStr "equal"));
     ("valueVariable", JStr (js_String (js_or (getv "valueVariable" new) (JStr ""))))]
  else
    let condition := Some (js_or (get "condition" step) (JObj [])) in
    [("keyVariable", js_or (getv "variable" condition) (JStr ""));
     ("operator", js_or (getv "operator" condition) (JStr "equal"));
     ("valueVariable", JStr (js_String (js_or (getv "value" condition) (JStr ""))))].

(** [child.number || (stepNumber + 1)] *)
Definition else_number (child stepNumber : json) : result json :=
  if truthy (get "number" child) then Ok (default JNull (get "number" child))
  else match stepNumber with
       | JNum n => Ok (JNum (n + 1))
       | JStr s => Ok (JStr (s +:+ "1"))
       | _ => Unsupported
       end.

Definition is_type (childType : json) (name : string) : bool :=
  strict_eq (Some childType) (Some (JStr name)).

(** The chain of tests on [childType] that the loops over children share:
    http, if, testCaseRef, delay, link, script.  Another type adds
    nothing. *)
Definition convert_child (convertIfStep : json → conv delayed) (child : json)
    : conv (list delayed) :=
  type ← lift (prop "type" (Some child));
  let childType := js_or type (JStr "http") in
  if is_type childType "http" then
    d ← convertHttpStep child default_module; mret [d]
  else if is_type childType "if" then
    d ← convertIfStep child; mret [d]
  else if is_type childType "testCaseRef" || is_type childType "test_case_ref" then
    v ← convertTestCaseRefStep child; mret [now v]
  else if is_type childType "delay" || is_type childType "wait" then
    v ← convertDelayStep child; mret [now v]
  else if is_type childType "link" then
    l ← convertLinkedSteps child; mret (now <$> l)
  else if is_type childType "script" then
    v ← convertScriptStep child; mret [now v]
  else mret [].

(** [if (v) for (const child of v)] on the [children] of a step. *)
Definition children_of (f : list json → conv (list delayed)) (children : json)
    : conv (list delayed) :=
  if truthy (Some children) then
    match children with
    | JArr l => f l
    | _ => lift Unsupported
    end
  else mret [].

Definition print_all (ds : list delayed) : delayed := λ store, JArr ((λ d, d store) <$> ds).

(** The [if] node that stands for an [else] child. *)
Definition else_node (id : json) (parameters : obj) (children : list delayed)
    (number : json) : delayed :=
  λ store,
    JObj [("id", id); ("type", JStr "if"); ("disable", JFalse);
          ("parameters",
           JObj (mk_obj
             [("keyVariable", obj_get "keyVariable" parameters);
              ("operator", invertOperator (default JNull (obj_get "operator" parameters)));
              ("valueVariable", obj_get "valueVariable" parameters)]));
          ("children", print_all children store);
          ("isOpen", JTrue);
          ("number", number)].

(** The children of a step, converted by [f]: nothing when the step has
    no [children]. *)
Definition converted_children (f : json → conv (list delayed)) (step : json)
    : conv (list delayed) :=
  match step with
  | JObj fs => with_field "children" (mret []) (children_of (conv_flat_mapM f)) fs
  | _ => mret []
  end.

(** One round of the loop over the children of an [if] step: an [else]
    child becomes an [if] node on the inverted condition. *)
Definition convert_if_child (convertIfStep : json → conv delayed) (parameters : obj)
    (stepNumber : json) (child : json) : conv (list delayed) :=
  type ← lift (prop "type" (Some child));
  if is_type (js_or type (JStr "http")) "else" then
    elseChildren ← converted_children (convert_child convertIfStep) child;
    id ← string_id;
    number ← lift (else_number child stepNumber);
    mret [else_node id parameters elseChildren number]
  else convert_child convertIfStep child.

(** [convertIfStep(step)] *)
Fixpoint convertIfStep (step : json) : conv delayed :=
  let stepNumber := step_number step in
  let parameters := if_parameters step in
  children ←
    converted_children (convert_if_child convertIfStep parameters stepNumber) step;
  id ← string_id;
  mret (λ store,
    JObj [("id", id); ("type", JStr "if"); ("disable", JFalse);
          ("parameters", JObj parameters);
          ("children", print_all children store);
          ("isOpen", JTrue);
          ("number", stepNumber)]).

(** [convertElseStep(step)], for an [else] at the top level. *)
Definition convertElseStep (step : json) : conv delayed :=
  let stepNumber := step_number step in
  children ←
    (match get "children" step with
     | Some (JArr l) => conv_flat_mapM (convert_child convertIfStep) l
     | _ => mret []
     end);
  id ← string_id;
  mret (λ store,
    JObj [("id", id); ("type", JStr "else"); ("disable", JFalse);
          ("parameters", JObj []); ("isOpen", JTrue);
          ("children", print_all children store);
          ("number", stepNumber)]).

(** *** Datasets and the whole scenario *)

(** [(dataset.data || '').trim() + '\n'] *)
Definition dataset_payload (dataset : json) : result json :=
  match js_or (get "data" dataset) (JStr "") with
  | JStr d => Ok (JStr (trim d +:+ String LF ""))
  | _ => Unsupported
  end.

(** [convertDataset(dataset, testCaseId, datasetIndex)] *)
Definition convertDataset (testCaseId : Z) (datasetIndex : nat) (dataset : json)
    : conv json :=
  id ← lift (prop "id" (Some dataset));
  datasetId ← (if truthy id then mret (default JNull id)
               else n ← generateId; mret (JNum n));
  dataListId ← (if truthy (get "data_list_id" dataset)
                then mret (default JNull (get "data_list_id" dataset))
                else n ← generateId; mret (JNum n));
  data ← lift (dataset_payload dataset);
  mret (JObj [("id", datasetId);
              ("name",
               js_or (get "name" dataset)
                 (JStr ("Data " +:+ pretty (Z.of_nat datasetIndex + 1))));
              ("relatedId", JNum testCaseId);
              ("apiTestDataList",
               JArr [JObj [("id", dataListId); ("data", data);
                           ("dataSetId", datasetId); ("relatedId", JNum testCaseId);
                           ("relatedType", JNum 0); ("environmentId", JNum 0)]])]).

Fixpoint convertDatasets (testCaseId : Z) (idx : nat) (datasets : list json)
    : conv (list json) :=
  match datasets with
  | [] => mret []
  | dataset :: r =>
      d ← convertDataset testCaseId idx dataset;
      ds ← convertDatasets testCaseId (S idx) r;
      mret (d :: ds)
  end.

(** One round of the loop over [yamlData.steps]. *)
Definition convert_step (step : json) : conv (list delayed) :=
  type ← lift (prop "type" (Some step));
  if is_type (js_or type (JStr "http")) "else" then
    d ← convertElseStep step; mret [d]
  else convert_child convertIfStep step.

(** The [options] of the test case; [useDataSetId] is the [id] of the
    first converted dataset when there is one. *)
Definition convert_options (yamlData : json) (useDataSetId : json) : json :=
  let optionsYaml := Some (js_or (get "options" yamlData) (JObj [])) in
  JObj [("environmentId", js_or (getv "environment_id" optionsYaml) (JNum 0));
        ("useDataSetId", useDataSetId);
        ("iterationCount", js_or (getv "iteration_count" optionsYaml) (JNum 1));
        ("threadCount", js_or (getv "thread_count" optionsYaml) (JNum 1));
        ("runnerId", JNum 0);
        ("onError", js_or (getv "on_error" optionsYaml) (JStr "ignore"));
        ("delayItem", js_or (getv "delay_item" optionsYaml) (JNum 0));
        ("saveReportDetail", js_or (getv "save_report_detail" optionsYaml) (JStr "all"));
        ("saveVariables", JTrue);
        ("readGlobalCookie", JFalse);
        ("saveGlobalCookie", JFalse)].

(** [convert(yamlData)]: the test case as [main] prints it. *)
Definition convert (yamlData : json) : conv json :=
  source ← lift (prop "source_apidog" (Some yamlData));
  _ ← (if truthy source
       then (λ c, c' ← loadSourceApidog (default JNull source) c; Ok (tt, c'))
       else mret tt);
  testCaseId ← generateId;
  steps ← (let steps := get "steps" yamlData in
           if truthy steps then
             l ← lift (elements (default JNull steps));
             conv_flat_mapM convert_step l
           else mret []);
  datasets ← (match js_or (get "datasets" yamlData) (JArr []) with
              | JArr l => convertDatasets testCaseId 0 l
              | JNum _ | JBool _ => mret []
              | _ => lift Unsupported
              end);
  let useDataSetId :=
    match datasets with
    | first :: _ => default (JNum 0) (get "id" first)
    | [] => JNum 0
    end in
  c ← this;
  mret (JObj
    ([("steps", print_all steps (apiStore c));
      ("id", JNum testCaseId);
      ("name", js_or (get "name" yamlData) (JStr "Test Scenario"));
      ("tags", js_or (get "tags" yamlData) (JArr []));
      ("options", convert_options yamlData useDataSetId);
      ("priority", js_or (get "priority" yamlData) (JNum 2));
      ("ordering", JNum 10);
      ("description", js_or (get "description" yamlData) (JStr ""));
      ("preProcessors", JArr []);
      ("postProcessors", JArr []);
      ("children", JArr []);
      ("performanceTestOptions", JObj []);
      ("apiTestDataSets", JArr datasets)]
     ++ (if truthy (get "folder" yamlData)
         then [("_folder", default JNull (get "folder" yamlData))] else []))).

End Environment.

End ApidogConverter.

(** ** The reverse converter, [class ApidogReverseConverter] *)

Module ApidogReverseConverter.

(** [this.testCases]: the [Map] from the id of a test case of the source
    file to the test case.  The constructor starts it empty. *)
Definition index : Type := list (json * json).

(** [map.set(k, v)] keeps the place of a key that is there already. *)
Fixpoint map_set (k v : json) (m : index) : index :=
  match m with
  | [] => [(k, v)]
  | (k', v') :: r =>
      if strict_eq (Some k) (Some k') then (k, v) :: r else (k', v') :: map_set k v r
  end.

(** The body of the inner loop of [indexTestCases], on the two maps
    [testCases] and [testCasesByName]. *)
Definition index_test_case (item : json) (maps : index * index) : result (index * index) :=
  id ← prop "id" (Some item);
  Ok (if truthy id then map_set (default JNull id) item maps.1 else maps.1,
      if truthy (get "name" item)
      then map_set (default JNull (get "name" item)) item maps.2
      else maps.2).

(** The body of its outer loop.  A loop over a string runs over its
    characters, which have no [id], [name], [items] or [children]: it
    changes nothing.  Any other value that is not an array cannot be run
    over. *)
Fixpoint indexTestCasesIn (collection : json) (maps : index * index)
    : result (index * index) :=
  match collection with
  | JNull => TypeError
  | JObj fs =>
      maps ← match obj_get "items" fs with
             | Some (JArr items) => ApidogConverter.foldM index_test_case items maps
             | Some (JStr _) => Ok maps
             | items => if truthy items then TypeError else Ok maps
             end;
      ApidogConverter.with_field "children" (Ok maps)
        (λ children,
           match children with
           | JArr l => ApidogConverter.foldM indexTestCasesIn l maps
           | JStr _ => Ok maps
           | _ => if truthy (Some children) then TypeError else Ok maps
           end) fs
  | _ => Ok maps
  end.

(** [indexTestCases(collections)] *)
Definition indexTestCases (collections : json) (maps : index * index)
    : result (index * index) :=
  match collections with
  | JArr l => ApidogConverter.foldM indexTestCasesIn l maps
  | JStr _ => Ok maps
  | _ => TypeError
  end.

(** The two flags of a converted processor and its [data]. *)
Definition converted_processor (processor : json) : json :=
  let type := get "type" processor in
  JObj [("type", js_or type (JStr "unknown"));
        ("enable", if_defined (get "enable" processor) JTrue);
        ("default_enable", if_defined (get "defaultEnable" processor) JFalse);
        ("data",
         match strict_eq type (Some (JStr "customScript")), get "data" processor with
         | true, Some (JStr d) => JStr (to_lf d)
         | _, d => js_or d (JObj [])
         end)].

(** The elements of a processor list that is truthy and not empty. *)
Definition processors (v : jsval) : result (list json) :=
  if truthy v then
    match v with
    | Some (JArr l) => Ok l
    | _ => Unsupported
    end
  else Ok [].

(** [for (const x of l) { const y = f(x); if (y) out.push(y); }]; [f]
    gives [None] where the loop body goes to the next element. *)
Definition filter_mapM {A B : Type} (f : A → result (option B)) : list A → result (list B) :=
  fix go (l : list A) : result (list B) :=
    match l with
    | [] => Ok []
    | x :: r =>
        y ← f x;
        ys ← go r;
        Ok (match y with Some b => b :: ys | None => ys end)
    end.

(** [convertPostProcessorsToAssertions(postProcessors)] *)
Definition assertion_of (processor : json) : result (option json) :=
  type ← prop "type" (Some processor);
  let data := get "data" processor in
  if strict_eq type (Some (JStr "assertion")) && truthy data then
    Ok (Some (JObj
      [("name", js_or (getv "name" data) (JStr ""));
       ("subject", js_or (getv "subject" data) (JStr "responseJson"));
       ("comparison", js_or (getv "comparison" data) (JStr "equal"));
       ("value", js_or (getv "value" data) (JStr ""));
       ("path",
        js_or (getv "path" data)
          (js_or (let settings := getv "extractSettings" data in
                  match settings with
                  | None | Some JNull => None
                  | _ => getv "expression" settings
                  end)
             (JStr "")))]))
  else Ok None.

Definition convertPostProcessorsToAssertions (postProcessors : jsval)
    : result (list json) :=
  l ← processors postProcessors; filter_mapM assertion_of l.

(** [convertPostProcessors(postProcessors)] *)
Definition convertPostProcessors (postProcessors : jsval) : result (list json) :=
  l ← processors postProcessors;
  filter_mapM
    (λ processor,
       type ← prop "type" (Some processor);
       if strict_eq type (Some (JStr "assertion")) then Ok None
       else Ok (Some (converted_processor processor)))
    l.

(** [convertPreProcessors(preProcessors)] *)
Definition convertPreProcessors (preProcessors : jsval) : result (list json) :=
  l ← processors preProcessors;
  filter_mapM
    (λ processor,
       type ← prop "type" (Some processor);
       if strict_eq type (Some (JStr "placeholder"))
          || strict_eq type (Some (JStr "inheritProcessors"))
       then Ok None
       else Ok (Some (converted_processor processor)))
    l.

(** [extractParameterOverrides(parameters, originalParameters)]:
    [originalMap] maps the truthy names of the original parameters to
    them, the last of a name winning. *)
Definition originalMap (originalParameters : jsval) : result index :=
  match originalParameters with
  | Some (JArr l) =>
      foldl (λ acc p,
               m ← acc;
               name ← prop "name" (Some p);
               if truthy name then Ok (map_set (default JNull name) p m) else Ok m)
        (Ok []) l
  | _ => Ok []
  end.

Definition parameter_override (originals : index) (param : json) : result (option json) :=
  enable ← prop "enable" (Some param);
  let value := get "value" param in
  if negb (truthy enable) && negb (truthy value) then Ok None
  else
    let original :=
      match get "name" param with
      | Some name => ApidogConverter.map_get name originals
      | None => None
      end in
    let hasOverride :=
      truthy original
      && (negb (strict_eq value (getv "value" original))
          || negb (strict_eq enable (getv "enable" original))) in
    if hasOverride || negb (truthy original) then
      Ok (Some (JObj (mk_obj [("name", get "name" param);
                              ("value", Some (js_or value (JStr "")))])))
    else Ok None.

Definition extractParameterOverrides (parameters originalParameters : jsval)
    : result (list json) :=
  match parameters with
  | Some (JArr l) =>
      originals ← originalMap originalParameters;
      filter_mapM (parameter_override originals) l
  | _ => Ok []
  end.

(** [extractRequestBodyOverride(httpApiCase)]: [None] is [null]. *)
Definition form_data_override (param : json) : result (option json) :=
  enable ← prop "enable" (Some param);
  match get "value" param with
  | Some value =>
      if truthy enable then
        Ok (Some (JObj (mk_obj [("name", get "name" param);
                                ("type", Some (js_or (get "type" param) (JStr "string")));
                                ("value", Some value);
                                ("enable", Some (if_defined enable JTrue))])))
      else Ok None
  | None => Ok None
  end.

Definition extractRequestBodyOverride (httpApiCase : json) : result (option obj) :=
  let requestBody := get "requestBody" httpApiCase in
  let type := getv "type" requestBody in
  let data := getv "data" requestBody in
  if negb (truthy requestBody) then Ok None
  else if strict_eq type (Some (JStr "none")) || negb (truthy data) then Ok None
  else
    formData ←
      (if strict_eq type (Some (JStr "multipart/form-data"))
          && truthy (getv "parameters" requestBody)
       then l ← ApidogConverter.elements (default JNull (getv "parameters" requestBody));
            filter_mapM form_data_override l
       else Ok []);
    match formData with
    | _ :: _ => Ok (Some [("type", JStr "form_data"); ("form_data_override", JArr formData)])
    | [] =>
        match data with
        | Some (JStr d) =>
            if String.eqb (trim d) "" then Ok None
            else Ok (Some [("type", js_or type (JStr "application/json"));
                           ("data", JStr (trim d))])
        | _ => Unsupported
        end
    end.

(** [step.number || 1] *)
Definition step_number (step : json) : json := js_or (get "number" step) (JNum 1).

(** One of the four blocks [if (parameters.k && parameters.k.length > 0)]. *)
Definition overrides_field (yamlKey k : string) (parameters : jsval) (yamlStep : obj)
    : result obj :=
  let list := getv k parameters in
  present ← (if truthy list then ApidogConverter.nonempty (default JNull list)
             else Ok None);
  match present with
  | Some _ =>
      overrides ← extractParameterOverrides list (Some JNull);
      match overrides with
      | [] => Ok yamlStep
      | _ => Ok (obj_set yamlKey (JArr overrides) yamlStep)
      end
  | None => Ok yamlStep
  end.

(** The blocks of [convertHttpStep], each on the [yamlStep] so far.
    [if (httpApiCase.path) ...; if (httpApiCase.method) ...] *)
Definition with_path_and_method (httpApiCase : jsval) (yamlStep : obj) : result obj :=
  let yamlStep :=
    if truthy (getv "path" httpApiCase)
    then obj_set "path" (default JNull (getv "path" httpApiCase)) yamlStep
    else yamlStep in
  if truthy (getv "method" httpApiCase) then
    match getv "method" httpApiCase with
    | Some (JStr m) => Ok (obj_set "method" (JStr (toUpperCase m)) yamlStep)
    | _ => Unsupported
    end
  else Ok yamlStep.

(** [if (httpApiCase.auth) ...] *)
Definition with_auth (httpApiCase : jsval) (yamlStep : obj) : obj :=
  let auth := getv "auth" httpApiCase in
  if truthy auth then
    if strict_eq (getv "type" auth) (Some (JStr "bearer"))
       && truthy (getv "bearer" auth)
    then obj_set "auth"
           (JObj [("type", JStr "bearer");
                  ("token", js_or (getv "token" (getv "bearer" auth)) (JStr ""))])
           yamlStep
    else if truthy (getv "type" auth)
    then obj_set "auth" (default JNull auth) yamlStep
    else yamlStep
  else yamlStep.

(** [if (requestBodyOverride) ...] *)
Definition with_request_body (requestBodyOverride : option obj) (yamlStep : obj) : obj :=
  match requestBodyOverride with
  | Some o =>
      if strict_eq (obj_get "type" o) (Some (JStr "form_data"))
      then match obj_get "form_data_override" o with
           | Some overrides => obj_set "request_form_data_override" overrides yamlStep
           | None => yamlStep
           end
      else obj_set "request_body_override"
             (JObj (mk_obj [("type", obj_get "type" o); ("data", obj_get "data" o)]))
             yamlStep
  | None => yamlStep
  end.

(** [if (httpApiCase.parameters) ...]: query, path, header, cookie. *)
Definition with_parameter_overrides (parameters : jsval) (yamlStep : obj) : result obj :=
  if truthy parameters then
    y ← overrides_field "query_params_override" "query" parameters yamlStep;
    y ← overrides_field "path_params_override" "path" parameters y;
    y ← overrides_field "header_params_override" "header" parameters y;
    overrides_field "cookie_params_override" "cookie" parameters y
  else Ok yamlStep.

(** [if (httpApiCase.preProcessors && httpApiCase.preProcessors.length > 0) ...] *)
Definition with_pre_processors (httpApiCase : jsval) (yamlStep : obj) : result obj :=
  pre ← (let v := getv "preProcessors" httpApiCase in
         if truthy v then ApidogConverter.nonempty (default JNull v) else Ok None);
  match pre with
  | Some _ =>
      l ← convertPreProcessors (getv "preProcessors" httpApiCase);
      match l with
      | [] => Ok yamlStep
      | _ => Ok (obj_set "pre_processors" (JArr l) yamlStep)
      end
  | None => Ok yamlStep
  end.

(** [if (httpApiCase.postProcessors && httpApiCase.postProcessors.length > 0) ...] *)
Definition with_post_processors (httpApiCase : jsval) (yamlStep : obj) : result obj :=
  post ← (let v := getv "postProcessors" httpApiCase in
          if truthy v then ApidogConverter.nonempty (default JNull v) else Ok None);
  match post with
  | Some _ =>
      assertions ← convertPostProcessorsToAssertions (getv "postProcessors" httpApiCase);
      let y := match assertions with
               | [] => yamlStep
               | _ => obj_set "assertions" (JArr assertions) yamlStep
               end in
      postProcessors ← convertPostProcessors (getv "postProcessors" httpApiCase);
      match postProcessors with
      | [] => Ok y
      | _ => Ok (obj_set "post_processors" (JArr postProcessors) y)
      end
  | None => Ok yamlStep
  end.

(** [if (httpApiCase.responseId === 0 || httpApiCase.responseId === '0') ...] *)
Definition with_response_validation (httpApiCase : jsval) (yamlStep : obj) : obj :=
  let responseId := getv "responseId" httpApiCase in
  if strict_eq responseId (Some (JNum 0)) || strict_eq responseId (Some (JStr "0"))
  then obj_set "disable_response_validation" JTrue yamlStep
  else yamlStep.

(** [convertHttpStep(step, apiDefinitions)]: [None] is [null]. *)
Definition convertHttpStep (step : json) : result (option json) :=
  let stepNumber := step_number step in
  let stepName := js_or (get "name" step) (JStr ("Step " +:+ js_String stepNumber)) in
  let httpApiCase := get "httpApiCase" step in
  if negb (truthy httpApiCase) then Ok None
  else
    yamlStep ←
      with_path_and_method httpApiCase
        [("number", stepNumber); ("name", stepName); ("type", JStr "http")];
    let yamlStep := with_auth httpApiCase yamlStep in
    requestBodyOverride ← extractRequestBodyOverride (default JNull httpApiCase);
    let yamlStep := with_request_body requestBodyOverride yamlStep in
    yamlStep ← with_parameter_overrides (getv "parameters" httpApiCase) yamlStep;
    yamlStep ← with_pre_processors httpApiCase yamlStep;
    yamlStep ← with_post_processors httpApiCase yamlStep;
    Ok (Some (JObj (with_response_validation httpApiCase yamlStep))).

(** [String(relatedId)] and [parseInt(relatedId)] as keys of the map. *)
Definition lookup_related (testCases : index) (relatedId : json) : result jsval :=
  let byString := ApidogConverter.map_get (JStr (js_String relatedId)) testCases in
  if truthy byString then Ok byString
  else
    n ← parseInt (Some relatedId);
    match n with
    | Some z => Ok (ApidogConverter.map_get (JNum z) testCases)
    | None => Ok None
    end.

(** [Object.keys(v).length > 0] *)
Definition has_keys (v : json) : bool :=
  match v with
  | JObj (_ :: _) | JArr (_ :: _) => true
  | JStr s => negb (String.eqb s "")
  | _ => false
  end.

(** [convertTestCaseRefStep(step)] *)
Definition convertTestCaseRefStep (testCases : index) (step : json) : result json :=
  let stepNumber := step_number step in
  let stepName := js_or (get "name" step) (JStr ("Step " +:+ js_String stepNumber)) in
  let relatedId := get "relatedId" step in
  let yamlStep := [("number", stepNumber); ("type", JStr "testCaseRef"); ("name", stepName)] in
  yamlStep ←
    (if truthy relatedId then
       testCase ← lookup_related testCases (default JNull relatedId);
       if truthy testCase && truthy (getv "name" testCase)
       then Ok (obj_set "ref_name" (default JNull (getv "name" testCase)) yamlStep)
       else Ok (obj_set "ref_id" (default JNull relatedId) yamlStep)
     else Ok yamlStep);
  let yamlStep :=
    match get "disable" step with
    | Some d => obj_set "disable" d yamlStep
    | None => yamlStep
    end in
  let parameters := get "parameters" step in
  Ok (JObj (if truthy parameters && has_keys (default JNull parameters)
            then obj_set "parameters" (default JNull parameters) yamlStep
            else yamlStep)).

(** [step.parameters?.k] *)
Definition parameter (k : string) (step : json) : jsval :=
  match get "parameters" step with
  | None | Some JNull => None
  | ps => getv k ps
  end.

(** [convertDelayStep(step)] *)
Definition convertDelayStep (step : json) : json :=
  JObj [("number", step_number step); ("type", JStr "delay");
        ("timeout", js_or (parameter "timeout" step) (JNum 1000))].

(** [convertScriptStep(step)] *)
Definition convertScriptStep (step : json) : result json :=
  let stepNumber := step_number step in
  let stepName := js_or (get "name" step) (JStr "") in
  data ← (match js_or (parameter "data" step) (JStr "") with
          | JStr scriptData => Ok (JStr (to_lf scriptData))
          | _ => Unsupported
          end);
  let yamlStep := [("number", stepNumber); ("type", JStr "script"); ("data", data)] in
  let yamlStep :=
    if truthy (Some stepName) then obj_set "name" stepName yamlStep else yamlStep in
  let parameters := get "parameters" step in
  let yamlStep :=
    if truthy parameters then
      let y := match getv "enable" parameters with
               | Some e => obj_set "enable" e yamlStep
               | None => yamlStep
               end in
      match getv "defaultEnable" parameters with
      | Some e => obj_set "default_enable" e y
      | None => y
      end
    else yamlStep in
  Ok (JObj match get "disable" step with
           | Some d => obj_set "disable" d yamlStep
           | None => yamlStep
           end).

(** The chain of tests on the type of a step, shared by [convertIfStep]
    and [convert]: a step of another type gives [null]. *)
Definition convert_by_type (testCases : index) (convertIfStep : json → result json)
    (step : json) : result (option json) :=
  type ← prop "type" (Some step);
  let of_type name := strict_eq type (Some (JStr name)) in
  if of_type "http" then convertHttpStep step
  else if of_type "testCaseRef" then y ← convertTestCaseRefStep testCases step; Ok (Some y)
  else if of_type "delay" then Ok (Some (convertDelayStep step))
  else if of_type "script" then y ← convertScriptStep step; Ok (Some y)
  else if of_type "if" then y ← convertIfStep step; Ok (Some y)
  else Ok None.

(** [convertIfStep(step)] *)
Fixpoint convertIfStep (testCases : index) (step : json) : result json :=
  let parameters := Some (js_or (get "parameters" step) (JObj [])) in
  let yamlStep :=
    [("number", step_number step); ("type", JStr "if");
     ("condition",
      JObj [("variable", js_or (getv "keyVariable" parameters) (JStr ""));
            ("operator", js_or (getv "operator" parameters) (JStr "equal"));
            ("value", js_or (getv "valueVariable" parameters) (JStr ""))])] in
  match step with
  | JObj fs =>
      ApidogConverter.with_field "children" (Ok (JObj yamlStep))
        (λ children,
           match children with
           | JArr l =>
               converted ← filter_mapM (convert_by_type testCases (convertIfStep testCases)) l;
               Ok (JObj (obj_set "children" (JArr converted) yamlStep))
           | _ => Ok (JObj yamlStep)
           end)
        fs
  | _ => Ok (JObj yamlStep)
  end.

(** [convertDatasets(apiTestDataSets)] *)
Definition convertDataset (index : nat) (dataset : json) : result json :=
  name ← prop "name" (Some dataset);
  let yamlDataset :=
    [("name", js_or name (JStr ("Data " +:+ pretty (Z.of_nat index + 1))))] in
  let yamlDataset :=
    if truthy (get "id" dataset)
    then obj_set "id" (default JNull (get "id" dataset)) yamlDataset
    else yamlDataset in
  match get "apiTestDataList" dataset with
  | Some (JArr (dataList :: _)) =>
      id ← prop "id" (Some dataList);
      let y := if truthy id then obj_set "data_list_id" (default JNull id) yamlDataset
               else yamlDataset in
      match get "data" dataList with
      | Some (JStr d) =>
          if String.eqb d "" then Ok (JObj y)
          else Ok (JObj (obj_set "data" (JStr (trim d)) y))
      | d => if truthy d then Unsupported else Ok (JObj y)
      end
  | None | Some JNull | Some (JBool _) | Some (JNum _) | Some (JArr []) =>
      Ok (JObj yamlDataset)
  | _ => Unsupported
  end.

Fixpoint convertDatasets_from (index : nat) (datasets : list json) : result (list json) :=
  match datasets with
  | [] => Ok []
  | dataset :: r =>
      d ← convertDataset index dataset;
      ds ← convertDatasets_from (S index) r;
      Ok (d :: ds)
  end.

Definition convertDatasets (apiTestDataSets : jsval) : result (list json) :=
  l ← processors apiTestDataSets; convertDatasets_from 0 l.

(** [convert(testCase, sourceApidogPath)]; [sourceApidogPath] is [None]
    when [main] was given no source file. *)
Definition convert (testCases : index) (testCase : json) (sourceApidogPath : jsval)
    : result json :=
  name ← prop "name" (Some testCase);
  let yamlData :=
    [("name", js_or name (JStr "Test Scenario"));
     ("description", js_or (get "description" testCase) (JStr ""));
     ("priority", js_or (get "priority" testCase) (JNum 2));
     ("tags", js_or (get "tags" testCase) (JArr []))] in
  let yamlData :=
    if truthy sourceApidogPath
    then obj_set "source_apidog" (default JNull sourceApidogPath) yamlData
    else yamlData in
  let options := get "options" testCase in
  let yamlData :=
    if truthy options then
      obj_set "options"
        (JObj [("environment_id", js_or (getv "environmentId" options) (JNum 0));
               ("iteration_count", js_or (getv "iterationCount" options) (JNum 1));
               ("thread_count", js_or (getv "threadCount" options) (JNum 1));
               ("on_error", js_or (getv "onError" options) (JStr "ignore"));
               ("delay_item", js_or (getv "delayItem" options) (JNum 0));
               ("save_report_detail",
                js_or (getv "saveReportDetail" options) (JStr "all"))])
        yamlData
    else yamlData in
  datasets ← convertDatasets (get "apiTestDataSets" testCase);
  let yamlData := obj_set "datasets" (JArr datasets) yamlData in
  steps ←
    (match get "steps" testCase with
     | Some (JArr l) => filter_mapM (convert_by_type testCases (convertIfStep testCases)) l
     | _ => Ok []
     end);
  Ok (JObj (obj_set "steps" (JArr steps) yamlData)).

End ApidogReverseConverter.
(** ** Notions of the specification *)

(** The numeric values found under an [id] key anywhere in a document, in
    the order of a walk of the document. *)
Fixpoint ids (v : json) : list Z :=
  match v with
  | JArr l => flat_map ids l
  | JObj fs =>
      flat_map (λ kv : string * json,
                  match String.eqb kv.1 "id", kv.2 with
                  | true, JNum n => [n]
                  | _, _ => ids kv.2
                  end) fs
  | _ => []
  end.

(** A document is a JavaScript value: the keys of each object are
    pairwise distinct. *)
Fixpoint distinct (keys : list string) : bool :=
  match keys with
  | [] => true
  | k :: r => negb (existsb (String.eqb k) r) && distinct r
  end.

Fixpoint distinct_keys (v : json) : bool :=
  match v with
  | JArr l => forallb distinct_keys l
  | JObj fs => distinct fs.*1 && forallb (λ kv : string * json, distinct_keys kv.2) fs
  | _ => true
  end.

(** The string behind the blank that a string starts with, where [sp2]
    and [sp3] tell the blanks of two and of three bytes; the blank ahead
    of a string, and the blank behind its reverse. *)
Definition behind_blank (sp2 : ascii → ascii → bool)
    (sp3 : ascii → ascii → ascii → bool) (s : string) : option string :=
  match s with
  | String a r =>
      if is_space a then Some r
      else match r with
           | String b r1 =>
               if sp2 a b then Some r1
               else match r1 with
                    | String c r2 => if sp3 a b c then Some r2 else None
                    | EmptyString => None
                    end
           | EmptyString => None
           end
  | EmptyString => None
  end.

Definition blank_ahead : string → option string := behind_blank is_space2 is_space3.

Definition blank_behind : string → option string :=
  behind_blank (λ a b, is_space2 b a) (λ a b c, is_space3 c b a).

(** ** Sample documents *)

Module MergerExamples.
Import TestCaseMerger.

(** A collection whose root carries the id 7, and nothing else. *)
Definition collection_7 : json :=
  JObj [("apiTestCaseCollection",
         JArr [JObj [("name", JStr "Root"); ("id", JNum 7);
                     ("children", JArr []); ("items", JArr [])]])].

(** An incoming test case two of whose steps carry the id 7. *)
Definition case_7_7 : json :=
  JObj [("steps", JArr [JObj [("id", JNum 7)]; JObj [("id", JNum 7)]]);
        ("name", JStr "t")].

(** What the merger makes of them. *)
Definition merged_7_7 : json :=
  JObj [("apiTestCaseCollection",
         JArr [JObj [("name", JStr "Root"); ("id", JNum 7); ("children", JArr []);
                     ("items",
                      JArr [JObj [("steps", JArr [JObj [("id", JNum 10000000)];
                                                  JObj [("id", JNum 10000000)]]);
                                  ("name", JStr "t")]])]])].

(** An incoming test case with the ids 7 and 8, once each. *)
Definition case_7_8 : json :=
  JObj [("steps", JArr [JObj [("id", JNum 7)]; JObj [("id", JNum 8)]]);
        ("name", JStr "t")].

Definition merged_7_8 : json :=
  JObj [("apiTestCaseCollection",
         JArr [JObj [("name", JStr "Root"); ("id", JNum 7); ("children", JArr []);
                     ("items",
                      JArr [JObj [("steps", JArr [JObj [("id", JNum 10000000)];
                                                  JObj [("id", JNum 8)]]);
                                  ("name", JStr "t")]])]])].





(** A collection with two folders named A: the first is empty, the second
    holds the test cases p and q. *)
Definition two_folders_A : json :=
  JObj [("apiTestCaseCollection",
         JArr [JObj [("name", JStr "Root");
                     ("children",
                      JArr [JObj [("name", JStr "A"); ("items", JArr [])];
                            JObj [("name", JStr "A");
                                  ("items", JArr [JObj [("name", JStr "p")];
                                                  JObj [("name", JStr "q")]])]]);
                     ("items", JArr [])]])].

(** An incoming test case named q for the folder A. *)
Definition case_q_in_A : json :=
  JObj [("steps", JArr [JObj [("type", JStr "delay")]]); ("name", JStr "q");
        ("_folder", JStr "A"); ("ordering", JNum 10)].

(** The output: the first folder A holds q and a [null]. *)
Definition merged_q_in_A : json :=
  JObj [("apiTestCaseCollection",
         JArr [JObj [("name", JStr "Root");
                     ("children",
                      JArr [JObj [("name", JStr "A");
                                  ("items",
                                   JArr [JObj [("steps", JArr [JObj [("type", JStr "delay")]]);
                                               ("name", JStr "q"); ("ordering", JNum 10)];
                                         JNull])];
                            JObj [("name", JStr "A");
                                  ("items", JArr [JObj [("name", JStr "p")];
                                                  JObj [("name", JStr "q")]])]]);
                     ("items", JArr [])]])].

End MergerExamples.

(** ** Auxiliary notions of the proofs *)

Module MergerNotions.
Import TestCaseMerger.

(** What one [reassignRecursive] call does with the ids [ids_in] of its
    argument: the ids [ids_out] of the result are pairwise distinct, none
    was in use, all are in use afterwards, and [idMap] only grows by ids
    of the argument. *)
Definition fresh_out (ids_in ids_out : list Z) (st st' : rstate) : Prop :=
  NoDup ids_out ∧
  (∀ y, y ∈ ids_out → y ∉ usedIds st.1) ∧
  usedIds st'.1 = list_to_set ids_out ∪ usedIds st.1 ∧
  (∀ x, st'.2 !! x ≠ None → st.2 !! x ≠ None ∨ x ∈ ids_in).

(** An object without its property [k]. *)
Fixpoint drop_key (k : string) (fs : obj) : obj :=
  match fs with
  | [] => []
  | (k', v) :: r => if String.eqb k k' then r else (k', v) :: drop_key k r
  end.

(** The ids of the items under merge, and the invariant of the loop: with
    the ids [base] of the rest of the document they are pairwise distinct
    and in use. *)
Definition state_ids (st : mstate) : list Z :=
  flat_map ids (st_items st) ++ flat_map ids (st_children st).

Definition ids_invariant (base : list Z) (st : mstate) : Prop :=
  NoDup (base ++ state_ids st) ∧
  ∀ x, x ∈ base ++ state_ids st → x ∈ usedIds (st_merger st).


(** A document without the properties named [__proto__], at every depth:
    what [reassignRecursive] leaves out of the objects it rebuilds. *)
Fixpoint without_proto (v : json) : json :=
  match v with
  | JArr l => JArr (without_proto <$> l)
  | JObj fs =>
      JObj (flat_map (λ kv : string * json,
                        if String.eqb kv.1 "__proto__" then []
                        else [(kv.1, without_proto kv.2)]) fs)
  | _ => v
  end.

(** The walk of [reassignRecursive] with every property kept, those
    named [__proto__] as well: the document with its ids changed, of
    which [reassignRecursive] returns the part [without_proto] (see
    [reassignRecursive_relabel]). *)
Definition relabel_entries (relabel : json → rstate → json * rstate)
    : obj → rstate → obj * rstate :=
  fix go (fs : obj) (st : rstate) : obj * rstate :=
    match fs with
    | [] => ([], st)
    | (key, value) :: r =>
        let '(value', st1) :=
          match String.eqb key "id", value with
          | true, JNum n => let '(n', st1) := reassign_id n st in (JNum n', st1)
          | _, _ => relabel value st
          end in
        let '(r', st2) := go r st1 in
        ((key, value') :: r', st2)
    end.

Fixpoint relabel (v : json) (st : rstate) : json * rstate :=
  match v with
  | JArr l => let '(l', st') := reassign_items relabel l st in (JArr l', st')
  | JObj fs => let '(fs', st') := relabel_entries relabel fs st in (JObj fs', st')
  | _ => (v, st)
  end.


End MergerNotions.

(** ** Views of a collection *)

Module MergerViews.
Import TestCaseMerger.

(** A document with every numeric id set to 0: what is left of the
    document when its ids are not looked at. *)
Fixpoint without_ids (v : json) : json :=
  match v with
  | JArr l => JArr (without_ids <$> l)
  | JObj fs =>
      JObj ((λ kv : string * json,
               (kv.1, match String.eqb kv.1 "id", kv.2 with
                      | true, JNum _ => JNum 0
                      | _, _ => without_ids kv.2
                      end)) <$> fs)
  | _ => v
  end.

(** The root collection of a document, the items of a folder, the items
    of the root. *)
Definition root_of (d : json) : jsval :=
  match get "apiTestCaseCollection" d with
  | Some (JArr (root :: _)) => Some root
  | _ => None
  end.

Definition items_of (folder : jsval) : option (list json) :=
  match getv "items" folder with
  | Some (JArr items) => Some items
  | _ => None
  end.

Definition root_items (d : json) : option (list json) := items_of (root_of d).

Definition children_of (folder : jsval) : option (list json) :=
  match getv "children" folder with
  | Some (JArr children) => Some children
  | _ => None
  end.

(** Whether one of the items is named [n]. *)
Definition has_name (n : string) (items : list json) : bool :=
  existsb (λ item, strict_eq (get "name" item) (Some (JStr n))) items.

(** [item.ordering || 0], and a list of items in the order of it. *)
Definition ordering (item : json) : Z := default 0 (ordering_key item).

Definition in_order (items : list json) : Prop :=
  StronglySorted (λ a b, ordering a ≤ ordering b)
    (filter (λ v, is_null v = false) items).

(** A collection with the test cases p and q at the root and no folder,
    and what it becomes when an incoming test case named q, or one named
    r for a folder B, is merged into it. *)
Definition items_p_q : list json :=
  [JObj [("name", JStr "p"); ("id", JNum 1); ("ordering", JNum 10)];
   JObj [("name", JStr "q"); ("id", JNum 2); ("ordering", JNum 20)]].

Definition collection_p_q : json :=
  JObj [("info", JObj [("name", JStr "Shop")]);
        ("apiTestCaseCollection",
         JArr [JObj [("name", JStr "Root"); ("children", JArr []);
                     ("items", JArr items_p_q)]])].

Definition case_q : obj :=
  [("steps", JArr [JObj [("type", JStr "delay"); ("id", JNum 2)]]); ("id", JNum 3);
   ("name", JStr "q"); ("ordering", JNum 5)].

Definition merged_p_q : json :=
  JObj [("info", JObj [("name", JStr "Shop")]);
        ("apiTestCaseCollection",
         JArr [JObj [("name", JStr "Root"); ("children", JArr []);
                     ("items",
                      JArr [JObj [("steps",
                                   JArr [JObj [("type", JStr "delay");
                                               ("id", JNum 10000000)]]);
                                  ("id", JNum 3); ("name", JStr "q");
                                  ("ordering", JNum 5)];
                            JObj [("name", JStr "p"); ("id", JNum 1);
                                  ("ordering", JNum 10)]])]])].

Definition case_r_in_B : obj :=
  [("steps", JArr [JObj [("type", JStr "delay"); ("id", JNum 2)]]); ("id", JNum 3);
   ("name", JStr "r"); ("_folder", JStr "B")].

Definition merged_r_in_B : json :=
  JObj [("info", JObj [("name", JStr "Shop")]);
        ("apiTestCaseCollection",
         JArr [JObj [("name", JStr "Root");
                     ("children",
                      JArr [JObj [("name", JStr "B"); ("description", JStr "");
                                  ("children", JArr []);
                                  ("items",
                                   JArr [JObj [("steps",
                                                JArr [JObj [("type", JStr "delay");
                                                            ("id", JNum 10000000)]]);
                                               ("id", JNum 3); ("name", JStr "r")]])]]);
                     ("items", JArr items_p_q)]])].

(** A collection with p and q at the root and a folder B that holds s
    and then t, which has no [ordering]; two incoming test cases, q for
    the root and r for the folder B; and what the merge makes of them. *)
Definition collection_B : json :=
  JObj [("info", JObj [("name", JStr "Shop")]);
        ("apiTestCaseCollection",
         JArr [JObj [("name", JStr "Root");
                     ("children",
                      JArr [JObj [("name", JStr "B");
                                  ("items",
                                   JArr [JObj [("name", JStr "s"); ("ordering", JNum 30)];
                                         JObj [("name", JStr "t")]])]]);
                     ("items", JArr items_p_q)]])].

Definition case_r_15_in_B : obj :=
  [("steps", JArr []); ("name", JStr "r"); ("_folder", JStr "B");
   ("ordering", JNum 15)].

Definition merged_B : json :=
  JObj [("info", JObj [("name", JStr "Shop")]);
        ("apiTestCaseCollection",
         JArr [JObj [("name", JStr "Root");
                     ("children",
                      JArr [JObj [("name", JStr "B");
                                  ("items",
                                   JArr [JObj [("name", JStr "t")];
                                         JObj [("steps", JArr []); ("name", JStr "r");
                                               ("ordering", JNum 15)];
                                         JObj [("name", JStr "s");
                                               ("ordering", JNum 30)]])]]);
                     ("items",
                      JArr [JObj [("steps",
                                   JArr [JObj [("type", JStr "delay");
                                               ("id", JNum 10000000)]]);
                                  ("id", JNum 3); ("name", JStr "q");
                                  ("ordering", JNum 5)];
                            JObj [("name", JStr "p"); ("id", JNum 1);
                                  ("ordering", JNum 10)]])]])].

(** A test case with the ids 7, 9 and 8, the second under a property
    named [__proto__]. *)
Definition case_7_8_proto : json :=
  JObj [("steps", JArr [JObj [("id", JNum 7); ("__proto__", JObj [("id", JNum 9)])];
                        JObj [("id", JNum 8)]]);
        ("name", JStr "t")].

End MergerViews.

(** ** The forward converter: notions and sample scenarios *)

Module ConverterNotions.
Import ApidogConverter.

(** The operator of the condition of a printed [if] node, and its n-th
    child. *)
Definition emitted_operator (node : json) : jsval :=
  getv "operator" (get "parameters" node).

Definition child_at (n : nat) (node : json) : jsval :=
  match get "children" node with
  | Some (JArr l) => l !! n
  | _ => None
  end.

(** The condition of an [if] step: its [parameters] when they are truthy
    ([keyVariable], [operator], [valueVariable]), its [condition]
    otherwise ([variable], [operator], [value]).  A field that is missing
    or falsy counts as [''], [equal] and ['']; the value is taken as a
    string. *)
Definition condition_field (new old : string) (missing : json) (step : json) : json :=
  let parameters := get "parameters" step in
  if truthy parameters then js_or (getv new parameters) missing
  else js_or (getv old (Some (js_or (get "condition" step) (JObj [])))) missing.

Definition condition_variable : json → json :=
  condition_field "keyVariable" "variable" (JStr "").

Definition condition_operator : json → json :=
  condition_field "operator" "operator" (JStr "equal").

Definition condition_value (step : json) : json :=
  JStr (js_String (condition_field "valueVariable" "value" (JStr "") step)).

(** The inverse of an operator as the specification tabulates it: ten
    operators, anything else gives [notEqual]. *)
Definition claimed_inverse (op : string) : string :=
  if String.eqb op "equal" then "notEqual"
  else if String.eqb op "notEqual" then "equal"
  else if String.eqb op "greater" then "lessOrEqual"
  else if String.eqb op "less" then "greaterOrEqual"
  else if String.eqb op "greaterOrEqual" then "less"
  else if String.eqb op "lessOrEqual" then "greater"
  else if String.eqb op "contains" then "notContains"
  else if String.eqb op "notContains" then "contains"
  else if String.eqb op "exists" then "notExists"
  else if String.eqb op "notExists" then "exists"
  else "notEqual".

(** The same table with the entry for [not_equal]. *)
Definition inverse (op : string) : string :=
  if String.eqb op "not_equal" then "equal" else claimed_inverse op.

(** The names every object answers to, whatever its own properties. *)
Definition inherited (op : string) : bool :=
  existsb (String.eqb op)
    ["constructor"; "__defineGetter__"; "__defineSetter__"; "hasOwnProperty";
     "__lookupGetter__"; "__lookupSetter__"; "isPrototypeOf";
     "propertyIsEnumerable"; "toString"; "valueOf"; "toLocaleString"; "__proto__"].

(** A relation between the converter before a method and after it, kept
    by every run of the method that returns. *)
Definition preserves {A : Type} (R : relation converter) (m : conv A) : Prop :=
  ∀ c a c', m c = Ok (a, c') → R c c'.


(** The maps are the same, and so is all of every API item but
    [api.requestBody]. *)
Definition same_declarations (c c' : converter) : Prop :=
  apiDefinitions c' = apiDefinitions c ∧ apiByPath c' = apiByPath c ∧
  testCases c' = testCases c ∧ testCasesById c' = testCasesById c ∧
  ∀ ref,
    truthy (store_get c' ref) = truthy (store_get c ref) ∧
    truthy (api_of (store_get c' ref)) = truthy (api_of (store_get c ref)) ∧
    ∀ k, k ≠ "requestBody" →
         getv k (api_of (store_get c' ref)) = getv k (api_of (store_get c ref)).

(** A parameter named [n]; an override that removes; the query
    parameters of a printed http step. *)
Definition named (n : string) (p : json) : bool :=
  strict_eq (get "name" p) (Some (JStr n)).

Definition count_named (n : string) (l : list json) : nat :=
  length (filter (λ p, named n p = true) l).

Definition removes (override : json) : bool :=
  match get "value" override with
  | None | Some JNull => true
  | _ => false
  end.

Definition printed_query (printed : json) : jsval :=
  getv "query" (getv "parameters" (get "httpApiCase" printed)).

(** Two names that are the same but for the case of their letters, as the
    names of two headers are compared; a parameter or an override whose
    name is [n], or is [n] but for the case. *)
Definition same_header (m n : string) : Prop := toLowerCase m = toLowerCase n.

Definition carries (same : string → string → Prop) (n : string) (p : json) : Prop :=
  ∃ m, get "name" p = Some (JStr m) ∧ same m n.

(** A parameter that is enabled and has the value [v] under a name that
    is [n], or is [n] but for the case. *)
Definition is_set (same : string → string → Prop) (n : string) (v : json) (p : json)
    : Prop :=
  carries same n p ∧ get "value" p = Some v ∧ get "enable" p = Some JTrue.

(** A step with the steps nested in its [children], in the order of the
    document; a step numbered [n]. *)
Fixpoint nested_steps (step : json) : list json :=
  step ::
  match step with
  | JObj fs =>
      with_field "children" []
        (λ children,
           match children with
           | JArr l => flat_map nested_steps l
           | _ => []
           end)
        fs
  | _ => []
  end.

Definition numbered (n : json) (step : json) : bool :=
  strict_eq (get "number" step) (Some n).

End ConverterNotions.

Module ConverterExamples.
Import ApidogConverter.

(** A source of identifiers for [crypto.randomUUID], and a loader for
    scenarios that name no source collection. *)
Definition uuid (n : nat) : string := "uuid-" +:+ pretty n.

Definition no_source (path : json) (c : converter) : result converter := Unsupported.

(** if status not_equal ok ... else wait. *)
Definition if_not_equal : json :=
  JObj [("type", JStr "if"); ("number", JNum 3);
        ("condition", JObj [("variable", JStr "status"); ("operator", JStr "not_equal");
                            ("value", JStr "ok")]);
        ("children",
         JArr [JObj [("type", JStr "else");
                     ("children", JArr [JObj [("type", JStr "delay")]])]])].

(** if status greater 1 ... wait, else wait. *)
Definition wait_4 : json := JObj [("type", JStr "delay"); ("number", JNum 4)].

Definition else_wait : json :=
  JObj [("type", JStr "else"); ("number", JNum 5);
        ("children", JArr [JObj [("type", JStr "delay")]])].

Definition if_greater_fields : obj :=
  [("type", JStr "if"); ("number", JNum 3);
   ("condition", JObj [("variable", JStr "status"); ("operator", JStr "greater");
                       ("value", JStr "1")]);
   ("children", JArr [wait_4; else_wait])].

Definition if_greater : json := JObj if_greater_fields.

(** A scenario without [source_apidog]: a link step, then a wait. *)
Definition link_then_delay : json :=
  JObj [("name", JStr "S");
        ("steps", JArr [JObj [("type", JStr "link"); ("number", JNum 1);
                              ("link_to", JStr "Login")];
                        JObj [("type", JStr "delay"); ("number", JNum 2)]])].

(** A scenario without [source_apidog]: a reference to a test case by
    name, then a wait. *)
Definition ref_then_delay : json :=
  JObj [("name", JStr "S");
        ("steps", JArr [JObj [("type", JStr "testCaseRef"); ("number", JNum 1);
                              ("ref_name", JStr "Login")];
                        JObj [("type", JStr "delay"); ("number", JNum 2)]])].

(** A source collection once loaded: one API item, GET /search, with the
    query parameters [query] declared and a form field in its body. *)
Definition param (name value : string) : json :=
  JObj [("name", JStr name); ("value", JStr value)].

Definition search_api (query : list json) : json :=
  JObj [("id", JStr "101"); ("method", JStr "get"); ("path", JStr "/search");
        ("parameters", JObj [("query", JArr query)]);
        ("requestBody",
         JObj [("type", JStr "multipart/form-data");
               ("parameters", JArr [param "file" ""])])].

Definition loaded_with (query : list json) : converter :=
  Converter 10000000 0
    [JObj [("name", JStr "Search"); ("api", search_api query)]]
    [("Search", OneApi 0)] [("Root/Search", 0%nat)] (Some []) (Some []).

Definition loaded : converter := loaded_with [param "foo" "bar"; param "page" "1"].

Definition loaded_foo_twice : converter :=
  loaded_with [param "foo" "bar"; param "foo" "baz"].

(** Steps on that API: one removes foo; one sets foo and a form field. *)
Definition remove_foo : json := JObj [("name", JStr "foo"); ("value", JNull)].

Definition search_without_foo : json :=
  JObj [("name", JStr "Search"); ("number", JNum 1);
        ("query_params_override", JArr [remove_foo])].

Definition search_with_file : json :=
  JObj [("name", JStr "Search"); ("number", JNum 1);
        ("query_params_override", JArr [param "foo" "x"]);
        ("request_form_data_override",
         JArr [JObj [("name", JStr "file"); ("value", JStr "a.png");
                     ("type", JStr "file")]])].

(** A source collection with one test case, Login: its step 2 is nested
    in an [if]. *)
Definition login_step_2 : obj :=
  [("number", JNum 2); ("type", JStr "script"); ("name", JStr "token")].

Definition login_steps : list json :=
  [JObj [("number", JNum 1); ("type", JStr "delay")];
   JObj [("number", JNum 4); ("type", JStr "if");
         ("children", JArr [JObj login_step_2])];
   JObj [("number", JNum 3); ("type", JStr "delay")]].













End ConverterExamples.

(** ** The forward converter: views of its inputs and outputs *)

Module ConverterViews.
Import ApidogConverter.

(** The number of a step, when it has one that is not [null]. *)
Definition number_of (step : json) : option json :=
  match get "number" step with
  | None | Some JNull => None
  | Some number => Some number
  end.

(** [x !== n] *)
Definition other_than (n : json) (x : json) : Prop :=
  strict_eq (Some x) (Some n) = false.

(** A scenario for the folder Shop, with a script step, a condition and
    two datasets, the second with its ids. *)
Definition two_datasets : json :=
  JObj [("name", JStr "Checkout"); ("folder", JStr "Shop");
        ("options", JObj [("iteration_count", JNum 3)]);
        ("steps",
         JArr [JObj [("number", JNum 1); ("type", JStr "script");
                     ("data", JStr ("a" +:+ String CR (String LF "b")))];
               JObj [("number", JNum 2); ("type", JStr "if");
                     ("condition",
                      JObj [("variable", JStr "total"); ("operator", JStr "greater");
                            ("value", JNum 5)]);
                     ("children",
                      JArr [JObj [("number", JNum 3); ("type", JStr "delay")]])]]);
        ("datasets",
         JArr [JObj [("data", JStr " a,b ")];
               JObj [("name", JStr "second"); ("id", JNum 7);
                     ("data_list_id", JNum 8); ("data", JStr "c,d")]])].

(** A converted dataset that belongs to the test case [id]: it and its
    one data list name the test case, and the data list names the
    dataset. *)
Definition belongs_to (id : Z) (dataset : json) : Prop :=
  get "relatedId" dataset = Some (JNum id) ∧
  ∃ dataList,
    get "apiTestDataList" dataset = Some (JArr [dataList]) ∧
    get "relatedId" dataList = Some (JNum id) ∧
    is_Some (get "id" dataset) ∧
    get "dataSetId" dataList = get "id" dataset.

(** The headers of a printed http step; a header named User-Agent, in
    whatever case its letters are. *)
Definition printed_header (printed : json) : jsval :=
  getv "header" (getv "parameters" (get "httpApiCase" printed)).

Definition is_user_agent (h : json) : bool :=
  match get "name" h with
  | Some (JStr s) => String.eqb (toLowerCase s) "user-agent"
  | _ => false
  end.

(** A step on the API Search with a user agent, and with a header of
    that name in capitals among its overrides. *)
Definition search_as_robot : json :=
  JObj [("name", JStr "Search"); ("number", JNum 1); ("user_agent", JStr "robot");
        ("header_params_override",
         JArr [JObj [("name", JStr "USER-AGENT"); ("value", JStr "browser")]])].

End ConverterViews.

(** ** The reverse converter: notions and sample test cases *)

Module ReverseNotions.




End ReverseNotions.

Module ReverseExamples.




End ReverseExamples.

(** ** The round trip: notions and a sample scenario *)

(** ** The reverse converter: views of its inputs *)

Module ReverseViews.

(** A post-processor that is an assertion, and one that is an assertion
    with data. *)
Definition is_assertion (processor : json) : bool :=
  strict_eq (get "type" processor) (Some (JStr "assertion")).

Definition has_data (processor : json) : bool := truthy (get "data" processor).

(** The assertion of the scenario that is made of a post-processor: the
    five fields of its [data], each with its default; [path] falls back
    on the expression of [extractSettings]. *)
Definition assertion_back (processor : json) : json :=
  let data := get "data" processor in
  JObj [("name", js_or (getv "name" data) (JStr ""));
        ("subject", js_or (getv "subject" data) (JStr "responseJson"));
        ("comparison", js_or (getv "comparison" data) (JStr "equal"));
        ("value", js_or (getv "value" data) (JStr ""));
        ("path",
         js_or (getv "path" data)
           (js_or (let settings := getv "extractSettings" data in
                   match settings with
                   | None | Some JNull => None
                   | _ => getv "expression" settings
                   end)
              (JStr "")))].

(** An assertion, an assertion without data and a script. *)
Definition three_processors : list json :=
  [JObj [("type", JStr "assertion"); ("data", JObj [("name", JStr "ok")])];
   JObj [("type", JStr "assertion")];
   JObj [("type", JStr "customScript"); ("data", JStr "x")]].

End ReverseViews.

Module RoundTripNotions.
Import ConverterNotions.

(** A step of type http, which is also the type of a step without one,
    or of type delay. *)
Definition http_or_delay (step : json) : bool :=
  let type := Some (js_or (get "type" step) (JStr "http")) in
  strict_eq type (Some (JStr "http")) || strict_eq type (Some (JStr "delay")).

(** An assertion with its five fields, each with its default. *)
Definition normal_assertion (a : json) : json :=
  JObj [("name", js_or (get "name" a) (JStr ""));
        ("subject", js_or (get "subject" a) (JStr "responseJson"));
        ("comparison",
         js_or (get "comparison" a) (js_or (get "operator" a) (JStr "equal")));
        ("value", js_or (get "value" a) (JStr ""));
        ("path", js_or (get "path" a) (JStr ""))].

(** The overrides of the list [k] of [step] come back: every entry with
    a string name and a truthy value that is the last of its name is in
    the list [k] of [back], with its name and its value.  The lists are
    those of the query, the path and the cookie parameters. *)
Definition overrides_come_back (k : string) (step back : json) : Prop :=
  ∀ before o after n v,
    get k step = Some (JArr (before ++ o :: after)) →
    get "name" o = Some (JStr n) → get "value" o = Some v →
    truthy (Some v) = true →
    Forall (λ o', get "name" o' ≠ Some (JStr n)) after →
    ∃ l, get k back = Some (JArr l) ∧ JObj [("name", JStr n); ("value", v)] ∈ l.

(** The same for the headers, whose names are compared without regard to
    case: the entry comes back with its value under its name or under the
    name, the same but for the case, of the header it was written to.
    The header [User-Agent] is not the step's when the step has a
    [user_agent]. *)
Definition header_overrides_come_back (step back : json) : Prop :=
  ∀ before o after n v,
    get "header_params_override" step = Some (JArr (before ++ o :: after)) →
    get "name" o = Some (JStr n) → get "value" o = Some v →
    truthy (Some v) = true →
    Forall (λ o', ¬ carries same_header n o') after →
    (truthy (get "user_agent" step) = true → ¬ same_header n "user-agent") →
    ∃ l m, get "header_params_override" back = Some (JArr l) ∧ same_header m n ∧
           JObj [("name", JStr m); ("value", v)] ∈ l.

(** The body override comes back, with its type ([application/json] for
    a missing or falsy one) and its data trimmed, when the data are a
    string that is not blank, the type is none of [none],
    [multipart/form-data] and [form_data], and the step has no form-data
    overrides. *)
Definition body_override_comes_back (step back : json) : Prop :=
  ∀ o d,
    get "request_body_override" step = Some o → get "data" o = Some (JStr d) →
    trim d ≠ "" →
    js_or (get "type" o) (JStr "application/json") ≠ JStr "none" →
    js_or (get "type" o) (JStr "application/json") ≠ JStr "multipart/form-data" →
    js_or (get "type" o) (JStr "application/json") ≠ JStr "form_data" →
    (∀ fields, get "request_form_data_override" step ≠ Some (JArr fields)) →
    get "request_body_override" back
    = Some (JObj [("type", js_or (get "type" o) (JStr "application/json"));
                  ("data", JStr (trim d))]).

(** What the step [back] of the scenario after the round trip has of the
    step [step] of the scenario before it: its number and type; the
    timeout of a delay; of an http step, the overrides of the query, the
    path, the cookies, the headers and the body as above, and the
    assertions, in their order and before any other. *)
Definition comes_back (step back : json) : Prop :=
  get "number" back = Some (js_or (get "number" step) (JNum 1)) ∧
  get "type" back = Some (js_or (get "type" step) (JStr "http")) ∧
  (get "type" step = Some (JStr "delay") →
   get "timeout" back
   = Some (js_or (get "timeout" step) (js_or (get "duration" step) (JNum 1000)))) ∧
  (get "type" step ≠ Some (JStr "delay") →
   overrides_come_back "query_params_override" step back ∧
   overrides_come_back "path_params_override" step back ∧
   overrides_come_back "cookie_params_override" step back ∧
   header_overrides_come_back step back ∧
   body_override_comes_back step back ∧
   (∀ l, get "assertions" step = Some (JArr l) → l ≠ [] →
         ∃ l', get "assertions" back = Some (JArr l')
               ∧ (normal_assertion <$> l) `prefix_of` l')).

End RoundTripNotions.

Module RoundTripExamples.

(** A scenario of an http step with an override of each kind, and a
    wait. *)
Definition override (name : string) (value : json) : json :=
  JObj [("name", JStr name); ("value", value)].

Definition order_steps : list json :=
  [JObj [("number", JNum 1); ("name", JStr "Order"); ("type", JStr "http");
         ("path", JStr "/orders/{id}"); ("method", JStr "post");
         ("query_params_override", JArr [override "q" (JStr "rocq")]);
         ("path_params_override", JArr [override "id" (JStr "7")]);
         ("header_params_override", JArr [override "X-Trace" (JStr "on")]);
         ("cookie_params_override", JArr [override "session" (JStr "abc")]);
         ("request_body_override",
          JObj [("type", JStr "application/json"); ("data", JStr " {} ")]);
         ("assertions",
          JArr [JObj [("name", JStr "found"); ("path", JStr "$.total");
                      ("comparison", JStr "greater"); ("value", JStr "0")]])];
   JObj [("number", JNum 2); ("type", JStr "delay"); ("timeout", JNum 500)]].

Definition order_scenario : json :=
  JObj [("name", JStr "S"); ("steps", JArr order_steps)].

Definition order_step_back : json :=
  JObj [("number", JNum 1); ("name", JStr "Order"); ("type", JStr "http");
        ("path", JStr "/orders/{id}"); ("method", JStr "POST");
        ("request_body_override",
         JObj [("type", JStr "application/json"); ("data", JStr "{}")]);
        ("query_params_override", JArr [override "q" (JStr "rocq")]);
        ("path_params_override", JArr [override "id" (JStr "7")]);
        ("header_params_override", JArr [override "X-Trace" (JStr "on")]);
        ("cookie_params_override", JArr [override "session" (JStr "abc")]);
        ("assertions",
         JArr [JObj [("name", JStr "found"); ("subject", JStr "responseJson");
                     ("comparison", JStr "greater"); ("value", JStr "0");
                     ("path", JStr "$.total")]])].

(** A scenario of http steps whose overrides do not come back as they
    are: a query override with the value 0, one that a later entry of
    the name replaces, one with the value [null]; a header override of
    [User-Agent] on a step with a [user_agent]; a body override of the
    type [none], one of the type [form_data]; a form-data override. *)
Definition lossy_steps : list json :=
  [JObj [("number", JNum 1); ("name", JStr "A"); ("path", JStr "/a");
         ("query_params_override",
          JArr [override "page" (JNum 0); override "q" (JStr "a");
                override "q" (JStr "b"); override "gone" JNull]);
         ("header_params_override", JArr [override "User-Agent" (JStr "a")]);
         ("user_agent", JStr "b")];
   JObj [("number", JNum 2); ("name", JStr "B"); ("path", JStr "/b");
         ("request_body_override", JObj [("type", JStr "none"); ("data", JStr "x")])];
   JObj [("number", JNum 3); ("name", JStr "C"); ("path", JStr "/c");
         ("request_body_override",
          JObj [("type", JStr "form_data"); ("data", JStr "x")])];
   JObj [("number", JNum 4); ("name", JStr "D"); ("path", JStr "/d");
         ("request_form_data_override",
          JArr [JObj [("name", JStr "file"); ("value", JStr "a.png")]])]].

Definition lossy_scenario : json :=
  JObj [("name", JStr "S"); ("steps", JArr lossy_steps)].

Definition lossy_steps_back : list json :=
  [JObj [("number", JNum 1); ("name", JStr "A"); ("type", JStr "http");
         ("path", JStr "/a"); ("method", JStr "GET");
         ("query_params_override",
          JArr [override "page" (JStr ""); override "q" (JStr "b")]);
         ("header_params_override", JArr [override "User-Agent" (JStr "b")])];
   JObj [("number", JNum 2); ("name", JStr "B"); ("type", JStr "http");
         ("path", JStr "/b"); ("method", JStr "GET")];
   JObj [("number", JNum 3); ("name", JStr "C"); ("type", JStr "http");
         ("path", JStr "/c"); ("method", JStr "GET")];
   JObj [("number", JNum 4); ("name", JStr "D"); ("type", JStr "http");
         ("path", JStr "/d"); ("method", JStr "GET")]].

(** A source collection once loaded whose one API item, POST /upload,
    declares an enabled form field with a value; a step on it with a body
    override of the type [multipart/form-data]. *)
Definition upload_api : json :=
  JObj [("id", JStr "102"); ("method", JStr "post"); ("path", JStr "/upload");
        ("requestBody",
         JObj [("type", JStr "multipart/form-data");
               ("parameters",
                JArr [JObj [("name", JStr "file"); ("value", JStr "f");
                            ("enable", JTrue)]])])].

Definition loaded_upload : ApidogConverter.converter :=
  ApidogConverter.Converter 10000000 0
    [JObj [("name", JStr "Upload"); ("api", upload_api)]]
    [("Upload", ApidogConverter.OneApi 0)] [("Root/Upload", 0%nat)] (Some []) (Some []).

Definition upload_scenario : json :=
  JObj [("name", JStr "S");
        ("steps",
         JArr [JObj [("number", JNum 1); ("name", JStr "Upload");
                     ("request_body_override",
                      JObj [("type", JStr "multipart/form-data");
                            ("data", JStr "x")])]])].

End RoundTripExamples.

(** ** The round trip: the rest of a scenario *)

Module RoundTripViews.
Import ApidogConverter.

(** A string without carriage returns. *)
Fixpoint no_cr (s : string) : Prop :=
  match s with
  | String a r => Ascii.eqb a CR = false ∧ no_cr r
  | EmptyString => True
  end.

(** [(yamlData.options || {}).k || d] *)
Definition option_of (scenario : json) (k : string) (d : json) : json :=
  js_or (getv k (Some (js_or (get "options" scenario) (JObj [])))) d.

(** The six options of a scenario, each with its default. *)
Definition options_with_defaults (scenario : json) : json :=
  JObj [("environment_id", option_of scenario "environment_id" (JNum 0));
        ("iteration_count", option_of scenario "iteration_count" (JNum 1));
        ("thread_count", option_of scenario "thread_count" (JNum 1));
        ("on_error", option_of scenario "on_error" (JStr "ignore"));
        ("delay_item", option_of scenario "delay_item" (JNum 0));
        ("save_report_detail", option_of scenario "save_report_detail" (JStr "all"))].

(** What the dataset [back] has of the dataset [dataset] in the place
    [i] of the scenario: its name, or [Data i+1]; its data, trimmed;
    its [id] and [data_list_id] when they are truthy. *)
Definition dataset_comes_back (i : nat) (dataset back : json) : Prop :=
  get "name" back
  = Some (js_or (get "name" dataset) (JStr ("Data " +:+ pretty (Z.of_nat i + 1)))) ∧
  (∀ s, js_or (get "data" dataset) (JStr "") = JStr s →
        get "data" back = Some (JStr (trim s))) ∧
  (truthy (get "id" dataset) = true → get "id" back = get "id" dataset) ∧
  (truthy (get "data_list_id" dataset) = true →
   get "data_list_id" back = get "data_list_id" dataset).

(** The steps that both converters turn into one step: those of type
    http (also the type of a step without one), delay, script and if. *)
Definition one_for_one (step : json) : bool :=
  let type := Some (js_or (get "type" step) (JStr "http")) in
  strict_eq type (Some (JStr "http")) || strict_eq type (Some (JStr "delay"))
  || strict_eq type (Some (JStr "script")) || strict_eq type (Some (JStr "if")).

(** What the step [back] has of the script step [step]: the script with
    its line ends as line feeds, the name when it is truthy, and the
    three flags with their defaults. *)
Definition script_comes_back (step back : json) : Prop :=
  get "number" back = Some (js_or (get "number" step) (JNum 1)) ∧
  get "type" back = Some (JStr "script") ∧
  (∀ s, js_or (get "data" step) (JStr "") = JStr s →
        get "data" back = Some (JStr (to_lf s))) ∧
  get "name" back = (if truthy (get "name" step) then get "name" step else None) ∧
  get "enable" back = Some (enable_of step) ∧
  get "default_enable" back = Some (default_enable_of step JTrue) ∧
  get "disable" back = Some (if_defined (get "disable" step) JFalse).

(** What the step [back] has of the [if] step [step]: the condition that
    the forward converter reads from [step.parameters], or else from
    [step.condition], with its defaults; the value is a string. *)
Definition condition_comes_back (step back : json) : Prop :=
  let parameters := if_parameters step in
  get "number" back = Some (js_or (get "number" step) (JNum 1)) ∧
  get "type" back = Some (JStr "if") ∧
  ∃ variable operator value,
    obj_get "keyVariable" parameters = Some variable ∧
    obj_get "operator" parameters = Some operator ∧
    obj_get "valueVariable" parameters = Some (JStr value) ∧
    get "condition" back
    = Some (JObj [("variable", variable); ("operator", operator);
                  ("value", JStr value)]).

(** The bearer authorisation of a scenario step, with its token. *)
Definition bearer_auth (token : jsval) : json :=
  JObj [("type", JStr "bearer"); ("token", js_or token (JStr ""))].

(** A script among the pre-processors of a step, as it comes back: with
    its two flags and its script, the line ends as line feeds. *)
Definition is_script (processor : json) : bool :=
  strict_eq (get "type" processor) (Some (JStr "customScript")).

Definition script_back (processor : json) : json :=
  JObj [("type", JStr "customScript");
        ("enable", enable_of processor);
        ("default_enable", default_enable_of processor JFalse);
        ("data", JStr (to_lf (script_data (get "data" processor))))].

(** Two pre-processor scripts. *)
Definition two_scripts : list json :=
  [JObj [("type", JStr "customScript"); ("data", JStr ("a" +:+ String LF "b"))];
   JObj [("type", JStr "customScript"); ("data", JNum 5); ("enable", JFalse)]].

(** An http step with a bearer token and two pre-processor scripts, for
    an API that is declared and for one that is not. *)
Definition authorised_step (name : string) : json :=
  JObj [("number", JNum 1); ("name", JStr name); ("type", JStr "http");
        ("path", JStr "/orders"); ("method", JStr "Post");
        ("disable_response_validation", JTrue);
        ("auth", JObj [("type", JStr "bearer"); ("token", JStr "t0")]);
        ("pre_processors", JArr two_scripts)].

(** An http step with an assertion and the two scripts as
    post-processors. *)
Definition checked_step : json :=
  JObj [("number", JNum 1); ("name", JStr "Search"); ("type", JStr "http");
        ("assertions", JArr [JObj [("path", JStr "$.ok"); ("value", JStr "yes")]]);
        ("post_processors", JArr two_scripts)].

(** Both, each for the steps of its type. *)
Definition details_come_back (step back : json) : Prop :=
  (get "type" step = Some (JStr "script") → script_comes_back step back) ∧
  (get "type" step = Some (JStr "if") → condition_comes_back step back).

End RoundTripViews.

(** ** Views of the test case indexes *)

Module IndexViews.
Import ApidogConverter.

(** The items of a collection and of the collections below it, in the
    order in which [indexTestCases] meets them: the items of the
    collection, then those of its children. *)
Fixpoint items_in (collection : json) : list json :=
  match collection with
  | JObj fs =>
      match obj_get "items" fs with Some (JArr items) => items | _ => [] end
      ++ with_field "children" []
           (λ children,
              match children with JArr l => flat_map items_in l | _ => [] end) fs
  | _ => []
  end.

Definition all_items (collections : json) : list json :=
  match collections with
  | JArr l => flat_map items_in l
  | _ => []
  end.

(** The last element of a list that passes a test. *)
Definition last_such (test : json → bool) (l : list json) : option json :=
  last (List.filter test l).

(** An item with the truthy name [k], with the truthy id [k]. *)
Definition named (k : json) (item : json) : bool :=
  truthy (get "name" item) && strict_eq (get "name" item) (Some k).

Definition identified (k : json) (item : json) : bool :=
  truthy (get "id" item) && strict_eq (get "id" item) (Some k).

(** A test case: an item with a name and steps. *)
Definition is_test_case (item : json) : bool :=
  truthy (get "name" item) && truthy (get "steps" item).

Definition test_case_named (k : json) (item : json) : bool :=
  is_test_case item && named k item.

Definition test_case_identified (k : json) (item : json) : bool :=
  is_test_case item && identified k item.

(** The map [m'] is the map [m] after the items of [l] that pass [test k]
    were entered under [k], one after the other. *)
Definition entered (test : json → json → bool) (l : list json)
    (m m' : list (json * json)) : Prop :=
  ∀ k, map_get k m' = from_option Some (map_get k m) (last_such (test k) l).

(** Test cases in a root collection and in a folder of it: two are named
    Login, one has no steps, one has no id. *)
Definition case_of (name : string) (id : Z) : json :=
  JObj [("name", JStr name); ("id", JNum id); ("steps", JArr [])].

Definition source_cases : json :=
  JArr [JObj [("name", JStr "Root");
              ("items", JArr [case_of "Login" 55;
                              JObj [("name", JStr "Draft"); ("id", JNum 56)];
                              JObj [("name", JStr "Logout"); ("steps", JArr [])]]);
              ("children",
               JArr [JObj [("name", JStr "Shop");
                           ("items", JArr [case_of "Pay" 57; case_of "Login" 58])]])]].

(** The converter after the source file with these test cases was
    loaded, and a step that refers to Login by name. *)
Definition with_source_cases : converter :=
  Converter 10000000 0 [] [] []
    (Some [(JStr "Login", case_of "Login" 58); (JStr "Logout",
            JObj [("name", JStr "Logout"); ("steps", JArr [])]);
           (JStr "Pay", case_of "Pay" 57)])
    (Some [(JNum 55, case_of "Login" 55); (JNum 57, case_of "Pay" 57);
           (JNum 58, case_of "Login" 58)]).

Definition run_login : json :=
  JObj [("type", JStr "testCaseRef"); ("number", JNum 3); ("name", JStr "First");
        ("ref_name", JStr "Login")].

(** An item with the id [z], as a number or in digits. *)
Definition has_id (z : Z) (item : json) : Prop :=
  get "id" item = Some (JNum z) ∨ get "id" item = Some (JStr (pretty z)).

(** *** The API index *)

(** An API: an item with a name and an [api]. *)
Definition is_api (item : json) : bool :=
  truthy (get "name" item) && truthy (get "api" item).

(** The APIs of a collection below [parentPath], each with the path of
    its collection, in the order in which [indexApiCollection] meets
    them: the items of the collection, an item that is no API and has
    [items] being a collection of its own, then the children. *)
Fixpoint apis_in (parentPath : jsval) (collection : json) : list (jsval * json) :=
  match collection with
  | JObj fs =>
      let currentPath := current_path parentPath (obj_get "name" fs) in
      with_field "items" []
        (λ items,
           match items with
           | JArr l =>
               flat_map (λ item,
                           if is_api item then [(currentPath, item)]
                           else if truthy (get "items" item)
                                then apis_in currentPath item
                                else []) l
           | _ => []
           end) fs
      ++ with_field "children" []
           (λ children,
              match children with
              | JArr l => flat_map (apis_in currentPath) l
              | _ => []
              end) fs
  | _ => []
  end.

(** The APIs of the source file. *)
Definition all_apis (sourceApidog : json) : list (jsval * json) :=
  match get "apiCollection" sourceApidog with
  | Some (JArr l) => flat_map (apis_in (Some (JStr ""))) l
  | _ => []
  end.

(** The key of an API in [apiByPath]. *)
Definition full_path (entry : jsval * json) : string :=
  template entry.1 +:+ "/" +:+ template (get "name" entry.2).

(** The items that an entry of [apiDefinitions] refers to. *)
Definition refs_of (entry : option api_entry) : list nat :=
  match entry with
  | Some (OneApi ref) => [ref]
  | Some (ManyApis entries) => entries.*1
  | None => []
  end.

(** The converter has indexed the APIs [apis], and nothing else: they
    are the items of its store and have strings for names; [apiByPath]
    has for a path the last of them with that path; [apiDefinitions] has
    for a name all of them with that name. *)
Definition indexed (apis : list (jsval * json)) (c : converter) : Prop :=
  apiStore c = apis.*2 ∧
  Forall (λ entry : jsval * json, ∃ n, get "name" entry.2 = Some (JStr n)) apis ∧
  (∀ p, match alist_get p (apiByPath c) with
        | Some ref =>
            (∃ entry, apis !! ref = Some entry ∧ full_path entry = p) ∧
            ∀ i entry, apis !! i = Some entry → full_path entry = p → (i ≤ ref)%nat
        | None => ∀ entry, entry ∈ apis → full_path entry ≠ p
        end) ∧
  (∀ (n : string) (ref : nat),
     ref ∈ refs_of (alist_get n (apiDefinitions c))
     ↔ ∃ entry, apis !! ref = Some entry ∧ get "name" entry.2 = Some (JStr n)).

(** A source file with two APIs named Search in two folders, and one
    named Pay in a collection that is an item of the first folder. *)
Definition api_named (name path : string) : json :=
  JObj [("name", JStr name);
        ("api", JObj [("path", JStr path); ("method", JStr "get")])].

Definition source_apis : json :=
  JObj [("apiCollection",
         JArr [JObj [("name", JStr "Root");
                     ("items",
                      JArr [api_named "Search" "/search";
                            JObj [("name", JStr "Money");
                                  ("items", JArr [api_named "Pay" "/pay"])]]);
                     ("children",
                      JArr [JObj [("name", JStr "Admin");
                                  ("items", JArr [api_named "Search" "/admin/search"])]])]])].

(** An http step for the second Search, by name and path, with another
    method than the API has. *)
Definition search_admin : json :=
  JObj [("name", JStr "Search"); ("path", JStr "/admin/search"); ("method", JStr "POST")].

End IndexViews.

(** * Properties

    ** Values *)

Module JsonFacts.

Lemma obj_get_obj_set (k k' : string) (v : json) (fs : obj) :
  obj_get k (obj_set k' v fs) = if String.eqb k k' then Some v else obj_get k fs.
Proof.
  induction fs as [|[k0 v0] fs IH]; simpl; [done|].
  destruct (String.eqb k' k0) eqn:E1; simpl.
  - destruct (String.eqb k k') eqn:E2; [done|].
    apply String.eqb_eq in E1 as ->. by rewrite E2.
  - destruct (String.eqb k k0) eqn:E2; [|done].
    apply String.eqb_eq in E2 as ->.
    rewrite String.eqb_sym in E1. by rewrite E1.
Qed.

Lemma obj_get_obj_set_ne (k k' : string) (v : json) (fs : obj) :
  k ≠ k' → obj_get k (obj_set k' v fs) = obj_get k fs.
Proof.
  intros Hne. rewrite obj_get_obj_set.
  by destruct (String.eqb_spec k k').
Qed.

Lemma obj_get_obj_set_eq (k : string) (v : json) (fs : obj) :
  obj_get k (obj_set k v fs) = Some v.
Proof. by rewrite obj_get_obj_set, String.eqb_refl. Qed.

Lemma strict_eq_true (a b : jsval) : strict_eq a b = true → a = b.
Proof.
  destruct a as [[]|], b as [[]|]; simpl; try done.
  - by intros ->%Bool.eqb_prop.
  - by intros ->%Z.eqb_eq.
  - by intros ->%String.eqb_eq.
Qed.

Lemma prop_get (k : string) (v x : json) :
  get k v = Some x → prop k (Some v) = Ok (Some x).
Proof. destruct v; simpl; try done. by intros ->. Qed.

Lemma result_bind_Ok {A B : Type} (f : A → result B) (m : result A) (b : B) :
  m ≫= f = Ok b → ∃ a, m = Ok a ∧ f a = Ok b.
Proof. destruct m as [a| |]; [|done..]. intros H. by exists a. Qed.

Lemma find_ext {A : Type} (f g : A → bool) (l : list A) :
  (∀ x, f x = g x) → List.find f l = List.find g l.
Proof. intros H. induction l as [|x l IH]; [done|]. simpl. by rewrite H, IH. Qed.

Lemma with_field_get {A : Type} (k : string) (absent : A) (present : json → A) (fs : obj) :
  ApidogConverter.with_field k absent present fs
  = match obj_get k fs with Some v => present v | None => absent end.
Proof.
  induction fs as [|[k' v] fs IH]; [done|]. simpl.
  by destruct (String.eqb k k').
Qed.

(** ** Strings *)

Lemma string_of_list_ascii_app (l k : list ascii) :
  string_of_list_ascii (l ++ k) = string_of_list_ascii l +:+ string_of_list_ascii k.
Proof. induction l as [|a l IH]; [done|]. simpl. by rewrite IH. Qed.

Lemma list_ascii_of_string_app (s t : string) :
  list_ascii_of_string (s +:+ t) = list_ascii_of_string s ++ list_ascii_of_string t.
Proof. induction s as [|a s IH]; [done|]. simpl. by rewrite IH. Qed.

Lemma string_rev_app (s t : string) :
  string_rev (s +:+ t) = string_rev t +:+ string_rev s.
Proof.
  unfold string_rev.
  by rewrite list_ascii_of_string_app, rev_app_distr, string_of_list_ascii_app.
Qed.

Lemma string_rev_involutive (s : string) : string_rev (string_rev s) = s.
Proof.
  unfold string_rev.
  by rewrite list_ascii_of_string_of_list_ascii, rev_involutive,
    string_of_list_ascii_of_string.
Qed.

Section Strip.
Variable sp2 : ascii → ascii → bool.
Variable sp3 : ascii → ascii → ascii → bool.

Lemma strip_unfold (s : string) :
  strip sp2 sp3 s
  = match behind_blank sp2 sp3 s with Some r => strip sp2 sp3 r | None => s end.
Proof.
  destruct s as [|a [|b [|c r]]]; cbn [strip behind_blank]; try done.
  - by destruct (is_space a).
  - destruct (is_space a); [done|]. by destruct (sp2 a b).
  - destruct (is_space a); [done|]. destruct (sp2 a b); [done|].
    by destruct (sp3 a b c).
Qed.

Lemma behind_blank_length (s r : string) :
  behind_blank sp2 sp3 s = Some r → (String.length r < String.length s)%nat.
Proof.
  destruct s as [|a [|b [|c r2]]]; cbn [behind_blank]; try done.
  - destruct (is_space a); [|done]. intros [= <-]. simpl. lia.
  - destruct (is_space a); [intros [= <-]; simpl; lia|].
    destruct (sp2 a b); [|done]. intros [= <-]. simpl. lia.
  - destruct (is_space a); [intros [= <-]; simpl; lia|].
    destruct (sp2 a b); [intros [= <-]; simpl; lia|].
    destruct (sp3 a b c); [|done]. intros [= <-]. simpl. lia.
Qed.

Lemma string_length_ind (P : string → Prop) :
  (∀ s, (∀ r, (String.length r < String.length s)%nat → P r) → P s) → ∀ s, P s.
Proof.
  intros H s. remember (String.length s) as n eqn:Hn. revert s Hn.
  induction n as [n IH] using lt_wf_ind. intros s ->.
  apply H. intros r Hr. by apply (IH _ Hr).
Qed.

Lemma strip_clean (s : string) : behind_blank sp2 sp3 (strip sp2 sp3 s) = None.
Proof.
  induction s as [s IH] using string_length_ind. rewrite strip_unfold.
  destruct (behind_blank sp2 sp3 s) as [r|] eqn:E; [|done].
  by apply IH, behind_blank_length.
Qed.

Lemma strip_id (s : string) : behind_blank sp2 sp3 s = None → strip sp2 sp3 s = s.
Proof. intros H. by rewrite strip_unfold, H. Qed.

Lemma append_assoc (s t u : string) : (s +:+ t) +:+ u = s +:+ (t +:+ u).
Proof.
  induction s as [|a s IH]; [done|].
  change (String a ((s +:+ t) +:+ u) = String a (s +:+ (t +:+ u))). by rewrite IH.
Qed.

Lemma behind_blank_split (s r : string) :
  behind_blank sp2 sp3 s = Some r → ∃ blank, s = blank +:+ r.
Proof.
  destruct s as [|a [|b [|c r2]]]; cbn [behind_blank]; try done.
  - destruct (is_space a); [|done]. intros [= <-]. by exists (String a "").
  - destruct (is_space a); [intros [= <-]; by exists (String a "")|].
    destruct (sp2 a b); [|done]. intros [= <-]. by exists (String a (String b "")).
  - destruct (is_space a); [intros [= <-]; by exists (String a "")|].
    destruct (sp2 a b); [intros [= <-]; by exists (String a (String b ""))|].
    destruct (sp3 a b c); [|done]. intros [= <-].
    by exists (String a (String b (String c ""))).
Qed.

Lemma strip_split (s : string) : ∃ blanks, s = blanks +:+ strip sp2 sp3 s.
Proof.
  induction s as [s IH] using string_length_ind. rewrite strip_unfold.
  destruct (behind_blank sp2 sp3 s) as [r|] eqn:E; [|by exists ""].
  destruct (IH r (behind_blank_length _ _ E)) as [blanks Hr].
  destruct (behind_blank_split _ _ E) as [blank ->].
  exists (blank +:+ blanks). by rewrite append_assoc, <- Hr.
Qed.

(** A string that starts with no blank has no prefix that does. *)
Lemma behind_blank_prefix (s t : string) :
  s ≠ "" → behind_blank sp2 sp3 (s +:+ t) = None → behind_blank sp2 sp3 s = None.
Proof.
  destruct s as [|a [|b [|c r]]]; simpl; try done.
  - intros _. by destruct (is_space a).
  - intros _. destruct (is_space a); [done|]. by destruct (sp2 a b).
  - intros _. destruct (is_space a); [done|]. destruct (sp2 a b); [done|].
    by destruct (sp3 a b c).
Qed.

End Strip.

(** The trimmed string starts and ends with no blank. *)
Lemma trim_clean (s : string) :
  blank_ahead (trim s) = None ∧ blank_behind (string_rev (trim s)) = None.
Proof.
  unfold blank_ahead, blank_behind, trim, trim_end. rewrite string_rev_involutive.
  split; [|apply strip_clean].
  destruct (strip_split (λ a b, is_space2 b a) (λ a b c, is_space3 c b a)
              (string_rev (trim_start s))) as [blanks Hsplit].
  set (u := strip _ _ (string_rev (trim_start s))) in *.
  destruct (decide (string_rev u = "")) as [->|Hne]; [done|].
  apply (behind_blank_prefix _ _ _ (string_rev blanks)); [done|].
  rewrite <- string_rev_app, <- Hsplit, string_rev_involutive.
  apply strip_clean.
Qed.

Lemma trim_id (t : string) :
  blank_ahead t = None → blank_behind (string_rev t) = None → trim t = t.
Proof.
  unfold blank_ahead, blank_behind. intros H1 H2. unfold trim, trim_end, trim_start.
  rewrite (strip_id _ _ t H1), (strip_id _ _ _ H2).
  apply string_rev_involutive.
Qed.

(** Trimming twice is trimming once. *)
Lemma trim_trim (s : string) : trim (trim s) = trim s.
Proof. destruct (trim_clean s). by apply trim_id. Qed.

Lemma is_space2_LF (a : ascii) : is_space2 a LF = false.
Proof. unfold is_space2. apply andb_false_r. Qed.

Lemma is_space3_LF (a b : ascii) : is_space3 a b LF = false.
Proof.
  unfold is_space3. change (nat_of_ascii LF) with 10%nat. cbn [Nat.eqb Nat.leb].
  by rewrite !andb_false_r.
Qed.

(** A line feed behind a trimmed string is trimmed away. *)
Lemma trim_line (s : string) : trim (trim s +:+ String LF "") = trim s.
Proof.
  destruct (trim_clean s) as [H1 H2]. set (t := trim s) in *.
  destruct (decide (t = "")) as [->|Hne]; [done|]. unfold blank_ahead, blank_behind in *.
  assert (blank_ahead (t +:+ String LF "") = None) as H3.
  { clear H2. unfold blank_ahead in *. destruct t as [|a [|b [|c r]]]; try done.
    - change (String a "" +:+ String LF "") with (String a (String LF "")).
      cbn [behind_blank] in *. destruct (is_space a); [done|].
      by rewrite is_space2_LF.
    - change (String a (String b "") +:+ String LF "")
        with (String a (String b (String LF ""))).
      cbn [behind_blank] in *. destruct (is_space a); [done|].
      destruct (is_space2 a b); [done|]. by rewrite is_space3_LF.
    - change (String a (String b (String c r)) +:+ String LF "")
        with (String a (String b (String c (r +:+ String LF "")))).
      cbn [behind_blank] in *. destruct (is_space a); [done|].
      destruct (is_space2 a b); [done|]. by destruct (is_space3 a b c). }
  unfold blank_ahead in H3.
  unfold trim, trim_end, trim_start. rewrite (strip_id _ _ _ H3), string_rev_app.
  change (string_rev (String LF "")) with (String LF "").
  rewrite strip_unfold.
  change (behind_blank _ _ (String LF "" +:+ string_rev t)) with (Some (string_rev t)).
  cbv beta iota. rewrite (strip_id _ _ _ H2). apply string_rev_involutive.
Qed.

Lemma trim_line_nonempty (s : string) : trim s +:+ String LF "" ≠ "".
Proof. by destruct (trim s). Qed.

(** The no-break space U+00A0 is trimmed away like the space. *)
Lemma trim_no_break_space :
  trim (String (ascii_of_nat 194) (String (ascii_of_nat 160) "a b ")) = "a b".
Proof. reflexivity. Qed.

End JsonFacts.

(** ** The collection merger *)

Module MergerFacts.
Import JsonFacts TestCaseMerger MergerNotions MergerViews MergerExamples.

(** *** Fresh identifiers *)

Lemma skip_used_spec (fuel : nat) (used bound : gset Z) (n : Z) :
  (∀ x, x ∈ used → n ≤ x → x ∈ bound) →
  (size bound < fuel)%nat →
  skip_used fuel used n ∉ used.
Proof.
  revert bound n. induction fuel as [|fuel IH]; intros bound n Hb Hsz; [lia|].
  simpl. destruct (decide (n ∈ used)) as [Hin|Hni]; [|done].
  apply (IH (bound ∖ {[ n ]})).
  - intros x Hx Hle. apply elem_of_difference. split; [apply Hb; [done|lia]|].
    rewrite elem_of_singleton. lia.
  - assert (n ∈ bound) by (apply Hb; [done|lia]).
    assert (size bound = size ({[ n ]} : gset Z) + size (bound ∖ {[ n ]}))%nat as Heq.
    { rewrite <- size_union by set_solver. f_equal.
      apply leibniz_equiv. apply union_difference_singleton_L in H.
      rewrite <- H. done. }
    rewrite size_singleton in Heq. lia.
Qed.

Lemma skip_used_fresh (used : gset Z) (n : Z) :
  skip_used (S (size used)) used n ∉ used.
Proof. apply (skip_used_spec _ used used); [done | lia]. Qed.

Lemma getNextId_spec (m : merger) :
  (getNextId m).1 ∉ usedIds m ∧
  usedIds (getNextId m).2 = {[ (getNextId m).1 ]} ∪ usedIds m.
Proof. split; [apply skip_used_fresh | done]. Qed.

(** *** The ids collected from a document *)

Lemma foldl_collect_mono {A : Type} (f : A → json) (l : list A) (used : gset Z) (x : Z) :
  Forall (λ a, ∀ u, x ∈ u → x ∈ collectUsedIds (f a) u) l →
  x ∈ used → x ∈ foldl (λ u a, collectUsedIds (f a) u) used l.
Proof.
  intros Hl. revert used. induction Hl as [|a l Ha _ IH]; intros used Hx; simpl; auto.
Qed.

Lemma collectUsedIds_mono (v : json) (used : gset Z) (x : Z) :
  x ∈ used → x ∈ collectUsedIds v used.
Proof.
  revert used. induction v as [| | | |l IH|fs IH] using json_nested_ind;
    intros used Hx; simpl; auto.
  - apply (foldl_collect_mono id); [|done].
    eapply Forall_impl; [exact IH|]. simpl. auto.
  - apply (foldl_collect_mono snd).
    + eapply Forall_impl; [exact IH|]. simpl. auto.
    + destruct (obj_get "id" fs) as [[]|]; auto.
      destruct (_ =? _); [done|]. set_solver.
Qed.

Lemma foldl_collect_elem {A : Type} (f : A → json) (l : list A) (used : gset Z) (x : Z) (a : A) :
  a ∈ l → (∀ u, x ∈ collectUsedIds (f a) u) →
  x ∈ foldl (λ u a, collectUsedIds (f a) u) used l.
Proof.
  intros Hin Ha. revert used. induction l as [|b l IH]; intros used; [by inversion Hin|].
  simpl. apply elem_of_cons in Hin as [->|Hin]; [|by apply IH].
  apply (foldl_collect_mono f); [|apply Ha].
  apply Forall_forall. intros. by apply collectUsedIds_mono.
Qed.

Lemma obj_get_distinct (k : string) (v : json) (fs : obj) :
  distinct fs.*1 = true → (k, v) ∈ fs → obj_get k fs = Some v.
Proof.
  induction fs as [|[k' v'] fs IH]; intros Hd Hin; [by inversion Hin|].
  simpl in *. apply andb_true_iff in Hd as [Hk Hd].
  apply elem_of_cons in Hin as [Heq|Hin].
  - injection Heq as <- <-. by rewrite String.eqb_refl.
  - destruct (String.eqb k k') eqn:E; [|by apply IH].
    apply String.eqb_eq in E as <-.
    apply negb_true_iff, not_true_iff_false in Hk. exfalso. apply Hk.
    apply existsb_exists. exists k. split; [|apply String.eqb_refl].
    apply list_elem_of_In, list_elem_of_fmap. by exists (k, v).
Qed.

Lemma in_field_ids (k : string) (val : json) (x : Z) :
  In x (match String.eqb k "id", val with
        | true, JNum n => [n]
        | _, _ => ids val
        end) →
  (k = "id" ∧ val = JNum x) ∨ In x (ids val).
Proof.
  destruct (String.eqb k "id") eqn:Ek; [|auto].
  apply String.eqb_eq in Ek as ->.
  destruct val; auto. intros [<-|[]]. auto.
Qed.

Lemma collectUsedIds_ids (v : json) (used : gset Z) (x : Z) :
  distinct_keys v = true → x ∈ ids v → x ≠ 0 → x ∈ collectUsedIds v used.
Proof.
  revert used. induction v as [| | | |l IH|fs IH] using json_nested_ind;
    intros used Hwf Hx Hnz; simpl in *; try by inversion Hx.
  - apply list_elem_of_In, in_flat_map in Hx as (item & Hitem & Hx).
    apply list_elem_of_In in Hitem, Hx.
    apply (foldl_collect_elem id _ _ _ item); [done|]. intros u. simpl.
    rewrite Forall_forall in IH. apply IH; auto.
    rewrite forallb_forall in Hwf. by apply Hwf, list_elem_of_In.
  - apply andb_true_iff in Hwf as [Hd Hwf].
    apply list_elem_of_In, in_flat_map in Hx as ([k val] & Hkv & Hx).
    apply list_elem_of_In in Hkv. cbn [fst snd] in Hx.
    apply in_field_ids in Hx as [[-> ->]|Hx].
    + rewrite (obj_get_distinct "id" (JNum x) fs Hd Hkv).
      apply (foldl_collect_mono snd).
      * apply Forall_forall. intros. by apply collectUsedIds_mono.
      * destruct (x =? 0) eqn:E; [lia|]. set_solver.
    + apply list_elem_of_In in Hx.
      apply (foldl_collect_elem snd _ _ _ (k, val)); [done|]. intros u. simpl.
      rewrite Forall_forall in IH. apply (IH _ Hkv); auto.
      rewrite forallb_forall in Hwf. by apply (Hwf (k, val)), list_elem_of_In.
Qed.

(** *** Reassignment *)

Lemma fresh_out_nil (st : rstate) : fresh_out [] [] st st.
Proof.
  repeat split; [constructor | by intros ? ?%elem_of_nil | set_solver | auto].
Qed.

Lemma fresh_out_app (i1 i2 o1 o2 : list Z) (st st1 st2 : rstate) :
  fresh_out i1 o1 st st1 → fresh_out i2 o2 st1 st2 →
  fresh_out (i1 ++ i2) (o1 ++ o2) st st2.
Proof.
  intros (Hn1 & Hf1 & Hu1 & Hm1) (Hn2 & Hf2 & Hu2 & Hm2). repeat split.
  - apply NoDup_app. repeat split; [done| |done].
    intros y Hy1 Hy2. apply (Hf2 y Hy2). rewrite Hu1. set_solver.
  - intros y [Hy|Hy]%elem_of_app; [by apply Hf1|].
    intros Hu. apply (Hf2 y Hy). rewrite Hu1. set_solver.
  - rewrite Hu2, Hu1. set_solver.
  - intros x Hx. destruct (Hm2 x Hx) as [Hx1|Hx2]; [|set_solver].
    destruct (Hm1 x Hx1); set_solver.
Qed.

Lemma reassign_id_fresh (n : Z) (st : rstate) :
  st.2 !! n = None →
  fresh_out [n] [(reassign_id n st).1] st (reassign_id n st).2.
Proof.
  destruct st as [m idMap]. intros Hn. unfold reassign_id. simpl in Hn.
  destruct (decide (n ∈ usedIds m)) as [Hin|Hni].
  - rewrite Hn. destruct (getNextId_spec m) as [Hfresh Hused].
    destruct (getNextId m) as [n' m'] eqn:E. simpl in *.
    repeat split; simpl.
    + apply NoDup_singleton.
    + by intros y ->%list_elem_of_singleton.
    + rewrite Hused. set_solver.
    + intros x Hx. destruct (decide (x = n)) as [->|Hne]; [set_solver|].
      rewrite lookup_insert_ne in Hx by done. auto.
  - repeat split; simpl.
    + apply NoDup_singleton.
    + by intros y ->%list_elem_of_singleton.
    + set_solver.
    + auto.
Qed.

Lemma relabel_not_num (v : json) (st : rstate) :
  (∀ n, v ≠ JNum n) →
  match (relabel v st).1 with
  | JNum n => [n]
  | _ => ids (relabel v st).1
  end = ids (relabel v st).1.
Proof.
  intros Hv. destruct v; simpl; try done.
  - by destruct (Hv n).
  - by destruct (reassign_items _ _ _).
  - by destruct (relabel_entries _ _ _).
Qed.

Lemma relabel_fresh (v : json) (st : rstate) :
  NoDup (ids v) → (∀ x, x ∈ ids v → st.2 !! x = None) →
  fresh_out (ids v) (ids (relabel v st).1) st (relabel v st).2.
Proof.
  revert st. induction v as [| | | |l IH|fs IH] using json_nested_ind;
    intros st Hnd Hmap; try apply fresh_out_nil.
  - simpl.
    assert (fresh_out (flat_map ids l)
              (flat_map ids (reassign_items relabel l st).1) st
              (reassign_items relabel l st).2) as H.
    { simpl in Hnd, Hmap. clear -IH Hnd Hmap. revert st Hnd Hmap.
      induction IH as [|item l Hitem _ IHl]; intros st Hnd Hmap; [apply fresh_out_nil|].
      simpl in *. apply NoDup_app in Hnd as (Hnd1 & Hdisj & Hnd2).
      assert (∀ x, x ∈ ids item → st.2 !! x = None) as Hmap0
        by (intros x Hx; apply Hmap; set_solver).
      specialize (Hitem st Hnd1 Hmap0).
      destruct (relabel item st) as [item' st1]. simpl in Hitem.
      assert (∀ x, x ∈ flat_map ids l → st1.2 !! x = None) as Hmap1.
      { intros x Hx. destruct (st1.2 !! x) eqn:E; [|done]. exfalso.
        destruct Hitem as (_ & _ & _ & Hm).
        destruct (Hm x) as [Hc|Hc]; [by rewrite E| |].
        - apply Hc, Hmap. set_solver.
        - by apply (Hdisj x). }
      specialize (IHl st1 Hnd2 Hmap1).
      destruct (reassign_items relabel l st1) as [l' st2]. simpl in *.
      by apply fresh_out_app with st1. }
    by destruct (reassign_items relabel l st).
  - simpl.
    set (fids := λ kv : string * json,
           match String.eqb kv.1 "id", kv.2 with
           | true, JNum n => [n]
           | _, _ => ids kv.2
           end).
    assert (fresh_out (flat_map fids fs)
              (flat_map fids (relabel_entries relabel fs st).1) st
              (relabel_entries relabel fs st).2) as H.
    { simpl in Hnd, Hmap. fold fids in Hnd, Hmap. clear -IH Hnd Hmap. revert st Hnd Hmap.
      induction IH as [|[k val] fs Hval _ IHfs]; intros st Hnd Hmap; [apply fresh_out_nil|].
      simpl in *. apply NoDup_app in Hnd as (Hnd1 & Hdisj & Hnd2).
      assert (∃ val' st1,
                 (match String.eqb k "id", val with
                  | true, JNum n => let '(n', st1) := reassign_id n st in (JNum n', st1)
                  | _, _ => relabel val st
                  end) = (val', st1) ∧
                 fresh_out (fids (k, val)) (fids (k, val')) st st1) as (val' & st1 & -> & Hone).
      { assert (∀ x, x ∈ fids (k, val) → st.2 !! x = None) as Hmap0
          by (intros x Hx; apply Hmap; set_solver).
        unfold fids in Hmap0, Hnd1 |- *. cbn [fst snd] in Hmap0, Hnd1 |- *.
        destruct (String.eqb k "id") eqn:Ek; [destruct val as [| |n| | |]|];
          try (eexists _, _; split; [apply surjective_pairing|];
               rewrite relabel_not_num by done; by apply Hval).
        - pose proof (reassign_id_fresh n st) as Hid.
          destruct (reassign_id n st) as [n' st1]. eexists _, _. split; [done|].
          apply Hid, Hmap0. set_solver.
        - eexists _, _; split; [apply surjective_pairing|]. by apply Hval. }
      assert (∀ x, x ∈ flat_map fids fs → st1.2 !! x = None) as Hmap1.
      { intros x Hx. destruct (st1.2 !! x) eqn:E; [|done]. exfalso.
        destruct Hone as (_ & _ & _ & Hm).
        destruct (Hm x) as [Hc|Hc]; [by rewrite E| |].
        - apply Hc, Hmap. set_solver.
        - by apply (Hdisj x). }
      specialize (IHfs st1 Hnd2 Hmap1).
      destruct (relabel_entries relabel fs st1) as [fs' st2]. simpl in *.
      by apply fresh_out_app with st1. }
    by destruct (relabel_entries relabel fs st).
Qed.

(** *** What [reassignRecursive] returns of the walk *)

Lemma reassign_items_unfold (f : json → rstate → json * rstate) (item : json)
    (r : list json) (st : rstate) :
  reassign_items f (item :: r) st
  = let '(item', st1) := f item st in
    let '(r', st2) := reassign_items f r st1 in
    (item' :: r', st2).
Proof. reflexivity. Qed.

Lemma reassign_entries_unfold (key : string) (value : json) (r : obj) (st : rstate) :
  reassign_entries reassignRecursive ((key, value) :: r) st
  = let '(value', st1) :=
      match String.eqb key "id", value with
      | true, JNum n => let '(n', st1) := reassign_id n st in (JNum n', st1)
      | _, _ => reassignRecursive value st
      end in
    let '(r', st2) := reassign_entries reassignRecursive r st1 in
    (if String.eqb key "__proto__" then r' else (key, value') :: r', st2).
Proof. reflexivity. Qed.

Lemma relabel_entries_unfold (key : string) (value : json) (r : obj) (st : rstate) :
  relabel_entries relabel ((key, value) :: r) st
  = let '(value', st1) :=
      match String.eqb key "id", value with
      | true, JNum n => let '(n', st1) := reassign_id n st in (JNum n', st1)
      | _, _ => relabel value st
      end in
    let '(r', st2) := relabel_entries relabel r st1 in
    ((key, value') :: r', st2).
Proof. reflexivity. Qed.

Lemma reassignRecursive_relabel (v : json) (st : rstate) :
  reassignRecursive v st = (without_proto (relabel v st).1, (relabel v st).2).
Proof.
  revert st. induction v as [| | | |l IH|fs IH] using json_nested_ind;
    intros st; try reflexivity.
  - cbn [reassignRecursive relabel].
    assert (reassign_items reassignRecursive l st
            = (without_proto <$> (reassign_items relabel l st).1,
               (reassign_items relabel l st).2)) as ->.
    { revert st. induction IH as [|item l Hitem _ IHl]; intros st; [done|].
      rewrite !reassign_items_unfold, Hitem.
      destruct (relabel item st) as [item' st1]. cbn [fst snd]. rewrite IHl.
      by destruct (reassign_items relabel l st1). }
    by destruct (reassign_items relabel l st).
  - cbn [reassignRecursive relabel].
    assert (reassign_entries reassignRecursive fs st
            = (flat_map (λ kv : string * json,
                           if String.eqb kv.1 "__proto__" then []
                           else [(kv.1, without_proto kv.2)])
                 (relabel_entries relabel fs st).1,
               (relabel_entries relabel fs st).2)) as ->.
    { revert st. induction IH as [|[k val] fs Hval _ IHfs]; intros st; [done|].
      rewrite reassign_entries_unfold, relabel_entries_unfold. cbn [snd] in Hval.
      assert (∃ val' st1,
                 (match String.eqb k "id", val with
                  | true, JNum n => let '(n', st1) := reassign_id n st in (JNum n', st1)
                  | _, _ => relabel val st
                  end) = (val', st1) ∧
                 (match String.eqb k "id", val with
                  | true, JNum n => let '(n', st1) := reassign_id n st in (JNum n', st1)
                  | _, _ => reassignRecursive val st
                  end) = (without_proto val', st1)) as (val' & st1 & -> & ->).
      { destruct (String.eqb k "id"); [destruct val as [| |n| | |]|];
          try (eexists _, _; split; [apply surjective_pairing|]; by rewrite Hval).
        destruct (reassign_id n st) as [n' st1]. by eexists _, _. }
      rewrite IHfs. destruct (relabel_entries relabel fs st1) as [r' st2].
      cbn [fst snd flat_map]. by destruct (String.eqb k "__proto__"). }
    by destruct (relabel_entries relabel fs st).
Qed.

Lemma ids_without_proto (v : json) : ids (without_proto v) ⊆+ ids v.
Proof.
  induction v as [| | | |l IH|fs IH] using json_nested_ind; try done.
  - cbn [without_proto ids]. induction IH as [|item l Hitem _ IHl]; [done|].
    rewrite fmap_cons. cbn [flat_map]. by apply submseteq_app.
  - cbn [without_proto ids]. induction IH as [|[k val] fs Hval _ IHfs]; [done|].
    cbn [flat_map fst snd] in *. destruct (String.eqb k "__proto__").
    + cbn [app]. by apply submseteq_inserts_l.
    + cbn [app flat_map fst snd]. apply submseteq_app; [|done].
      destruct (String.eqb k "id"); [|done]. by destruct val.
Qed.

Lemma reassignIds_relabel (t : json) (m : merger) :
  reassignIds t m = (without_proto (relabel t (m, ∅)).1, (relabel t (m, ∅)).2.1).
Proof.
  unfold reassignIds. rewrite reassignRecursive_relabel.
  by destruct (relabel t (m, ∅)) as [v [m' idMap]].
Qed.

Lemma reassignIds_fresh (t : json) (m : merger) :
  NoDup (ids t) →
  ∃ new : list Z,
    NoDup new ∧ (∀ y, y ∈ new → y ∉ usedIds m) ∧
    usedIds (reassignIds t m).2 = list_to_set new ∪ usedIds m ∧
    ids (reassignIds t m).1 ⊆+ new.
Proof.
  intros Hnd. rewrite reassignIds_relabel. cbn [fst snd].
  destruct (relabel_fresh t (m, ∅) Hnd) as (H1 & H2 & H3 & _); [done|].
  exists (ids (relabel t (m, ∅)).1). repeat split; try done.
  apply ids_without_proto.
Qed.

(** The walk changes nothing but numeric ids. *)
Lemma relabel_without_ids (v : json) (st : rstate) :
  without_ids (relabel v st).1 = without_ids v.
Proof.
  revert st. induction v as [| | | |l IH|fs IH] using json_nested_ind;
    intros st; try reflexivity.
  - cbn [relabel].
    destruct (reassign_items relabel l st) as [l' st'] eqn:E.
    cbn [fst without_ids]. f_equal.
    revert st l' st' E. induction IH as [|item l Hitem _ IHl]; intros st l' st' E.
    + by injection E as <- <-.
    + rewrite reassign_items_unfold in E. specialize (Hitem st).
      destruct (relabel item st) as [item' st1].
      destruct (reassign_items relabel l st1) as [r' st2] eqn:E1.
      injection E as <- <-. rewrite !fmap_cons. f_equal; [done|].
      by apply (IHl st1 _ st2).
  - cbn [relabel].
    destruct (relabel_entries relabel fs st) as [fs' st'] eqn:E.
    cbn [fst without_ids]. f_equal.
    revert st fs' st' E. induction IH as [|[k val] fs Hval _ IHfs]; intros st fs' st' E.
    + by injection E as <- <-.
    + rewrite relabel_entries_unfold in E.
      destruct (match String.eqb k "id", val with
                | true, JNum n => let '(n', st1) := reassign_id n st in (JNum n', st1)
                | _, _ => relabel val st
                end) as [val' st1] eqn:Eval.
      destruct (relabel_entries relabel fs st1) as [r' st2] eqn:E1.
      injection E as <- <-. rewrite !fmap_cons. f_equal; [|by apply (IHfs st1 _ st2)].
      cbn [fst snd]. f_equal. specialize (Hval st). cbn [snd] in Hval.
      destruct (String.eqb k "id"); [destruct val|];
        try (rewrite Eval in Hval; cbn [fst] in Hval; rewrite Hval;
             by destruct val').
      destruct (reassign_id n st). by injection Eval as <- <-.
Qed.

Lemma without_ids_without_proto (v : json) :
  without_ids (without_proto v) = without_proto (without_ids v).
Proof.
  induction v as [| | | |l IH|fs IH] using json_nested_ind; try reflexivity.
  - cbn [without_ids without_proto]. f_equal.
    induction IH as [|item l Hitem _ IHl]; [done|].
    rewrite !fmap_cons. by f_equal.
  - cbn [without_ids without_proto]. f_equal.
    induction IH as [|[k val] fs Hval _ IHfs]; [done|].
    rewrite fmap_cons. cbn [flat_map fst snd] in *.
    destruct (String.eqb k "__proto__") eqn:Ek; [done|].
    cbn [app]. rewrite fmap_cons. cbn [fst snd]. f_equal; [|done]. f_equal.
    destruct (String.eqb k "id"); [|done]. by destruct val.
Qed.

(** The test case that [reassignIds] returns is the incoming one but for
    its ids and its properties named [__proto__]. *)
Lemma reassignIds_shape (testCase : json) (m : merger) :
  without_ids (reassignIds testCase m).1 = without_ids (without_proto testCase).
Proof.
  rewrite reassignIds_relabel. cbn [fst].
  by rewrite !without_ids_without_proto, relabel_without_ids.
Qed.

(** *** Ids of updated objects and arrays *)

Lemma ids_field_other (k : string) (v : json) (r : obj) :
  k ≠ "id" → ids (JObj ((k, v) :: r)) = ids v ++ ids (JObj r).
Proof.
  intros Hk. simpl. apply String.eqb_neq in Hk. by rewrite Hk.
Qed.

Lemma ids_obj_cons (kv : string * json) (r : obj) :
  ids (JObj (kv :: r)) = ids (JObj [kv]) ++ ids (JObj r).
Proof. simpl. by rewrite app_nil_r. Qed.

Lemma ids_obj_set (k : string) (v : json) (fs : obj) :
  k ≠ "id" → ids (JObj (obj_set k v fs)) ≡ₚ ids (JObj (drop_key k fs)) ++ ids v.
Proof.
  intros Hk. induction fs as [|[k' v'] fs IH].
  - simpl. apply String.eqb_neq in Hk. by rewrite Hk, app_nil_r.
  - cbn [obj_set drop_key]. destruct (String.eqb k k') eqn:E.
    + rewrite ids_field_other by done. apply Permutation_app_comm.
    + rewrite (ids_obj_cons _ (obj_set _ _ _)), (ids_obj_cons _ (drop_key _ _)).
      by rewrite IH, (assoc app).
Qed.

Lemma ids_obj_get (k : string) (v : json) (fs : obj) :
  k ≠ "id" → obj_get k fs = Some v →
  ids (JObj fs) ≡ₚ ids (JObj (drop_key k fs)) ++ ids v.
Proof.
  intros Hk. induction fs as [|[k' v'] fs IH]; [done|].
  cbn [obj_get drop_key]. destruct (String.eqb k k') eqn:E.
  - apply String.eqb_eq in E as <-. intros [= ->].
    rewrite ids_field_other by done. apply Permutation_app_comm.
  - intros Hget. rewrite (ids_obj_cons _ fs), (ids_obj_cons _ (drop_key _ _)).
    by rewrite (IH Hget), (assoc app).
Qed.

Lemma drop_key_absent (k : string) (fs : obj) :
  obj_get k fs = None → drop_key k fs = fs.
Proof.
  induction fs as [|[k' v'] fs IH]; [done|]. simpl.
  destruct (String.eqb k k'); [done|]. intros H. by rewrite IH.
Qed.

Lemma drop_key_obj_set (k k' : string) (v : json) (fs : obj) :
  k ≠ k' → drop_key k (obj_set k' v fs) = obj_set k' v (drop_key k fs).
Proof.
  intros Hne. induction fs as [|[k0 v0] fs IH].
  - simpl. apply String.eqb_neq in Hne. by rewrite Hne.
  - simpl. destruct (String.eqb k' k0) eqn:E1, (String.eqb k k0) eqn:E2; simpl.
    + apply String.eqb_eq in E1, E2. congruence.
    + apply String.eqb_neq in Hne. by rewrite E1, Hne.
    + apply String.eqb_eq in E2 as ->. by rewrite String.eqb_refl.
    + by rewrite E1, E2, IH.
Qed.

Lemma obj_get_drop_key (k k' : string) (fs : obj) :
  k ≠ k' → obj_get k (drop_key k' fs) = obj_get k fs.
Proof.
  intros Hne. induction fs as [|[k0 v0] fs IH]; [done|]. simpl.
  destruct (String.eqb k' k0) eqn:E1, (String.eqb k k0) eqn:E2; simpl; rewrite ?E2; auto.
  apply String.eqb_eq in E1, E2. congruence.
Qed.

Lemma ids_falsy (v : json) : truthy (Some v) = false → ids v = [].
Proof. by destruct v. Qed.

Lemma ids_ensure_array (k : string) (fs : obj) :
  k ≠ "id" → ids (JObj (ensure_array k fs)) ≡ₚ ids (JObj fs).
Proof.
  intros Hk. unfold ensure_array. destruct (truthy (obj_get k fs)) eqn:E; [done|].
  rewrite ids_obj_set by done. simpl. rewrite app_nil_r.
  destruct (obj_get k fs) as [old|] eqn:Hget.
  - rewrite (ids_obj_get k old fs Hk Hget), (ids_falsy old E). by rewrite app_nil_r.
  - by rewrite (drop_key_absent _ _ Hget).
Qed.

Lemma ids_list_lookup (l : list json) (i : nat) (x : json) :
  l !! i = Some x → flat_map ids l ≡ₚ flat_map ids (delete i l) ++ ids x.
Proof.
  intros Hi. rewrite (delete_Permutation l i x Hi) at 1.
  simpl. apply Permutation_app_comm.
Qed.

Lemma ids_list_insert (l : list json) (i : nat) (x y : json) :
  l !! i = Some x → flat_map ids (<[ i := y ]> l) ≡ₚ flat_map ids (delete i l) ++ ids y.
Proof.
  intros Hi. apply lookup_lt_Some in Hi.
  rewrite insert_take_drop, delete_take_drop by done.
  rewrite !flat_map_app. simpl. rewrite <- (assoc app).
  apply Permutation_app_head, Permutation_app_comm.
Qed.

Lemma ids_replicate_null (n : nat) : flat_map ids (replicate n JNull) = [].
Proof. by induction n. Qed.

Lemma place_ids (name : string) (tc : json) (items items' : list json)
    (map map' : gmap string nat) :
  place name tc items map = (items', map') →
  flat_map ids items' ⊆+ flat_map ids items ++ ids tc.
Proof.
  unfold place. destruct (map !! name) as [index|]; intros [= <- <-].
  - unfold js_array_set. destruct (index <? length items)%nat eqn:E.
    + apply Nat.ltb_lt, lookup_lt_is_Some in E as [old Hold].
      rewrite (ids_list_insert _ _ _ _ Hold), (ids_list_lookup _ _ _ Hold).
      apply submseteq_app; [|done]. apply submseteq_inserts_r. done.
    + rewrite !flat_map_app, ids_replicate_null. simpl. by rewrite app_nil_r.
  - rewrite flat_map_app. simpl. by rewrite app_nil_r.
Qed.

(** *** One round of the merge loop *)

Lemma ids_obj_remove (k : string) (fs : obj) :
  ids (JObj (obj_remove k fs)) ⊆+ ids (JObj fs).
Proof.
  unfold obj_remove. induction fs as [|kv fs IH]; [done|].
  rewrite filter_cons. destruct (decide _).
  - rewrite (ids_obj_cons kv fs), (ids_obj_cons kv (filter _ _)).
    by apply submseteq_app.
  - rewrite (ids_obj_cons kv fs). by apply submseteq_inserts_l.
Qed.

Lemma merge_one_ids (st st' : mstate) (data : json) :
  merge_one st data = Some st' → NoDup (ids data) →
  ∃ new : list Z,
    NoDup new ∧
    (∀ y, y ∈ new → y ∉ usedIds (st_merger st)) ∧
    usedIds (st_merger st') = list_to_set new ∪ usedIds (st_merger st) ∧
    state_ids st' ⊆+ state_ids st ++ new.
Proof.
  intros Hm Hnd. unfold merge_one in Hm.
  destruct (inherits data); [done|].
  destruct (reassignIds_fresh data (st_merger st) Hnd) as (new & Hn & Hf & Hu & Hsub).
  destruct (reassignIds data (st_merger st)) as [processed m]. simpl in Hu, Hsub.
  exists new. split; [exact Hn|]. split; [exact Hf|].
  destruct processed as [| | | | |pfs]; try done.
  destruct (target_folder pfs) as [folderName|]; simpl in Hm; [|done].
  assert (ids (JObj (obj_remove "_folder" pfs)) ⊆+ new) as Htc
    by (etrans; [apply ids_obj_remove|done]).
  set (tc := obj_remove "_folder" pfs) in *.
  destruct (obj_get "name" tc) as [[| | |name| |]|]; try done.
  destruct folderName as [fname|].
  - (* into a folder *)
    set (found := match find_folder fname (st_children st) with
                  | Some i => (i, st_children st)
                  | None => (length (st_children st),
                             st_children st ++ [new_folder fname])
                  end) in *.
    assert (flat_map ids found.2 = flat_map ids (st_children st)) as Hfound.
    { subst found. destruct (find_folder _ _); [done|]. simpl.
      rewrite flat_map_app. simpl. by rewrite !app_nil_r. }
    destruct found as [i children1]. simpl in Hfound.
    destruct (children1 !! i) as [[| | | | |ffs]|] eqn:Hi; try done.
    destruct (obj_get "items" (ensure_array "items" ffs))
      as [[| | | |fitems|]|] eqn:Hitems; try done.
    destruct (place name (JObj tc) fitems _) as [fitems' fm'] eqn:Hplace.
    injection Hm as <-. simpl. split; [done|].
    unfold state_ids. simpl. rewrite <- (assoc app).
    apply submseteq_app; [done|].
    rewrite (ids_list_insert _ _ _ _ Hi), <- Hfound, (ids_list_lookup _ _ _ Hi).
    rewrite <- (assoc app). apply submseteq_app; [done|].
    rewrite ids_obj_set by done.
    rewrite <- (ids_ensure_array "items" ffs) by done.
    rewrite (ids_obj_get "items" _ _ ltac:(done) Hitems).
    rewrite <- (assoc app). apply submseteq_app; [done|].
    etrans; [apply (place_ids _ _ _ _ _ _ Hplace)|].
    by apply submseteq_app.
  - (* at the root *)
    destruct (place name (JObj tc) (st_items st) _) as [items' rm'] eqn:Hplace.
    injection Hm as <-. simpl. split; [done|].
    unfold state_ids. simpl.
    etrans; [apply submseteq_app; [apply (place_ids _ _ _ _ _ _ Hplace)|done]|].
    rewrite <- !(assoc app). apply submseteq_app; [done|].
    rewrite (Permutation_app_comm (ids (JObj tc))).
    apply submseteq_app; [done|]. done.
Qed.

(** *** The whole loop, and the sort *)

Lemma NoDup_submseteq_inv (l k : list Z) : l ⊆+ k → NoDup k → NoDup l.
Proof.
  intros [k' Hk]%submseteq_Permutation Hnd. rewrite Hk in Hnd.
  by apply NoDup_app in Hnd as [? _].
Qed.

Lemma merge_one_invariant (base : list Z) (st st' : mstate) (data : json) :
  merge_one st data = Some st' → NoDup (ids data) →
  ids_invariant base st → ids_invariant base st'.
Proof.
  intros Hm Hnd [Hn Hin].
  destruct (merge_one_ids st st' data Hm Hnd) as (new & Hnew & Hfresh & Hused & Hsub).
  assert (base ++ state_ids st' ⊆+ (base ++ state_ids st) ++ new) as Hsub'.
  { rewrite <- (assoc app). by apply submseteq_app. }
  split.
  - apply (NoDup_submseteq_inv _ _ Hsub'). apply NoDup_app. repeat split; [done| |done].
    intros x Hx Hx'. by apply (Hfresh x Hx'), Hin.
  - intros x Hx. apply (elem_of_submseteq _ _ _ Hx) in Hsub'.
    rewrite Hused. apply elem_of_app in Hsub' as [Hold|Hx'].
    + apply elem_of_union_r. by apply Hin.
    + apply elem_of_union_l. by apply elem_of_list_to_set.
Qed.

Lemma merge_all_invariant (base : list Z) (T : list json) (st st' : mstate) :
  merge_all st T = Some st' → Forall (λ t, NoDup (ids t)) T →
  ids_invariant base st → ids_invariant base st'.
Proof.
  revert st. induction T as [|data T IH]; intros st Hm Hnd Hinv.
  - by injection Hm as <-.
  - simpl in Hm. destruct (merge_one st data) as [st1|] eqn:E; [|done]. simpl in Hm.
    apply Forall_cons in Hnd as [Hd HT].
    apply (IH st1); [done..|]. by apply (merge_one_invariant base st st1 data).
Qed.

Lemma insert_by_key_perm (x : Z * json) (l : list (Z * json)) :
  insert_by_key x l ≡ₚ x :: l.
Proof.
  induction l as [|y l IH]; [done|]. simpl.
  destruct (x.1 <=? y.1); [done|]. rewrite IH. apply Permutation_swap.
Qed.

Lemma stable_sort_perm (l : list (Z * json)) : stable_sort l ≡ₚ l.
Proof.
  induction l as [|x l IH]; [done|]. simpl.
  by rewrite insert_by_key_perm, IH.
Qed.

Lemma partition_null_perm (l : list json) :
  filter (λ v, is_null v = false) l ++ filter (λ v, is_null v = true) l ≡ₚ l.
Proof.
  induction l as [|x l IH]; [done|]. rewrite !filter_cons.
  destruct (is_null x) eqn:E; simpl.
  - destruct (decide (true = false)) as [?|_]; [done|].
    destruct (decide (true = true)) as [_|?]; [|done].
    rewrite <- Permutation_middle. by rewrite IH.
  - destruct (decide (false = false)) as [_|?]; [|done].
    destruct (decide (false = true)) as [?|_]; [done|].
    simpl. by rewrite IH.
Qed.

Lemma sort_items_perm (items items' : list json) :
  sort_items items = Some items' → items' ≡ₚ items.
Proof.
  unfold sort_items.
  destruct (mapM _ _) as [keyed|] eqn:E; [|done]. simpl. intros [= <-].
  rewrite stable_sort_perm.
  assert (keyed.*2 = filter (λ v, is_null v = false) items) as ->.
  { apply mapM_Some in E. revert E.
    generalize (filter (λ v, is_null v = false) items). intros present E.
    induction E as [|x y l k Hxy _ IH]; [done|].
    rewrite fmap_cons, IH. f_equal.
    destruct (ordering_key x); simpl in Hxy; [|done]. by injection Hxy as <-. }
  apply partition_null_perm.
Qed.

Lemma sort_folder_ids (folder folder' : json) :
  sort_folder folder = Some folder' → ids folder' ≡ₚ ids folder.
Proof.
  unfold sort_folder. destruct folder as [| | | | |ffs]; try by intros [= <-].
  destruct (obj_get "items" ffs) as [[| | | |items|]|] eqn:Hitems; try by intros [= <-].
  destruct (sort_items items) as [items'|] eqn:Hs; [|done]. simpl. intros [= <-].
  rewrite ids_obj_set, (ids_obj_get "items" _ _ ltac:(done) Hitems) by done.
  apply Permutation_app_head. simpl.
  by rewrite (sort_items_perm _ _ Hs).
Qed.

Lemma sort_folders_ids (children children' : list json) :
  mapM sort_folder children = Some children' →
  flat_map ids children' ≡ₚ flat_map ids children.
Proof.
  intros H. apply mapM_Some in H.
  induction H as [|x y l k Hxy _ IH]; [done|]. simpl.
  by rewrite IH, (sort_folder_ids _ _ Hxy).
Qed.

Lemma ids_root (rfs : obj) (X Y : list json) :
  ids (JObj (obj_set "children" (JArr X) (obj_set "items" (JArr Y) rfs)))
  ≡ₚ ids (JObj (drop_key "items" (drop_key "children" rfs)))
     ++ flat_map ids Y ++ flat_map ids X.
Proof.
  rewrite ids_obj_set by done.
  rewrite drop_key_obj_set by done.
  rewrite ids_obj_set by done. simpl. by rewrite (assoc app).
Qed.

Lemma ids_root_get (rfs : obj) (X Y : list json) :
  obj_get "items" rfs = Some (JArr Y) → obj_get "children" rfs = Some (JArr X) →
  ids (JObj rfs)
  ≡ₚ ids (JObj (drop_key "items" (drop_key "children" rfs)))
     ++ flat_map ids Y ++ flat_map ids X.
Proof.
  intros HY HX.
  rewrite (ids_obj_get "children" _ _ ltac:(done) HX).
  rewrite <- (obj_get_drop_key "items" "children") in HY by done.
  rewrite (ids_obj_get "items" _ _ ltac:(done) HY). simpl. by rewrite (assoc app).
Qed.

Lemma mergeIntoApidog_ids_unique (m : merger) (C d : json) (T : list json) :
  distinct_keys C = true → NoDup (ids C) → 0 ∉ ids C →
  Forall (λ t, NoDup (ids t)) T →
  mergeIntoApidog m C T = Some d → NoDup (ids d).
Proof.
  intros Hwf HC H0 HT Hm. unfold mergeIntoApidog in Hm.
  destruct C as [| | | | |fs]; try done.
  set (m0 := Merger _ _) in Hm.
  pose proof (ids_ensure_array "apiTestCaseCollection" fs ltac:(done)) as Hfs1.
  set (fs1 := ensure_array "apiTestCaseCollection" fs) in *.
  destruct (obj_get "apiTestCaseCollection" fs1) as [[| | | |coll|]|] eqn:Hcoll; try done.
  pose proof (ids_obj_get "apiTestCaseCollection" _ _ ltac:(done) Hcoll) as Hfs1'.
  set (coll1 := match coll with [] => [root_collection] | _ => coll end) in *.
  assert (ids (JArr coll1) = ids (JArr coll)) as Hcoll1 by (by destruct coll).
  destruct coll1 as [|[| | | | |rfs] rest]; try done.
  pose proof (ids_ensure_array "children" (ensure_array "items" rfs) ltac:(done)) as Hrfs1.
  rewrite (ids_ensure_array "items" rfs) in Hrfs1 by done.
  set (rfs1 := ensure_array "children" (ensure_array "items" rfs)) in *.
  destruct (obj_get "items" rfs1) as [[| | | |items|]|] eqn:Hitems; try done.
  destruct (obj_get "children" rfs1) as [[| | | |children|]|] eqn:Hchildren; try done.
  destruct (index_items items 0 ∅) as [rm|]; [|done]. simpl in Hm.
  destruct (index_folders children _) as [maps|]; [|done]. simpl in Hm.
  destruct (merge_all _ T) as [st|] eqn:Hall; [|done]. simpl in Hm.
  destruct (sort_items (st_items st)) as [items'|] eqn:Hsi; [|done]. simpl in Hm.
  destruct (mapM sort_folder (st_children st)) as [children'|] eqn:Hsc; [|done].
  simpl in Hm. injection Hm as <-.
  set (base := ids (JObj (drop_key "apiTestCaseCollection" fs1))
               ++ flat_map ids rest
               ++ ids (JObj (drop_key "items" (drop_key "children" rfs1)))).
  assert (ids (JObj fs) ≡ₚ base ++ flat_map ids items ++ flat_map ids children) as Hinit.
  { rewrite <- Hfs1, Hfs1', <- Hcoll1. subst base.
    change (ids (JArr (JObj rfs :: rest))) with (ids (JObj rfs) ++ flat_map ids rest).
    rewrite <- Hrfs1, (ids_root_get rfs1 children items Hitems Hchildren).
    rewrite <- !(assoc app). apply Permutation_app_head.
    rewrite (Permutation_app_comm (flat_map ids rest)). by rewrite <- !(assoc app). }
  assert (ids_invariant base (MState m0 items children maps)) as Hinv.
  { split; unfold state_ids; cbn [st_items st_children st_merger].
    - by rewrite <- Hinit.
    - intros x Hx. rewrite <- Hinit in Hx. subst m0. cbn [st_merger usedIds].
      apply collectUsedIds_ids; [done..|]. by intros ->. }
  apply (merge_all_invariant base T _ st Hall HT) in Hinv as [Hnd _].
  rewrite ids_obj_set by done.
  change (ids (JArr (?x :: rest))) with (ids x ++ flat_map ids rest).
  rewrite ids_root.
  rewrite (sort_items_perm _ _ Hsi), (sort_folders_ids _ _ Hsc).
  unfold state_ids in Hnd. subst base.
  eapply NoDup_Permutation_proper; [|exact Hnd].
  rewrite <- !(assoc app). apply Permutation_app_head.
  rewrite (Permutation_app_comm (flat_map ids rest)). by rewrite <- !(assoc app).
Qed.

(** C1, as amended.  When the existing collection is a JavaScript value
    (distinct keys in every object) none of whose numeric ids occurs twice
    or is 0, and no incoming test case carries the same numeric id twice,
    every numeric id of the merged document is unique in it. *)
Theorem merge_ids_unique (C d : json) (T : list json) :
  distinct_keys C = true → NoDup (ids C) → 0 ∉ ids C →
  Forall (λ t, NoDup (ids t)) T →
  merge C T = Some d → NoDup (ids d).
Proof.
  intros Hwf HC H0 HT. apply mergeIntoApidog_ids_unique; [done..|].
  unfold loadTestCases. apply Forall_forall. intros t [_ Ht]%list_elem_of_filter.
  rewrite Forall_forall in HT. by apply HT.
Qed.

Lemma merge_ids_unique_witness :
  distinct_keys collection_7 = true ∧ NoDup (ids collection_7) ∧
  0 ∉ ids collection_7 ∧ Forall (λ t, NoDup (ids t)) [case_7_8] ∧
  merge collection_7 [case_7_8] = Some merged_7_8 ∧ NoDup (ids merged_7_8).
Proof.
  assert (distinct_keys collection_7 = true) as H1 by reflexivity.
  assert (NoDup (ids collection_7)) as H2 by (vm_compute; apply NoDup_singleton).
  assert (0 ∉ ids collection_7) as H3.
  { vm_compute. intros H. apply list_elem_of_singleton in H. discriminate H. }
  assert (Forall (λ t, NoDup (ids t)) [case_7_8]) as H4.
  { apply Forall_singleton. vm_compute. apply NoDup_cons. split.
    - intros H. apply list_elem_of_singleton in H. discriminate H.
    - apply NoDup_singleton. }
  assert (merge collection_7 [case_7_8] = Some merged_7_8) as H5
    by (vm_compute; reflexivity).
  repeat split; try assumption.
  exact (merge_ids_unique collection_7 merged_7_8 [case_7_8] H1 H2 H3 H4 H5).
Defined.

(** C1 as stated fails.  The root of the collection carries the id 7 and
    so do two steps of the incoming test case: both steps are given the
    same new id 10000000. *)
Lemma merge_ids_not_unique :
  merge collection_7 [case_7_7] = Some merged_7_7 ∧ ¬ NoDup (ids merged_7_7).
Proof.
  split; [vm_compute; reflexivity|].
  vm_compute. intros H. apply NoDup_cons in H as [_ H].
  apply NoDup_cons in H as [H _]. apply H, list_elem_of_here.
Qed.

(** *** The ids of a test case, one by one *)








(** C3, the code at the failing input.  Two folders are named A.  The
    incoming test case q is written into the first, at the index that q
    has in the second: the array gets a hole, printed as [null], and
    merging the same test case into the result stops on [item.name] of
    that [null]. *)
Theorem merge_twice_fails_on_duplicate_folders :
  merge two_folders_A [case_q_in_A] = Some merged_q_in_A ∧
  merge merged_q_in_A [case_q_in_A] = None.
Proof. split; vm_compute; reflexivity. Qed.

End MergerFacts.

(** ** The forward converter *)

Module ConverterFacts.
Import JsonFacts ApidogConverter ConverterNotions ConverterExamples.

(** *** Runs of the methods *)

Lemma bind_Ok {A B : Type} (f : A → conv B) (m : conv A) (c : converter)
    (r : B * converter) :
  (m ≫= f) c = Ok r → ∃ a c', m c = Ok (a, c') ∧ f a c' = Ok r.
Proof.
  unfold mbind, conv_mbind, conv_bind. destruct (m c) as [[a c']| |]; [|done..].
  intros H. by exists a, c'.
Qed.

Lemma ret_Ok {A : Type} (a b : A) (c c' : converter) :
  (mret a : conv A) c = Ok (b, c') → b = a ∧ c' = c.
Proof. by intros [= <- <-]. Qed.

Lemma lift_Ok {A : Type} (r : result A) (c c' : converter) (a : A) :
  lift r c = Ok (a, c') → r = Ok a ∧ c' = c.
Proof. destruct r; [|done..]. by intros [= <- <-]. Qed.

Lemma conv_flat_mapM_unfold {A B : Type} (f : A → conv (list B)) (x : A) (l : list A) :
  conv_flat_mapM f (x :: l)
  = conv_bind (λ ys, conv_bind (λ zs, conv_ret (ys ++ zs)) (conv_flat_mapM f l)) (f x).
Proof. reflexivity. Qed.

Lemma conv_flat_mapM_cons {A B : Type} (f : A → conv (list B)) (x : A) (l : list A)
    (c c' : converter) (r : list B) :
  conv_flat_mapM f (x :: l) c = Ok (r, c') →
  ∃ r1 c1 r2, f x c = Ok (r1, c1) ∧ conv_flat_mapM f l c1 = Ok (r2, c') ∧ r = r1 ++ r2.
Proof.
  rewrite conv_flat_mapM_unfold.
  unfold conv_bind at 1. destruct (f x c) as [[r1 c1]| |]; [|done..].
  unfold conv_bind at 1.
  destruct (conv_flat_mapM f l c1) as [[r2 c2]| |] eqn:E; [|done..].
  intros [= <- <-]. by exists r1, c1, r2.
Qed.

Lemma conv_flat_mapM_app {A B : Type} (f : A → conv (list B)) (l1 l2 : list A)
    (c c' : converter) (r : list B) :
  conv_flat_mapM f (l1 ++ l2) c = Ok (r, c') →
  ∃ r1 c1 r2, conv_flat_mapM f l1 c = Ok (r1, c1)
              ∧ conv_flat_mapM f l2 c1 = Ok (r2, c') ∧ r = r1 ++ r2.
Proof.
  revert c r. induction l1 as [|x l1 IH]; intros c r H.
  - exists [], c, r. by repeat split.
  - simpl in H. apply conv_flat_mapM_cons in H as (rx & cx & rr & Hx & Hr & ->).
    apply IH in Hr as (r1 & c1 & r2 & H1 & H2 & ->).
    exists (rx ++ r1), c1, r2. split; [|by rewrite (assoc app)].
    rewrite conv_flat_mapM_unfold. unfold conv_bind at 1. rewrite Hx.
    unfold conv_bind at 1. by rewrite H1.
Qed.

(** *** What a method leaves alone *)

Section Frames.

Context (R : relation converter) `{!PreOrder R}.
Hypothesis R_generateId : preserves R generateId.

Lemma preserves_ret {A : Type} (a : A) : preserves R (mret a).
Proof. intros c b c' [-> ->]%ret_Ok. reflexivity. Qed.

Lemma preserves_lift {A : Type} (r : result A) : preserves R (lift r).
Proof. intros c b c' [_ ->]%lift_Ok. reflexivity. Qed.

Lemma preserves_this : preserves R this.
Proof. intros c b c' [= <- <-]. reflexivity. Qed.

Lemma preserves_bind {A B : Type} (m : conv A) (f : A → conv B) :
  preserves R m → (∀ a, preserves R (f a)) → preserves R (m ≫= f).
Proof.
  intros Hm Hf c b c' (a & c1 & H1 & H2)%bind_Ok.
  transitivity c1; [by eapply Hm|by eapply Hf].
Qed.

Ltac frame :=
  repeat first
    [ solve [match goal with H : _ |- _ => apply H end]
    | apply preserves_ret
    | apply preserves_lift
    | apply preserves_this
    | apply preserves_bind; [|intros ?]
    | match goal with
      | |- preserves _ (match ?x with _ => _ end) => destruct x
      end ].

Lemma preserves_custom_id : preserves R custom_id.
Proof. unfold custom_id. frame. Qed.

Lemma preserves_string_id : preserves R string_id.
Proof. unfold string_id. frame. Qed.

Lemma preserves_apply_overrides (test : jsval → json → result bool) (extra : obj)
    (params overrides : list json) :
  preserves R (apply_overrides test extra params overrides).
Proof.
  revert params. induction overrides as [|o r IH]; intros params; simpl; [frame|].
  apply preserves_bind; [|done].
  unfold apply_override. pose proof preserves_custom_id. frame.
Qed.

Lemma preserves_override_parameters (step : json) (p : parameters) :
  preserves R (override_parameters step p).
Proof.
  unfold override_parameters.
  repeat (apply preserves_bind; [apply preserves_apply_overrides|intros ?]).
  frame.
Qed.

Lemma preserves_apply_user_agent (step : json) (headers : list json) :
  preserves R (apply_user_agent step headers).
Proof. unfold apply_user_agent. pose proof preserves_custom_id. frame. Qed.

Lemma preserves_apply_form_fields (st : list json * list json) (fields : list json) :
  preserves R (apply_form_fields st fields).
Proof.
  revert st. induction fields as [|o r IH]; intros st; simpl; [frame|].
  apply preserves_bind; [|done].
  unfold apply_form_field. pose proof preserves_custom_id. frame.
Qed.

Lemma preserves_override_form_data (step : json) (rb : request_body) :
  preserves R (override_form_data step rb).
Proof.
  unfold override_form_data. pose proof preserves_apply_form_fields. frame.
Qed.

Lemma preserves_response_id (step api : json) : preserves R (response_id step api).
Proof. unfold response_id. frame. Qed.

Lemma preserves_createBasicHttpStep (step parentModuleId : json) :
  preserves R (createBasicHttpStep step parentModuleId).
Proof.
  unfold createBasicHttpStep.
  pose proof preserves_override_form_data. pose proof preserves_override_parameters.
  pose proof preserves_apply_user_agent. frame.
Qed.

Lemma preserves_convertHttpStep (step parentModuleId : json) :
  (∀ ref params, preserves R (write_request_parameters ref params)) →
  preserves R (convertHttpStep step parentModuleId).
Proof.
  intros Hw. unfold convertHttpStep.
  pose proof preserves_override_form_data. pose proof preserves_override_parameters.
  pose proof preserves_apply_user_agent. pose proof preserves_response_id.
  pose proof preserves_createBasicHttpStep. frame.
Qed.



End Frames.



Lemma same_declarations_preorder : PreOrder same_declarations.
Proof.
  split.
  - by intros c.
  - intros c1 c2 c3 (? & ? & ? & ? & H12) (? & ? & ? & ? & H23).
    repeat split; try congruence; destruct (H12 ref) as (? & ? & E12),
      (H23 ref) as (? & ? & E23); try congruence.
    intros k Hk. by rewrite E23, E12.
Qed.

Lemma same_declarations_generateId : preserves same_declarations generateId.
Proof. by intros c a c' [= <- <-]. Qed.

Lemma truthy_update_field (k : string) (f : json → json) (v : json) :
  truthy (Some (update_field k f v)) = truthy (Some v).
Proof. destruct v as [| | | | |fs]; try done. simpl. by destruct (obj_get k fs). Qed.

Lemma get_update_field_ne (k k' : string) (f : json → json) (v : json) :
  k' ≠ k → get k' (update_field k f v) = get k' v.
Proof.
  intros Hne. destruct v as [| | | | |fs]; try done. simpl.
  destruct (obj_get k fs); [|done]. simpl. by rewrite obj_get_obj_set_ne.
Qed.

Lemma get_update_field (k : string) (f : json → json) (v : json) :
  get k (update_field k f v) = f <$> get k v.
Proof.
  destruct v as [| | | | |fs]; try done. simpl.
  destruct (obj_get k fs) eqn:E; simpl; [|by rewrite E].
  by rewrite obj_get_obj_set_eq.
Qed.

Lemma api_of_set_request_parameters (params : list json) (item : json) :
  api_of (Some (set_request_parameters params item))
  = update_field "requestBody" (update_field "parameters" (λ _, JArr params))
      <$> api_of (Some item).
Proof.
  unfold api_of, set_request_parameters. rewrite truthy_update_field.
  destruct (truthy (Some item)); [|done]. simpl. apply get_update_field.
Qed.

Lemma same_declarations_write (ref : nat) (params : list json) :
  preserves same_declarations (write_request_parameters ref params).
Proof.
  intros c a c' [= <- <-]. repeat split; try done; unfold store_get; simpl;
    destruct (decide (ref0 = ref)) as [->|Hne];
    rewrite ?list_lookup_alter_eq, ?list_lookup_alter_ne by done; try done.
  - destruct (apiStore c !! ref); [|done]. apply truthy_update_field.
  - destruct (apiStore c !! ref) as [item|]; [|done]. simpl.
    rewrite api_of_set_request_parameters.
    destruct (api_of (Some item)); [|done]. apply truthy_update_field.
  - intros k Hk. destruct (apiStore c !! ref) as [item|]; [|done]. simpl.
    rewrite api_of_set_request_parameters.
    destruct (api_of (Some item)); [|done]. simpl. by apply get_update_field_ne.
Qed.

Lemma convertHttpStep_same_declarations (step parentModuleId : json) :
  preserves same_declarations (convertHttpStep step parentModuleId).
Proof.
  apply preserves_convertHttpStep;
    [apply same_declarations_preorder|apply same_declarations_generateId
    |apply same_declarations_write].
Qed.

(** *** The resolution of a step after a conversion *)

Section Resolution.

Context (c c' : converter) (Hsame : same_declarations c c').

Lemma same_truthy_item (ref : nat) : truthy (store_get c' ref) = truthy (store_get c ref).
Proof. destruct Hsame as (_ & _ & _ & _ & H). apply H. Qed.

Lemma same_truthy_api (ref : nat) :
  truthy (api_of (store_get c' ref)) = truthy (api_of (store_get c ref)).
Proof. destruct Hsame as (_ & _ & _ & _ & H). apply H. Qed.

Lemma same_api_field (ref : nat) (k : string) :
  k ≠ "requestBody" →
  getv k (api_of (store_get c' ref)) = getv k (api_of (store_get c ref)).
Proof. destruct Hsame as (_ & _ & _ & _ & H). apply H. Qed.

Lemma same_apiByPath : apiByPath c' = apiByPath c.
Proof. apply Hsame. Qed.

Lemma same_apiDefinitions : apiDefinitions c' = apiDefinitions c.
Proof. apply Hsame. Qed.

Lemma same_findApiByMethodAndPath (method apiPath : json) :
  findApiByMethodAndPath c' method apiPath = findApiByMethodAndPath c method apiPath.
Proof.
  unfold findApiByMethodAndPath. rewrite same_apiByPath.
  destruct (truthy (Some apiPath)); [|done]. f_equal.
  apply find_ext. intros [key ref]. cbn [snd].
  by rewrite same_truthy_api, !same_api_field.
Qed.

Lemma same_findApiByName (name folderPath : json) :
  findApiByName c' name folderPath = findApiByName c name folderPath.
Proof.
  unfold findApiByName. rewrite same_apiByPath, same_apiDefinitions.
  destruct (alist_get _ (apiByPath c)) as [ref|]; simpl; [|done].
  by rewrite same_truthy_item.
Qed.

Lemma same_findApiByNameAndPath (name expectedPath folderPath : json) :
  findApiByNameAndPath c' name expectedPath folderPath
  = findApiByNameAndPath c name expectedPath folderPath.
Proof.
  unfold findApiByNameAndPath. rewrite same_apiDefinitions, same_findApiByName.
  destruct (truthy (Some folderPath)).
  - destruct (findApiByName c name folderPath) as [[ref|]| |]; simpl; try done.
    + rewrite same_truthy_api, same_api_field by done.
      destruct (_ && _); simpl; [done|].
      destruct (string_key name); simpl; try done.
      destruct (alist_get _ _) as [[?|entries]|]; try done.
      rewrite (find_ext _ (λ entry : nat * string,
                 truthy (api_of (store_get c entry.1))
                 && strict_eq (getv "path" (api_of (store_get c entry.1)))
                      (Some expectedPath)))
        by (intros ?; by rewrite same_truthy_api, same_api_field).
      destruct entries as [|entry ?]; [done|]. by rewrite same_truthy_item.
    + destruct (string_key name); simpl; try done.
      destruct (alist_get _ _) as [[?|entries]|]; try done.
      rewrite (find_ext _ (λ entry : nat * string,
                 truthy (api_of (store_get c entry.1))
                 && strict_eq (getv "path" (api_of (store_get c entry.1)))
                      (Some expectedPath)))
        by (intros ?; by rewrite same_truthy_api, same_api_field).
      destruct entries as [|entry ?]; [done|]. by rewrite same_truthy_item.
  - simpl. destruct (string_key name); simpl; try done.
    destruct (alist_get _ _) as [[?|entries]|]; try done.
    rewrite (find_ext _ (λ entry : nat * string,
               truthy (api_of (store_get c entry.1))
               && strict_eq (getv "path" (api_of (store_get c entry.1)))
                    (Some expectedPath)))
      by (intros ?; by rewrite same_truthy_api, same_api_field).
    destruct entries as [|entry ?]; [done|]. by rewrite same_truthy_item.
Qed.

Lemma same_resolve_api (step : json) : resolve_api c' step = resolve_api c step.
Proof.
  unfold resolve_api. rewrite same_findApiByMethodAndPath, same_findApiByNameAndPath.
  destruct (if truthy _ then _ else _); [done|].
  destruct (findApiByNameAndPath _ _ _ _) as [[ref|]| |]; simpl; try done.
  by rewrite same_truthy_api.
Qed.

End Resolution.

(** *** The declared parameters of the API items *)

(** C9.  The conversion of an http step, when it returns, leaves the
    declared parameter lists of every API item as they were: a later step
    resolves to the same item as it would have before, and reads the same
    declared [query], [path], [header] and [cookie] lists from it. *)
Theorem convertHttpStep_keeps_declared_parameters (step parentModuleId : json)
    (c c' : converter) (d : delayed) :
  convertHttpStep step parentModuleId c = Ok (d, c') →
  (∀ ref k, declared (default JNull (api_of (store_get c' ref))) k
            = declared (default JNull (api_of (store_get c ref))) k) ∧
  (∀ later, resolve_api c' later = resolve_api c later).
Proof.
  intros Hrun. apply convertHttpStep_same_declarations in Hrun. split.
  - intros ref k. unfold declared.
    assert (get "parameters" (default JNull (api_of (store_get c' ref)))
            = get "parameters" (default JNull (api_of (store_get c ref)))) as ->; [|done].
    pose proof (same_api_field c c' Hrun ref "parameters" ltac:(done)) as H.
    by destruct (api_of (store_get c' ref)), (api_of (store_get c ref)).
  - intros later. by apply same_resolve_api.
Qed.

Lemma convertHttpStep_keeps_declared_parameters_witness :
  ∃ d c',
    convertHttpStep search_with_file default_module loaded = Ok (d, c') ∧
    apiStore c' ≠ apiStore loaded ∧
    (∀ ref k, declared (default JNull (api_of (store_get c' ref))) k
              = declared (default JNull (api_of (store_get loaded ref))) k) ∧
    (∀ later, resolve_api c' later = resolve_api loaded later).
Proof.
  eexists _, _. split; [vm_compute; reflexivity|]. split; [by vm_compute|].
  eapply (convertHttpStep_keeps_declared_parameters search_with_file default_module loaded).
  vm_compute. reflexivity.
Defined.

(** *** Steps whose target is not found *)

(** C8, the code at the failing input.  In a scenario that names no
    source collection, a link step or a reference by name stops the
    conversion of the whole scenario with a TypeError: the maps of test
    cases are created by [loadSourceApidog] only. *)
Theorem unresolved_step_aborts_without_source (randomUUID : nat → string)
    (loadSourceApidog : json → converter → result converter) :
  convert randomUUID loadSourceApidog link_then_delay constructor = TypeError ∧
  convert randomUUID loadSourceApidog ref_then_delay constructor = TypeError.
Proof. split; reflexivity. Qed.

(** *** Overrides that remove a parameter *)

Lemma findIndex_Some (test : json → result bool) (l : list json) (i : nat) :
  findIndex test l = Ok (Some i) →
  ∃ p, l !! i = Some p ∧ test p = Ok true.
Proof.
  revert i. induction l as [|x l IH]; intros i; [done|]. simpl.
  intros (b & Hb & H)%result_bind_Ok. destruct b.
  - injection H as <-. by exists x.
  - apply result_bind_Ok in H as ([j|] & Hj & H); [|done].
    injection H as <-. by apply IH.
Qed.

Lemma findIndex_None (test : json → result bool) (l : list json) :
  findIndex test l = Ok None → Forall (λ p, test p = Ok false) l.
Proof.
  induction l as [|x l IH]; [done|]. simpl.
  intros (b & Hb & H)%result_bind_Ok. destruct b; [done|].
  apply result_bind_Ok in H as ([j|] & Hj & H); [done|].
  constructor; auto.
Qed.

Section Count.

Context (foo : string).

Lemma name_is_named (p : json) (b : bool) :
  name_is (Some (JStr foo)) p = Ok b → named foo p = b.
Proof. destruct p; try done. by intros [= <-]. Qed.

Lemma name_is_same (paramName : jsval) (p : json) :
  name_is paramName p = Ok true → named foo p = true → paramName = Some (JStr foo).
Proof.
  destruct p; try done. simpl. unfold named. simpl.
  intros [= H1%strict_eq_true] H2%strict_eq_true. congruence.
Qed.

Lemma named_set_value (v p : json) : named foo (set_value v p) = named foo p.
Proof.
  destruct p; try done. unfold named. simpl.
  by rewrite !obj_get_obj_set_ne.
Qed.

Lemma named_added_param (id : json) (paramName : jsval) (v : json) :
  named foo (added_param id paramName v []) = strict_eq paramName (Some (JStr foo)).
Proof. by destruct paramName. Qed.

Lemma count_none (l : list json) :
  Forall (λ p, name_is (Some (JStr foo)) p = Ok false) l → count_named foo l = 0%nat.
Proof.
  unfold count_named. induction 1 as [|x l Hx _ IH]; [done|].
  rewrite filter_cons_False; [done|]. by rewrite (name_is_named _ _ Hx).
Qed.

Lemma count_zero (l : list json) :
  count_named foo l = 0%nat → Forall (λ p, named foo p = false) l.
Proof.
  unfold count_named. induction l as [|x l IH]; [done|]. destruct (named foo x) eqn:E.
  - by rewrite filter_cons_True.
  - rewrite filter_cons_False by congruence. auto.
Qed.

Lemma count_delete (l : list json) (i : nat) (p : json) :
  l !! i = Some p →
  count_named foo l = ((if named foo p then 1 else 0) + count_named foo (delete i l))%nat.
Proof.
  unfold count_named. revert i. induction l as [|x l IH]; intros [|i] H; try done.
  - injection H as ->. simpl. destruct (named foo p) eqn:E.
    + by rewrite filter_cons_True.
    + by rewrite filter_cons_False by congruence.
  - simpl in H. cbn [delete list_delete]. destruct (named foo x) eqn:E.
    + rewrite !filter_cons_True by done. simpl. rewrite (IH i H).
      by destruct (named foo p).
    + rewrite !filter_cons_False by congruence. by apply IH.
Qed.

Lemma count_alter (f : json → json) (l : list json) (i : nat) :
  (∀ p, named foo (f p) = named foo p) → count_named foo (alter f i l) = count_named foo l.
Proof.
  unfold count_named. intros Hf. revert i. induction l as [|x l IH]; intros [|i]; try done.
  - change (alter f 0%nat (x :: l)) with (f x :: l). destruct (named foo x) eqn:E.
    + by rewrite !filter_cons_True by (by rewrite ?Hf).
    + by rewrite !filter_cons_False by (rewrite ?Hf; congruence).
  - change (alter f (S i) (x :: l)) with (x :: alter f i l).
    destruct (named foo x) eqn:E.
    + rewrite !filter_cons_True by done. simpl. by rewrite IH.
    + rewrite !filter_cons_False by congruence. apply IH.
Qed.

Lemma count_snoc (l : list json) (x : json) :
  count_named foo (l ++ [x]) = (count_named foo l + (if named foo x then 1 else 0))%nat.
Proof.
  unfold count_named. rewrite filter_app, length_app. f_equal. destruct (named foo x) eqn:E.
  - by rewrite filter_cons_True.
  - by rewrite filter_cons_False by congruence.
Qed.


Lemma apply_override_count (params params' : list json) (o : json) (c c' : converter) :
  apply_override name_is [] params o c = Ok (params', c') →
  (count_named foo params ≤ 1 → count_named foo params' ≤ 1)%nat ∧
  (get "name" o = Some (JStr foo) → removes o = true →
   (count_named foo params ≤ 1)%nat → count_named foo params' = 0%nat) ∧
  ((get "name" o = Some (JStr foo) → removes o = true) →
   count_named foo params = 0%nat → count_named foo params' = 0%nat).
Proof.
  unfold apply_override. intros H.
  apply bind_Ok in H as (pn & ? & [Hn ->]%lift_Ok & H).
  apply bind_Ok in H as (pv & ? & [Hv ->]%lift_Ok & H).
  apply bind_Ok in H as (idx & ? & [Hidx ->]%lift_Ok & H).
  assert (pn = get "name" o) as -> by (destruct o; try done; by injection Hn).
  assert (pv = get "value" o) as Epv by (destruct o; try done; by injection Hv).
  unfold removes. rewrite <- Epv. clear Hn Hv Epv.
  assert (∀ i p, params !! i = Some p → name_is (get "name" o) p = Ok true →
          count_named foo params
          = ((if strict_eq (get "name" o) (Some (JStr foo)) then 1 else 0)
             + count_named foo (delete i params))%nat) as Hdel.
  { intros i p Hi Hp. rewrite (count_delete _ _ _ Hi).
    destruct (named foo p) eqn:E.
    - rewrite (name_is_same _ _ Hp E). cbn [strict_eq]. by rewrite String.eqb_refl.
    - destruct (strict_eq (get "name" o) _) eqn:E'; [|done].
      apply strict_eq_true in E'. rewrite E' in Hp.
      apply name_is_named in Hp. congruence. }
  assert (idx = None → get "name" o = Some (JStr foo) → count_named foo params = 0%nat)
    as Hnone.
  { intros -> E. rewrite E in Hidx. by apply count_none, findIndex_None. }
  destruct idx as [i|].
  - apply findIndex_Some in Hidx as (p & Hi & Hp). specialize (Hdel i p Hi Hp).
    assert (count_named foo (alter (set_value (default JNull pv)) i params)
            = count_named foo params) as Halt
      by (apply count_alter; intros; apply named_set_value).
    destruct pv as [[]|]; apply ret_Ok in H as [-> _];
      try (rewrite (count_alter _ _ _ (named_set_value _)); by auto).
    + repeat split; intros; try lia.
      revert Hdel. rewrite H. cbn [strict_eq]. rewrite String.eqb_refl. lia.
    + repeat split; intros; try lia.
      revert Hdel. rewrite H. cbn [strict_eq]. rewrite String.eqb_refl. lia.
  - specialize (Hnone eq_refl). clear Hdel.
    assert (∀ id v,
              (count_named foo params ≤ 1 →
               count_named foo (params ++ [added_param id (get "name" o) v []]) ≤ 1)%nat ∧
              (get "name" o ≠ Some (JStr foo) → count_named foo params = 0%nat →
               count_named foo (params ++ [added_param id (get "name" o) v []]) = 0%nat))
      as Hadd.
    { intros id v. rewrite count_snoc, named_added_param.
      destruct (strict_eq (get "name" o) _) eqn:E.
      - apply strict_eq_true in E. rewrite (Hnone E). split; [done|]. congruence.
      - split; intros; lia. }
    destruct pv as [[]|];
      try (apply ret_Ok in H as [-> _]; repeat split; by auto);
      apply bind_Ok in H as (id & ? & _ & H); apply ret_Ok in H as [-> _];
      (split; [apply Hadd|split; [done|]]);
      intros Hno; apply Hadd; intros E; by specialize (Hno E).
Qed.

Lemma apply_overrides_count (overrides params params' : list json) (c c' : converter) :
  apply_overrides name_is [] params overrides c = Ok (params', c') →
  (count_named foo params ≤ 1 → count_named foo params' ≤ 1)%nat ∧
  (Forall (λ o, get "name" o = Some (JStr foo) → removes o = true) overrides →
   count_named foo params = 0%nat → count_named foo params' = 0%nat).
Proof.
  revert params c. induction overrides as [|o r IH]; intros params c; simpl.
  - by intros [-> _]%ret_Ok.
  - intros (mid & c1 & Ho & Hr)%bind_Ok.
    apply apply_override_count in Ho as (Ho1 & _ & Ho0).
    apply IH in Hr as (Hr1 & Hr0). split; [auto|].
    intros [Hfirst Hrest]%Forall_cons. auto.
Qed.

Lemma apply_overrides_app (test : jsval → json → result bool) (extra : obj)
    (l1 l2 params params' : list json) (c c' : converter) :
  apply_overrides test extra params (l1 ++ l2) c = Ok (params', c') →
  ∃ mid c1, apply_overrides test extra params l1 c = Ok (mid, c1)
            ∧ apply_overrides test extra mid l2 c1 = Ok (params', c').
Proof.
  revert params c. induction l1 as [|o l1 IH]; intros params c; simpl.
  - intros H. by exists params, c.
  - intros (p1 & c1 & Ho & Hr)%bind_Ok. apply IH in Hr as (mid & c2 & H1 & H2).
    exists mid, c2. split; [|done].
    unfold mbind, conv_mbind, conv_bind. by rewrite Ho.
Qed.

(** After an override that removes [foo], and overrides that do not set
    it again, no parameter is named [foo]. *)
Lemma apply_overrides_removes (before after params params' : list json) (o : json)
    (c c' : converter) :
  (count_named foo params ≤ 1)%nat →
  get "name" o = Some (JStr foo) → removes o = true →
  Forall (λ o', get "name" o' = Some (JStr foo) → removes o' = true) after →
  apply_overrides name_is [] params (before ++ o :: after) c = Ok (params', c') →
  Forall (λ p, named foo p = false) params'.
Proof.
  intros Hcount Hname Hremoves Hafter Hrun.
  apply apply_overrides_app in Hrun as (mid & c1 & Hbefore & Hrun).
  simpl in Hrun. apply bind_Ok in Hrun as (mid' & c2 & Ho & Hrun).
  apply apply_overrides_count in Hbefore as [Hmid _].
  apply apply_override_count in Ho as (_ & Hzero & _).
  apply apply_overrides_count in Hrun as [_ Hrest].
  apply count_zero. auto.
Qed.

End Count.

(** The query parameters of a step on a resolved API: the declared list
    after the overrides of the step. *)
Lemma convertHttpStep_query (step parentModuleId : json) (c c' : converter)
    (d : delayed) (ref : nat) :
  resolve_api c step = Ok (Some ref) →
  convertHttpStep step parentModuleId c = Ok (d, c') →
  ∃ q0 q c1 c2,
    declared (default JNull (api_of (store_get c ref))) "query" = Ok q0 ∧
    apply_overrides name_is [] q0 (override_list "query_params_override" step) c1
    = Ok (q, c2) ∧
    ∀ store, printed_query (d store) = Some (JArr q).
Proof.
  intros Hres Hrun. unfold convertHttpStep in Hrun.
  apply bind_Ok in Hrun as (? & ? & [= <- <-] & Hrun).
  rewrite Hres in Hrun.
  apply bind_Ok in Hrun as (? & ? & [[= <-] ->]%lift_Ok & Hrun).
  apply bind_Ok in Hrun as (responseId & c1 & _ & Hrun).
  apply bind_Ok in Hrun as ([rb0 shared] & ? & [_ ->]%lift_Ok & Hrun).
  apply bind_Ok in Hrun as (id & c2 & _ & Hrun).
  apply bind_Ok in Hrun as (q0 & ? & [Hq ->]%lift_Ok & Hrun).
  apply bind_Ok in Hrun as (h0 & ? & [_ ->]%lift_Ok & Hrun).
  apply bind_Ok in Hrun as (ck0 & ? & [_ ->]%lift_Ok & Hrun).
  apply bind_Ok in Hrun as (pa0 & ? & [_ ->]%lift_Ok & Hrun).
  apply bind_Ok in Hrun as (pre & ? & [_ ->]%lift_Ok & Hrun).
  apply bind_Ok in Hrun as (post & ? & [_ ->]%lift_Ok & Hrun).
  apply bind_Ok in Hrun as (apiId & ? & [_ ->]%lift_Ok & Hrun).
  apply bind_Ok in Hrun as (fields & ? & [_ ->]%lift_Ok & Hrun).
  apply bind_Ok in Hrun as (rb & c3 & _ & Hrun).
  apply bind_Ok in Hrun as (? & c4 & _ & Hrun).
  apply bind_Ok in Hrun as (params & c5 & Hparams & Hrun).
  apply bind_Ok in Hrun as (headers & c6 & _ & Hrun).
  apply ret_Ok in Hrun as [-> ->].
  unfold override_parameters in Hparams.
  apply bind_Ok in Hparams as (q & c7 & Hquery & Hparams).
  apply bind_Ok in Hparams as (pa & c8 & _ & Hparams).
  apply bind_Ok in Hparams as (ck & c9 & _ & Hparams).
  apply bind_Ok in Hparams as (h & c10 & _ & Hparams).
  apply ret_Ok in Hparams as [-> ->].
  by exists q0, q, c4, c7.
Qed.

(** C5, as amended.  When the resolved API declares at most one query
    parameter named [foo], the overrides of the step have an entry for
    [foo] whose value is [null] or absent, and no later entry gives [foo]
    a value, the printed step has no query parameter named [foo]. *)
Theorem null_override_removes_parameter (foo : string) (step parentModuleId : json)
    (c c' : converter) (d : delayed) (ref : nat)
    (declared_query before after : list json) (o : json) :
  resolve_api c step = Ok (Some ref) →
  declared (default JNull (api_of (store_get c ref))) "query" = Ok declared_query →
  (count_named foo declared_query ≤ 1)%nat →
  get "query_params_override" step = Some (JArr (before ++ o :: after)) →
  get "name" o = Some (JStr foo) → removes o = true →
  Forall (λ o', get "name" o' = Some (JStr foo) → removes o' = true) after →
  convertHttpStep step parentModuleId c = Ok (d, c') →
  ∀ store, ∃ q, printed_query (d store) = Some (JArr q)
                ∧ Forall (λ p, named foo p = false) q.
Proof.
  intros Hres Hdeclared Hcount Hoverrides Hname Hremoves Hafter Hrun store.
  destruct (convertHttpStep_query _ _ _ _ _ _ Hres Hrun)
    as (q0 & q & c1 & c2 & Hq0 & Hq & Hprinted).
  exists q. split; [done|].
  unfold override_list in Hq. rewrite Hoverrides in Hq.
  rewrite Hdeclared in Hq0. injection Hq0 as <-.
  by eapply apply_overrides_removes.
Qed.

Lemma null_override_removes_parameter_witness :
  ∃ d c',
    resolve_api loaded search_without_foo = Ok (Some 0%nat) ∧
    declared (default JNull (api_of (store_get loaded 0))) "query"
    = Ok [param "foo" "bar"; param "page" "1"] ∧
    (count_named "foo" [param "foo" "bar"; param "page" "1"] ≤ 1)%nat ∧
    get "query_params_override" search_without_foo = Some (JArr ([] ++ remove_foo :: [])) ∧
    get "name" remove_foo = Some (JStr "foo") ∧ removes remove_foo = true ∧
    Forall (λ o', get "name" o' = Some (JStr "foo") → removes o' = true) [] ∧
    convertHttpStep search_without_foo default_module loaded = Ok (d, c') ∧
    ∀ store, ∃ q, printed_query (d store) = Some (JArr q)
                  ∧ Forall (λ p, named "foo" p = false) q.
Proof.
  eexists _, _. do 7 (split; [by vm_compute|]).
  split; [vm_compute; reflexivity|].
  eapply (null_override_removes_parameter "foo" search_without_foo default_module loaded
            _ _ 0 [param "foo" "bar"; param "page" "1"] [] [] remove_foo);
    by vm_compute.
Defined.

(** On an API that declares [foo] twice, the override [{name: foo, value:
    null}] leaves the second declaration in the printed step. *)
Lemma null_override_leaves_second_declaration :
  ∃ d c' q p,
    resolve_api loaded_foo_twice search_without_foo = Ok (Some 0%nat) ∧
    declared (default JNull (api_of (store_get loaded_foo_twice 0))) "query"
    = Ok [param "foo" "bar"; param "foo" "baz"] ∧
    get "query_params_override" search_without_foo = Some (JArr [remove_foo]) ∧
    convertHttpStep search_without_foo default_module loaded_foo_twice = Ok (d, c') ∧
    printed_query (d (apiStore c')) = Some (JArr q) ∧
    p ∈ q ∧ named "foo" p = true.
Proof.
  eexists _, _, _, (param "foo" "baz"). do 3 (split; [by vm_compute|]).
  split; [vm_compute; reflexivity|]. split; [vm_compute; reflexivity|].
  split; [|done]. apply list_elem_of_here.
Qed.

(** *** Overrides that set a parameter *)

Lemma name_is_true (paramName : jsval) (p : json) :
  name_is paramName p = Ok true → get "name" p = paramName.
Proof. destruct p; try done. by intros [= ?%strict_eq_true]. Qed.

Lemma header_name_is_true (paramName : jsval) (p : json) :
  header_name_is paramName p = Ok true →
  ∃ s k, get "name" p = Some (JStr s) ∧ paramName = Some (JStr k) ∧ same_header s k.
Proof.
  unfold header_name_is. destruct p as [| | | | |fs]; try done. cbn [get].
  destruct (obj_get "name" fs) as [[| | |s| |]|]; cbn [truthy]; try done.
  - by destruct b.
  - by destruct (negb _).
  - destruct (String.eqb s ""); [done|].
    destruct paramName as [[| | |k| |]|]; try done.
    intros [= E%String.eqb_eq]. by exists s, k.
Qed.

Lemma elem_of_delete_ne (l : list json) (i : nat) (p q : json) :
  p ∈ l → l !! i = Some q → p ≠ q → p ∈ delete i l.
Proof.
  intros [j Hj]%list_elem_of_lookup Hi Hne.
  assert (j ≠ i) by congruence.
  apply list_elem_of_lookup.
  destruct (decide (j < i)%nat).
  - exists j. by rewrite list_lookup_delete_lt by lia.
  - exists (pred j). rewrite list_lookup_delete_ge by lia.
    by replace (S (pred j)) with j by lia.
Qed.

Lemma elem_of_alter_ne (f : json → json) (l : list json) (i : nat) (p q : json) :
  p ∈ l → l !! i = Some q → p ≠ q → p ∈ alter f i l.
Proof.
  intros [j Hj]%list_elem_of_lookup Hi Hne.
  assert (j ≠ i) by congruence.
  apply list_elem_of_lookup. exists j. by rewrite list_lookup_alter_ne.
Qed.

(** The loop for a test that finds the parameters of the same name, for
    a notion [same] of the same name: that of [name_is] is equality, that
    of [header_name_is] equality but for the case. *)
Section Setting.
Variable test : jsval → json → result bool.
Variable extra : obj.
Variable same : string → string → Prop.
Hypothesis same_refl : ∀ n, same n n.
Hypothesis found_carries :
  ∀ n q, test (Some (JStr n)) q = Ok true → (∃ fs, q = JObj fs) ∧ carries same n q.
Hypothesis found_other :
  ∀ pn n q, test pn q = Ok true → carries same n q →
            ∃ k, pn = Some (JStr k) ∧ same k n.

Lemma is_set_set_value (n : string) (v : json) (fs : obj) :
  carries same n (JObj fs) → is_set same n v (set_value v (JObj fs)).
Proof.
  intros (m & Hm & Hs). cbn [get] in Hm. split; [|split].
  - exists m. split; [|done]. cbn [set_value get].
    by rewrite !obj_get_obj_set_ne by done.
  - cbn [set_value get]. by rewrite obj_get_obj_set_ne, obj_get_obj_set_eq.
  - cbn [set_value get]. by rewrite obj_get_obj_set_eq.
Qed.

(** A parameter with the name, the value, enabled. *)
Lemma apply_override_sets (n : string) (v : json) (params params' : list json)
    (o : json) (c c' : converter) :
  apply_override test extra params o c = Ok (params', c') →
  get "name" o = Some (JStr n) → get "value" o = Some v → v ≠ JNull →
  ∃ p, p ∈ params' ∧ is_set same n v p.
Proof.
  unfold apply_override. intros H Hn Hv Hnull.
  apply bind_Ok in H as (pn & ? & [Hpn ->]%lift_Ok & H).
  apply bind_Ok in H as (pv & ? & [Hpv ->]%lift_Ok & H).
  apply bind_Ok in H as (idx & ? & [Hidx ->]%lift_Ok & H).
  assert (pn = Some (JStr n)) as -> by (destruct o; try done; simpl in *; congruence).
  assert (pv = Some v) as -> by (destruct o; try done; simpl in *; congruence).
  destruct idx as [i|].
  - apply findIndex_Some in Hidx as (p & Hi & Hp).
    assert (alter (set_value v) i params = params') as <-
      by (destruct v; try done; by apply ret_Ok in H as [-> _]).
    exists (set_value v p). split.
    { apply list_elem_of_lookup. exists i. by rewrite list_lookup_alter_eq, Hi. }
    destruct (found_carries _ _ Hp) as [[fs ->] Hc]. by apply is_set_set_value.
  - assert (∃ id, params ++ [added_param id (Some (JStr n)) v extra] = params')
      as [id <-].
    { destruct v; try done; apply bind_Ok in H as (id & ? & _ & H);
        apply ret_Ok in H as [-> _]; by exists id. }
    eexists. split; [apply elem_of_app; right; apply list_elem_of_here|].
    split; [|done]. exists n. by split.
Qed.

Lemma apply_override_keeps (n : string) (p : json) (params params' : list json)
    (o : json) (c c' : converter) :
  apply_override test extra params o c = Ok (params', c') →
  ¬ carries same n o →
  p ∈ params → carries same n p → p ∈ params'.
Proof.
  unfold apply_override. intros H Hn Hin Hp.
  apply bind_Ok in H as (pn & ? & [Hpn ->]%lift_Ok & H).
  apply bind_Ok in H as (pv & ? & [Hpv ->]%lift_Ok & H).
  apply bind_Ok in H as (idx & ? & [Hidx ->]%lift_Ok & H).
  assert (pn = get "name" o) as -> by (destruct o; try done; by injection Hpn).
  destruct idx as [i|].
  - apply findIndex_Some in Hidx as (q & Hi & Hq).
    assert (p ≠ q) as Hne.
    { intros ->. destruct (found_other _ _ _ Hq Hp) as (k & Hk & Hs).
      apply Hn. by exists k. }
    destruct pv as [[]|]; apply ret_Ok in H as [-> _];
      by (eapply elem_of_delete_ne || eapply elem_of_alter_ne).
  - destruct pv as [[]|]; try by apply ret_Ok in H as [-> _].
    all: apply bind_Ok in H as (id & ? & _ & H); apply ret_Ok in H as [-> _];
      apply elem_of_app; by left.
Qed.

(** The last override of a name with a value: the parameter of that name
    has this value after the loop. *)
Lemma apply_overrides_last (n : string) (v : json) (before after params params' : list json)
    (o : json) (c c' : converter) :
  apply_overrides test extra params (before ++ o :: after) c = Ok (params', c') →
  get "name" o = Some (JStr n) → get "value" o = Some v → v ≠ JNull →
  Forall (λ o', ¬ carries same n o') after →
  ∃ p, p ∈ params' ∧ is_set same n v p.
Proof.
  intros (mid & c1 & _ & H)%apply_overrides_app Hn Hv Hnull Hafter.
  simpl in H. apply bind_Ok in H as (mid' & c2 & Ho & H).
  destruct (apply_override_sets _ _ _ _ _ _ _ Ho Hn Hv Hnull) as (p & Hin & Hp).
  exists p. split; [|done]. destruct Hp as (Hpn & _).
  clear Ho. revert mid' c2 H Hin.
  induction Hafter as [|o' after Ho' _ IH]; intros mid' c2 H Hin; simpl in H.
  - by apply ret_Ok in H as [-> _].
  - apply bind_Ok in H as (mid'' & c3 & Ho & H).
    eapply IH; [done|]. by eapply apply_override_keeps.
Qed.

End Setting.

(** The two tests of the source. *)
Lemma name_is_found_carries (n : string) (q : json) :
  name_is (Some (JStr n)) q = Ok true → (∃ fs, q = JObj fs) ∧ carries eq n q.
Proof.
  intros H. pose proof (name_is_true _ _ H) as Hn.
  split; [destruct q; try done; by eexists|]. by exists n.
Qed.

Lemma name_is_found_other (pn : jsval) (n : string) (q : json) :
  name_is pn q = Ok true → carries eq n q → ∃ k, pn = Some (JStr k) ∧ k = n.
Proof.
  intros H%name_is_true (m & Hm & ->). exists n. split; [congruence|done].
Qed.

Lemma header_name_is_found_carries (n : string) (q : json) :
  header_name_is (Some (JStr n)) q = Ok true →
  (∃ fs, q = JObj fs) ∧ carries same_header n q.
Proof.
  intros H. destruct (header_name_is_true _ _ H) as (s & k & Hs & [= <-] & Hsame).
  split; [destruct q; try done; by eexists|]. by exists s.
Qed.

Lemma header_name_is_found_other (pn : jsval) (n : string) (q : json) :
  header_name_is pn q = Ok true → carries same_header n q →
  ∃ k, pn = Some (JStr k) ∧ same_header k n.
Proof.
  intros (s & k & Hs & -> & Hsame)%header_name_is_true (m & Hm & Hmn).
  exists k. split; [done|]. unfold same_header in *. congruence.
Qed.

(** The override of a name that comes last is in the list after the
    loop: for the parameters of a query, a path or a cookie, and for the
    headers. *)
Lemma apply_overrides_named (extra : obj) (n : string) (v : json)
    (before after params params' : list json) (o : json) (c c' : converter) :
  apply_overrides name_is extra params (before ++ o :: after) c = Ok (params', c') →
  get "name" o = Some (JStr n) → get "value" o = Some v → v ≠ JNull →
  Forall (λ o', get "name" o' ≠ Some (JStr n)) after →
  ∃ p, p ∈ params' ∧ get "name" p = Some (JStr n) ∧ get "value" p = Some v
       ∧ get "enable" p = Some JTrue.
Proof.
  intros H Hn Hv Hnull Hafter.
  destruct (apply_overrides_last name_is extra eq (λ n, eq_refl) name_is_found_carries
              name_is_found_other n v before after params params' o c c' H Hn Hv Hnull)
    as (p & Hin & (m & Hm & ->) & Hp).
  { eapply Forall_impl; [exact Hafter|]. intros o' Ho' (m & Hm & ->). done. }
  by exists p.
Qed.

Lemma apply_overrides_header (n : string) (v : json)
    (before after params params' : list json) (o : json) (c c' : converter) :
  apply_overrides header_name_is [] params (before ++ o :: after) c = Ok (params', c') →
  get "name" o = Some (JStr n) → get "value" o = Some v → v ≠ JNull →
  Forall (λ o', ¬ carries same_header n o') after →
  ∃ p, p ∈ params' ∧ is_set same_header n v p.
Proof.
  apply (apply_overrides_last header_name_is [] same_header (λ n, eq_refl)
           header_name_is_found_carries header_name_is_found_other).
Qed.

(** *** Link steps *)

Lemma find_app {A : Type} (f : A → bool) (l1 l2 : list A) :
  List.find f (l1 ++ l2)
  = match List.find f l1 with Some x => Some x | None => List.find f l2 end.
Proof. induction l1 as [|x l1 IH]; [done|]. simpl. by destruct (f x). Qed.

Lemma nested_steps_unfold (step : json) :
  nested_steps step
  = step :: match step with
            | JObj fs =>
                match obj_get "children" fs with
                | Some (JArr l) => flat_map nested_steps l
                | _ => []
                end
            | _ => []
            end.
Proof.
  destruct step as [| | | | |fs]; try done. simpl. f_equal.
  rewrite with_field_get. by destruct (obj_get "children" fs) as [[]|].
Qed.

Lemma first_found_find (n : json) (l : list json) :
  Forall (λ step, JNull ∉ nested_steps step →
                  findStepIn n step = Ok (List.find (numbered n) (nested_steps step))) l →
  JNull ∉ flat_map nested_steps l →
  first_found (findStepIn n) l = Ok (List.find (numbered n) (flat_map nested_steps l)).
Proof.
  induction 1 as [|x l Hx _ IH]; [done|]. cbn [flat_map first_found].
  rewrite not_elem_of_app. intros [H1 H2].
  rewrite (Hx H1), find_app. simpl.
  destruct (List.find _ (nested_steps x)); [done|]. by apply IH.
Qed.

Lemma findStepIn_find (n : json) (step : json) :
  JNull ∉ nested_steps step →
  findStepIn n step = Ok (List.find (numbered n) (nested_steps step)).
Proof.
  revert step.
  cut (∀ v,
         (JNull ∉ nested_steps v →
          findStepIn n v = Ok (List.find (numbered n) (nested_steps v))) ∧
         (∀ l, v = JArr l →
               Forall (λ step, JNull ∉ nested_steps step →
                 findStepIn n step = Ok (List.find (numbered n) (nested_steps step))) l)).
  { intros H step. apply H. }
  induction v as [| | | |l IH|fs IH] using json_nested_ind; split;
    try (by intros); try done.
  - intros H. exfalso. apply H. rewrite nested_steps_unfold. apply list_elem_of_here.
  - intros ? [= <-]. eapply Forall_impl; [apply IH|]. by intros x [Hx _].
  - rewrite nested_steps_unfold. cbn [findStepIn List.find numbered get].
    change (numbered n (JObj fs)) with (strict_eq (obj_get "number" fs) (Some n)).
    destruct (strict_eq (obj_get "number" fs) (Some n)); [done|].
    rewrite with_field_get. intros Hnull%not_elem_of_cons.
    destruct (obj_get "children" fs) as [children|] eqn:E; [|done].
    destruct children as [| | | |l|]; try done.
    apply first_found_find; [|apply Hnull].
    clear Hnull. induction fs as [|[k v] fs IHfs]; [done|].
    apply Forall_cons in IH as [[_ IHv] IH]. cbn [obj_get] in E. revert E.
    destruct (String.eqb_spec "children" k) as [<-|?]; intros E.
    + injection E as ->. by apply IHv.
    + by apply IHfs.
Qed.

Lemma findStepByNumber_find (n : json) (steps : list json) :
  JNull ∉ flat_map nested_steps steps →
  findStepByNumber (Some (JArr steps)) n
  = Ok (List.find (numbered n) (flat_map nested_steps steps)).
Proof.
  intros H. apply first_found_find; [|done].
  apply Forall_forall. intros; by apply findStepIn_find.
Qed.




Lemma bind_this {A : Type} (f : converter → conv A) (c : converter) :
  (this ≫= f) c = f c c.
Proof. reflexivity. Qed.




(** *** The printed http step *)

Lemma createBasicHttpStep_printed (step parentModuleId : json) (c c' : converter)
    (d : delayed) :
  createBasicHttpStep step parentModuleId c = Ok (d, c') →
  ∃ q c1 c2 post,
    apply_overrides name_is [] [] (override_list "query_params_override" step) c1
    = Ok (q, c2) ∧
    mergePostProcessors (js_or (get "assertions" step) (JArr []))
      (js_or (get "post_processors" step) (js_or (get "postProcessors" step) (JArr [])))
    = Ok post ∧
    ∀ store, ∃ hfs,
      get "type" (d store) = Some (JStr "http") ∧
      get "number" (d store) = Some (step_number step) ∧
      get "httpApiCase" (d store) = Some (JObj hfs) ∧
      getv "query" (obj_get "parameters" hfs) = Some (JArr q) ∧
      obj_get "postProcessors" hfs = Some (JArr post).
Proof.
  unfold createBasicHttpStep. intros Hrun.
  apply bind_Ok in Hrun as (method & ? & [_ ->]%lift_Ok & Hrun).
  apply bind_Ok in Hrun as (responseId & c1 & _ & Hrun).
  apply bind_Ok in Hrun as (id & c2 & _ & Hrun).
  apply bind_Ok in Hrun as (data & ? & [_ ->]%lift_Ok & Hrun).
  apply bind_Ok in Hrun as (pre & ? & [_ ->]%lift_Ok & Hrun).
  apply bind_Ok in Hrun as (post & ? & [Hpost ->]%lift_Ok & Hrun).
  apply bind_Ok in Hrun as (fields & ? & [_ ->]%lift_Ok & Hrun).
  apply bind_Ok in Hrun as (rb & c3 & _ & Hrun).
  apply bind_Ok in Hrun as (params & c5 & Hparams & Hrun).
  apply bind_Ok in Hrun as (headers & c6 & _ & Hrun).
  apply ret_Ok in Hrun as [-> ->].
  unfold override_parameters in Hparams.
  apply bind_Ok in Hparams as (q & c7 & Hquery & Hparams).
  apply bind_Ok in Hparams as (pa & c8 & _ & Hparams).
  apply bind_Ok in Hparams as (ck & c9 & _ & Hparams).
  apply bind_Ok in Hparams as (h & c10 & _ & Hparams).
  apply ret_Ok in Hparams as [-> ->].
  exists q, c3, c7, post. split; [done|]. split; [done|].
  intros store. eexists. by repeat split.
Qed.

Lemma convertHttpStep_printed (step parentModuleId : json) (c c' : converter)
    (d : delayed) :
  convertHttpStep step parentModuleId c = Ok (d, c') →
  ∃ q0 q c1 c2 post,
    apply_overrides name_is [] q0 (override_list "query_params_override" step) c1
    = Ok (q, c2) ∧
    mergePostProcessors (js_or (get "assertions" step) (JArr []))
      (js_or (get "post_processors" step) (js_or (get "postProcessors" step) (JArr [])))
    = Ok post ∧
    ∀ store, ∃ hfs,
      get "type" (d store) = Some (JStr "http") ∧
      get "number" (d store) = Some (step_number step) ∧
      get "httpApiCase" (d store) = Some (JObj hfs) ∧
      getv "query" (obj_get "parameters" hfs) = Some (JArr q) ∧
      obj_get "postProcessors" hfs = Some (JArr post).
Proof.
  intros Hrun. unfold convertHttpStep in Hrun.
  apply bind_Ok in Hrun as (? & ? & [= <- <-] & Hrun).
  apply bind_Ok in Hrun as (resolved & ? & [_ ->]%lift_Ok & Hrun).
  destruct resolved as [ref|].
  2: { apply createBasicHttpStep_printed in Hrun as (q & c1 & c2 & post & ?).
       by exists [], q, c1, c2, post. }
  apply bind_Ok in Hrun as (responseId & c1 & _ & Hrun).
  apply bind_Ok in Hrun as ([rb0 shared] & ? & [_ ->]%lift_Ok & Hrun).
  apply bind_Ok in Hrun as (id & c2 & _ & Hrun).
  apply bind_Ok in Hrun as (q0 & ? & [Hq ->]%lift_Ok & Hrun).
  apply bind_Ok in Hrun as (h0 & ? & [_ ->]%lift_Ok & Hrun).
  apply bind_Ok in Hrun as (ck0 & ? & [_ ->]%lift_Ok & Hrun).
  apply bind_Ok in Hrun as (pa0 & ? & [_ ->]%lift_Ok & Hrun).
  apply bind_Ok in Hrun as (pre & ? & [_ ->]%lift_Ok & Hrun).
  apply bind_Ok in Hrun as (post & ? & [Hpost ->]%lift_Ok & Hrun).
  apply bind_Ok in Hrun as (apiId & ? & [_ ->]%lift_Ok & Hrun).
  apply bind_Ok in Hrun as (fields & ? & [_ ->]%lift_Ok & Hrun).
  apply bind_Ok in Hrun as (rb & c3 & _ & Hrun).
  apply bind_Ok in Hrun as (? & c4 & _ & Hrun).
  apply bind_Ok in Hrun as (params & c5 & Hparams & Hrun).
  apply bind_Ok in Hrun as (headers & c6 & _ & Hrun).
  apply ret_Ok in Hrun as [-> ->].
  unfold override_parameters in Hparams.
  apply bind_Ok in Hparams as (q & c7 & Hquery & Hparams).
  apply bind_Ok in Hparams as (pa & c8 & _ & Hparams).
  apply bind_Ok in Hparams as (ck & c9 & _ & Hparams).
  apply bind_Ok in Hparams as (h & c10 & _ & Hparams).
  apply ret_Ok in Hparams as [-> ->].
  exists q0, q, c4, c7, post. split; [done|]. split; [done|].
  intros store. eexists. by repeat split.
Qed.

(** The request of the printed step: the four parameter lists after the
    overrides, the headers after [user_agent], and the body after the two
    body overrides. *)
Lemma convertHttpStep_request (step parentModuleId : json) (c c' : converter)
    (d : delayed) :
  convertHttpStep step parentModuleId c = Ok (d, c') →
  ∃ q0 pa0 ck0 h0 q pa ck h headers fields0 fields params0 rb c1 c2 c3 c4 c5 c6 c7 c8,
    apply_overrides name_is [] q0 (override_list "query_params_override" step) c1
    = Ok (q, c2) ∧
    apply_overrides name_is [] pa0 (override_list "path_params_override" step) c2
    = Ok (pa, c3) ∧
    apply_overrides name_is [("isDelete", JFalse)] ck0
      (override_list "cookie_params_override" step) c3
    = Ok (ck, c4) ∧
    apply_overrides header_name_is [] h0 (override_list "header_params_override" step) c4
    = Ok (h, c5) ∧
    apply_user_agent step h c6 = Ok (headers, c') ∧
    override_body_data step fields0 = Ok fields ∧
    override_form_data step (RequestBody params0 fields) c7 = Ok (rb, c8) ∧
    ∀ store, ∃ hfs P,
      get "httpApiCase" (d store) = Some (JObj hfs) ∧
      obj_get "parameters" hfs = Some (parameters_json (Parameters q headers ck pa)) ∧
      obj_get "requestBody" hfs = Some (JObj (("parameters", P) :: rb_fields rb)).
Proof.
  intros Hrun. unfold convertHttpStep in Hrun.
  apply bind_Ok in Hrun as (? & ? & [= <- <-] & Hrun).
  apply bind_Ok in Hrun as (resolved & ? & [_ ->]%lift_Ok & Hrun).
  destruct resolved as [ref|].
  - apply bind_Ok in Hrun as (responseId & c1 & _ & Hrun).
    apply bind_Ok in Hrun as ([rb0 shared] & ? & [_ ->]%lift_Ok & Hrun).
    apply bind_Ok in Hrun as (id & c2 & _ & Hrun).
    apply bind_Ok in Hrun as (q0 & ? & [Hq ->]%lift_Ok & Hrun).
    apply bind_Ok in Hrun as (h0 & ? & [_ ->]%lift_Ok & Hrun).
    apply bind_Ok in Hrun as (ck0 & ? & [_ ->]%lift_Ok & Hrun).
    apply bind_Ok in Hrun as (pa0 & ? & [_ ->]%lift_Ok & Hrun).
    apply bind_Ok in Hrun as (pre & ? & [_ ->]%lift_Ok & Hrun).
    apply bind_Ok in Hrun as (post & ? & [Hpost ->]%lift_Ok & Hrun).
    apply bind_Ok in Hrun as (apiId & ? & [_ ->]%lift_Ok & Hrun).
    apply bind_Ok in Hrun as (fields & ? & [Hfields ->]%lift_Ok & Hrun).
    apply bind_Ok in Hrun as (rb & c3 & Hrb & Hrun).
    apply bind_Ok in Hrun as (? & c4 & _ & Hrun).
    apply bind_Ok in Hrun as (params & c5 & Hparams & Hrun).
    apply bind_Ok in Hrun as (headers & c6 & Hheaders & Hrun).
    apply ret_Ok in Hrun as [-> ->].
    unfold override_parameters in Hparams.
    apply bind_Ok in Hparams as (q & c7 & Hquery & Hparams).
    apply bind_Ok in Hparams as (pa & c8 & Hpath & Hparams).
    apply bind_Ok in Hparams as (ck & c9 & Hcookie & Hparams).
    apply bind_Ok in Hparams as (h & c10 & Hheader & Hparams).
    apply ret_Ok in Hparams as [-> ->]. cbn [query header cookie path] in *.
    exists q0, pa0, ck0, h0, q, pa, ck, h, headers, (rb_fields rb0), fields,
      (rb_parameters rb0), rb, c4, c7, c8, c9, c10, c10, c2, c3.
    do 7 (split; [done|]). intros store. eexists _, _. by repeat split.
  - unfold createBasicHttpStep in Hrun.
    apply bind_Ok in Hrun as (method & ? & [_ ->]%lift_Ok & Hrun).
    apply bind_Ok in Hrun as (responseId & c1 & _ & Hrun).
    apply bind_Ok in Hrun as (id & c2 & _ & Hrun).
    apply bind_Ok in Hrun as (data & ? & [_ ->]%lift_Ok & Hrun).
    apply bind_Ok in Hrun as (pre & ? & [_ ->]%lift_Ok & Hrun).
    apply bind_Ok in Hrun as (post & ? & [Hpost ->]%lift_Ok & Hrun).
    apply bind_Ok in Hrun as (fields & ? & [Hfields ->]%lift_Ok & Hrun).
    apply bind_Ok in Hrun as (rb & c3 & Hrb & Hrun).
    apply bind_Ok in Hrun as (params & c5 & Hparams & Hrun).
    apply bind_Ok in Hrun as (headers & c6 & Hheaders & Hrun).
    apply ret_Ok in Hrun as [-> ->].
    unfold override_parameters in Hparams.
    apply bind_Ok in Hparams as (q & c7 & Hquery & Hparams).
    apply bind_Ok in Hparams as (pa & c8 & Hpath & Hparams).
    apply bind_Ok in Hparams as (ck & c9 & Hcookie & Hparams).
    apply bind_Ok in Hparams as (h & c10 & Hheader & Hparams).
    apply ret_Ok in Hparams as [-> ->]. cbn [query header cookie path] in *.
    eexists [], [], [], [], q, pa, ck, h, headers, _, fields, [], rb,
      c3, c7, c8, c9, c10, c10, c2, c3.
    do 4 (split; [done|]). split; [done|]. split; [exact Hfields|]. split; [done|].
    intros store. eexists _, _. by repeat split.
Qed.

(** [user_agent] leaves alone the headers of another name. *)
Lemma apply_user_agent_keeps (step : json) (n : string) (p : json)
    (h headers : list json) (c c' : converter) :
  apply_user_agent step h c = Ok (headers, c') →
  (truthy (get "user_agent" step) = true → ¬ same_header n "user-agent") →
  p ∈ h → carries same_header n p → p ∈ headers.
Proof.
  unfold apply_user_agent. intros H Hua Hin Hp.
  destruct (get "user_agent" step) as [ua|]; [|by apply ret_Ok in H as [-> _]].
  destruct (truthy (Some ua)); [|by apply ret_Ok in H as [-> _]].
  apply bind_Ok in H as (idx & ? & [Hidx ->]%lift_Ok & H).
  destruct idx as [i|].
  - apply findIndex_Some in Hidx as (q & Hi & Hq).
    apply ret_Ok in H as [-> _]. eapply elem_of_alter_ne; [done..|].
    intros ->. destruct (header_name_is_found_other _ _ _ Hq Hp) as (k & [= <-] & Hk).
    apply Hua; [done|]. unfold same_header in *. congruence.
  - apply bind_Ok in H as (id & ? & _ & H). apply ret_Ok in H as [-> _].
    apply elem_of_app. by left.
Qed.

(** The body of the request after a [request_body_override] with data,
    on a step without form data. *)
Lemma override_body_data_sets (step o : json) (d : string) (fields0 fields : obj) :
  override_body_data step fields0 = Ok fields →
  get "request_body_override" step = Some o → get "data" o = Some (JStr d) →
  d ≠ "" →
  obj_get "type" fields = Some (js_or (get "type" o) (JStr "application/json")) ∧
  obj_get "data" fields = Some (JStr (trim d)).
Proof.
  unfold override_body_data. intros H Ho Hd Hne. rewrite Ho in H.
  assert (truthy (Some o) = true) as Ht by (by destruct o).
  rewrite Ht in H. cbn [getv] in H. rewrite Hd in H. cbn [truthy] in H.
  apply String.eqb_neq in Hne. rewrite Hne in H. cbn [negb] in H.
  injection H as <-. split; [apply obj_get_obj_set_eq|].
  rewrite obj_get_obj_set_ne by done. apply obj_get_obj_set_eq.
Qed.

Lemma override_form_data_none (step : json) (rb rb' : request_body) (c c' : converter) :
  override_form_data step rb c = Ok (rb', c') →
  (∀ fields, get "request_form_data_override" step ≠ Some (JArr fields)) →
  rb' = rb.
Proof.
  unfold override_form_data. intros H Hnone.
  destruct (get "request_form_data_override" step) as [[| | | |fields|]|];
    try by apply ret_Ok in H as [-> _].
  by destruct (Hnone fields).
Qed.

(** *** Targets that are not found, with a source collection *)

(** Once a source collection is loaded, a link to a test case that is not
    in it adds no step and leaves the converter as it was; so does a link
    to a step number that the test case does not have. *)
Lemma unresolved_link_is_skipped (step : json) (c : converter)
    (cases : list (json * json)) :
  testCases c = Some cases →
  truthy (map_get (default JNull (get "link_to" step)) cases) = false →
  convertLinkedSteps step c = Ok ([], c).
Proof.
  intros Hcases Hmiss. unfold convertLinkedSteps.
  destruct (truthy (get "link_to" step)); [|done]. cbn [negb].
  rewrite bind_this, Hcases. cbv zeta. by rewrite Hmiss.
Qed.

Lemma unresolved_link_step_is_skipped (step number : json) (c : converter)
    (cases : list (json * json)) (testCase : json) :
  testCases c = Some cases →
  truthy (get "link_to" step) = true →
  map_get (default JNull (get "link_to" step)) cases = Some testCase →
  truthy (Some testCase) = true →
  linkStepNumber step = Some number → number ≠ JNull →
  findStepByNumber (get "steps" testCase) number = Ok None →
  convertLinkedSteps step c = Ok ([], c).
Proof.
  intros Hcases Hto Hcase Htc Hn Hnn Hfind. unfold convertLinkedSteps.
  rewrite Hto. cbn [negb]. rewrite bind_this, Hcases. cbv zeta.
  rewrite Hcase, Htc, Hn. cbn [negb getv]. rewrite Hfind.
  by destruct number.
Qed.

(** With the maps of test cases in place, a reference by name to a test
    case that is not there is converted all the same, to a record whose
    [relatedId] is a new identifier. *)
Lemma unresolved_ref_gets_new_id (randomUUID : nat → string) (step name : json)
    (c : converter) (cases byId : list (json * json)) :
  testCases c = Some cases → testCasesById c = Some byId →
  truthy (get "ref_id" step) = false → truthy (get "refId" step) = false →
  get "ref_name" step = Some name → truthy (Some name) = true →
  map_get name cases = None →
  ∃ record c',
    convertTestCaseRefStep randomUUID step c = Ok (record, c') ∧
    get "type" record = Some (JStr "testCaseRef") ∧
    get "relatedId" record = Some (JNum (nextId c + 1)) ∧
    get "number" record = Some (step_number step) ∧
    nextId c' = nextId c + 1.
Proof.
  intros Hcases HbyId Hid1 Hid2 Href Hname Hmiss.
  unfold convertTestCaseRefStep. rewrite Hid1, Hid2, Href, Hname.
  rewrite bind_this, Hcases. change (default JNull (Some name)) with name.
  cbn [lookup_test_case]. rewrite ?Hname.
  cbn [mbind result_mbind result_bind]. rewrite Hmiss.
  eexists _, _. split; [reflexivity|done].
Qed.

(** *** The condition of an else branch *)

Lemma invertOperator_inverse (op : string) :
  inherited op = false → invertOperator (JStr op) = Some (JStr (inverse op)).
Proof.
  unfold inherited, invertOperator, inverse, claimed_inverse. simpl.
  repeat match goal with
         | |- context [String.eqb op ?s] =>
             destruct (String.eqb_spec op s) as [->|?]; [by vm_compute|]
         end.
  done.
Qed.

Lemma convertIfStep_unfold (randomUUID : nat → string) (step : json) :
  convertIfStep randomUUID step
  = (children ←
       converted_children
         (convert_if_child randomUUID (convertIfStep randomUUID)
            (if_parameters step) (step_number step)) step;
     id ← string_id;
     mret (λ store,
       JObj [("id", id); ("type", JStr "if"); ("disable", JFalse);
             ("parameters", JObj (if_parameters step));
             ("children", print_all children store);
             ("isOpen", JTrue);
             ("number", step_number step)])).
Proof. destruct step; reflexivity. Qed.

Lemma if_parameters_condition (step : json) :
  if_parameters step
  = [("keyVariable", condition_variable step);
     ("operator", condition_operator step);
     ("valueVariable", condition_value step)].
Proof.
  unfold if_parameters, condition_variable, condition_operator, condition_value,
    condition_field.
  by destruct (truthy (get "parameters" step)).
Qed.

(** C6, as amended.  When an [if] step has an [else] child and its
    conversion returns, the printed node carries the condition of the
    step, and has among its children an [if] node with the variable and
    the value of that condition and, for an operator that is not a name
    every object inherits, the operator that the table of the
    specification extended by [not_equal ↦ equal] gives for the operator
    of the step. *)
Theorem else_child_inverts_condition (randomUUID : nat → string) (fs : obj)
    (pre post : list json) (child : json) (c c' : converter) (d : delayed) :
  obj_get "children" fs = Some (JArr (pre ++ child :: post)) →
  get "type" child = Some (JStr "else") →
  convertIfStep randomUUID (JObj fs) c = Ok (d, c') →
  ∀ store, ∃ before node after,
    get "children" (d store) = Some (JArr (before ++ node :: after)) ∧
    get "type" node = Some (JStr "if") ∧
    getv "keyVariable" (get "parameters" node) = Some (condition_variable (JObj fs)) ∧
    getv "valueVariable" (get "parameters" node) = Some (condition_value (JObj fs)) ∧
    getv "keyVariable" (get "parameters" (d store))
      = Some (condition_variable (JObj fs)) ∧
    emitted_operator (d store) = Some (condition_operator (JObj fs)) ∧
    getv "valueVariable" (get "parameters" (d store))
      = Some (condition_value (JObj fs)) ∧
    ∀ op, condition_operator (JObj fs) = JStr op → inherited op = false →
          emitted_operator node = Some (JStr (inverse op)).
Proof.
  intros Hch Hty Hrun store.
  rewrite convertIfStep_unfold in Hrun.
  apply bind_Ok in Hrun as (children & c1 & Hchildren & Hrun).
  apply bind_Ok in Hrun as (id & c2 & Hid & Hrun).
  apply ret_Ok in Hrun as [-> ->].
  unfold converted_children in Hchildren. rewrite with_field_get, Hch in Hchildren.
  unfold children_of in Hchildren. cbn [truthy] in Hchildren.
  apply conv_flat_mapM_app in Hchildren as (r1 & ca & r2 & H1 & H2 & ->).
  apply conv_flat_mapM_cons in H2 as (rc & cb & r3 & Hc & H3 & ->).
  unfold convert_if_child in Hc.
  apply bind_Ok in Hc as (ty & cc & Hty' & Hc). apply lift_Ok in Hty' as [Hp ->].
  rewrite (prop_get _ _ _ Hty) in Hp. injection Hp as <-.
  change (is_type (js_or (Some (JStr "else")) (JStr "http")) "else") with true in Hc.
  cbv iota in Hc.
  apply bind_Ok in Hc as (elseChildren & cd & _ & Hc).
  apply bind_Ok in Hc as (eid & ce & _ & Hc).
  apply bind_Ok in Hc as (number & cf & _ & Hc).
  apply ret_Ok in Hc as [-> ->].
  rewrite if_parameters_condition.
  set (k := condition_variable (JObj fs)). set (o := condition_operator (JObj fs)).
  set (v := condition_value (JObj fs)).
  exists ((λ d, d store) <$> r1),
         (else_node eid [("keyVariable", k); ("operator", o); ("valueVariable", v)]
            elseChildren number store),
         ((λ d, d store) <$> r3).
  split; [|split; [|split; [|split; [|split; [|split; [|split]]]]]]; try done.
  - cbn. unfold print_all. by rewrite fmap_app.
  - unfold else_node. cbn. by destruct (invertOperator o).
  - intros op Ho Hop. clearbody o. subst o. unfold emitted_operator. cbn.
    rewrite (invertOperator_inverse _ Hop). done.
Qed.

Lemma else_child_inverts_condition_witness :
  ∃ d c',
    obj_get "children" if_greater_fields = Some (JArr ([wait_4] ++ else_wait :: [])) ∧
    get "type" else_wait = Some (JStr "else") ∧
    convertIfStep uuid (JObj if_greater_fields) constructor = Ok (d, c') ∧
    condition_variable (JObj if_greater_fields) = JStr "status" ∧
    condition_operator (JObj if_greater_fields) = JStr "greater" ∧
    condition_value (JObj if_greater_fields) = JStr "1" ∧
    ∀ store, ∃ before node after,
      get "children" (d store) = Some (JArr (before ++ node :: after)) ∧
      get "type" node = Some (JStr "if") ∧
      getv "keyVariable" (get "parameters" node)
        = Some (condition_variable (JObj if_greater_fields)) ∧
      getv "valueVariable" (get "parameters" node)
        = Some (condition_value (JObj if_greater_fields)) ∧
      getv "keyVariable" (get "parameters" (d store))
        = Some (condition_variable (JObj if_greater_fields)) ∧
      emitted_operator (d store) = Some (condition_operator (JObj if_greater_fields)) ∧
      getv "valueVariable" (get "parameters" (d store))
        = Some (condition_value (JObj if_greater_fields)) ∧
      ∀ op, condition_operator (JObj if_greater_fields) = JStr op →
            inherited op = false →
            emitted_operator node = Some (JStr (inverse op)).
Proof.
  eexists _, _. split; [reflexivity|]. split; [reflexivity|].
  split; [vm_compute; reflexivity|].
  split; [reflexivity|]. split; [reflexivity|]. split; [reflexivity|].
  eapply (else_child_inverts_condition uuid if_greater_fields [wait_4] [] else_wait
            constructor);
    [reflexivity|reflexivity|vm_compute; reflexivity].
Defined.

(** The else branch of a condition on [not_equal] is printed with
    [equal], where the table of the specification gives [notEqual]. *)
Lemma else_of_not_equal_is_equal :
  ∃ d c' node,
    convertIfStep uuid if_not_equal constructor = Ok (d, c') ∧
    emitted_operator (d []) = Some (JStr "not_equal") ∧
    child_at 0 (d []) = Some node ∧
    emitted_operator node = Some (JStr "equal") ∧
    emitted_operator node ≠ Some (JStr (claimed_inverse "not_equal")).
Proof.
  eexists _, _, _. split; [vm_compute; reflexivity|].
  split; [reflexivity|]. split; [reflexivity|]. split; [reflexivity|].
  vm_compute. discriminate.
Qed.

End ConverterFacts.

(** ** The reverse converter *)

Module ReverseFacts.
Import JsonFacts ApidogReverseConverter ReverseNotions ReverseExamples.

(** *** Loops that skip *)

Lemma filter_mapM_cons {A B : Type} (f : A → result (option B)) (x : A) (l : list A)
    (ys : list B) :
  filter_mapM f (x :: l) = Ok ys →
  ∃ y zs, f x = Ok y ∧ filter_mapM f l = Ok zs
          ∧ ys = match y with Some b => b :: zs | None => zs end.
Proof.
  cbn [filter_mapM]. intros (y & Hy & H)%result_bind_Ok.
  apply result_bind_Ok in H as (zs & Hzs & [= <-]). by exists y, zs.
Qed.


Lemma filter_mapM_elem {A B : Type} (f : A → result (option B)) (l : list A)
    (ys : list B) (x : A) (y : B) :
  filter_mapM f l = Ok ys → x ∈ l → f x = Ok (Some y) → y ∈ ys.
Proof.
  revert ys. induction l as [|x' l IH]; intros ys H Hin Hx; [by inversion Hin|].
  apply filter_mapM_cons in H as (oy & zs & Hy & Hzs & ->).
  apply elem_of_cons in Hin as [<-|Hin].
  - rewrite Hx in Hy. injection Hy as <-. apply list_elem_of_here.
  - specialize (IH zs Hzs Hin Hx). destruct oy; [by apply list_elem_of_further|done].
Qed.

(** *** An http step *)

Lemma nonempty_cons (x : json) (l : list json) :
  ApidogConverter.nonempty (JArr (x :: l)) = Ok (Some (x :: l)).
Proof. reflexivity. Qed.

Lemma overrides_field_other (yamlKey k k' : string) (parameters : jsval) (y y' : obj) :
  overrides_field yamlKey k parameters y = Ok y' →
  k' ≠ yamlKey → obj_get k' y' = obj_get k' y.
Proof.
  unfold overrides_field. intros (present & _ & H)%result_bind_Ok Hk.
  destruct present; [|by injection H as <-].
  apply result_bind_Ok in H as (overrides & _ & H).
  destruct overrides; injection H as <-; [done|]. by rewrite obj_get_obj_set_ne.
Qed.

Lemma overrides_field_spec (yamlKey k : string) (parameters : jsval) (y y' : obj)
    (l : list json) :
  overrides_field yamlKey k parameters y = Ok y' →
  getv k parameters = Some (JArr l) → l ≠ [] →
  ∃ overrides, extractParameterOverrides (Some (JArr l)) (Some JNull) = Ok overrides
               ∧ (overrides ≠ [] → obj_get yamlKey y' = Some (JArr overrides)).
Proof.
  unfold overrides_field. intros H Hl Hne. rewrite Hl in H.
  destruct l as [|x l]; [done|].
  apply result_bind_Ok in H as (present & [= <-] & H).
  apply result_bind_Ok in H as (overrides & Ho & H).
  exists overrides. split; [done|]. intros Hn.
  destruct overrides; [done|]. injection H as <-. apply obj_get_obj_set_eq.
Qed.

Lemma with_path_and_method_other (k : string) (httpApiCase : jsval) (y y' : obj) :
  with_path_and_method httpApiCase y = Ok y' →
  k ≠ "path" → k ≠ "method" → obj_get k y' = obj_get k y.
Proof.
  unfold with_path_and_method. intros H Hp Hm.
  assert (obj_get k (if truthy (getv "path" httpApiCase)
                     then obj_set "path" (default JNull (getv "path" httpApiCase)) y
                     else y) = obj_get k y) as E.
  { destruct (truthy (getv "path" httpApiCase)); [|done].
    by rewrite obj_get_obj_set_ne. }
  rewrite <- E. clear E.
  destruct (truthy (getv "method" _)); [|by injection H as <-].
  destruct (getv "method" _) as [[]|]; try done.
  injection H as <-. by rewrite obj_get_obj_set_ne.
Qed.

Lemma with_auth_other (k : string) (httpApiCase : jsval) (y : obj) :
  k ≠ "auth" → obj_get k (with_auth httpApiCase y) = obj_get k y.
Proof.
  intros Hk. unfold with_auth.
  destruct (truthy (getv "auth" httpApiCase)); [|done].
  destruct (_ && _); [by rewrite obj_get_obj_set_ne|].
  destruct (truthy _); [by rewrite obj_get_obj_set_ne|done].
Qed.

Lemma with_request_body_other (k : string) (o : option obj) (y : obj) :
  k ≠ "request_form_data_override" → k ≠ "request_body_override" →
  obj_get k (with_request_body o y) = obj_get k y.
Proof.
  intros Hk1 Hk2. unfold with_request_body. destruct o as [o|]; [|done].
  destruct (strict_eq _ _); [|by rewrite obj_get_obj_set_ne].
  destruct (obj_get "form_data_override" o); [|done]. by rewrite obj_get_obj_set_ne.
Qed.

Lemma with_parameter_overrides_other (k : string) (parameters : jsval) (y y' : obj) :
  with_parameter_overrides parameters y = Ok y' →
  k ≠ "query_params_override" → k ≠ "path_params_override" →
  k ≠ "header_params_override" → k ≠ "cookie_params_override" →
  obj_get k y' = obj_get k y.
Proof.
  unfold with_parameter_overrides. intros H Hk1 Hk2 Hk3 Hk4.
  destruct (truthy parameters); [|by injection H as <-].
  apply result_bind_Ok in H as (y1 & H1 & H).
  apply result_bind_Ok in H as (y2 & H2 & H).
  apply result_bind_Ok in H as (y3 & H3 & H).
  rewrite (overrides_field_other _ _ k _ _ _ H) by done.
  rewrite (overrides_field_other _ _ k _ _ _ H3) by done.
  rewrite (overrides_field_other _ _ k _ _ _ H2) by done.
  by rewrite (overrides_field_other _ _ k _ _ _ H1).
Qed.

Lemma with_parameter_overrides_query (parameters : jsval) (y y' : obj) (q : list json) :
  with_parameter_overrides parameters y = Ok y' →
  getv "query" parameters = Some (JArr q) → q ≠ [] →
  ∃ overrides, extractParameterOverrides (Some (JArr q)) (Some JNull) = Ok overrides
               ∧ (overrides ≠ [] →
                  obj_get "query_params_override" y' = Some (JArr overrides)).
Proof.
  unfold with_parameter_overrides. intros H Hq Hne.
  assert (truthy parameters = true) as Ht.
  { destruct parameters as [[]|]; try done. }
  rewrite Ht in H.
  apply result_bind_Ok in H as (y1 & H1 & H).
  apply result_bind_Ok in H as (y2 & H2 & H).
  apply result_bind_Ok in H as (y3 & H3 & H).
  destruct (overrides_field_spec _ _ _ _ _ _ H1 Hq Hne) as (overrides & Ho & Hy1).
  exists overrides. split; [done|]. intros Hn.
  rewrite (overrides_field_other _ _ "query_params_override" _ _ _ H) by done.
  rewrite (overrides_field_other _ _ "query_params_override" _ _ _ H3) by done.
  rewrite (overrides_field_other _ _ "query_params_override" _ _ _ H2) by done.
  auto.
Qed.

Lemma with_pre_processors_other (k : string) (httpApiCase : jsval) (y y' : obj) :
  with_pre_processors httpApiCase y = Ok y' →
  k ≠ "pre_processors" → obj_get k y' = obj_get k y.
Proof.
  unfold with_pre_processors. intros (pre & _ & H)%result_bind_Ok Hk.
  destruct pre; [|by injection H as <-].
  apply result_bind_Ok in H as (converted & _ & H).
  destruct converted; injection H as <-; [done|]. by rewrite obj_get_obj_set_ne.
Qed.

Lemma with_post_processors_other (k : string) (httpApiCase : jsval) (y y' : obj) :
  with_post_processors httpApiCase y = Ok y' →
  k ≠ "assertions" → k ≠ "post_processors" → obj_get k y' = obj_get k y.
Proof.
  unfold with_post_processors. intros (post & _ & H)%result_bind_Ok Hk1 Hk2.
  destruct post; [|by injection H as <-].
  apply result_bind_Ok in H as (assertions & _ & H).
  apply result_bind_Ok in H as (converted & _ & H).
  destruct converted; injection H as <-; rewrite ?obj_get_obj_set_ne by done;
    destruct assertions; by rewrite ?obj_get_obj_set_ne.
Qed.

Lemma with_post_processors_assertions (httpApiCase : jsval) (y y' : obj)
    (ps : list json) :
  with_post_processors httpApiCase y = Ok y' →
  getv "postProcessors" httpApiCase = Some (JArr ps) → ps ≠ [] →
  ∃ assertions,
    convertPostProcessorsToAssertions (Some (JArr ps)) = Ok assertions
    ∧ (assertions ≠ [] → obj_get "assertions" y' = Some (JArr assertions)).
Proof.
  unfold with_post_processors. intros H Hps Hne. rewrite Hps in H.
  destruct ps as [|p ps]; [done|].
  apply result_bind_Ok in H as (post & [= <-] & H).
  apply result_bind_Ok in H as (assertions & Ha & H).
  apply result_bind_Ok in H as (converted & _ & H).
  exists assertions. split; [done|]. intros Hn.
  destruct assertions; [done|].
  destruct converted; injection H as <-; rewrite ?obj_get_obj_set_ne by done;
    apply obj_get_obj_set_eq.
Qed.

Lemma with_response_validation_other (k : string) (httpApiCase : jsval) (y : obj) :
  k ≠ "disable_response_validation" →
  obj_get k (with_response_validation httpApiCase y) = obj_get k y.
Proof.
  intros Hk. unfold with_response_validation.
  destruct (_ || _); [|done]. by rewrite obj_get_obj_set_ne.
Qed.

(** What [convertHttpStep] returns, as far as the properties go that the
    claims are about. *)
Lemma convertHttpStep_spec (step : json) (oy : option json) :
  convertHttpStep step = Ok oy →
  if truthy (get "httpApiCase" step) then
    ∃ y, oy = Some (JObj y) ∧
      obj_get "number" y = Some (step_number step) ∧
      obj_get "type" y = Some (JStr "http") ∧
      obj_get "children" y = None ∧
      (∀ q, getv "query" (getv "parameters" (get "httpApiCase" step)) = Some (JArr q) →
            q ≠ [] →
            ∃ overrides,
              extractParameterOverrides (Some (JArr q)) (Some JNull) = Ok overrides
              ∧ (overrides ≠ [] →
                 obj_get "query_params_override" y = Some (JArr overrides))) ∧
      (∀ ps, getv "postProcessors" (get "httpApiCase" step) = Some (JArr ps) →
             ps ≠ [] →
             ∃ assertions,
               convertPostProcessorsToAssertions (Some (JArr ps)) = Ok assertions
               ∧ (assertions ≠ [] → obj_get "assertions" y = Some (JArr assertions)))
  else oy = None.
Proof.
  unfold convertHttpStep. destruct (truthy (get "httpApiCase" step)) eqn:Ht; cbn [negb];
    [|by intros [= <-]].
  intros H.
  apply result_bind_Ok in H as (y1 & H1 & H).
  apply result_bind_Ok in H as (rbo & Hrbo & H).
  apply result_bind_Ok in H as (y2 & H2 & H).
  apply result_bind_Ok in H as (y3 & H3 & H).
  apply result_bind_Ok in H as (y4 & H4 & H).
  injection H as <-. eexists. split; [done|].
  assert (∀ k, k ≠ "path" → k ≠ "method" → k ≠ "auth" →
               k ≠ "request_form_data_override" → k ≠ "request_body_override" →
               k ≠ "query_params_override" → k ≠ "path_params_override" →
               k ≠ "header_params_override" → k ≠ "cookie_params_override" →
               k ≠ "pre_processors" → k ≠ "assertions" → k ≠ "post_processors" →
               k ≠ "disable_response_validation" →
               obj_get k (with_response_validation (get "httpApiCase" step) y4)
               = obj_get k [("number", step_number step);
                            ("name", js_or (get "name" step)
                                       (JStr ("Step " +:+ js_String (step_number step))));
                            ("type", JStr "http")]) as Hother.
  { intros k Hk1 Hk2 Hk3 Hk4 Hk5 Hk6 Hk7 Hk8 Hk9 Hk10 Hk11 Hk12 Hk13.
    rewrite with_response_validation_other by done.
    rewrite (with_post_processors_other k _ _ _ H4) by done.
    rewrite (with_pre_processors_other k _ _ _ H3) by done.
    rewrite (with_parameter_overrides_other k _ _ _ H2) by done.
    rewrite with_request_body_other, with_auth_other by done.
    by rewrite (with_path_and_method_other k _ _ _ H1). }
  split; [by rewrite Hother|]. split; [by rewrite Hother|].
  split; [by rewrite Hother|]. split.
  - intros q Hq Hne.
    destruct (with_parameter_overrides_query _ _ _ _ H2 Hq Hne) as (overrides & Ho & Hy).
    exists overrides. split; [done|]. intros Hn.
    rewrite with_response_validation_other by done.
    rewrite (with_post_processors_other _ _ _ _ H4) by done.
    rewrite (with_pre_processors_other _ _ _ _ H3) by done. auto.
  - intros ps Hps Hne.
    destruct (with_post_processors_assertions _ _ _ _ H4 Hps Hne) as (l & Hl & Hy).
    exists l. split; [done|]. intros Hn.
    rewrite with_response_validation_other by done. auto.
Qed.

(** The four lists of overrides of the step returned: each is what
    [extractParameterOverrides] makes of the parameter list of its kind,
    when that is not empty. *)
Lemma with_parameter_overrides_spec (parameters : jsval) (y y' : obj)
    (yamlKey k : string) (l : list json) :
  with_parameter_overrides parameters y = Ok y' →
  (yamlKey, k) ∈ [("query_params_override", "query"); ("path_params_override", "path");
                  ("header_params_override", "header");
                  ("cookie_params_override", "cookie")] →
  getv k parameters = Some (JArr l) → l ≠ [] →
  ∃ overrides, extractParameterOverrides (Some (JArr l)) (Some JNull) = Ok overrides
               ∧ (overrides ≠ [] → obj_get yamlKey y' = Some (JArr overrides)).
Proof.
  unfold with_parameter_overrides. intros H Hk Hl Hne.
  assert (truthy parameters = true) as Ht.
  { destruct parameters as [[]|]; try done. }
  rewrite Ht in H.
  apply result_bind_Ok in H as (y1 & H1 & H).
  apply result_bind_Ok in H as (y2 & H2 & H).
  apply result_bind_Ok in H as (y3 & H3 & H).
  repeat (apply elem_of_cons in Hk as [[= -> ->]|Hk]); [| | | |by apply elem_of_nil in Hk].
  - destruct (overrides_field_spec _ _ _ _ _ _ H1 Hl Hne) as (overrides & Ho & Hy).
    exists overrides. split; [done|]. intros Hn.
    rewrite (overrides_field_other _ _ "query_params_override" _ _ _ H) by done.
    rewrite (overrides_field_other _ _ "query_params_override" _ _ _ H3) by done.
    rewrite (overrides_field_other _ _ "query_params_override" _ _ _ H2) by done.
    auto.
  - destruct (overrides_field_spec _ _ _ _ _ _ H2 Hl Hne) as (overrides & Ho & Hy).
    exists overrides. split; [done|]. intros Hn.
    rewrite (overrides_field_other _ _ "path_params_override" _ _ _ H) by done.
    rewrite (overrides_field_other _ _ "path_params_override" _ _ _ H3) by done.
    auto.
  - destruct (overrides_field_spec _ _ _ _ _ _ H3 Hl Hne) as (overrides & Ho & Hy).
    exists overrides. split; [done|]. intros Hn.
    rewrite (overrides_field_other _ _ "header_params_override" _ _ _ H) by done.
    auto.
  - destruct (overrides_field_spec _ _ _ _ _ _ H Hl Hne) as (overrides & Ho & Hy).
    exists overrides. split; [done|]. auto.
Qed.

Lemma convertHttpStep_overrides (step : json) (y : obj) (yamlKey k : string)
    (l : list json) :
  convertHttpStep step = Ok (Some (JObj y)) →
  (yamlKey, k) ∈ [("query_params_override", "query"); ("path_params_override", "path");
                  ("header_params_override", "header");
                  ("cookie_params_override", "cookie")] →
  getv k (getv "parameters" (get "httpApiCase" step)) = Some (JArr l) → l ≠ [] →
  ∃ overrides, extractParameterOverrides (Some (JArr l)) (Some JNull) = Ok overrides
               ∧ (overrides ≠ [] → obj_get yamlKey y = Some (JArr overrides)).
Proof.
  unfold convertHttpStep. destruct (truthy (get "httpApiCase" step)); cbn [negb];
    [|done].
  intros H Hk Hl Hne.
  apply result_bind_Ok in H as (y1 & H1 & H).
  apply result_bind_Ok in H as (rbo & Hrbo & H).
  apply result_bind_Ok in H as (y2 & H2 & H).
  apply result_bind_Ok in H as (y3 & H3 & H).
  apply result_bind_Ok in H as (y4 & H4 & H).
  injection H as <-.
  destruct (with_parameter_overrides_spec _ _ _ _ _ _ H2 Hk Hl Hne)
    as (overrides & Ho & Hy).
  exists overrides. split; [done|]. intros Hn.
  assert (yamlKey ≠ "disable_response_validation" ∧ yamlKey ≠ "assertions"
          ∧ yamlKey ≠ "post_processors" ∧ yamlKey ≠ "pre_processors") as (? & ? & ? & ?).
  { repeat (apply elem_of_cons in Hk as [[= -> ->]|Hk]); [done..|].
    by apply elem_of_nil in Hk. }
  rewrite with_response_validation_other by done.
  rewrite (with_post_processors_other _ _ _ _ H4) by done.
  rewrite (with_pre_processors_other _ _ _ _ H3) by done. auto.
Qed.

(** The body override of the step returned. *)
Lemma convertHttpStep_body (step : json) (y : obj) :
  convertHttpStep step = Ok (Some (JObj y)) →
  ∃ rbo, extractRequestBodyOverride (default JNull (get "httpApiCase" step)) = Ok rbo ∧
         obj_get "request_body_override" y
         = obj_get "request_body_override" (with_request_body rbo []).
Proof.
  unfold convertHttpStep. destruct (truthy (get "httpApiCase" step)); cbn [negb];
    [|done].
  intros H.
  apply result_bind_Ok in H as (y1 & H1 & H).
  apply result_bind_Ok in H as (rbo & Hrbo & H).
  apply result_bind_Ok in H as (y2 & H2 & H).
  apply result_bind_Ok in H as (y3 & H3 & H).
  apply result_bind_Ok in H as (y4 & H4 & H).
  injection H as <-. exists rbo. split; [done|].
  rewrite with_response_validation_other by done.
  rewrite (with_post_processors_other _ _ _ _ H4) by done.
  rewrite (with_pre_processors_other _ _ _ _ H3) by done.
  rewrite (with_parameter_overrides_other _ _ _ _ H2) by done.
  assert (obj_get "request_body_override" (with_auth (get "httpApiCase" step) y1) = None)
    as Hnone.
  { rewrite with_auth_other by done.
    by rewrite (with_path_and_method_other _ _ _ _ H1). }
  revert Hnone. generalize (with_auth (get "httpApiCase" step) y1). intros y0 Hnone.
  unfold with_request_body. destruct rbo as [o|]; [|done].
  destruct (strict_eq _ _).
  - destruct (obj_get "form_data_override" o); [|done].
    by rewrite obj_get_obj_set_ne.
  - by rewrite !obj_get_obj_set_eq.
Qed.

Lemma extractRequestBodyOverride_data (fs body : obj) (P type : json) (d : string) :
  obj_get "requestBody" fs = Some (JObj (("parameters", P) :: body)) →
  obj_get "type" body = Some type → obj_get "data" body = Some (JStr d) →
  truthy (Some type) = true →
  type ≠ JStr "none" → type ≠ JStr "multipart/form-data" → trim d ≠ "" →
  extractRequestBodyOverride (JObj fs)
  = Ok (Some [("type", type); ("data", JStr (trim d))]).
Proof.
  intros Hrb Htype Hdata Ht Hnone Hform Hd. unfold extractRequestBodyOverride.
  cbn [get]. rewrite Hrb. cbn [truthy negb getv get obj_get].
  change (String.eqb "type" "parameters") with false.
  change (String.eqb "data" "parameters") with false. cbv iota.
  rewrite Htype, Hdata.
  assert (strict_eq (Some type) (Some (JStr "none")) = false) as ->.
  { destruct (strict_eq _ _) eqn:E; [|done]. apply strict_eq_true in E. congruence. }
  assert (strict_eq (Some type) (Some (JStr "multipart/form-data")) = false) as ->.
  { destruct (strict_eq _ _) eqn:E; [|done]. apply strict_eq_true in E. congruence. }
  assert (d ≠ "") as Hd' by (by intros ->).
  cbn [truthy orb andb negb]. apply String.eqb_neq in Hd'. rewrite Hd'.
  cbn [negb mbind result_mbind result_bind].
  apply String.eqb_neq in Hd. rewrite Hd. unfold js_or. by rewrite Ht.
Qed.

(** *** The other steps *)



Lemma reverse_convertIfStep_unfold (testCases : index) (fs : obj) :
  convertIfStep testCases (JObj fs)
  = let yamlStep :=
      [("number", step_number (JObj fs)); ("type", JStr "if");
       ("condition",
        JObj [("variable",
               js_or (getv "keyVariable" (Some (js_or (obj_get "parameters" fs) (JObj []))))
                 (JStr ""));
              ("operator",
               js_or (getv "operator" (Some (js_or (obj_get "parameters" fs) (JObj []))))
                 (JStr "equal"));
              ("value",
               js_or (getv "valueVariable" (Some (js_or (obj_get "parameters" fs) (JObj []))))
                 (JStr ""))])] in
    match obj_get "children" fs with
    | Some (JArr l) =>
        converted ← filter_mapM (convert_by_type testCases (convertIfStep testCases)) l;
        Ok (JObj (obj_set "children" (JArr converted) yamlStep))
    | _ => Ok (JObj yamlStep)
    end.
Proof.
  cbn [convertIfStep]. rewrite with_field_get.
  by destruct (obj_get "children" fs) as [[]|].
Qed.

(** *** The steps that are kept *)






End ReverseFacts.

(** ** The round trip *)

Module RoundTripFacts.
Import JsonFacts ApidogConverter ConverterNotions ConverterExamples ConverterFacts.
Import ReverseNotions ReverseFacts RoundTripNotions RoundTripExamples.

(** *** Defaults *)

Lemma js_or_idem (x : jsval) (d : json) : js_or (Some (js_or x d)) d = js_or x d.
Proof.
  unfold js_or. destruct x as [v|].
  - destruct (truthy (Some v)) eqn:E; [by rewrite E|]. by destruct (truthy (Some d)).
  - by destruct (truthy (Some d)).
Qed.

Lemma js_or_truthy (v d : json) : truthy (Some v) = true → js_or (Some v) d = v.
Proof. unfold js_or. by intros ->. Qed.

Lemma js_or_idem2 (x y : jsval) (d : json) :
  js_or (Some (js_or x (js_or y d))) d = js_or x (js_or y d).
Proof.
  assert (js_or x (js_or y d) = js_or y d
          ∨ truthy (Some (js_or x (js_or y d))) = true) as [->| ->%(js_or_truthy _ d)];
    [|apply js_or_idem|done].
  destruct x as [v|]; [|by left].
  destruct (truthy (Some v)) eqn:E.
  - right. unfold js_or at 1. by rewrite E.
  - left. unfold js_or at 1. by rewrite E.
Qed.

(** *** Assertions *)

Lemma result_mapM_Forall2 {A B : Type} (f : A → result B) (l : list A) (ys : list B) :
  result_mapM f l = Ok ys → Forall2 (λ x y, f x = Ok y) l ys.
Proof.
  revert ys. induction l as [|x l IH]; intros ys.
  - intros [= <-]. constructor.
  - unfold result_mapM. cbn [flat_mapM]. fold (result_mapM f l).
    intros (y1 & Hy & H)%result_bind_Ok.
    apply result_bind_Ok in Hy as (y & Hy & [= <-]).
    apply result_bind_Ok in H as (zs & Hzs & [= <-]).
    constructor; auto.
Qed.

Lemma assertion_round_trip (a p : json) :
  convertAssertion a = Ok p →
  ApidogReverseConverter.assertion_of p = Ok (Some (normal_assertion a)).
Proof.
  unfold convertAssertion. intros H.
  assert (p = JObj [("type", JStr "assertion");
                    ("data",
                     assertion_data a (JArr [])
                       (extract_settings (js_or (get "path" a) (JStr ""))));
                    ("defaultEnable", JFalse); ("enable", JTrue)]) as ->
    by (destruct a; try done; by injection H).
  unfold ApidogReverseConverter.assertion_of, normal_assertion, assertion_data,
    extract_settings.
  cbn [prop get obj_get getv mbind result_mbind result_bind strict_eq truthy andb
       String.eqb Ascii.eqb Bool.eqb].
  rewrite !js_or_idem, js_or_idem2.
  assert (∀ v, js_or (Some v) v = v) as ->; [|done].
  intros v. unfold js_or. by destruct (truthy (Some v)).
Qed.

Lemma filter_mapM_prefix {A B : Type} (f : A → result (option B)) (l1 l2 : list A)
    (ys1 ys : list B) :
  Forall2 (λ x y, f x = Ok (Some y)) l1 ys1 →
  ApidogReverseConverter.filter_mapM f (l1 ++ l2) = Ok ys → ys1 `prefix_of` ys.
Proof.
  intros H. revert ys. induction H as [|x y l1 ys1 Hx _ IH]; intros ys.
  - intros _. apply prefix_nil.
  - cbn [app]. intros (oy & zs & Hy & Hzs & ->)%filter_mapM_cons.
    rewrite Hx in Hy. injection Hy as <-. apply prefix_cons. auto.
Qed.

Lemma merged_assertions (step : json) (custom : json) (l post : list json) :
  mergePostProcessors (js_or (get "assertions" step) (JArr [])) custom = Ok post →
  get "assertions" step = Some (JArr l) → l ≠ [] →
  ∃ converted rest, post = converted ++ rest
                    ∧ Forall2 (λ a p, convertAssertion a = Ok p) l converted.
Proof.
  intros H Hl Hne. rewrite Hl in H. destruct l as [|a l]; [done|].
  unfold mergePostProcessors in H. cbn [js_or truthy nonempty] in H.
  apply result_bind_Ok in H as (present & [= <-] & H).
  apply result_bind_Ok in H as (converted & Hc & H).
  apply result_bind_Ok in H as (p & _ & H).
  apply result_bind_Ok in H as (rest & _ & [= <-]).
  exists converted, rest. split; [done|].
  apply result_mapM_Forall2. apply Hc.
Qed.

Lemma assertions_come_back (l converted rest assertions : list json) :
  Forall2 (λ a p, convertAssertion a = Ok p) l converted →
  ApidogReverseConverter.convertPostProcessorsToAssertions
    (Some (JArr (converted ++ rest))) = Ok assertions →
  (normal_assertion <$> l) `prefix_of` assertions.
Proof.
  intros Hl. unfold ApidogReverseConverter.convertPostProcessorsToAssertions.
  intros (ps & [= <-] & H)%result_bind_Ok.
  eapply filter_mapM_prefix; [|exact H].
  apply Forall2_fmap_r, Forall2_flip. eapply Forall2_impl; [exact Hl|].
  intros a p. apply assertion_round_trip.
Qed.

(** *** Overrides *)

Lemma override_comes_back (q overrides : list json) (p : json) (n : string) (v : json) :
  ApidogReverseConverter.extractParameterOverrides (Some (JArr q)) (Some JNull)
  = Ok overrides →
  p ∈ q → get "name" p = Some (JStr n) → get "value" p = Some v →
  get "enable" p = Some JTrue → truthy (Some v) = true →
  JObj [("name", JStr n); ("value", v)] ∈ overrides.
Proof.
  unfold ApidogReverseConverter.extractParameterOverrides.
  intros (originals & [= <-] & H)%result_bind_Ok Hin Hn Hv He Ht.
  eapply filter_mapM_elem; [done..|].
  destruct p as [| | | | |fs]; try done.
  unfold ApidogReverseConverter.parameter_override.
  cbn [prop mbind result_mbind result_bind]. rewrite He, Hv, Hn, Ht.
  rewrite (js_or_truthy _ _ Ht). reflexivity.
Qed.

(** A parameter that is set in the list [k] of the request comes back in
    the list [yamlKey] of the step. *)
Lemma set_parameter_comes_back (printed : json) (y hfs : obj) (yamlKey k : string)
    (l : list json) (p : json) (n : string) (v : json) :
  ApidogReverseConverter.convertHttpStep printed = Ok (Some (JObj y)) →
  (yamlKey, k) ∈ [("query_params_override", "query"); ("path_params_override", "path");
                  ("header_params_override", "header");
                  ("cookie_params_override", "cookie")] →
  get "httpApiCase" printed = Some (JObj hfs) →
  getv k (obj_get "parameters" hfs) = Some (JArr l) →
  p ∈ l → get "name" p = Some (JStr n) → get "value" p = Some v →
  get "enable" p = Some JTrue → truthy (Some v) = true →
  ∃ overrides, obj_get yamlKey y = Some (JArr overrides)
               ∧ JObj [("name", JStr n); ("value", v)] ∈ overrides.
Proof.
  intros Hy Hk Hcase Hl Hin Hn Hv He Ht.
  assert (l ≠ []) as Hne by (intros ->; by apply elem_of_nil in Hin).
  assert (getv k (getv "parameters" (get "httpApiCase" printed)) = Some (JArr l)) as Hl'
    by (by rewrite Hcase).
  destruct (convertHttpStep_overrides _ _ _ _ _ Hy Hk Hl' Hne) as (overrides & Ho & Hyo).
  pose proof (override_comes_back _ _ _ _ _ Ho Hin Hn Hv He Ht) as Hentry.
  exists overrides. split; [|done]. apply Hyo.
  intros ->. by apply elem_of_nil in Hentry.
Qed.

(** *** One step *)

Lemma http_step_comes_back (step parentModuleId : json) (c c' : converter) (d : delayed)
    (store : list json) (testCases : ApidogReverseConverter.index)
    (f : json → result json) (oy : option json) :
  js_or (get "type" step) (JStr "http") = JStr "http" →
  convertHttpStep step parentModuleId c = Ok (d, c') →
  ApidogReverseConverter.convert_by_type testCases f (d store) = Ok oy →
  ∃ back, oy = Some back ∧ comes_back step back.
Proof.
  intros Htype Hforward.
  pose proof (convertHttpStep_request _ _ _ _ _ Hforward)
    as (q0 & pa0 & ck0 & h0 & q & pa & ck & h & headers & fields0 & fields & params0
        & rb & c1 & c2 & c3 & c4 & c5 & c6 & c7 & c8
        & Hq & Hpa & Hck & Hh & Hua & Hfields & Hrb & Hreq).
  destruct (Hreq store) as (hfs' & P & Hcase' & Hparams & Hbody). clear Hreq.
  apply convertHttpStep_printed in Hforward
    as (q0' & q' & c1' & c2' & post & _ & Hpost & Hd).
  destruct (Hd store) as (hfs & Ht & Hn & Hcase & _ & Hposts). clear Hd.
  rewrite Hcase in Hcase'. injection Hcase' as <-.
  unfold ApidogReverseConverter.convert_by_type.
  rewrite (prop_get _ _ _ Ht). cbn [mbind result_mbind result_bind].
  change (strict_eq (Some (JStr "http")) (Some (JStr "http"))) with true. cbv iota.
  intros H. pose proof H as Hspec. apply convertHttpStep_spec in Hspec.
  rewrite Hcase in Hspec. cbn [truthy] in Hspec.
  destruct Hspec as (y & -> & Hyn & Hyt & _ & _ & Hya).
  eexists. split; [done|]. split; [|split; [|split]].
  - cbn [get]. rewrite Hyn. unfold ApidogReverseConverter.step_number.
    rewrite Hn. unfold step_number. by rewrite js_or_idem.
  - cbn [get]. by rewrite Hyt, Htype.
  - intros E. rewrite E in Htype. done.
  - intros _.
    assert (∀ yamlKey k extra l0 l c1 c2,
              (yamlKey, k) ∈ [("query_params_override", "query");
                              ("path_params_override", "path");
                              ("cookie_params_override", "cookie")] →
              apply_overrides name_is extra l0 (override_list yamlKey step) c1
              = Ok (l, c2) →
              getv k (obj_get "parameters" hfs) = Some (JArr l) →
              overrides_come_back yamlKey step (JObj y)) as Hnamed.
    { intros yamlKey k extra l0 l ca cb Hk Hl Hprinted before o after n v
        Ho Hname Hvalue Hv Hafter.
      unfold override_list in Hl. rewrite Ho in Hl.
      assert (v ≠ JNull) as Hnull by (by intros ->).
      destruct (apply_overrides_named _ _ _ _ _ _ _ _ _ _ Hl Hname Hvalue Hnull Hafter)
        as (p & Hin & Hpn & Hpv & Hpe).
      cbn [get]. eapply set_parameter_comes_back; try done.
      repeat (apply elem_of_cons in Hk as [[= -> ->]|Hk]);
        [repeat constructor..|by apply elem_of_nil in Hk]. }
    rewrite Hparams in Hnamed. unfold parameters_json in Hnamed.
    split; [|split; [|split; [|split; [|split]]]].
    + eapply (Hnamed _ "query"); [repeat constructor|exact Hq|done].
    + eapply (Hnamed _ "path"); [repeat constructor|exact Hpa|done].
    + eapply (Hnamed _ "cookie"); [repeat constructor|exact Hck|done].
    + intros before o after n v Ho Hname Hvalue Hv Hafter Hagent.
      unfold override_list in Hh. rewrite Ho in Hh.
      assert (v ≠ JNull) as Hnull by (by intros ->).
      destruct (apply_overrides_header _ _ _ _ _ _ _ _ _ Hh Hname Hvalue Hnull Hafter)
        as (p & Hin & Hcarries & Hpv & Hpe).
      pose proof (apply_user_agent_keeps _ _ _ _ _ _ _ Hua Hagent Hin Hcarries) as Hin'.
      destruct Hcarries as (m & Hm & Hsame).
      destruct (set_parameter_comes_back _ _ _ "header_params_override" "header"
                  headers p m v H ltac:(repeat constructor) Hcase
                  ltac:(by rewrite Hparams) Hin' Hm Hpv Hpe Hv)
        as (overrides & Hy & Hentry).
      by exists overrides, m.
    + intros o data Ho Hdata Hblank Hnone Hmulti Hform Hno.
      assert (data ≠ "") as Hne by (by intros ->).
      destruct (override_body_data_sets _ _ _ _ _ Hfields Ho Hdata Hne)
        as [Hftype Hfdata].
      apply (override_form_data_none _ _ _ _ _) in Hrb; [|done]. subst rb.
      cbn [rb_fields] in Hbody.
      destruct (convertHttpStep_body _ _ H) as (rbo & Hrbo & Hy).
      rewrite Hcase in Hrbo. change (default JNull (Some (JObj hfs))) with (JObj hfs) in Hrbo.
      rewrite (extractRequestBodyOverride_data hfs fields P _ (trim data) Hbody Hftype
                 Hfdata) in Hrbo; try done.
      * injection Hrbo as <-. cbn [get]. rewrite Hy. rewrite trim_trim.
        unfold ApidogReverseConverter.with_request_body.
        cbn [obj_get String.eqb Ascii.eqb Bool.eqb].
        destruct (strict_eq _ _) eqn:E; [by apply strict_eq_true in E as [= E']|].
        by rewrite obj_get_obj_set_eq.
      * unfold js_or. destruct (get "type" o) as [t|]; [|done].
        by destruct (truthy (Some t)) eqn:E.
      * by rewrite trim_trim.
    + intros l Hl Hne.
      destruct (merged_assertions _ _ _ _ Hpost Hl Hne) as (converted & rest & -> & Hc).
      assert (converted ++ rest ≠ []) as Hne'.
      { destruct Hc; [done|]. done. }
      destruct (Hya _ Hposts Hne') as (assertions & Ha & Hy).
      pose proof (assertions_come_back _ _ _ _ Hc Ha) as Hprefix.
      exists assertions. split; [|done]. cbn [get]. apply Hy.
      intros ->. destruct l; [done|]. by apply prefix_nil_inv in Hprefix.
Qed.

Lemma delay_step_comes_back (step v : json) (c c' : converter)
    (testCases : ApidogReverseConverter.index) (f : json → result json)
    (oy : option json) :
  get "type" step = Some (JStr "delay") →
  convertDelayStep step c = Ok (v, c') →
  ApidogReverseConverter.convert_by_type testCases f v = Ok oy →
  ∃ back, oy = Some back ∧ comes_back step back.
Proof.
  intros Htype. unfold convertDelayStep.
  intros (id & c1 & _ & [-> _]%ret_Ok)%bind_Ok. intros [= <-].
  eexists. split; [done|]. split; [|split; [|split]]; try done.
  - cbn. apply f_equal, js_or_idem.
  - by rewrite Htype.
  - intros _. cbn. apply f_equal, js_or_idem2.
Qed.

Lemma step_comes_back (randomUUID : nat → string) (step : json) (c c' : converter)
    (r : list delayed) :
  http_or_delay step = true →
  convert_step randomUUID step c = Ok (r, c') →
  ∃ d, r = [d] ∧
       ∀ store testCases f oy,
         ApidogReverseConverter.convert_by_type testCases f (d store) = Ok oy →
         ∃ back, oy = Some back ∧ comes_back step back.
Proof.
  unfold http_or_delay, convert_step. intros Htype H.
  apply bind_Ok in H as (type & ? & [Hp ->]%lift_Ok & H).
  assert (type = get "type" step) as -> by (destruct step; try done; by injection Hp).
  apply orb_true_iff in Htype as [Hhttp%strict_eq_true|Hdelay%strict_eq_true].
  - injection Hhttp as Hhttp. rewrite Hhttp in H.
    change (is_type (JStr "http") "else") with false in H. cbv iota in H.
    unfold convert_child in H.
    apply bind_Ok in H as (type & ? & [Hp' ->]%lift_Ok & H).
    assert (type = get "type" step) as -> by congruence.
    rewrite Hhttp in H. change (is_type (JStr "http") "http") with true in H.
    cbv iota in H. apply bind_Ok in H as (d & c1 & Hd & [-> ->]%ret_Ok).
    exists d. split; [done|]. intros store testCases f oy.
    by eapply http_step_comes_back.
  - injection Hdelay as Hdelay. rewrite Hdelay in H.
    change (is_type (JStr "delay") "else") with false in H. cbv iota in H.
    unfold convert_child in H.
    apply bind_Ok in H as (type & ? & [Hp' ->]%lift_Ok & H).
    assert (type = get "type" step) as -> by congruence.
    rewrite Hdelay in H. vm_compute is_type in H. cbn [orb] in H. cbv iota in H.
    apply bind_Ok in H as (v & c1 & Hv & [-> ->]%ret_Ok).
    exists (now v). split; [done|]. intros store testCases f oy.
    eapply delay_step_comes_back; [|done].
    revert Hdelay. unfold js_or. destruct (get "type" step) as [t|]; [|done].
    destruct (truthy (Some t)); [congruence|done].
Qed.

(** *** The steps of a scenario *)

Lemma conv_flat_mapM_singletons {A B : Type} (f : A → conv (list B)) (P : A → B → Prop)
    (l : list A) (c c' : converter) (r : list B) :
  Forall (λ x, ∀ c r c', f x c = Ok (r, c') → ∃ d, r = [d] ∧ P x d) l →
  conv_flat_mapM f l c = Ok (r, c') → Forall2 P l r.
Proof.
  intros Hl. revert c r. induction Hl as [|x l Hx _ IH]; intros c r.
  - intros [= <- _]. constructor.
  - intros (r1 & c1 & r2 & H1 & H2 & ->)%conv_flat_mapM_cons.
    destruct (Hx _ _ _ H1) as (d & -> & HP). constructor; eauto.
Qed.

Lemma filter_mapM_all {A B C : Type} (g : B → result (option C)) (R : A → C → Prop)
    (l : list A) (xs : list B) (ys : list C) :
  Forall2 (λ a x, ∀ oy, g x = Ok oy → ∃ y, oy = Some y ∧ R a y) l xs →
  ApidogReverseConverter.filter_mapM g xs = Ok ys → Forall2 R l ys.
Proof.
  intros Hl. revert ys. induction Hl as [|a x l xs Hx _ IH]; intros ys.
  - intros [= <-]. constructor.
  - intros (oy & zs & Hy & Hzs & ->)%filter_mapM_cons.
    destruct (Hx _ Hy) as (y & -> & HR). constructor; auto.
Qed.

(** C4, as amended.  A scenario of http and delay steps is converted to
    a test case, and the test case back to a scenario: when both
    conversions return, the steps of the second scenario are as many as
    those of the first, and each has of the step in its place what
    [comes_back] says: number, type, the timeout of a delay, and of an
    http step the overrides of the query, the path and the cookies that
    have a truthy value and are the last of their name, the overrides of
    the headers likewise, names taken without regard to case, the body
    override with its data trimmed, and the assertions with their
    defaults. *)
Theorem round_trip_keeps_steps (randomUUID : nat → string)
    (loadSourceApidog : json → converter → result converter)
    (scenario testCase back : json) (c c' : converter)
    (testCases : ApidogReverseConverter.index) (sourceApidogPath : jsval)
    (steps : list json) :
  get "steps" scenario = Some (JArr steps) →
  Forall (λ step, http_or_delay step = true) steps →
  convert randomUUID loadSourceApidog scenario c = Ok (testCase, c') →
  ApidogReverseConverter.convert testCases testCase sourceApidogPath = Ok back →
  ∃ ys, get "steps" back = Some (JArr ys) ∧ Forall2 comes_back steps ys.
Proof.
  intros Hsteps Hkinds Hforward Hreverse.
  unfold convert in Hforward. rewrite Hsteps in Hforward.
  apply bind_Ok in Hforward as (source & ? & [_ ->]%lift_Ok & Hforward).
  apply bind_Ok in Hforward as ([] & c1 & _ & Hforward).
  apply bind_Ok in Hforward as (testCaseId & c2 & _ & Hforward).
  apply bind_Ok in Hforward as (ds & c3 & Hds & Hforward).
  apply bind_Ok in Hforward as (datasets & c4 & _ & Hforward).
  apply bind_Ok in Hforward as (cfinal & ? & [= <- <-] & Hforward).
  apply ret_Ok in Hforward as [-> ->].
  cbn [truthy] in Hds.
  apply bind_Ok in Hds as (l & ? & [[= <-] ->]%lift_Ok & Hds).
  assert (Forall2 (λ step d, ∀ store tcs f oy,
            ApidogReverseConverter.convert_by_type tcs f (d store) = Ok oy →
            ∃ y, oy = Some y ∧ comes_back step y) steps ds) as Hcome.
  { eapply conv_flat_mapM_singletons; [|exact Hds].
    eapply Forall_impl; [exact Hkinds|]. intros step Hkind ? r ?.
    by apply step_comes_back. }
  unfold ApidogReverseConverter.convert in Hreverse.
  apply result_bind_Ok in Hreverse as (name & _ & Hreverse).
  apply result_bind_Ok in Hreverse as (sets & _ & Hreverse).
  apply result_bind_Ok in Hreverse as (ys & Hys & [= <-]).
  exists ys. split; [cbn [get]; apply obj_get_obj_set_eq|].
  cbn [get app obj_get String.eqb Ascii.eqb Bool.eqb] in Hys. unfold print_all in Hys.
  eapply filter_mapM_all; [|exact Hys].
  apply Forall2_fmap_r. eapply Forall2_impl; [exact Hcome|].
  intros step d Hd oy. apply Hd.
Qed.

Lemma round_trip_keeps_steps_witness :
  ∃ testCase c' back,
    get "steps" order_scenario = Some (JArr order_steps) ∧
    Forall (λ step, http_or_delay step = true) order_steps ∧
    convert uuid no_source order_scenario constructor = Ok (testCase, c') ∧
    ApidogReverseConverter.convert [] testCase None = Ok back ∧
    get "steps" back
    = Some (JArr [order_step_back;
                  JObj [("number", JNum 2); ("type", JStr "delay");
                        ("timeout", JNum 500)]]) ∧
    ∃ ys, get "steps" back = Some (JArr ys) ∧ Forall2 comes_back order_steps ys.
Proof.
  eexists _, _, _. split; [reflexivity|].
  split; [by repeat constructor|].
  split; [vm_compute; reflexivity|]. split; [vm_compute; reflexivity|].
  split; [vm_compute; reflexivity|].
  eapply (round_trip_keeps_steps uuid no_source order_scenario _ _ constructor _
            [] None order_steps);
    [reflexivity|by repeat constructor|vm_compute; reflexivity|vm_compute; reflexivity].
Defined.

(** C4 as stated fails.  Of the overrides of the steps of
    [lossy_scenario] these come back otherwise or not at all: the query
    override of [page] with the value 0 comes back with the empty string;
    the first of the two overrides of [q] and the override of [gone] with
    the value [null] do not come back; the header [User-Agent] comes back
    with the value of [user_agent]; the body overrides of the types [none]
    and [form_data] and the form-data override do not come back.  A body
    override of the type [multipart/form-data] on an API with a form
    field comes back as a form-data override of that field. *)
Lemma round_trip_loses_overrides :
  (∃ testCase c' back,
     convert uuid no_source lossy_scenario constructor = Ok (testCase, c') ∧
     ApidogReverseConverter.convert [] testCase None = Ok back ∧
     get "steps" lossy_scenario = Some (JArr lossy_steps) ∧
     get "steps" back = Some (JArr lossy_steps_back) ∧
     ∃ s1 s2 s3 s4 t1 t2 t3 t4,
       lossy_steps = [s1; s2; s3; s4] ∧ lossy_steps_back = [t1; t2; t3; t4] ∧
       get "query_params_override" s1
       = Some (JArr [override "page" (JNum 0); override "q" (JStr "a");
                     override "q" (JStr "b"); override "gone" JNull]) ∧
       get "query_params_override" t1
       = Some (JArr [override "page" (JStr ""); override "q" (JStr "b")]) ∧
       get "header_params_override" s1
       = Some (JArr [override "User-Agent" (JStr "a")]) ∧
       get "header_params_override" t1
       = Some (JArr [override "User-Agent" (JStr "b")]) ∧
       get "request_body_override" s2
       = Some (JObj [("type", JStr "none"); ("data", JStr "x")]) ∧
       get "request_body_override" t2 = None ∧
       get "request_body_override" s3
       = Some (JObj [("type", JStr "form_data"); ("data", JStr "x")]) ∧
       get "request_body_override" t3 = None ∧
       get "request_form_data_override" s4
       = Some (JArr [JObj [("name", JStr "file"); ("value", JStr "a.png")]]) ∧
       get "request_form_data_override" t4 = None) ∧
  (∃ testCase c' back step',
     convert uuid no_source upload_scenario loaded_upload = Ok (testCase, c') ∧
     ApidogReverseConverter.convert [] testCase None = Ok back ∧
     get "steps" back = Some (JArr [step']) ∧
     get "request_body_override" step' = None ∧
     get "request_form_data_override" step'
     = Some (JArr [JObj [("name", JStr "file"); ("type", JStr "string");
                         ("value", JStr "f"); ("enable", JTrue)]])).
Proof.
  split.
  - eexists _, _, _. split; [vm_compute; reflexivity|].
    split; [vm_compute; reflexivity|]. split; [reflexivity|].
    split; [vm_compute; reflexivity|].
    eexists _, _, _, _, _, _, _, _. split; [reflexivity|]. split; [reflexivity|].
    repeat split.
  - eexists _, _, _, _. split; [vm_compute; reflexivity|].
    split; [vm_compute; reflexivity|]. split; [vm_compute; reflexivity|].
    split; reflexivity.
Qed.

End RoundTripFacts.

(** ** The collection merger: further properties *)

Module MergerLaws.
Import JsonFacts TestCaseMerger MergerNotions MergerViews MergerExamples MergerFacts.

(** *** Fresh identifiers *)

Lemma skip_used_least (fuel : nat) (used : gset Z) (n : Z) :
  n ≤ skip_used fuel used n ∧
  ∀ k, n ≤ k < skip_used fuel used n → k ∈ used.
Proof.
  revert n. induction fuel as [|fuel IH]; intros n; simpl; [split; [lia|intros; lia]|].
  destruct (decide (n ∈ used)) as [Hin|Hni]; [|split; [lia|intros; lia]].
  destruct (IH (n + 1)) as [Hle Hbetween]. split; [lia|].
  intros k Hk. destruct (decide (k = n)) as [->|Hne]; [done|].
  apply Hbetween. lia.
Qed.

(** X1.  [getNextId] returns the least id from [nextId] on that is not in
    use, marks it as used and leaves [nextId] behind it. *)
Theorem getNextId_least_free (m : merger) :
  let '(n, m') := getNextId m in
  nextId m ≤ n ∧ n ∉ usedIds m ∧
  (∀ k, nextId m ≤ k < n → k ∈ usedIds m) ∧
  usedIds m' = {[ n ]} ∪ usedIds m ∧ nextId m' = n + 1.
Proof.
  unfold getNextId.
  destruct (skip_used_least (S (size (usedIds m))) (usedIds m) (nextId m)) as [Hle Hb].
  repeat split; [done|apply skip_used_fresh|done].
Qed.

(** *** The ids collected from a document *)

Lemma obj_get_elem (k : string) (v : json) (fs : obj) :
  obj_get k fs = Some v → (k, v) ∈ fs.
Proof.
  induction fs as [|[k' v'] fs IH]; [done|]. cbn [obj_get].
  destruct (String.eqb_spec k k') as [->|?].
  - intros [= ->]. apply list_elem_of_here.
  - intros ?. by apply list_elem_of_further, IH.
Qed.

Lemma foldl_collect_inv {A : Type} (f : A → json) (l : list A) (used : gset Z) (x : Z) :
  Forall (λ a, ∀ u, x ∈ collectUsedIds (f a) u → x ∈ u ∨ (x ∈ ids (f a) ∧ x ≠ 0)) l →
  x ∈ foldl (λ u a, collectUsedIds (f a) u) used l →
  x ∈ used ∨ (∃ a, a ∈ l ∧ x ∈ ids (f a)) ∧ x ≠ 0.
Proof.
  intros Hl. revert used. induction Hl as [|a l Ha _ IH]; intros used Hx; simpl in *; [auto|].
  destruct (IH _ Hx) as [Hin|[(b & Hb & Hxb) Hnz]].
  - destruct (Ha _ Hin) as [?|[? ?]]; [auto|]. right. split; [|done].
    exists a. split; [apply list_elem_of_here|done].
  - right. split; [|done]. exists b. split; [by apply list_elem_of_further|done].
Qed.

Lemma collectUsedIds_inv (v : json) (used : gset Z) (x : Z) :
  x ∈ collectUsedIds v used → x ∈ used ∨ (x ∈ ids v ∧ x ≠ 0).
Proof.
  revert used. induction v as [| | | |l IH|fs IH] using json_nested_ind;
    intros used Hx; simpl in *; auto.
  - apply (foldl_collect_inv id) in Hx as [?|[(a & Ha & Hxa) Hnz]]; [auto| |].
    + right. split; [|done]. apply list_elem_of_In, in_flat_map.
      exists a. split; by apply list_elem_of_In.
    + eapply Forall_impl; [exact IH|]. simpl. auto.
  - apply (foldl_collect_inv snd) in Hx as [Hx|[([k a] & Ha & Hxa) Hnz]].
    + destruct (obj_get "id" fs) as [[| |n| | |]|] eqn:Hid; auto.
      destruct (n =? 0) eqn:Hn; [auto|].
      apply elem_of_union in Hx as [->%elem_of_singleton|?]; [|auto].
      right. split; [|lia]. apply list_elem_of_In, in_flat_map.
      exists ("id", JNum n). split; [|by left].
      by apply list_elem_of_In, obj_get_elem.
    + right. split; [|done]. apply list_elem_of_In, in_flat_map.
      exists (k, a). split; [by apply list_elem_of_In|]. cbn [fst snd] in *.
      apply list_elem_of_In in Hxa.
      destruct (String.eqb k "id"); [|done]. destruct a; try done.
    + eapply Forall_impl; [exact IH|]. simpl. auto.
Qed.

(** X2.  [collectUsedIds] adds to the set the numeric ids of the document
    other than 0, and nothing else. *)
Theorem collectUsedIds_exact (v : json) (used : gset Z) (x : Z) :
  distinct_keys v = true →
  x ∈ collectUsedIds v used ↔ x ∈ used ∨ (x ∈ ids v ∧ x ≠ 0).
Proof.
  intros Hwf. split; [apply collectUsedIds_inv|].
  intros [Hx|[Hx Hnz]]; [by apply collectUsedIds_mono|by apply collectUsedIds_ids].
Qed.

Lemma collectUsedIds_exact_witness :
  distinct_keys collection_7 = true ∧
  (7 ∈ collectUsedIds collection_7 ∅ ↔ 7 ∈ (∅ : gset Z) ∨ (7 ∈ ids collection_7 ∧ 7 ≠ 0)).
Proof.
  split; [reflexivity|]. apply (collectUsedIds_exact collection_7 ∅ 7). reflexivity.
Defined.

(** *** What a reassignment leaves alone *)

(** X3.  [reassignIds] changes nothing but numeric ids, and leaves out the
    properties named [__proto__], which the assignments to the object it
    builds do not create: with the ids set aside, the test case it
    returns is the test case it was given without those properties. *)
Theorem reassignIds_changes_ids_only (testCase : json) (m : merger) :
  without_ids (reassignIds testCase m).1 = without_ids (without_proto testCase).
Proof. apply reassignIds_shape. Qed.

(** *** A test case whose ids are free *)

Lemma keeps_nothing (st : rstate) :
  st = (Merger (list_to_set [] ∪ usedIds st.1) (nextId st.1), st.2).
Proof.
  destruct st as [[u n] idMap]. cbn [fst snd usedIds nextId]. do 2 f_equal.
  set_solver.
Qed.

Lemma keeps_app (xs ys : list Z) (st : rstate) :
  (Merger (list_to_set ys
           ∪ usedIds (Merger (list_to_set xs ∪ usedIds st.1) (nextId st.1)))
     (nextId st.1), st.2)
  = (Merger (list_to_set (xs ++ ys) ∪ usedIds st.1) (nextId st.1), st.2).
Proof. cbn [usedIds]. do 2 f_equal. set_solver. Qed.

Lemma reassign_id_keeps (n : Z) (st : rstate) :
  n ∉ usedIds st.1 →
  reassign_id n st = (n, (Merger (list_to_set [n] ∪ usedIds st.1) (nextId st.1), st.2)).
Proof.
  destruct st as [m idMap]. intros Hn. unfold reassign_id. cbn [fst snd] in *.
  destruct (decide (n ∈ usedIds m)); [done|]. do 3 f_equal. set_solver.
Qed.

Lemma relabel_keeps (v : json) (st : rstate) :
  NoDup (ids v) → (∀ x, x ∈ ids v → x ∉ usedIds st.1) →
  relabel v st
  = (v, (Merger (list_to_set (ids v) ∪ usedIds st.1) (nextId st.1), st.2)).
Proof.
  revert st. induction v as [| | | |l IH|fs IH] using json_nested_ind;
    intros st Hnd Hfree; try (cbn [relabel ids]; f_equal; apply keeps_nothing).
  - cbn [relabel ids] in *.
    assert (reassign_items relabel l st
            = (l, (Merger (list_to_set (flat_map ids l) ∪ usedIds st.1) (nextId st.1),
                   st.2))) as ->; [|done].
    revert st Hnd Hfree. induction IH as [|item l Hitem _ IHl]; intros st Hnd Hfree.
    + cbn. f_equal. apply keeps_nothing.
    + rewrite reassign_items_unfold. cbn [flat_map] in *.
      apply NoDup_app in Hnd as (Hnd1 & Hdisj & Hnd2).
      rewrite Hitem; [|done|intros x Hx; apply Hfree; set_solver].
      rewrite IHl; [|done|].
      * cbn [fst snd nextId]. f_equal. apply keeps_app.
      * cbn [fst usedIds]. intros x Hx. apply not_elem_of_union. split.
        -- rewrite elem_of_list_to_set. intros Hx'. by apply (Hdisj x).
        -- apply Hfree. set_solver.
  - cbn [relabel ids] in *.
    set (fids := λ kv : string * json,
           match String.eqb kv.1 "id", kv.2 with
           | true, JNum n => [n]
           | _, _ => ids kv.2
           end) in *.
    assert (relabel_entries relabel fs st
            = (fs, (Merger (list_to_set (flat_map fids fs) ∪ usedIds st.1) (nextId st.1),
                    st.2))) as ->; [|done].
    revert st Hnd Hfree. induction IH as [|[k val] fs Hval _ IHfs]; intros st Hnd Hfree.
    + cbn. f_equal. apply keeps_nothing.
    + rewrite relabel_entries_unfold. cbn [flat_map] in *.
      apply NoDup_app in Hnd as (Hnd1 & Hdisj & Hnd2).
      assert ((match String.eqb k "id", val with
               | true, JNum n => let '(n', st1) := reassign_id n st in (JNum n', st1)
               | _, _ => relabel val st
               end)
              = (val, (Merger (list_to_set (fids (k, val)) ∪ usedIds st.1) (nextId st.1),
                       st.2))) as ->.
      { assert (∀ x, x ∈ fids (k, val) → x ∉ usedIds st.1) as Hfree0
          by (intros x Hx; apply Hfree; set_solver).
        unfold fids in Hnd1, Hfree0 |- *. cbn [fst snd] in *.
        destruct (String.eqb k "id"); [destruct val as [| |n| | |]|];
          try (by apply Hval).
        rewrite reassign_id_keeps; [done|]. apply Hfree0. set_solver. }
      rewrite IHfs; [|done|].
      * cbn [fst snd nextId]. f_equal. apply keeps_app.
      * cbn [fst usedIds]. intros x Hx. apply not_elem_of_union. split.
        -- rewrite elem_of_list_to_set. intros Hx'. by apply (Hdisj x).
        -- apply Hfree. set_solver.
Qed.

(** X4.  A test case whose numeric ids are pairwise distinct and not in use
    is returned as it is but for its properties named [__proto__], which
    are left out; its ids, those under such a property as well, are then
    in use. *)
Theorem reassignIds_keeps_free_ids (testCase : json) (m : merger) :
  NoDup (ids testCase) → (∀ x, x ∈ ids testCase → x ∉ usedIds m) →
  reassignIds testCase m
  = (without_proto testCase,
     Merger (list_to_set (ids testCase) ∪ usedIds m) (nextId m)).
Proof.
  intros Hnd Hfree. rewrite reassignIds_relabel.
  by rewrite (relabel_keeps testCase (m, ∅) Hnd Hfree).
Qed.

Lemma reassignIds_keeps_free_ids_witness :
  NoDup (ids case_7_8_proto) ∧
  (∀ x, x ∈ ids case_7_8_proto → x ∉ usedIds constructor) ∧
  reassignIds case_7_8_proto constructor
  = (without_proto case_7_8_proto,
     Merger (list_to_set (ids case_7_8_proto) ∪ usedIds constructor)
       (nextId constructor)).
Proof.
  assert (NoDup (ids case_7_8_proto)) as Hnd.
  { vm_compute. apply NoDup_cons. split.
    - intros H. apply elem_of_cons in H as [H|H]; [discriminate H|].
      apply list_elem_of_singleton in H. discriminate H.
    - apply NoDup_cons. split; [|apply NoDup_singleton].
      intros H. apply list_elem_of_singleton in H. discriminate H. }
  assert (∀ x, x ∈ ids case_7_8_proto → x ∉ usedIds constructor) as Hfree.
  { intros x _. apply not_elem_of_empty. }
  split; [exact Hnd|]. split; [exact Hfree|].
  exact (reassignIds_keeps_free_ids case_7_8_proto constructor Hnd Hfree).
Defined.

(** *** The rest of the document *)

Lemma obj_get_ensure_array_ne (k k' : string) (fs : obj) :
  k ≠ k' → obj_get k (ensure_array k' fs) = obj_get k fs.
Proof.
  intros Hne. unfold ensure_array. destruct (truthy _); [done|].
  by apply obj_get_obj_set_ne.
Qed.

(** X5.  The merge writes to [apiTestCaseCollection] only: every other
    property of the base file is in the output as it was. *)
Theorem mergeIntoApidog_keeps_other_properties (m : merger)
    (apidogData d : json) (testCases : list json) (k : string) :
  mergeIntoApidog m apidogData testCases = Some d →
  k ≠ "apiTestCaseCollection" →
  get k d = get k apidogData.
Proof.
  intros Hm Hk. unfold mergeIntoApidog in Hm.
  destruct apidogData as [| | | | |fs]; try done.
  destruct (obj_get "apiTestCaseCollection" _) as [[| | | |coll|]|]; try done.
  destruct (match coll with [] => [root_collection] | _ => coll end)
    as [|[| | | | |rfs] rest]; try done.
  destruct (obj_get "items" _) as [[| | | |items|]|]; try done.
  destruct (obj_get "children" _) as [[| | | |children|]|]; try done.
  destruct (index_items items 0 ∅) as [rm|]; [|done]. cbn [mbind option_bind] in Hm.
  destruct (index_folders children _) as [maps|]; [|done]. cbn [mbind option_bind] in Hm.
  destruct (merge_all _ _) as [st|]; [|done]. cbn [mbind option_bind] in Hm.
  destruct (sort_items _) as [items'|]; [|done]. cbn [mbind option_bind] in Hm.
  destruct (mapM sort_folder _) as [children'|]; [|done]. cbn [mbind option_bind] in Hm.
  injection Hm as <-. cbn [get].
  rewrite obj_get_obj_set_ne by done. by apply obj_get_ensure_array_ne.
Qed.

Lemma mergeIntoApidog_keeps_other_properties_witness :
  mergeIntoApidog constructor collection_p_q [JObj case_q] = Some merged_p_q ∧
  "info" ≠ "apiTestCaseCollection" ∧
  get "info" merged_p_q = get "info" collection_p_q ∧
  get "info" collection_p_q = Some (JObj [("name", JStr "Shop")]).
Proof.
  assert (mergeIntoApidog constructor collection_p_q [JObj case_q] = Some merged_p_q)
    as H by (vm_compute; reflexivity).
  assert ("info" ≠ "apiTestCaseCollection") as Hk by discriminate.
  split; [exact H|]. split; [exact Hk|].
  split; [exact (mergeIntoApidog_keeps_other_properties _ _ _ _ _ H Hk)|reflexivity].
Defined.

(** *** The order of the items *)

Lemma insert_by_key_sorted (x : Z * json) (l : list (Z * json)) :
  StronglySorted (λ a b, a.1 ≤ b.1) l →
  StronglySorted (λ a b, a.1 ≤ b.1) (insert_by_key x l).
Proof.
  induction 1 as [|y l Hl IH Hy]; simpl; [repeat constructor|].
  destruct (x.1 <=? y.1) eqn:E.
  - apply Z.leb_le in E. constructor; [by constructor|].
    constructor; [done|]. eapply Forall_impl; [exact Hy|]. simpl. lia.
  - apply Z.leb_gt in E. constructor; [done|].
    rewrite insert_by_key_perm. constructor; [lia|done].
Qed.

Lemma stable_sort_sorted (l : list (Z * json)) :
  StronglySorted (λ a b, a.1 ≤ b.1) (stable_sort l).
Proof.
  induction l as [|x l IH]; simpl; [constructor|]. by apply insert_by_key_sorted.
Qed.

Lemma sort_items_in_order (items items' : list json) :
  sort_items items = Some items' → in_order items'.
Proof.
  unfold sort_items, in_order.
  destruct (mapM _ _) as [keyed|] eqn:E; [|done]. cbn [mbind option_bind].
  intros [= <-]. apply mapM_Some in E.
  assert (Forall (λ kv : Z * json, ordering kv.2 = kv.1 ∧ is_null kv.2 = false) keyed)
    as Hkeyed.
  { assert (Forall (λ v, is_null v = false) (filter (λ v, is_null v = false) items))
      as Hp by (apply Forall_forall; intros v Hv; by apply list_elem_of_filter in Hv as [? _]).
    revert Hp E. generalize (filter (λ v, is_null v = false) items). intros present Hp E.
    induction E as [|x y l k Hxy _ IH]; [constructor|].
    apply Forall_cons in Hp as [Hx Hp]. constructor; [|by apply IH].
    unfold ordering. destruct (ordering_key x) eqn:Ek; simpl in Hxy; [|done].
    injection Hxy as <-. cbn [fst snd]. by rewrite Ek. }
  assert (Forall (λ kv : Z * json, ordering kv.2 = kv.1 ∧ is_null kv.2 = false)
            (stable_sort keyed)) as Hsorted
    by (by rewrite stable_sort_perm).
  rewrite filter_app.
  assert (filter (λ v, is_null v = false) (filter (λ v, is_null v = true) items) = [])
    as ->.
  { clear. induction items as [|x items IH]; [done|].
    destruct (is_null x) eqn:Hx.
    - rewrite (filter_cons_True (λ v, is_null v = true)) by done.
      by rewrite filter_cons_False by congruence.
    - by rewrite (filter_cons_False (λ v, is_null v = true)) by congruence. }
  rewrite app_nil_r.
  assert (filter (λ v, is_null v = false) (stable_sort keyed).*2 = (stable_sort keyed).*2)
    as ->.
  { induction Hsorted as [|kv l [_ Hkv] _ IH]; [done|].
    rewrite fmap_cons, filter_cons_True by done. by rewrite IH. }
  pose proof (stable_sort_sorted keyed) as Hs. revert Hsorted.
  induction Hs as [|kv l Hl IH Hkv]; intros Hsorted; [constructor|].
  apply Forall_cons in Hsorted as [[Hk _] Hsorted]. rewrite fmap_cons.
  constructor; [by apply IH|]. rewrite Forall_fmap.
  rewrite Forall_forall in Hkv, Hsorted. apply Forall_forall. intros kv' Hkv'.
  simpl. destruct (Hsorted kv' Hkv') as [-> _]. rewrite Hk. by apply Hkv.
Qed.

Lemma mergeIntoApidog_result (m : merger) (apidogData d : json) (testCases : list json) :
  mergeIntoApidog m apidogData testCases = Some d →
  ∃ fs coll rfs rest items children rm maps st items' children',
    apidogData = JObj fs ∧
    obj_get "apiTestCaseCollection" (ensure_array "apiTestCaseCollection" fs)
    = Some (JArr coll) ∧
    match coll with [] => [root_collection] | _ => coll end = JObj rfs :: rest ∧
    obj_get "items" (ensure_array "children" (ensure_array "items" rfs))
    = Some (JArr items) ∧
    obj_get "children" (ensure_array "children" (ensure_array "items" rfs))
    = Some (JArr children) ∧
    index_items items 0 ∅ = Some rm ∧
    index_folders children (FolderMaps rm ∅) = Some maps ∧
    merge_all (MState (Merger (collectUsedIds apidogData (usedIds m)) (nextId m))
                 items children maps) testCases = Some st ∧
    sort_items (st_items st) = Some items' ∧
    mapM sort_folder (st_children st) = Some children' ∧
    root_of d
    = Some (JObj (obj_set "children" (JArr children')
                    (obj_set "items" (JArr items')
                       (ensure_array "children" (ensure_array "items" rfs))))).
Proof.
  intros Hm. unfold mergeIntoApidog in Hm.
  destruct apidogData as [| | | | |fs]; try done.
  destruct (obj_get "apiTestCaseCollection" _) as [[| | | |coll|]|] eqn:Hcoll; try done.
  destruct (match coll with [] => [root_collection] | _ => coll end)
    as [|[| | | | |rfs] rest] eqn:Hroot; try done.
  destruct (obj_get "items" _) as [[| | | |items|]|] eqn:Hitems; try done.
  destruct (obj_get "children" _) as [[| | | |children|]|] eqn:Hchildren; try done.
  destruct (index_items items 0 ∅) as [rm|] eqn:Hrm; [|done]. cbn [mbind option_bind] in Hm.
  destruct (index_folders children _) as [maps|] eqn:Hmaps; [|done].
  cbn [mbind option_bind] in Hm.
  destruct (merge_all _ _) as [st|] eqn:Hall; [|done]. cbn [mbind option_bind] in Hm.
  destruct (sort_items _) as [items'|] eqn:Hsi; [|done]. cbn [mbind option_bind] in Hm.
  destruct (mapM sort_folder _) as [children'|] eqn:Hsc; [|done].
  cbn [mbind option_bind] in Hm. injection Hm as <-.
  exists fs, coll, rfs, rest, items, children, rm, maps, st, items', children'.
  repeat split; try done.
  unfold root_of. cbn [get]. by rewrite obj_get_obj_set_eq.
Qed.

Lemma sort_folder_in_order (folder folder' : json) (fitems : list json) :
  sort_folder folder = Some folder' → items_of (Some folder') = Some fitems →
  in_order fitems.
Proof.
  unfold sort_folder, items_of. cbn [getv].
  destruct folder as [| | | | |ffs]; try (by intros [= <-]).
  cbn [get].
  destruct (obj_get "items" ffs) as [[| | | |items|]|] eqn:Hitems;
    try (intros [= <-]; cbn [get]; by rewrite Hitems).
  destruct (sort_items items) as [items'|] eqn:Hs; [|done]. cbn [mbind option_bind].
  intros [= <-]. cbn [get]. rewrite obj_get_obj_set_eq. intros [= <-].
  by apply sort_items_in_order with items.
Qed.

(** X6.  In the output of the merge the items of the root, and the items of
    each folder of the root, are in the order of their [ordering], a
    missing [ordering] counting as 0. *)
Theorem mergeIntoApidog_sorts_items (m : merger) (apidogData d : json)
    (testCases : list json) :
  mergeIntoApidog m apidogData testCases = Some d →
  ∃ items children,
    root_items d = Some items ∧ in_order items ∧
    children_of (root_of d) = Some children ∧
    ∀ folder fitems,
      folder ∈ children → items_of (Some folder) = Some fitems → in_order fitems.
Proof.
  intros Hm.
  apply mergeIntoApidog_result in Hm
    as (fs & coll & rfs & rest & items & children & rm & maps & st & items' & children'
        & _ & _ & _ & _ & _ & _ & _ & _ & Hsi & Hsc & Hroot).
  exists items', children'. unfold root_items. rewrite Hroot.
  unfold items_of at 1, children_of. cbn [getv get].
  rewrite obj_get_obj_set_eq, obj_get_obj_set_ne, obj_get_obj_set_eq by done.
  split; [done|]. split; [by apply sort_items_in_order with (st_items st)|].
  split; [done|]. intros folder fitems Hin Hfitems.
  apply mapM_Some in Hsc. apply list_elem_of_lookup in Hin as [i Hi].
  destruct (Forall2_lookup_r _ _ _ _ _ Hsc Hi) as (folder0 & _ & Hsort).
  by apply sort_folder_in_order with folder0 folder.
Qed.

Lemma mergeIntoApidog_sorts_items_witness :
  mergeIntoApidog constructor collection_B [JObj case_q; JObj case_r_15_in_B]
  = Some merged_B ∧
  ∃ items children,
    root_items merged_B = Some items ∧ in_order items ∧
    children_of (root_of merged_B) = Some children ∧
    ∀ folder fitems,
      folder ∈ children → items_of (Some folder) = Some fitems → in_order fitems.
Proof.
  assert (mergeIntoApidog constructor collection_B [JObj case_q; JObj case_r_15_in_B]
          = Some merged_B) as H by (vm_compute; reflexivity).
  split; [exact H|]. exact (mergeIntoApidog_sorts_items _ _ _ _ H).
Defined.

(** *** A test case for the root *)

Lemma without_ids_primitive (v w : json) :
  without_ids v = w → match w with JArr _ | JObj _ => False | _ => True end → v = w.
Proof.
  destruct v; simpl; intros <-; try done.
Qed.

Lemma without_ids_get (k : string) (a b : obj) (v : json) :
  without_ids (JObj a) = without_ids (JObj b) → k ≠ "id" →
  match v with JArr _ | JObj _ => False | _ => True end →
  (obj_get k a = None → obj_get k b = None) ∧
  (obj_get k a = Some v → obj_get k b = Some v).
Proof.
  intros Heq Hk Hv. cbn [without_ids] in Heq. injection Heq as Heq.
  revert b Heq. induction a as [|[ka va] a IH]; intros [|[kb vb] b] Heq; try done.
  rewrite !fmap_cons in Heq. injection Heq as Hkey Hval Heq. cbn [fst snd] in *.
  subst kb. cbn [obj_get]. destruct (String.eqb_spec k ka) as [->|Hne].
  - split; [done|]. intros [= ->]. f_equal.
    apply String.eqb_neq in Hk. rewrite Hk in Hval.
    assert (without_ids v = v) as Hvv by (by destruct v).
    rewrite Hvv in Hval. by apply without_ids_primitive.
  - by apply IH.
Qed.

Lemma obj_get_without_proto (k : string) (fs fs' : obj) :
  without_proto (JObj fs) = JObj fs' → k ≠ "__proto__" →
  obj_get k fs' = without_proto <$> obj_get k fs.
Proof.
  cbn [without_proto]. intros [= <-] Hk. induction fs as [|[k0 v0] fs IH]; [done|].
  cbn [flat_map fst snd obj_get]. destruct (String.eqb_spec k0 "__proto__") as [->|Hne].
  - cbn [app]. apply String.eqb_neq in Hk. by rewrite Hk.
  - cbn [app obj_get]. by destruct (String.eqb k k0).
Qed.

Lemma shape_get (k : string) (tfs pfs : obj) (v : json) :
  without_ids (JObj pfs) = without_ids (without_proto (JObj tfs)) →
  k ≠ "id" → k ≠ "__proto__" →
  match v with JArr _ | JObj _ => False | _ => True end →
  (obj_get k tfs = None → obj_get k pfs = None) ∧
  (obj_get k tfs = Some v → obj_get k pfs = Some v).
Proof.
  intros Hshape Hid Hk Hv.
  destruct (without_proto (JObj tfs)) as [| | | | |tfs'] eqn:E; try done.
  pose proof (obj_get_without_proto k tfs tfs' E Hk) as Hget.
  destruct (without_ids_get k tfs' pfs v (eq_sym Hshape) Hid Hv) as [Hnone Hsome].
  split; intros Ht; rewrite Ht in Hget; [by apply Hnone|].
  apply Hsome. rewrite Hget. cbn [fmap option_fmap option_map]. by destruct v.
Qed.

Lemma index_items_spec (items : list json) (k : nat) (map rm : gmap string nat) :
  index_items items k map = Some rm →
  (∀ n i, rm !! n = Some i →
          map !! n = Some i ∨ (k ≤ i < k + length items)%nat) ∧
  (∀ n, is_Some (rm !! n) ↔ is_Some (map !! n) ∨ has_name n items = true).
Proof.
  revert k map. induction items as [|item items IH]; intros k map Hrm.
  - injection Hrm as <-. split; [auto|]. intros n. split; [auto|].
    by intros [?|?].
  - assert (index_items items (S k)
              match get "name" item with
              | Some (JStr n) => <[ n := k ]> map
              | _ => map
              end = Some rm) as Hrm' by (by destruct item).
    clear Hrm. apply IH in Hrm' as [Hidx Hdom]. split.
    + intros n i Hn. cbn [length]. destruct (Hidx n i Hn) as [Hm|?]; [|right; lia].
      destruct (get "name" item) as [[| | |s| |]|]; auto.
      destruct (decide (s = n)) as [->|Hne].
      * rewrite lookup_insert_eq in Hm. injection Hm as <-. right. lia.
      * rewrite lookup_insert_ne in Hm by done. auto.
    + intros n. rewrite Hdom. unfold has_name. cbn [existsb]. rewrite orb_true_iff.
      destruct (get "name" item) as [[| | |s| |]|] eqn:Hname; cbn [strict_eq];
        try (split; [intros [?|?]; auto|intros [?|[?|?]]; auto; done]).
      destruct (String.eqb_spec s n) as [->|Hne].
      * rewrite lookup_insert_eq. split; auto.
      * rewrite lookup_insert_ne by done.
        split; [intros [?|?]; auto|intros [?|[?|?]]; auto; done].
Qed.

Lemma index_folders_root (children : list json) (maps maps' : folder_maps) :
  Forall (λ folder, get "name" folder ≠ Some JNull) children →
  index_folders children maps = Some maps' → root_map maps' = root_map maps.
Proof.
  intros Hc. revert maps. induction Hc as [|folder children Hf _ IH]; intros maps Hm.
  - by injection Hm as <-.
  - assert (∃ maps1, index_folders children maps1 = Some maps'
                     ∧ root_map maps1 = root_map maps) as (maps1 & Hm1 & <-).
    { cbn [index_folders] in Hm. destruct folder as [| | | | |ffs]; try done;
        cbn [get] in *; try (by exists maps).
      destruct (obj_get "items" ffs) as [[| | | |items|]|]; try (by exists maps).
      destruct (index_items items 0 ∅) as [fm|]; [|done].
      destruct (obj_get "name" ffs) as [[| | |s| |]|]; try (by exists maps).
      eexists. split; [exact Hm|done]. }
    by apply IH.
Qed.

Lemma js_array_set_length (i : nat) (v : json) (l : list json) :
  (i < length l)%nat → length (js_array_set i v l) = length l.
Proof.
  intros Hi. unfold js_array_set. apply Nat.ltb_lt in Hi. rewrite Hi.
  apply length_insert.
Qed.

Lemma has_name_perm (n : string) (l l' : list json) :
  l ≡ₚ l' → has_name n l = has_name n l'.
Proof.
  unfold has_name. induction 1 as [|x l l' _ IH|x y l|l1 l2 l3 _ IH1 _ IH2]; simpl.
  - done.
  - by rewrite IH.
  - by rewrite !orb_assoc, (orb_comm (strict_eq (get "name" y) _)).
  - by rewrite IH1.
Qed.

Lemma has_name_elem (n : string) (item : json) (l : list json) :
  item ∈ l → get "name" item = Some (JStr n) → has_name n l = true.
Proof.
  intros Hin Hname. unfold has_name. apply existsb_exists. exists item.
  split; [by apply list_elem_of_In|]. rewrite Hname. cbn [strict_eq].
  apply String.eqb_refl.
Qed.

(** X7.  A test case without [_folder] goes to the root: it takes the place
    of the item of the root that has its name, or comes as one more item
    when there is none.  (No folder of the root is named [null].) *)
Theorem mergeIntoApidog_updates_or_adds (m : merger) (apidogData d : json)
    (tfs : obj) (n : string) (items : list json) :
  mergeIntoApidog m apidogData [JObj tfs] = Some d →
  root_items apidogData = Some items →
  (∀ children folder,
     children_of (root_of apidogData) = Some children → folder ∈ children →
     get "name" folder ≠ Some JNull) →
  obj_get "_folder" tfs = None → obj_get "name" tfs = Some (JStr n) →
  ∃ items',
    root_items d = Some items' ∧ has_name n items' = true ∧
    length items' = if has_name n items then length items else S (length items).
Proof.
  intros Hm Hitems Hfolders Hfolder Hname.
  apply mergeIntoApidog_result in Hm
    as (fs & coll & rfs & rest & items0 & children & rm & maps & st & items' & children'
        & -> & Hcoll & Hroot & Hitems0 & Hchildren & Hrm & Hmaps & Hall & Hsi & _ & Hd).
  (* the root of the base file *)
  unfold root_items, items_of, root_of in Hitems. cbn [get] in Hitems.
  destruct (obj_get "apiTestCaseCollection" fs) as [[| | | |[|root coll0]|]|] eqn:Hc;
    try done.
  assert (ensure_array "apiTestCaseCollection" fs = fs) as Hfs
    by (unfold ensure_array; by rewrite Hc).
  rewrite Hfs, Hc in Hcoll. injection Hcoll as <-. injection Hroot as -> ->.
  cbn [getv get] in Hitems.
  destruct (obj_get "items" rfs) as [[| | | |its|]|] eqn:Hi; try done.
  injection Hitems as <-.
  assert (ensure_array "items" rfs = rfs) as Hrfs
    by (unfold ensure_array; by rewrite Hi).
  rewrite Hrfs in Hitems0, Hchildren, Hd.
  rewrite obj_get_ensure_array_ne, Hi in Hitems0 by done. injection Hitems0 as <-.
  (* no folder is named null *)
  assert (Forall (λ folder, get "name" folder ≠ Some JNull) children) as Hnull.
  { apply Forall_forall. intros folder Hin.
    unfold ensure_array in Hchildren.
    destruct (truthy (obj_get "children" rfs)) eqn:Ht.
    - apply (Hfolders children); [|done].
      unfold children_of, root_of. cbn [get]. rewrite Hc. cbn [getv get].
      by rewrite Hchildren.
    - rewrite obj_get_obj_set_eq in Hchildren. injection Hchildren as <-.
      by apply elem_of_nil in Hin. }
  apply (index_folders_root _ _ _ Hnull) in Hmaps. cbn [root_map] in Hmaps.
  destruct (index_items_spec _ _ _ _ Hrm) as [Hidx Hdom].
  (* the one round of the loop *)
  cbn [merge_all mbind option_bind] in Hall.
  destruct (merge_one _ _) as [st1|] eqn:Hone; [|done]. injection Hall as ->.
  unfold merge_one in Hone. destruct (inherits (JObj tfs)); [done|].
  cbn [st_merger st_items st_children st_maps] in Hone.
  pose proof (reassignIds_shape (JObj tfs)
                (Merger (collectUsedIds (JObj fs) (usedIds m)) (nextId m))) as Hshape.
  destruct (reassignIds _ _) as [processed m1]. cbn [fst] in Hshape.
  destruct processed as [| | | | |pfs]; try done.
  destruct (shape_get "_folder" tfs pfs JNull Hshape ltac:(done) ltac:(done) I)
    as [Hpf _].
  destruct (shape_get "name" tfs pfs (JStr n) Hshape ltac:(done) ltac:(done) I)
    as [_ Hpn].
  specialize (Hpf Hfolder). specialize (Hpn Hname).
  unfold target_folder in Hone. rewrite Hpf in Hone. cbn [truthy mbind option_bind] in Hone.
  assert (obj_remove "_folder" pfs = pfs) as Hrem.
  { clear -Hpf. unfold obj_remove. induction pfs as [|[k v] pfs IH]; [done|].
    cbn [obj_get] in Hpf. destruct (String.eqb_spec "_folder" k) as [->|Hne]; [done|].
    rewrite filter_cons_True.
    - by rewrite IH.
    - cbn [fst]. apply String.eqb_neq in Hne. by rewrite Hne. }
  rewrite Hrem, Hpn, Hmaps in Hone.
  destruct (place n (JObj pfs) its rm) as [items1 rm1] eqn:Hplace.
  injection Hone as <-. cbn [st_items] in Hsi.
  exists items'. unfold root_items. rewrite Hd. unfold items_of. cbn [getv get].
  rewrite obj_get_obj_set_ne, obj_get_obj_set_eq by done. split; [done|].
  rewrite (has_name_perm n _ _ (sort_items_perm _ _ Hsi)),
    (Permutation_length (sort_items_perm _ _ Hsi)).
  unfold place in Hplace. destruct (rm !! n) as [i|] eqn:Hn.
  - injection Hplace as <- <-.
    destruct (Hidx n i Hn) as [Hc0|Hlt]; [by rewrite lookup_empty in Hc0|].
    assert (has_name n its = true) as ->.
    { destruct (Hdom n) as [[Hc0|?] _]; [by exists i| |done].
      rewrite lookup_empty in Hc0. by destruct Hc0. }
    split; [|apply js_array_set_length; lia].
    unfold js_array_set. replace (i <? length its)%nat with true
      by (symmetry; apply Nat.ltb_lt; lia).
    apply has_name_elem with (JObj pfs); [|done].
    apply list_elem_of_lookup. exists i. apply list_lookup_insert_eq. lia.
  - injection Hplace as <- <-.
    assert (has_name n its = false) as ->.
    { destruct (has_name n its) eqn:Hin; [|done]. destruct (Hdom n) as [_ Hback].
      destruct Hback as [? Hsome]; [by right|]. by rewrite Hn in Hsome. }
    rewrite length_app. split; [|simpl; lia].
    apply has_name_elem with (JObj pfs); [|done].
    apply elem_of_app. right. apply list_elem_of_here.
Qed.

Lemma mergeIntoApidog_updates_or_adds_witness :
  mergeIntoApidog constructor collection_p_q [JObj case_q] = Some merged_p_q ∧
  root_items collection_p_q = Some items_p_q ∧
  (∀ children folder,
     children_of (root_of collection_p_q) = Some children → folder ∈ children →
     get "name" folder ≠ Some JNull) ∧
  obj_get "_folder" case_q = None ∧ obj_get "name" case_q = Some (JStr "q") ∧
  ∃ items',
    root_items merged_p_q = Some items' ∧ has_name "q" items' = true ∧
    length items' = if has_name "q" items_p_q
                    then length items_p_q else S (length items_p_q).
Proof.
  assert (mergeIntoApidog constructor collection_p_q [JObj case_q] = Some merged_p_q)
    as H1 by (vm_compute; reflexivity).
  assert (root_items collection_p_q = Some items_p_q) as H2 by reflexivity.
  assert (∀ children folder,
            children_of (root_of collection_p_q) = Some children → folder ∈ children →
            get "name" folder ≠ Some JNull) as H3.
  { intros children folder [= <-] Hin. by apply elem_of_nil in Hin. }
  assert (obj_get "_folder" case_q = None) as H4 by reflexivity.
  assert (obj_get "name" case_q = Some (JStr "q")) as H5 by reflexivity.
  repeat (split; [assumption|]).
  exact (mergeIntoApidog_updates_or_adds _ _ _ _ _ _ H1 H2 H3 H4 H5).
Defined.

(** *** A test case for a folder that does not exist *)

Lemma find_folder_None (folderName : string) (children : list json) :
  has_name folderName children = false → find_folder folderName children = None.
Proof.
  unfold has_name. induction children as [|child children IH]; [done|].
  cbn [existsb find_folder]. intros [Hc Hr]%orb_false_iff.
  rewrite (IH Hr). destruct (get "name" child) as [[| | |s| |]|]; try done.
  cbn [strict_eq] in Hc. by rewrite Hc.
Qed.

Lemma index_folders_by_folder (children : list json) (maps maps' : folder_maps)
    (folderName : string) :
  index_folders children maps = Some maps' →
  has_name folderName children = false →
  by_folder maps' !! folderName = by_folder maps !! folderName.
Proof.
  revert maps. induction children as [|folder children IH]; intros maps Hm Hn.
  - by injection Hm as <-.
  - unfold has_name in Hn. cbn [existsb] in Hn. apply orb_false_iff in Hn as [Hf Hn].
    assert (∃ maps1, index_folders children maps1 = Some maps'
                     ∧ by_folder maps1 !! folderName = by_folder maps !! folderName)
      as (maps1 & Hm1 & <-).
    { cbn [index_folders] in Hm. destruct folder as [| | | | |ffs]; try done;
        cbn [get] in *; try (by exists maps).
      destruct (obj_get "items" ffs) as [[| | | |items|]|]; try (by exists maps).
      destruct (index_items items 0 ∅) as [fm|]; [|done].
      destruct (obj_get "name" ffs) as [[| | |s| |]|]; try (by exists maps);
        (eexists; split; [exact Hm|]); cbn [by_folder strict_eq] in *; [done|].
      apply String.eqb_neq in Hf. by rewrite lookup_insert_ne. }
    by apply IH.
Qed.

Lemma obj_remove_without_ids (k : string) (a b : obj) :
  without_ids (JObj a) = without_ids (JObj b) →
  without_ids (JObj (obj_remove k a)) = without_ids (JObj (obj_remove k b)).
Proof.
  cbn [without_ids]. intros [= Heq]. f_equal.
  revert b Heq. induction a as [|[ka va] a IH]; intros [|[kb vb] b] Heq; try done.
  rewrite !fmap_cons in Heq. injection Heq as Hkey Hval Heq. cbn [fst snd] in *.
  subst kb. unfold obj_remove in *. destruct (String.eqb k ka) eqn:E.
  - rewrite !filter_cons_False by (cbn [fst]; rewrite E; done). by apply IH.
  - rewrite !filter_cons_True by (cbn [fst]; rewrite E; done).
    rewrite !fmap_cons. cbn [fst snd]. f_equal; [by f_equal|by apply IH].
Qed.

Lemma obj_remove_without_proto (k : string) (fs : obj) :
  without_proto (JObj (obj_remove k fs))
  = match without_proto (JObj fs) with
    | JObj fs' => JObj (obj_remove k fs')
    | v => v
    end.
Proof.
  cbn [without_proto]. f_equal. unfold obj_remove.
  induction fs as [|[k0 v0] fs IH]; [done|].
  cbn [flat_map fst snd]. destruct (String.eqb k k0) eqn:E.
  - rewrite filter_cons_False by (cbn [fst]; rewrite E; done). rewrite IH.
    destruct (String.eqb k0 "__proto__"); [done|]. cbn [app].
    by rewrite filter_cons_False by (cbn [fst]; rewrite E; done).
  - rewrite filter_cons_True by (cbn [fst]; rewrite E; done).
    cbn [flat_map fst snd]. rewrite IH.
    destruct (String.eqb k0 "__proto__"); [done|]. cbn [app].
    by rewrite filter_cons_True by (cbn [fst]; rewrite E; done).
Qed.

(** X8.  A test case whose [_folder] names no folder of the root: the merge
    adds a folder of that name behind the folders of the root, with the
    test case (its ids reassigned, its [_folder] and its properties named
    [__proto__] gone) as the one item. *)
Theorem mergeIntoApidog_creates_folder (m : merger) (apidogData d : json)
    (tfs : obj) (folderName : string) (children : list json) :
  mergeIntoApidog m apidogData [JObj tfs] = Some d →
  children_of (root_of apidogData) = Some children →
  has_name folderName children = false →
  obj_get "_folder" tfs = Some (JStr folderName) → folderName ≠ "" →
  ∃ children' tc,
    children_of (root_of d) = Some children' ∧
    length children' = S (length children) ∧
    children' !! length children
    = Some (JObj [("name", JStr folderName); ("description", JStr "");
                  ("children", JArr []); ("items", JArr [tc])]) ∧
    without_ids tc = without_ids (without_proto (JObj (obj_remove "_folder" tfs))).
Proof.
  intros Hm Hchildren0 Hnew Hfolder Hne.
  apply mergeIntoApidog_result in Hm
    as (fs & coll & rfs & rest & items & children0 & rm & maps & st & items' & children'
        & -> & Hcoll & Hroot & Hitems & Hchildren & Hrm & Hmaps & Hall & _ & Hsc & Hd).
  (* the root of the base file *)
  unfold children_of, root_of in Hchildren0. cbn [get] in Hchildren0.
  destruct (obj_get "apiTestCaseCollection" fs) as [[| | | |[|root coll0]|]|] eqn:Hc;
    try done.
  assert (ensure_array "apiTestCaseCollection" fs = fs) as Hfs
    by (unfold ensure_array; by rewrite Hc).
  rewrite Hfs, Hc in Hcoll. injection Hcoll as <-. injection Hroot as -> ->.
  cbn [getv get] in Hchildren0.
  destruct (obj_get "children" rfs) as [[| | | |chs|]|] eqn:Hch; try done.
  injection Hchildren0 as <-.
  assert (obj_get "children" (ensure_array "items" rfs) = Some (JArr chs)) as Hch1
    by (by rewrite obj_get_ensure_array_ne).
  assert (ensure_array "children" (ensure_array "items" rfs) = ensure_array "items" rfs)
    as Hrfs by (unfold ensure_array at 1; by rewrite Hch1).
  rewrite Hrfs, Hch1 in Hchildren. injection Hchildren as <-.
  pose proof (index_folders_by_folder _ _ _ folderName Hmaps Hnew) as Hby.
  cbn [by_folder] in Hby. rewrite lookup_empty in Hby.
  (* the one round of the loop *)
  cbn [merge_all mbind option_bind] in Hall.
  destruct (merge_one _ _) as [st1|] eqn:Hone; [|done]. injection Hall as ->.
  unfold merge_one in Hone. destruct (inherits (JObj tfs)); [done|].
  cbn [st_merger st_items st_children st_maps] in Hone.
  pose proof (reassignIds_shape (JObj tfs)
                (Merger (collectUsedIds (JObj fs) (usedIds m)) (nextId m))) as Hshape.
  destruct (reassignIds _ _) as [processed m1]. cbn [fst] in Hshape.
  destruct processed as [| | | | |pfs]; try done.
  destruct (shape_get "_folder" tfs pfs (JStr folderName) Hshape
              ltac:(done) ltac:(done) I) as [_ Hpf].
  specialize (Hpf Hfolder).
  unfold target_folder in Hone. rewrite Hpf in Hone.
  apply String.eqb_neq in Hne. rewrite Hne in Hone. cbn [mbind option_bind] in Hone.
  destruct (obj_get "name" (obj_remove "_folder" pfs)) as [[| | |name| |]|]; try done.
  rewrite (find_folder_None _ _ Hnew), Hby in Hone.
  rewrite list_lookup_middle in Hone by done.
  set (tc := JObj (obj_remove "_folder" pfs)) in *.
  set (ffs := [("name", JStr folderName); ("description", JStr "");
               ("children", JArr []); ("items", JArr [])]).
  change (new_folder folderName) with (JObj ffs) in Hone. cbv beta iota in Hone.
  change (ensure_array "items" ffs) with ffs in Hone.
  change (obj_get "items" ffs) with (Some (JArr [])) in Hone. cbv beta iota in Hone.
  unfold place in Hone. change (default ∅ None) with (∅ : gmap string nat) in Hone.
  rewrite lookup_empty in Hone. cbv beta iota zeta in Hone.
  change (obj_set "items" (JArr ([] ++ [tc])) ffs)
    with [("name", JStr folderName); ("description", JStr "");
          ("children", JArr []); ("items", JArr [tc])] in Hone.
  injection Hone as <-. cbn [st_children] in Hsc.
  (* the folders after the sort *)
  apply mapM_Some in Hsc.
  rewrite insert_app_r_alt, Nat.sub_diag in Hsc by done. cbn [insert list_insert] in Hsc.
  apply Forall2_app_inv_l in Hsc as (sorted & last & Hsorted & Hlast & ->).
  apply Forall2_length in Hsorted.
  apply Forall2_cons_inv_l in Hlast as (folder' & ? & Hfolder' & ->%Forall2_nil_inv_l & ->).
  unfold sort_folder in Hfolder'.
  change (obj_get "items" [("name", JStr folderName); ("description", JStr "");
                           ("children", JArr []); ("items", JArr [tc])])
    with (Some (JArr [tc])) in Hfolder'. cbv beta iota in Hfolder'.
  unfold sort_items in Hfolder'.
  rewrite (filter_cons_True (λ v, is_null v = false)) in Hfolder' by done.
  rewrite (filter_cons_False (λ v, is_null v = true)) in Hfolder' by done.
  rewrite !filter_nil in Hfolder'. cbn [mapM] in Hfolder'.
  destruct (ordering_key tc) as [key|]; [|done].
  cbn [mbind option_bind mret option_ret fmap list_fmap stable_sort foldr insert_by_key
       snd app] in Hfolder'.
  injection Hfolder' as <-.
  exists (sorted ++ [JObj (obj_set "items" (JArr [tc])
                             [("name", JStr folderName); ("description", JStr "");
                              ("children", JArr []); ("items", JArr [tc])])]), tc.
  unfold children_of. rewrite Hd. cbn [getv get]. rewrite obj_get_obj_set_eq.
  split; [done|]. split; [rewrite length_app; simpl; lia|].
  split; [rewrite Hsorted; by apply list_lookup_middle|].
  subst tc. rewrite obj_remove_without_proto.
  destruct (without_proto (JObj tfs)) as [| | | | |tfs'] eqn:E; try done.
  by apply obj_remove_without_ids.
Qed.

Lemma mergeIntoApidog_creates_folder_witness :
  mergeIntoApidog constructor collection_p_q [JObj case_r_in_B] = Some merged_r_in_B ∧
  children_of (root_of collection_p_q) = Some [] ∧
  has_name "B" [] = false ∧
  obj_get "_folder" case_r_in_B = Some (JStr "B") ∧ "B" ≠ "" ∧
  ∃ children' tc,
    children_of (root_of merged_r_in_B) = Some children' ∧
    length children' = S (length ([] : list json)) ∧
    children' !! length ([] : list json)
    = Some (JObj [("name", JStr "B"); ("description", JStr "");
                  ("children", JArr []); ("items", JArr [tc])]) ∧
    without_ids tc
    = without_ids (without_proto (JObj (obj_remove "_folder" case_r_in_B))).
Proof.
  assert (mergeIntoApidog constructor collection_p_q [JObj case_r_in_B]
          = Some merged_r_in_B) as H1 by (vm_compute; reflexivity).
  assert (children_of (root_of collection_p_q) = Some []) as H2 by reflexivity.
  assert (has_name "B" [] = false) as H3 by reflexivity.
  assert (obj_get "_folder" case_r_in_B = Some (JStr "B")) as H4 by reflexivity.
  assert ("B" ≠ "") as H5 by discriminate.
  repeat (split; [assumption|]).
  exact (mergeIntoApidog_creates_folder _ _ _ _ _ _ H1 H2 H3 H4 H5).
Defined.

(** *** A test case for a folder that exists *)

Lemma find_folder_unique (folderName : string) (children : list json) (i : nat)
    (folder : json) :
  children !! i = Some folder → get "name" folder = Some (JStr folderName) →
  (∀ j other, children !! j = Some other → get "name" other = Some (JStr folderName) →
              j = i) →
  find_folder folderName children = Some i.
Proof.
  revert i. induction children as [|child children IH]; intros i Hi Hname Huniq; [done|].
  cbn [find_folder]. destruct i as [|i].
  - injection Hi as ->. by rewrite Hname, String.eqb_refl.
  - cbn [lookup list_lookup] in Hi.
    rewrite (IH i Hi Hname)
      by (intros j other Hj Ho; by injection (Huniq (S j) other Hj Ho)).
    destruct (get "name" child) as [[| | |s| |]|] eqn:Hc; try done.
    destruct (String.eqb_spec s folderName) as [->|_]; [|done].
    by specialize (Huniq 0%nat child eq_refl Hc).
Qed.

Lemma has_name_lookup (n : string) (l : list json) :
  has_name n l = true → ∃ j item, l !! j = Some item ∧ get "name" item = Some (JStr n).
Proof.
  unfold has_name. intros (item & Hin & Hname)%existsb_exists.
  apply list_elem_of_In, list_elem_of_lookup in Hin as [j Hj].
  exists j, item. split; [done|]. by apply strict_eq_true in Hname.
Qed.

Lemma index_folders_at (children : list json) (maps maps' : folder_maps)
    (folderName : string) (i : nat) (folder : json) (fitems : list json) :
  index_folders children maps = Some maps' →
  children !! i = Some folder → get "name" folder = Some (JStr folderName) →
  (∀ j other, children !! j = Some other → get "name" other = Some (JStr folderName) →
              j = i) →
  items_of (Some folder) = Some fitems →
  ∃ fm, index_items fitems 0 ∅ = Some fm ∧ by_folder maps' !! folderName = Some fm.
Proof.
  revert maps i. induction children as [|child children IH];
    intros maps i Hm Hi Hname Huniq Hitems; [done|].
  destruct i as [|i].
  - injection Hi as ->. cbn [index_folders] in Hm.
    destruct folder as [| | | | |ffs]; try done. unfold items_of in Hitems.
    cbn [getv get] in *.
    destruct (obj_get "items" ffs) as [[| | | |items|]|]; try done.
    injection Hitems as ->.
    destruct (index_items fitems 0 ∅) as [fm|]; [|done]. rewrite Hname in Hm.
    exists fm. split; [done|].
    assert (has_name folderName children = false) as Hnone.
    { destruct (has_name folderName children) eqn:E; [|done].
      apply has_name_lookup in E as (j & other & Hj & Ho).
      by specialize (Huniq (S j) other Hj Ho). }
    rewrite (index_folders_by_folder _ _ _ folderName Hm Hnone). cbn [by_folder].
    apply lookup_insert_eq.
  - cbn [lookup list_lookup] in Hi.
    assert (get "name" child ≠ Some (JStr folderName)) as Hother
      by (intros Hc; by specialize (Huniq 0%nat child eq_refl Hc)).
    assert (∃ maps1, index_folders children maps1 = Some maps') as [maps1 Hm1].
    { cbn [index_folders] in Hm. destruct child as [| | | | |cfs]; try done;
        cbn [get] in *; try (by exists maps).
      destruct (obj_get "items" cfs) as [[| | | |items|]|]; try (by exists maps).
      destruct (index_items items 0 ∅) as [fm|]; [|done]. by eexists. }
    apply (IH maps1 i); try done.
    intros j other Hj Ho. by injection (Huniq (S j) other Hj Ho).
Qed.

Lemma obj_get_obj_remove_ne (k k' : string) (fs : obj) :
  k ≠ k' → obj_get k (obj_remove k' fs) = obj_get k fs.
Proof.
  intros Hne. unfold obj_remove. induction fs as [|[k0 v0] fs IH]; [done|].
  cbn [obj_get]. destruct (String.eqb_spec k' k0) as [<-|Hne0].
  - rewrite filter_cons_False by (cbn [fst]; rewrite String.eqb_refl; done).
    rewrite IH. by destruct (String.eqb_spec k k').
  - rewrite filter_cons_True
      by (cbn [fst]; apply String.eqb_neq in Hne0; rewrite Hne0; done).
    cbn [obj_get]. by rewrite IH.
Qed.

(** X9.  A test case whose [_folder] names a folder of the root, the only
    one of that name, goes to that folder: it takes the place of the item
    of the folder that has its name, or comes as one more item when there
    is none.  The folder keeps its place among the folders. *)
Theorem mergeIntoApidog_updates_or_adds_in_folder (m : merger) (apidogData d : json)
    (tfs : obj) (folderName n : string) (children : list json) (i : nat)
    (folder : json) (fitems : list json) :
  mergeIntoApidog m apidogData [JObj tfs] = Some d →
  children_of (root_of apidogData) = Some children →
  children !! i = Some folder → get "name" folder = Some (JStr folderName) →
  (∀ j other, children !! j = Some other → get "name" other = Some (JStr folderName) →
              j = i) →
  items_of (Some folder) = Some fitems →
  obj_get "_folder" tfs = Some (JStr folderName) → folderName ≠ "" →
  obj_get "name" tfs = Some (JStr n) →
  ∃ children' folder' fitems',
    children_of (root_of d) = Some children' ∧ length children' = length children ∧
    children' !! i = Some folder' ∧ get "name" folder' = Some (JStr folderName) ∧
    items_of (Some folder') = Some fitems' ∧ has_name n fitems' = true ∧
    length fitems' = if has_name n fitems then length fitems else S (length fitems).
Proof.
  intros Hm Hchildren0 Hi Hfname Huniq Hfitems Hfolder Hne Hname.
  apply mergeIntoApidog_result in Hm
    as (fs & coll & rfs & rest & items & children0 & rm & maps & st & items' & children'
        & -> & Hcoll & Hroot & Hitems & Hchildren & Hrm & Hmaps & Hall & _ & Hsc & Hd).
  (* the root of the base file *)
  unfold children_of, root_of in Hchildren0. cbn [get] in Hchildren0.
  destruct (obj_get "apiTestCaseCollection" fs) as [[| | | |[|root coll0]|]|] eqn:Hc;
    try done.
  assert (ensure_array "apiTestCaseCollection" fs = fs) as Hfs
    by (unfold ensure_array; by rewrite Hc).
  rewrite Hfs, Hc in Hcoll. injection Hcoll as <-. injection Hroot as -> ->.
  cbn [getv get] in Hchildren0.
  destruct (obj_get "children" rfs) as [[| | | |chs|]|] eqn:Hch; try done.
  injection Hchildren0 as <-.
  assert (obj_get "children" (ensure_array "items" rfs) = Some (JArr chs)) as Hch1
    by (by rewrite obj_get_ensure_array_ne).
  assert (ensure_array "children" (ensure_array "items" rfs) = ensure_array "items" rfs)
    as Hrfs by (unfold ensure_array at 1; by rewrite Hch1).
  rewrite Hrfs, Hch1 in Hchildren. injection Hchildren as <-.
  destruct (index_folders_at _ _ _ _ _ _ _ Hmaps Hi Hfname Huniq Hfitems)
    as (fm & Hfm & Hby).
  destruct (index_items_spec _ _ _ _ Hfm) as [Hidx Hdom].
  (* the one round of the loop *)
  cbn [merge_all mbind option_bind] in Hall.
  destruct (merge_one _ _) as [st1|] eqn:Hone; [|done]. injection Hall as ->.
  unfold merge_one in Hone. destruct (inherits (JObj tfs)); [done|].
  cbn [st_merger st_items st_children st_maps] in Hone.
  pose proof (reassignIds_shape (JObj tfs)
                (Merger (collectUsedIds (JObj fs) (usedIds m)) (nextId m))) as Hshape.
  destruct (reassignIds _ _) as [processed m1]. cbn [fst] in Hshape.
  destruct processed as [| | | | |pfs]; try done.
  destruct (shape_get "_folder" tfs pfs (JStr folderName) Hshape
              ltac:(done) ltac:(done) I) as [_ Hpf].
  destruct (shape_get "name" tfs pfs (JStr n) Hshape ltac:(done) ltac:(done) I)
    as [_ Hpn].
  specialize (Hpf Hfolder). specialize (Hpn Hname).
  unfold target_folder in Hone. rewrite Hpf in Hone.
  apply String.eqb_neq in Hne. rewrite Hne in Hone. cbn [mbind option_bind] in Hone.
  rewrite obj_get_obj_remove_ne, Hpn in Hone by done.
  rewrite (find_folder_unique _ _ _ _ Hi Hfname Huniq), Hi, Hby in Hone.
  destruct folder as [| | | | |ffs]; try done.
  unfold items_of in Hfitems. cbn [getv get] in Hfitems, Hfname.
  destruct (obj_get "items" ffs) as [[| | | |its|]|] eqn:Hits; try done.
  injection Hfitems as ->.
  assert (ensure_array "items" ffs = ffs) as Hffs
    by (unfold ensure_array; by rewrite Hits).
  rewrite Hffs, Hits in Hone. change (default ∅ (Some fm)) with fm in Hone.
  set (tc := JObj (obj_remove "_folder" pfs)) in *.
  destruct (place n tc fitems fm) as [fitems1 fm1] eqn:Hplace.
  injection Hone as <-. cbn [st_children] in Hsc.
  (* the folders after the sort *)
  apply mapM_Some in Hsc.
  assert (i < length chs)%nat as Hlt by (by eapply lookup_lt_Some).
  destruct (Forall2_lookup_l _ _ _ i _ Hsc (list_lookup_insert_eq _ _ _ Hlt))
    as (folder' & Hfolder' & Hsorted).
  apply Forall2_length in Hsc. rewrite length_insert in Hsc.
  unfold sort_folder in Hsorted. rewrite obj_get_obj_set_eq in Hsorted.
  destruct (sort_items fitems1) as [sorted|] eqn:Hsort; [|done].
  cbn [mbind option_bind] in Hsorted. injection Hsorted as <-.
  eexists children', _, sorted.
  unfold children_of. rewrite Hd. cbn [getv get]. rewrite obj_get_obj_set_eq.
  split; [done|]. split; [done|]. split; [exact Hfolder'|].
  split; [cbn [get]; by rewrite !obj_get_obj_set_ne by done|].
  unfold items_of. cbn [getv get]. rewrite obj_get_obj_set_eq. split; [done|].
  rewrite (has_name_perm n _ _ (sort_items_perm _ _ Hsort)),
    (Permutation_length (sort_items_perm _ _ Hsort)).
  assert (get "name" tc = Some (JStr n)) as Htc
    by (subst tc; cbn [get]; by rewrite obj_get_obj_remove_ne).
  unfold place in Hplace. destruct (fm !! n) as [k|] eqn:Hn.
  - injection Hplace as <- <-.
    destruct (Hidx n k Hn) as [Hc0|Hk]; [by rewrite lookup_empty in Hc0|].
    assert (has_name n fitems = true) as ->.
    { destruct (Hdom n) as [[Hc0|?] _]; [by exists k| |done].
      rewrite lookup_empty in Hc0. by destruct Hc0. }
    split; [|apply js_array_set_length; lia].
    unfold js_array_set. replace (k <? length fitems)%nat with true
      by (symmetry; apply Nat.ltb_lt; lia).
    apply has_name_elem with tc; [|done].
    apply list_elem_of_lookup. exists k. apply list_lookup_insert_eq. lia.
  - injection Hplace as <- <-.
    assert (has_name n fitems = false) as ->.
    { destruct (has_name n fitems) eqn:Hin; [|done]. destruct (Hdom n) as [_ Hback].
      destruct Hback as [? Hsome]; [by right|]. by rewrite Hn in Hsome. }
    rewrite length_app. split; [|simpl; lia].
    apply has_name_elem with tc; [|done].
    apply elem_of_app. right. apply list_elem_of_here.
Qed.

Lemma mergeIntoApidog_updates_or_adds_in_folder_witness :
  ∃ d folder fitems,
    mergeIntoApidog constructor merged_r_in_B [JObj case_r_in_B] = Some d ∧
    children_of (root_of merged_r_in_B) = Some [folder] ∧
    [folder] !! 0%nat = Some folder ∧ get "name" folder = Some (JStr "B") ∧
    (∀ j other, [folder] !! j = Some other → get "name" other = Some (JStr "B") →
                j = 0%nat) ∧
    items_of (Some folder) = Some fitems ∧
    obj_get "_folder" case_r_in_B = Some (JStr "B") ∧ "B" ≠ "" ∧
    obj_get "name" case_r_in_B = Some (JStr "r") ∧
    ∃ children' folder' fitems',
      children_of (root_of d) = Some children' ∧ length children' = length [folder] ∧
      children' !! 0%nat = Some folder' ∧ get "name" folder' = Some (JStr "B") ∧
      items_of (Some folder') = Some fitems' ∧ has_name "r" fitems' = true ∧
      length fitems' = if has_name "r" fitems then length fitems else S (length fitems).
Proof.
  eexists _, _, _.
  split; [vm_compute; reflexivity|]. split; [reflexivity|]. split; [reflexivity|].
  split; [reflexivity|].
  assert (∀ (folder : json) (j : nat) (other : json),
            [folder] !! j = Some other → get "name" other = Some (JStr "B") → j = 0%nat)
    as Huniq.
  { intros folder j other Hj _. destruct j as [|j]; [done|]. by destruct j. }
  split; [apply Huniq|]. split; [reflexivity|]. split; [reflexivity|].
  split; [done|]. split; [reflexivity|].
  eapply (mergeIntoApidog_updates_or_adds_in_folder constructor merged_r_in_B _
            case_r_in_B "B" "r" _ 0);
    [vm_compute; reflexivity|reflexivity|reflexivity|reflexivity|apply Huniq
    |reflexivity|reflexivity|done|reflexivity].
Defined.

End MergerLaws.

(** ** The forward converter: further properties *)

Module ConverterLaws.
Import JsonFacts ApidogConverter ConverterNotions ConverterExamples ConverterViews
  ConverterFacts.

(** *** The numbers of the steps of a test case *)

Lemma flat_mapM_result_cons {A B : Type} (f : A → result (list B)) (x : A) (l : list A) :
  flat_mapM Ok result_bind f (x :: l)
  = (ys ← f x; zs ← flat_mapM Ok result_bind f l; Ok (ys ++ zs)).
Proof. reflexivity. Qed.

Lemma collect_all (l : list json) :
  Forall (λ step, JNull ∉ nested_steps step →
                  collectNumbersIn step = Ok (omap number_of (nested_steps step))) l →
  JNull ∉ flat_map nested_steps l →
  flat_mapM Ok result_bind collectNumbersIn l
  = Ok (omap number_of (flat_map nested_steps l)).
Proof.
  induction 1 as [|x l Hx _ IH]; [done|]. cbn [flat_map].
  rewrite not_elem_of_app. intros [H1 H2].
  rewrite flat_mapM_result_cons, (Hx H1). cbn [mbind result_mbind result_bind].
  rewrite (IH H2). cbn [result_bind]. by rewrite omap_app.
Qed.

Lemma collectNumbersIn_spec (step : json) :
  JNull ∉ nested_steps step →
  collectNumbersIn step = Ok (omap number_of (nested_steps step)).
Proof.
  revert step.
  cut (∀ v,
         (JNull ∉ nested_steps v →
          collectNumbersIn v = Ok (omap number_of (nested_steps v))) ∧
         (∀ l, v = JArr l →
               Forall (λ step, JNull ∉ nested_steps step →
                 collectNumbersIn step = Ok (omap number_of (nested_steps step))) l)).
  { intros H step. apply H. }
  induction v as [| | | |l IH|fs IH] using json_nested_ind; split;
    try (by intros); try done.
  - intros H. exfalso. apply H. rewrite nested_steps_unfold. apply list_elem_of_here.
  - intros ? [= <-]. eapply Forall_impl; [apply IH|]. by intros x [Hx _].
  - rewrite nested_steps_unfold. cbn [collectNumbersIn omap list_omap].
    rewrite with_field_get. intros Hnull%not_elem_of_cons.
    assert (match obj_get "children" fs with
            | Some (JArr l) => flat_mapM Ok result_bind collectNumbersIn l
            | _ => Ok []
            end
            = Ok (omap number_of
                    match obj_get "children" fs with
                    | Some (JArr l) => flat_map nested_steps l
                    | _ => []
                    end)) as Hnested.
    { destruct (obj_get "children" fs) as [children|] eqn:E; [|done].
      destruct children as [| | | |l|]; try done.
      apply collect_all; [|apply Hnull].
      clear Hnull. induction fs as [|[k v] fs IHfs]; [done|].
      apply Forall_cons in IH as [[_ IHv] IH]. cbn [obj_get] in E. revert E.
      destruct (String.eqb_spec "children" k) as [<-|?]; intros E.
      + injection E as ->. by apply IHv.
      + by apply IHfs. }
    rewrite Hnested. cbn [mbind result_mbind result_bind]. f_equal.
    unfold number_of at 2. cbn [get].
    by destruct (obj_get "number" fs) as [[]|].
Qed.

Lemma find_numbered_None (n : json) (l : list json) :
  n ≠ JNull →
  List.find (numbered n) l = None ↔ Forall (other_than n) (omap number_of l).
Proof.
  intros Hn. induction l as [|x l IH]; [split; [constructor|done]|].
  cbn [List.find omap list_omap]. unfold numbered at 1, number_of at 1.
  destruct (get "number" x) as [number|] eqn:E.
  - destruct (strict_eq (Some number) (Some n)) eqn:En.
    + split; [done|]. destruct number; try (by destruct n);
        intros [Hc _]%Forall_cons; unfold other_than in Hc; congruence.
    + rewrite IH. destruct number; [done|..]; rewrite Forall_cons; unfold other_than at 2;
        by split; [|intros [_ ?]].
  - cbn [strict_eq]. by rewrite IH.
Qed.

(** X10.  The numbers listed by [collectAllStepNumbers] are those that
    [findStepByNumber] can find: in steps none of which is [null], the
    search for a number other than [null] comes back empty exactly when
    the number is not in the list. *)
Theorem findStepByNumber_finds_collected_numbers (steps : list json) (n : json) :
  JNull ∉ flat_map nested_steps steps → n ≠ JNull →
  ∃ numbers found,
    collectAllStepNumbers (Some (JArr steps)) = Ok numbers ∧
    findStepByNumber (Some (JArr steps)) n = Ok found ∧
    (found = None ↔ Forall (other_than n) numbers).
Proof.
  intros Hnull Hn. eexists _, _. split; [|split].
  - apply collect_all; [|done]. apply Forall_forall. intros; by apply collectNumbersIn_spec.
  - by apply findStepByNumber_find.
  - by apply find_numbered_None.
Qed.

Lemma findStepByNumber_finds_collected_numbers_witness :
  JNull ∉ flat_map nested_steps login_steps ∧ JNum 2 ≠ JNull ∧
  ∃ numbers found,
    collectAllStepNumbers (Some (JArr login_steps)) = Ok numbers ∧
    findStepByNumber (Some (JArr login_steps)) (JNum 2) = Ok found ∧
    (found = None ↔ Forall (other_than (JNum 2)) numbers).
Proof.
  assert (JNull ∉ flat_map nested_steps login_steps) as H1.
  { vm_compute. intros H. repeat (apply elem_of_cons in H as [H|H]; [discriminate H|]).
    by apply elem_of_nil in H. }
  assert (JNum 2 ≠ JNull) as H2 by discriminate.
  split; [exact H1|]. split; [exact H2|].
  exact (findStepByNumber_finds_collected_numbers login_steps (JNum 2) H1 H2).
Defined.

(** *** The datasets of a converted scenario *)

Lemma convertDataset_belongs (testCaseId : Z) (idx : nat) (dataset d : json)
    (c c' : converter) :
  convertDataset testCaseId idx dataset c = Ok (d, c') → belongs_to testCaseId d.
Proof.
  unfold convertDataset. intros Hrun.
  apply bind_Ok in Hrun as (id & ? & [_ ->]%lift_Ok & Hrun).
  apply bind_Ok in Hrun as (datasetId & c1 & _ & Hrun).
  apply bind_Ok in Hrun as (dataListId & c2 & _ & Hrun).
  apply bind_Ok in Hrun as (data & ? & [_ ->]%lift_Ok & Hrun).
  apply ret_Ok in Hrun as [Hd _]. subst d.
  split; [done|]. eexists. split; [done|]. by repeat split.
Qed.

Lemma convertDatasets_belong (testCaseId : Z) (idx : nat) (datasets ds : list json)
    (c c' : converter) :
  convertDatasets testCaseId idx datasets c = Ok (ds, c') →
  length ds = length datasets ∧ Forall (belongs_to testCaseId) ds.
Proof.
  revert idx ds c c'. induction datasets as [|dataset datasets IH]; intros idx ds c c' Hrun.
  - apply ret_Ok in Hrun as [Hd _]. subst ds. by split.
  - cbn [convertDatasets] in Hrun.
    apply bind_Ok in Hrun as (d & c1 & Hd & Hrun).
    apply bind_Ok in Hrun as (ds' & c2 & Hds & Hrun).
    apply ret_Ok in Hrun as [Heq _]. subst ds.
    apply IH in Hds as [Hlen Hall]. split; [simpl; lia|].
    constructor; [|done]. by apply convertDataset_belongs in Hd.
Qed.

Section Scenario.

Variable randomUUID : nat → string.
Variable loadSourceApidog : json → converter → result converter.

Lemma convert_result (yamlData testCase : json) (c c' : converter) :
  convert randomUUID loadSourceApidog yamlData c = Ok (testCase, c') →
  ∃ (steps : list delayed) (testCaseId : Z) (datasets : list json) (c1 c2 : converter),
    (match js_or (get "datasets" yamlData) (JArr []) with
     | JArr l => convertDatasets testCaseId 0 l
     | JNum _ | JBool _ => mret []
     | _ => lift Unsupported
     end) c1 = Ok (datasets, c2) ∧
    testCase
    = JObj
        ([("steps", print_all steps (apiStore c'));
          ("id", JNum testCaseId);
          ("name", js_or (get "name" yamlData) (JStr "Test Scenario"));
          ("tags", js_or (get "tags" yamlData) (JArr []));
          ("options",
           convert_options yamlData
             match datasets with
             | first :: _ => default (JNum 0) (get "id" first)
             | [] => JNum 0
             end);
          ("priority", js_or (get "priority" yamlData) (JNum 2));
          ("ordering", JNum 10);
          ("description", js_or (get "description" yamlData) (JStr ""));
          ("preProcessors", JArr []);
          ("postProcessors", JArr []);
          ("children", JArr []);
          ("performanceTestOptions", JObj []);
          ("apiTestDataSets", JArr datasets)]
         ++ (if truthy (get "folder" yamlData)
             then [("_folder", default JNull (get "folder" yamlData))] else [])).
Proof.
  unfold convert. intros Hrun.
  apply bind_Ok in Hrun as (source & ? & [_ ->]%lift_Ok & Hrun).
  apply bind_Ok in Hrun as ([] & c1 & _ & Hrun).
  apply bind_Ok in Hrun as (testCaseId & c2 & _ & Hrun).
  apply bind_Ok in Hrun as (steps & c3 & _ & Hrun).
  apply bind_Ok in Hrun as (datasets & c4 & Hds & Hrun).
  apply bind_Ok in Hrun as (cfinal & ? & [= <- <-] & Hrun).
  apply ret_Ok in Hrun as [Heq Hc]. subst testCase c'.
  by exists steps, testCaseId, datasets, c3, c4.
Qed.

(** X11.  In a converted scenario every dataset belongs to the test case: it
    and its data list carry the id of the test case as [relatedId], and
    the data list carries the id of the dataset as [dataSetId].  There is
    one dataset for each dataset of the scenario, and [useDataSetId] is
    the id of the first, or 0 without datasets. *)
Theorem convert_datasets_belong_to_test_case (yamlData testCase : json)
    (c c' : converter) :
  convert randomUUID loadSourceApidog yamlData c = Ok (testCase, c') →
  ∃ id datasets,
    get "id" testCase = Some (JNum id) ∧
    get "apiTestDataSets" testCase = Some (JArr datasets) ∧
    Forall (belongs_to id) datasets ∧
    (∀ l, get "datasets" yamlData = Some (JArr l) → length datasets = length l) ∧
    getv "useDataSetId" (get "options" testCase)
    = match datasets with
      | first :: _ => get "id" first
      | [] => Some (JNum 0)
      end.
Proof.
  intros Hrun.
  apply convert_result in Hrun as (steps & id & datasets & c1 & c2 & Hds & ->).
  exists id, datasets. split; [done|]. split; [done|].
  assert ((∀ l, get "datasets" yamlData = Some (JArr l) → length datasets = length l)
          ∧ Forall (belongs_to id) datasets) as [Hlen Hall].
  { destruct (get "datasets" yamlData) as [v|] eqn:E; cbn [js_or] in Hds.
    - destruct (truthy (Some v)) eqn:Hv.
      + destruct v as [| | | |l|]; try done.
        * apply ret_Ok in Hds as [Heq _]. subst datasets. by split.
        * apply ret_Ok in Hds as [Heq _]. subst datasets. by split.
        * apply convertDatasets_belong in Hds as [Hlen Hall]. split; [|done].
          by intros ? [= <-].
      + apply ret_Ok in Hds as [Heq _]. subst datasets. split; [|done].
        intros l [= ->]. done.
    - apply ret_Ok in Hds as [Heq _]. subst datasets. by split. }
  split; [done|]. split; [done|].
  cbn [get obj_get app String.eqb Ascii.eqb Bool.eqb getv convert_options].
  destruct Hall as [|first rest [_ (dl & _ & _ & [x Hx] & _)] _]; [done|].
  by rewrite Hx.
Qed.

(** X12.  What the converter prints is a test case for the merger: it has
    [steps] and a [name], so that the loader of the merger keeps it, and
    its [_folder] is the [folder] of the scenario when that is truthy,
    and is absent otherwise. *)
Theorem convert_output_is_loaded (yamlData testCase : json) (c c' : converter) :
  convert randomUUID loadSourceApidog yamlData c = Ok (testCase, c') →
  TestCaseMerger.loadTestCases [testCase] = [testCase] ∧
  get "_folder" testCase
  = if truthy (get "folder" yamlData) then get "folder" yamlData else None.
Proof.
  intros Hrun.
  apply convert_result in Hrun as (steps & id & datasets & c1 & c2 & _ & ->).
  split.
  - unfold TestCaseMerger.loadTestCases. rewrite filter_cons_True; [done|].
    unfold TestCaseMerger.valid_test_case.
    cbn [get obj_get app String.eqb Ascii.eqb Bool.eqb truthy print_all andb].
    destruct (get "name" yamlData) as [v|]; [|done]. cbn [js_or].
    by destruct (truthy (Some v)) eqn:E.
  - destruct (truthy (get "folder" yamlData)) eqn:E; [|done].
    cbn [get obj_get app String.eqb Ascii.eqb Bool.eqb].
    by destruct (get "folder" yamlData).
Qed.

End Scenario.

Lemma convert_datasets_belong_to_test_case_witness :
  ∃ testCase c',
    convert uuid no_source two_datasets constructor = Ok (testCase, c') ∧
    ∃ id datasets,
      get "id" testCase = Some (JNum id) ∧
      get "apiTestDataSets" testCase = Some (JArr datasets) ∧
      Forall (belongs_to id) datasets ∧
      (∀ l, get "datasets" two_datasets = Some (JArr l) → length datasets = length l) ∧
      getv "useDataSetId" (get "options" testCase)
      = match datasets with
        | first :: _ => get "id" first
        | [] => Some (JNum 0)
        end.
Proof.
  eexists _, _. split; [vm_compute; reflexivity|].
  eapply (convert_datasets_belong_to_test_case uuid no_source two_datasets _ constructor).
  vm_compute; reflexivity.
Defined.

Lemma convert_output_is_loaded_witness :
  ∃ testCase c',
    convert uuid no_source two_datasets constructor = Ok (testCase, c') ∧
    TestCaseMerger.loadTestCases [testCase] = [testCase] ∧
    get "_folder" testCase
    = if truthy (get "folder" two_datasets) then get "folder" two_datasets else None.
Proof.
  eexists _, _. split; [vm_compute; reflexivity|].
  eapply (convert_output_is_loaded uuid no_source two_datasets _ constructor).
  vm_compute; reflexivity.
Defined.

(** *** The request of an http step *)

Lemma createBasicHttpStep_case (step parentModuleId : json) (c c' : converter)
    (d : delayed) :
  createBasicHttpStep step parentModuleId c = Ok (d, c') →
  ∃ m pre,
    js_or (get "method" step) (JStr "get") = JStr m ∧
    convertPreProcessors
      (js_or (get "pre_processors" step) (js_or (get "preProcessors" step) (JArr [])))
    = Ok pre ∧
    ∀ store, ∃ bindId hfs,
      d store = http_step (step_name step) (step_number step) bindId (JObj hfs) ∧
      obj_get "auth" hfs = Some (JObj []) ∧
      obj_get "path" hfs = Some (js_or (get "path" step) (JStr "/")) ∧
      obj_get "method" hfs = Some (JStr (toLowerCase m)) ∧
      obj_get "preProcessors" hfs = Some (JArr pre) ∧
      (disableResponseValidation step = true → obj_get "responseId" hfs = Some (JNum 0)).
Proof.
  unfold createBasicHttpStep. intros Hrun.
  apply bind_Ok in Hrun as (method & ? & [Hmethod ->]%lift_Ok & Hrun).
  apply bind_Ok in Hrun as (responseId & c1 & Hid & Hrun).
  apply bind_Ok in Hrun as (id & c2 & _ & Hrun).
  apply bind_Ok in Hrun as (data & ? & [_ ->]%lift_Ok & Hrun).
  apply bind_Ok in Hrun as (pre & ? & [Hpre ->]%lift_Ok & Hrun).
  apply bind_Ok in Hrun as (post & ? & [_ ->]%lift_Ok & Hrun).
  apply bind_Ok in Hrun as (fields & ? & [_ ->]%lift_Ok & Hrun).
  apply bind_Ok in Hrun as (rb & c3 & _ & Hrun).
  apply bind_Ok in Hrun as (params & c5 & _ & Hrun).
  apply bind_Ok in Hrun as (headers & c6 & _ & Hrun).
  apply ret_Ok in Hrun as [Hd _]. subst d.
  destruct (js_or (get "method" step) (JStr "get")) as [| | |m| |]; try done.
  injection Hmethod as <-.
  exists m, pre. split; [done|]. split; [done|].
  intros store. eexists _, _. split; [reflexivity|].
  repeat split; try done.
  intros Hdis. rewrite Hdis in Hid. apply ret_Ok in Hid as [Heq _]. by subst responseId.
Qed.

Lemma convertHttpStep_case (step parentModuleId : json) (c c' : converter) (d : delayed) :
  convertHttpStep step parentModuleId c = Ok (d, c') →
  ∃ resolved pre,
    resolve_api c step = Ok resolved ∧
    convertPreProcessors
      (js_or (get "pre_processors" step) (js_or (get "preProcessors" step) (JArr [])))
    = Ok pre ∧
    ∀ store, ∃ bindId hfs,
      d store = http_step (step_name step) (step_number step) bindId (JObj hfs) ∧
      obj_get "preProcessors" hfs = Some (JArr pre) ∧
      (disableResponseValidation step = true → obj_get "responseId" hfs = Some (JNum 0)) ∧
      match resolved with
      | Some ref =>
          obj_get "auth" hfs
          = Some (override_auth step
                    (js_or (get "auth" (default JNull (api_of (store_get c ref))))
                       (JObj [])))
      | None =>
          obj_get "auth" hfs = Some (JObj []) ∧
          obj_get "path" hfs = Some (js_or (get "path" step) (JStr "/")) ∧
          ∃ m, js_or (get "method" step) (JStr "get") = JStr m ∧
               obj_get "method" hfs = Some (JStr (toLowerCase m))
      end.
Proof.
  intros Hrun. unfold convertHttpStep in Hrun.
  apply bind_Ok in Hrun as (? & ? & [= <- <-] & Hrun).
  apply bind_Ok in Hrun as (resolved & ? & [Hres ->]%lift_Ok & Hrun).
  destruct resolved as [ref|].
  2: { apply createBasicHttpStep_case in Hrun as (m & pre & Hm & Hpre & Hd).
       exists None, pre. split; [done|]. split; [done|]. intros store.
       destruct (Hd store) as (bindId & hfs & ? & ? & ? & ? & ? & ?).
       exists bindId, hfs. repeat split; try done. by exists m. }
  apply bind_Ok in Hrun as (responseId & c1 & Hid & Hrun).
  apply bind_Ok in Hrun as ([rb0 shared] & ? & [_ ->]%lift_Ok & Hrun).
  apply bind_Ok in Hrun as (id & c2 & _ & Hrun).
  apply bind_Ok in Hrun as (q0 & ? & [_ ->]%lift_Ok & Hrun).
  apply bind_Ok in Hrun as (h0 & ? & [_ ->]%lift_Ok & Hrun).
  apply bind_Ok in Hrun as (ck0 & ? & [_ ->]%lift_Ok & Hrun).
  apply bind_Ok in Hrun as (pa0 & ? & [_ ->]%lift_Ok & Hrun).
  apply bind_Ok in Hrun as (pre & ? & [Hpre ->]%lift_Ok & Hrun).
  apply bind_Ok in Hrun as (post & ? & [_ ->]%lift_Ok & Hrun).
  apply bind_Ok in Hrun as (apiId & ? & [_ ->]%lift_Ok & Hrun).
  apply bind_Ok in Hrun as (fields & ? & [_ ->]%lift_Ok & Hrun).
  apply bind_Ok in Hrun as (rb & c3 & _ & Hrun).
  apply bind_Ok in Hrun as (? & c4 & _ & Hrun).
  apply bind_Ok in Hrun as (params & c5 & _ & Hrun).
  apply bind_Ok in Hrun as (headers & c6 & _ & Hrun).
  apply ret_Ok in Hrun as [Hd _]. subst d.
  exists (Some ref), pre. split; [done|]. split; [done|].
  intros store. eexists _, _. split; [reflexivity|].
  repeat split; try done.
  intros Hdis. unfold response_id in Hid. rewrite Hdis in Hid.
  apply ret_Ok in Hid as [Heq _]. by subst responseId.
Qed.

(** *** The user agent *)

Lemma header_name_is_user_agent (h : json) :
  header_name_is (Some (JStr "user-agent")) h = Ok true →
  ∃ fs, h = JObj fs ∧ is_user_agent h = true.
Proof.
  destruct h as [| | | | |fs]; try done. unfold header_name_is, is_user_agent.
  cbn [get]. destruct (obj_get "name" fs) as [[| | |s| |]|]; try done.
  - cbn [truthy]. by destruct b.
  - cbn [truthy]. by destruct (negb _).
  - destruct (String.eqb s ""); [done|]. intros [= H]. by exists fs.
Qed.

Lemma apply_user_agent_sets (step userAgent : json) (headers headers' : list json)
    (c c' : converter) :
  apply_user_agent step headers c = Ok (headers', c') →
  get "user_agent" step = Some userAgent → truthy (Some userAgent) = true →
  ∃ h, h ∈ headers' ∧ is_user_agent h = true ∧
       get "value" h = Some userAgent ∧ get "enable" h = Some JTrue.
Proof.
  unfold apply_user_agent. intros H Hstep Ht. rewrite Hstep, Ht in H.
  apply bind_Ok in H as (index & ? & [Hindex ->]%lift_Ok & H).
  destruct index as [i|].
  - apply ret_Ok in H as [Heq _]. subst headers'.
    apply findIndex_Some in Hindex as (h & Hi & (fs & -> & Hua)%header_name_is_user_agent).
    exists (set_value userAgent (JObj fs)). split.
    + apply (list_elem_of_lookup_2 _ i). rewrite list_lookup_alter, Hi.
      by case_decide.
    + unfold is_user_agent in *. cbn [set_value get] in *.
      rewrite !obj_get_obj_set_ne by done.
      by rewrite !obj_get_obj_set_eq.
  - apply bind_Ok in H as (id & c1 & _ & [Heq _]%ret_Ok). subst headers'.
    eexists. split; [apply elem_of_app; right; apply list_elem_of_singleton; reflexivity|].
    done.
Qed.

Lemma createBasicHttpStep_header (step parentModuleId : json) (c c' : converter)
    (d : delayed) :
  createBasicHttpStep step parentModuleId c = Ok (d, c') →
  ∃ headers0 headers c1 c2,
    apply_user_agent step headers0 c1 = Ok (headers, c2) ∧
    ∀ store, printed_header (d store) = Some (JArr headers).
Proof.
  unfold createBasicHttpStep. intros Hrun.
  apply bind_Ok in Hrun as (method & ? & [Hmethod ->]%lift_Ok & Hrun).
  apply bind_Ok in Hrun as (responseId & c1 & Hid & Hrun).
  apply bind_Ok in Hrun as (id & c2 & _ & Hrun).
  apply bind_Ok in Hrun as (data & ? & [_ ->]%lift_Ok & Hrun).
  apply bind_Ok in Hrun as (pre & ? & [Hpre ->]%lift_Ok & Hrun).
  apply bind_Ok in Hrun as (post & ? & [_ ->]%lift_Ok & Hrun).
  apply bind_Ok in Hrun as (fields & ? & [_ ->]%lift_Ok & Hrun).
  apply bind_Ok in Hrun as (rb & c3 & _ & Hrun).
  apply bind_Ok in Hrun as (params & c5 & _ & Hrun).
  apply bind_Ok in Hrun as (headers & c6 & Hua & Hrun).
  apply ret_Ok in Hrun as [Hd _]. subst d.
  by exists (header params), headers, c5, c6.
Qed.

Lemma convertHttpStep_header (step parentModuleId : json) (c c' : converter)
    (d : delayed) :
  convertHttpStep step parentModuleId c = Ok (d, c') →
  ∃ headers0 headers c1 c2,
    apply_user_agent step headers0 c1 = Ok (headers, c2) ∧
    ∀ store, printed_header (d store) = Some (JArr headers).
Proof.
  intros Hrun. unfold convertHttpStep in Hrun.
  apply bind_Ok in Hrun as (? & ? & [= <- <-] & Hrun).
  apply bind_Ok in Hrun as (resolved & ? & [Hres ->]%lift_Ok & Hrun).
  destruct resolved as [ref|]; [|by eapply createBasicHttpStep_header].
  apply bind_Ok in Hrun as (responseId & c1 & Hid & Hrun).
  apply bind_Ok in Hrun as ([rb0 shared] & ? & [_ ->]%lift_Ok & Hrun).
  apply bind_Ok in Hrun as (id & c2 & _ & Hrun).
  apply bind_Ok in Hrun as (q0 & ? & [_ ->]%lift_Ok & Hrun).
  apply bind_Ok in Hrun as (h0 & ? & [_ ->]%lift_Ok & Hrun).
  apply bind_Ok in Hrun as (ck0 & ? & [_ ->]%lift_Ok & Hrun).
  apply bind_Ok in Hrun as (pa0 & ? & [_ ->]%lift_Ok & Hrun).
  apply bind_Ok in Hrun as (pre & ? & [Hpre ->]%lift_Ok & Hrun).
  apply bind_Ok in Hrun as (post & ? & [_ ->]%lift_Ok & Hrun).
  apply bind_Ok in Hrun as (apiId & ? & [_ ->]%lift_Ok & Hrun).
  apply bind_Ok in Hrun as (fields & ? & [_ ->]%lift_Ok & Hrun).
  apply bind_Ok in Hrun as (rb & c3 & _ & Hrun).
  apply bind_Ok in Hrun as (? & c4 & _ & Hrun).
  apply bind_Ok in Hrun as (params & c5 & _ & Hrun).
  apply bind_Ok in Hrun as (headers & c6 & Hua & Hrun).
  apply ret_Ok in Hrun as [Hd _]. subst d.
  by exists (header params), headers, c5, c6.
Qed.

(** X13.  The user agent of an http step is sent.  When the step has a truthy
    [user_agent], the converted step has a header named User-Agent, in
    whatever case of the letters, that is enabled and has the user agent
    for its value, whether the API of the step is resolved or not. *)
Theorem user_agent_is_sent (step parentModuleId userAgent : json) (c c' : converter)
    (d : delayed) (store : list json) :
  convertHttpStep step parentModuleId c = Ok (d, c') →
  get "user_agent" step = Some userAgent → truthy (Some userAgent) = true →
  ∃ headers h,
    printed_header (d store) = Some (JArr headers) ∧ h ∈ headers ∧
    is_user_agent h = true ∧
    get "value" h = Some userAgent ∧ get "enable" h = Some JTrue.
Proof.
  intros (headers0 & headers & c1 & c2 & Hua & Hd)%convertHttpStep_header Hstep Ht.
  destruct (apply_user_agent_sets _ _ _ _ _ _ Hua Hstep Ht) as (h & Hin & Hh).
  by exists headers, h.
Qed.

Lemma user_agent_is_sent_witness :
  ∃ d c',
    convertHttpStep search_as_robot default_module loaded = Ok (d, c') ∧
    get "user_agent" search_as_robot = Some (JStr "robot") ∧
    truthy (Some (JStr "robot")) = true ∧
    ∃ headers h,
      printed_header (d []) = Some (JArr headers) ∧ h ∈ headers ∧
      is_user_agent h = true ∧
      get "value" h = Some (JStr "robot") ∧ get "enable" h = Some JTrue.
Proof.
  destruct (convertHttpStep search_as_robot default_module loaded) as [[d c']| |] eqn:E;
    [|vm_compute in E; discriminate..].
  exists d, c'. split; [reflexivity|]. split; [reflexivity|]. split; [reflexivity|].
  apply (user_agent_is_sent search_as_robot default_module (JStr "robot") loaded c' d []);
    [exact E|reflexivity|reflexivity].
Defined.

End ConverterLaws.

(** ** The reverse converter: further properties *)

Module ReverseLaws.
Import JsonFacts ApidogReverseConverter ReverseNotions ReverseExamples ReverseViews
  ReverseFacts.

(** *** The two lists made of the post-processors *)

Lemma filter_mapM_filter {A B : Type} (f : A → result (option B)) (keep : A → bool)
    (g : A → B) (l : list A) (ys : list B) :
  Forall (λ x, ∀ oy, f x = Ok oy → oy = if keep x then Some (g x) else None) l →
  filter_mapM f l = Ok ys →
  ys = g <$> filter (λ x, keep x = true) l.
Proof.
  intros Hl. revert ys. induction Hl as [|x l Hx _ IH]; intros ys.
  - by intros [= <-].
  - intros (oy & zs & Hy & Hzs & ->)%filter_mapM_cons.
    rewrite (IH _ Hzs), (Hx _ Hy). destruct (keep x) eqn:Hk.
    + by rewrite filter_cons_True by done.
    + by rewrite filter_cons_False by congruence.
Qed.

(** X14.  Of the post-processors of a request the assertions that have data
    are turned into assertions of the scenario, each made of the five
    fields of its data, and the processors that are no assertions into
    post-processors of the scenario, each with its type, its two flags
    and its data; both lists are in the order of the processors.  Each
    processor goes to one list at most, and the assertions without data
    go to none. *)
Theorem post_processors_are_split (ps assertions others : list json) :
  convertPostProcessorsToAssertions (Some (JArr ps)) = Ok assertions →
  convertPostProcessors (Some (JArr ps)) = Ok others →
  assertions
  = assertion_back <$> filter (λ p, is_assertion p && has_data p = true) ps ∧
  others = converted_processor <$> filter (λ p, negb (is_assertion p) = true) ps ∧
  (length assertions + length others
   + length (filter (λ p, is_assertion p && negb (has_data p) = true) ps))%nat
  = length ps.
Proof.
  unfold convertPostProcessorsToAssertions, convertPostProcessors, processors.
  cbn [truthy mbind result_mbind result_bind]. intros Ha Ho.
  assert (assertions
          = assertion_back
              <$> filter (λ p, is_assertion p && has_data p = true) ps) as H1.
  { eapply (filter_mapM_filter _ (λ p, is_assertion p && has_data p)); [|exact Ha].
    apply Forall_forall. intros p _ oy.
    unfold assertion_of, is_assertion, has_data, assertion_back.
    intros (type & Ht & H)%result_bind_Ok.
    assert (type = get "type" p) as -> by (destruct p; try done; by injection Ht).
    cbv zeta in H. destruct (_ && _); by injection H as <-. }
  assert (others
          = converted_processor <$> filter (λ p, negb (is_assertion p) = true) ps)
    as H2.
  { eapply (filter_mapM_filter _ (λ p, negb (is_assertion p))); [|exact Ho].
    apply Forall_forall. intros p _ oy.
    unfold is_assertion. intros (type & Ht & H)%result_bind_Ok.
    assert (type = get "type" p) as -> by (destruct p; try done; by injection Ht).
    destruct (strict_eq _ _); by injection H as <-. }
  split; [done|]. split; [done|]. rewrite H1, H2, !length_fmap. clear.
  induction ps as [|p ps IH]; [done|]. rewrite !filter_cons. cbv beta.
  destruct (is_assertion p), (has_data p); cbn [andb negb];
    repeat case_decide; try done; cbn [length]; lia.
Qed.

Lemma post_processors_are_split_witness :
  convertPostProcessorsToAssertions (Some (JArr three_processors))
  = Ok [JObj [("name", JStr "ok"); ("subject", JStr "responseJson");
              ("comparison", JStr "equal"); ("value", JStr ""); ("path", JStr "")]] ∧
  convertPostProcessors (Some (JArr three_processors))
  = Ok [JObj [("type", JStr "customScript"); ("enable", JTrue);
              ("default_enable", JFalse); ("data", JStr "x")]] ∧
  [JObj [("name", JStr "ok"); ("subject", JStr "responseJson");
         ("comparison", JStr "equal"); ("value", JStr ""); ("path", JStr "")]]
  = assertion_back
      <$> filter (λ p, is_assertion p && has_data p = true) three_processors ∧
  [JObj [("type", JStr "customScript"); ("enable", JTrue);
         ("default_enable", JFalse); ("data", JStr "x")]]
  = converted_processor
      <$> filter (λ p, negb (is_assertion p) = true) three_processors ∧
  (length [JObj [("name", JStr "ok"); ("subject", JStr "responseJson");
                 ("comparison", JStr "equal"); ("value", JStr ""); ("path", JStr "")]]
   + length [JObj [("type", JStr "customScript"); ("enable", JTrue);
                   ("default_enable", JFalse); ("data", JStr "x")]]
   + length (filter (λ p, is_assertion p && negb (has_data p) = true) three_processors))%nat
  = length three_processors.
Proof.
  assert (convertPostProcessorsToAssertions (Some (JArr three_processors))
          = Ok [JObj [("name", JStr "ok"); ("subject", JStr "responseJson");
                      ("comparison", JStr "equal"); ("value", JStr "");
                      ("path", JStr "")]]) as H1 by reflexivity.
  assert (convertPostProcessors (Some (JArr three_processors))
          = Ok [JObj [("type", JStr "customScript"); ("enable", JTrue);
                      ("default_enable", JFalse); ("data", JStr "x")]]) as H2
    by reflexivity.
  split; [exact H1|]. split; [exact H2|].
  exact (post_processors_are_split _ _ _ H1 H2).
Defined.

(** *** The fields of a converted http step *)

Lemma with_pre_processors_spec (httpApiCase : jsval) (y y' : obj) (l : list json) :
  with_pre_processors httpApiCase y = Ok y' →
  getv "preProcessors" httpApiCase = Some (JArr l) →
  ∃ pre,
    convertPreProcessors (Some (JArr l)) = Ok pre ∧
    obj_get "pre_processors" y'
    = match pre with [] => obj_get "pre_processors" y | _ => Some (JArr pre) end.
Proof.
  unfold with_pre_processors. intros H Hl. rewrite Hl in H. cbn [truthy] in H.
  change (default JNull (Some (JArr l))) with (JArr l) in H.
  destruct l as [|p l].
  - cbn in H. injection H as <-. by exists [].
  - change (ApidogConverter.nonempty (JArr (p :: l))) with (Ok (Some (p :: l))) in H.
    cbn [mbind result_mbind result_bind] in H.
    apply result_bind_Ok in H as (pre & Hpre & H). exists pre. split; [done|].
    destruct pre; injection H as <-; [done|]. apply obj_get_obj_set_eq.
Qed.

Lemma convertHttpStep_fields (step : json) (h : obj) (oy : option json) :
  convertHttpStep step = Ok oy →
  get "httpApiCase" step = Some (JObj h) →
  ∃ y, oy = Some (JObj y) ∧
    obj_get "name" y
    = Some (js_or (get "name" step) (JStr ("Step " +:+ js_String (step_number step)))) ∧
    obj_get "auth" y = obj_get "auth" (with_auth (Some (JObj h)) []) ∧
    (obj_get "responseId" h = Some (JNum 0) →
     obj_get "disable_response_validation" y = Some JTrue) ∧
    obj_get "path" y = (if truthy (obj_get "path" h) then obj_get "path" h else None) ∧
    (∀ m, obj_get "method" h = Some (JStr m) → m ≠ "" →
          obj_get "method" y = Some (JStr (toUpperCase m))) ∧
    (∀ l, obj_get "preProcessors" h = Some (JArr l) →
          ∃ pre, convertPreProcessors (Some (JArr l)) = Ok pre ∧
                 obj_get "pre_processors" y
                 = match pre with [] => None | _ => Some (JArr pre) end).
Proof.
  unfold convertHttpStep. intros H Hcase. rewrite Hcase in H. cbn [truthy negb] in H.
  apply result_bind_Ok in H as (y1 & H1 & H).
  apply result_bind_Ok in H as (rbo & Hrbo & H).
  apply result_bind_Ok in H as (y2 & H2 & H).
  apply result_bind_Ok in H as (y3 & H3 & H).
  apply result_bind_Ok in H as (y4 & H4 & H).
  injection H as <-. eexists. split; [done|].
  set (base := [("number", step_number step);
                ("name", js_or (get "name" step)
                           (JStr ("Step " +:+ js_String (step_number step))));
                ("type", JStr "http")]) in *.
  assert (∀ k, k ≠ "auth" →
               k ≠ "request_form_data_override" → k ≠ "request_body_override" →
               k ≠ "query_params_override" → k ≠ "path_params_override" →
               k ≠ "header_params_override" → k ≠ "cookie_params_override" →
               k ≠ "pre_processors" → k ≠ "assertions" → k ≠ "post_processors" →
               k ≠ "disable_response_validation" →
               obj_get k (with_response_validation (Some (JObj h)) y4) = obj_get k y1)
    as Hother.
  { intros k Hk3 Hk4 Hk5 Hk6 Hk7 Hk8 Hk9 Hk10 Hk11 Hk12 Hk13.
    rewrite with_response_validation_other by done.
    rewrite (with_post_processors_other k _ _ _ H4) by done.
    rewrite (with_pre_processors_other k _ _ _ H3) by done.
    rewrite (with_parameter_overrides_other k _ _ _ H2) by done.
    by rewrite with_request_body_other, with_auth_other by done. }
  split; [|split; [|split; [|split; [|split]]]].
  - rewrite Hother by done.
    by rewrite (with_path_and_method_other "name" _ _ _ H1) by done.
  - rewrite with_response_validation_other by done.
    rewrite (with_post_processors_other _ _ _ _ H4) by done.
    rewrite (with_pre_processors_other _ _ _ _ H3) by done.
    rewrite (with_parameter_overrides_other _ _ _ _ H2) by done.
    rewrite with_request_body_other by done.
    unfold with_auth. destruct (truthy _); [|
      by rewrite (with_path_and_method_other "auth" _ _ _ H1) by done].
    destruct (_ && _); [by rewrite !obj_get_obj_set_eq|].
    destruct (truthy _); [by rewrite !obj_get_obj_set_eq|].
    by rewrite (with_path_and_method_other "auth" _ _ _ H1) by done.
  - intros Hid. unfold with_response_validation. cbn [getv get]. rewrite Hid.
    cbn [strict_eq Z.eqb orb]. apply obj_get_obj_set_eq.
  - rewrite Hother by done. unfold with_path_and_method in H1. cbn [getv get] in H1.
    assert (obj_get "path"
              (if truthy (obj_get "path" h)
               then obj_set "path" (default JNull (obj_get "path" h)) base else base)
            = if truthy (obj_get "path" h) then obj_get "path" h else None) as Hp.
    { destruct (truthy (obj_get "path" h)) eqn:E; [|done].
      rewrite obj_get_obj_set_eq. by destruct (obj_get "path" h). }
    destruct (truthy (obj_get "method" h)); [|by injection H1 as <-].
    destruct (obj_get "method" h) as [[| | |m| |]|]; try done.
    injection H1 as <-. by rewrite obj_get_obj_set_ne.
  - intros m Hm Hne. rewrite Hother by done.
    unfold with_path_and_method in H1. cbn [getv get] in H1. rewrite Hm in H1.
    cbn [truthy] in H1. apply String.eqb_neq in Hne. rewrite Hne in H1.
    injection H1 as <-. apply obj_get_obj_set_eq.
  - intros l Hl.
    destruct (with_pre_processors_spec _ _ _ l H3 Hl) as (pre & Hpre & Hy3).
    exists pre. split; [done|].
    rewrite with_response_validation_other by done.
    rewrite (with_post_processors_other _ _ _ _ H4) by done. rewrite Hy3.
    destruct pre; [|done].
    rewrite (with_parameter_overrides_other _ _ _ _ H2) by done.
    rewrite with_request_body_other, with_auth_other by done.
    by rewrite (with_path_and_method_other _ _ _ _ H1) by done.
Qed.

End ReverseLaws.

(** ** The round trip: further properties *)

Module RoundTripLaws.
Import JsonFacts ApidogConverter ConverterNotions ConverterExamples ConverterViews
  ConverterFacts ReverseNotions ReverseFacts RoundTripNotions RoundTripExamples
  RoundTripViews RoundTripFacts ConverterLaws ReverseLaws.

(** *** Strings *)

Lemma replace_cr_no_cr (s : string) : no_cr (replace_cr s).
Proof.
  induction s as [|a s IH]; [done|]. unfold replace_cr in *. cbn [string_map no_cr].
  split; [|done]. by destruct (Ascii.eqb a CR) eqn:E.
Qed.

Lemma replace_cr_id (s : string) : no_cr s → replace_cr s = s.
Proof.
  induction s as [|a s IH]; [done|]. intros [Ha Hs]. unfold replace_cr in *.
  cbn [string_map]. by rewrite Ha, IH.
Qed.

Lemma replace_crlf_cons (a : ascii) (s : string) :
  Ascii.eqb a CR = false → replace_crlf (String a s) = String a (replace_crlf s).
Proof.
  intros Ha. destruct s as [|b s]; [done|]. cbn [replace_crlf]. by rewrite Ha.
Qed.

Lemma replace_lf_back (s : string) : no_cr s → replace_crlf (replace_lf s) = s.
Proof.
  induction s as [|a s IH]; [done|]. intros [Ha Hs]. cbn [replace_lf].
  destruct (Ascii.eqb a LF) eqn:E.
  - apply Ascii.eqb_eq in E as ->.
    change (replace_crlf (String CR (String LF (replace_lf s))))
      with (String LF (replace_crlf (replace_lf s))).
    by rewrite IH.
  - rewrite replace_crlf_cons by done. by rewrite IH.
Qed.

(** The line ends of Apidog, read back as line feeds. *)
Lemma to_lf_to_crlf (s : string) : to_lf (to_crlf s) = to_lf s.
Proof.
  unfold to_lf, to_crlf.
  pose proof (replace_cr_no_cr (replace_crlf s)) as H.
  by rewrite (replace_lf_back _ H), (replace_cr_id _ H).
Qed.

(** *** The head of a scenario *)

Lemma js_or_default_truthy (x : jsval) (d : json) :
  truthy (Some d) = true → truthy (Some (js_or x d)) = true.
Proof.
  intros Hd. destruct x as [v|]; [|done]. cbn [js_or].
  by destruct (truthy (Some v)) eqn:E.
Qed.

Lemma js_or_same (x : jsval) (d : json) :
  truthy (Some d) = true → js_or (Some (js_or x d)) d = js_or x d.
Proof. intros Hd. apply js_or_truthy. by apply js_or_default_truthy. Qed.

Section Scenario.

Variable randomUUID : nat → string.
Variable loadSourceApidog : json → converter → result converter.
Variable testCases : ApidogReverseConverter.index.
Variable sourceApidogPath : jsval.

Lemma reverse_convert_result (testCase back : json) :
  ApidogReverseConverter.convert testCases testCase sourceApidogPath = Ok back →
  ∃ datasets,
    ApidogReverseConverter.convertDatasets (get "apiTestDataSets" testCase) = Ok datasets ∧
    ∀ k, k ≠ "steps" →
      get k back
      = if String.eqb k "datasets" then Some (JArr datasets)
        else if String.eqb k "options" && truthy (get "options" testCase)
        then Some (JObj
               [("environment_id",
                 js_or (getv "environmentId" (get "options" testCase)) (JNum 0));
                ("iteration_count",
                 js_or (getv "iterationCount" (get "options" testCase)) (JNum 1));
                ("thread_count",
                 js_or (getv "threadCount" (get "options" testCase)) (JNum 1));
                ("on_error", js_or (getv "onError" (get "options" testCase)) (JStr "ignore"));
                ("delay_item", js_or (getv "delayItem" (get "options" testCase)) (JNum 0));
                ("save_report_detail",
                 js_or (getv "saveReportDetail" (get "options" testCase)) (JStr "all"))])
        else if String.eqb k "source_apidog" && truthy sourceApidogPath
        then sourceApidogPath
        else obj_get k
               [("name", js_or (get "name" testCase) (JStr "Test Scenario"));
                ("description", js_or (get "description" testCase) (JStr ""));
                ("priority", js_or (get "priority" testCase) (JNum 2));
                ("tags", js_or (get "tags" testCase) (JArr []))].
Proof.
  unfold ApidogReverseConverter.convert. intros H.
  apply result_bind_Ok in H as (name & Hname & H).
  apply result_bind_Ok in H as (datasets & Hds & H).
  apply result_bind_Ok in H as (steps & _ & [= <-]).
  exists datasets. split; [done|]. intros k Hk. cbn [get].
  rewrite obj_get_obj_set_ne by done. rewrite obj_get_obj_set.
  destruct (String.eqb_spec k "datasets") as [->|Hd]; [done|].
  assert (name = get "name" testCase) as ->.
  { destruct testCase; try done; by injection Hname as <-. }
  assert (∀ y : obj,
            obj_get k y
            = obj_get k [("name", js_or (get "name" testCase) (JStr "Test Scenario"));
                         ("description", js_or (get "description" testCase) (JStr ""));
                         ("priority", js_or (get "priority" testCase) (JNum 2));
                         ("tags", js_or (get "tags" testCase) (JArr []))] →
            obj_get k (if truthy sourceApidogPath
                       then obj_set "source_apidog" (default JNull sourceApidogPath) y
                       else y)
            = if String.eqb k "source_apidog" && truthy sourceApidogPath
              then sourceApidogPath
              else obj_get k [("name", js_or (get "name" testCase) (JStr "Test Scenario"));
                              ("description", js_or (get "description" testCase) (JStr ""));
                              ("priority", js_or (get "priority" testCase) (JNum 2));
                              ("tags", js_or (get "tags" testCase) (JArr []))]) as Hsource.
  { intros y Hy. destruct (truthy sourceApidogPath) eqn:Hs.
    - rewrite obj_get_obj_set.
      destruct (String.eqb_spec k "source_apidog") as [->|Hks]; [|done].
      by destruct sourceApidogPath.
    - by rewrite andb_false_r. }
  specialize (Hsource _ eq_refl).
  destruct (truthy (get "options" testCase)) eqn:Ho.
  - rewrite obj_get_obj_set. destruct (String.eqb_spec k "options") as [->|Hko]; [done|].
    cbn [andb]. exact Hsource.
  - rewrite andb_false_r. exact Hsource.
Qed.

(** X15.  A scenario converted and converted back has its name, description,
    priority and tags, and its six options, each with its default where
    it was missing or falsy; it has lost its [folder], and its
    [source_apidog] is the path given to the reverse converter. *)
Theorem round_trip_keeps_head (scenario testCase back : json) (c c' : converter) :
  convert randomUUID loadSourceApidog scenario c = Ok (testCase, c') →
  ApidogReverseConverter.convert testCases testCase sourceApidogPath = Ok back →
  get "name" back = Some (js_or (get "name" scenario) (JStr "Test Scenario")) ∧
  get "description" back = Some (js_or (get "description" scenario) (JStr "")) ∧
  get "priority" back = Some (js_or (get "priority" scenario) (JNum 2)) ∧
  get "tags" back = Some (js_or (get "tags" scenario) (JArr [])) ∧
  get "options" back = Some (options_with_defaults scenario) ∧
  get "folder" back = None ∧
  get "source_apidog" back = (if truthy sourceApidogPath then sourceApidogPath else None).
Proof.
  intros Hforward Hreverse.
  apply convert_result in Hforward as (steps & id & datasets & c1 & c2 & _ & ->).
  apply reverse_convert_result in Hreverse as (ds & _ & Hback).
  rewrite !Hback by done.
  cbn [get obj_get app String.eqb Ascii.eqb Bool.eqb andb truthy getv convert_options].
  rewrite !js_or_idem. by repeat split.
Qed.

End Scenario.

Lemma round_trip_keeps_head_witness :
  ∃ testCase c' back,
    convert uuid no_source two_datasets constructor = Ok (testCase, c') ∧
    ApidogReverseConverter.convert [] testCase None = Ok back ∧
    get "name" back = Some (js_or (get "name" two_datasets) (JStr "Test Scenario")) ∧
    get "description" back = Some (js_or (get "description" two_datasets) (JStr "")) ∧
    get "priority" back = Some (js_or (get "priority" two_datasets) (JNum 2)) ∧
    get "tags" back = Some (js_or (get "tags" two_datasets) (JArr [])) ∧
    get "options" back = Some (options_with_defaults two_datasets) ∧
    get "folder" back = None ∧
    get "source_apidog" back = (if truthy None then None else None).
Proof.
  eexists _, _, _. split; [vm_compute; reflexivity|]. split; [vm_compute; reflexivity|].
  eapply (round_trip_keeps_head uuid no_source [] None two_datasets _ _ constructor);
    vm_compute; reflexivity.
Defined.

(** *** The datasets *)

Lemma dataset_round_trip (testCaseId : Z) (i : nat) (dataset d back : json)
    (c c' : converter) :
  convertDataset testCaseId i dataset c = Ok (d, c') →
  ApidogReverseConverter.convertDataset i d = Ok back →
  dataset_comes_back i dataset back.
Proof.
  unfold convertDataset. intros Hrun.
  apply bind_Ok in Hrun as (id & ? & [Hid ->]%lift_Ok & Hrun).
  apply bind_Ok in Hrun as (datasetId & c1 & HdatasetId & Hrun).
  apply bind_Ok in Hrun as (dataListId & c2 & HdataListId & Hrun).
  apply bind_Ok in Hrun as (data & ? & [Hdata ->]%lift_Ok & Hrun).
  apply ret_Ok in Hrun as [Hd _]. subst d.
  assert (id = get "id" dataset) as ->
    by (destruct dataset; try done; by injection Hid as <-).
  assert (truthy (get "id" dataset) = true → Some datasetId = get "id" dataset) as Hkeep1.
  { intros Ht. rewrite Ht in HdatasetId. apply ret_Ok in HdatasetId as [Heq _].
    subst datasetId. by destruct (get "id" dataset). }
  assert (truthy (get "data_list_id" dataset) = true →
          Some dataListId = get "data_list_id" dataset) as Hkeep2.
  { intros Ht. rewrite Ht in HdataListId. apply ret_Ok in HdataListId as [Heq _].
    subst dataListId. by destruct (get "data_list_id" dataset). }
  unfold dataset_payload in Hdata.
  destruct (js_or (get "data" dataset) (JStr "")) as [| | |s| |] eqn:Hs; try done.
  injection Hdata as <-.
  unfold ApidogReverseConverter.convertDataset.
  cbn [prop get obj_get String.eqb Ascii.eqb Bool.eqb mbind result_mbind result_bind].
  rewrite js_or_same by done.
  set (name := js_or (get "name" dataset) _).
  destruct (String.eqb_spec (trim s +:+ String LF "") "") as [Hc|_];
    [by apply trim_line_nonempty in Hc|].
  rewrite trim_line.
  assert (truthy (get "id" dataset) = true → truthy (Some datasetId) = true) as Ht1
    by (intros Ht; by rewrite (Hkeep1 Ht)).
  assert (truthy (get "data_list_id" dataset) = true → truthy (Some dataListId) = true)
    as Ht2 by (intros Ht; by rewrite (Hkeep2 Ht)).
  unfold dataset_comes_back.
  destruct (truthy (Some datasetId)) eqn:E1, (truthy (Some dataListId)) eqn:E2;
    intros [= <-]; cbn [get];
    (split; [done|]); (split; [intros s0 Hs0; rewrite Hs in Hs0; by injection Hs0 as <-|]);
    split; intros Ht; first [by specialize (Ht1 Ht) | by specialize (Ht2 Ht)
                             | by rewrite <- (Hkeep1 Ht) | by rewrite <- (Hkeep2 Ht)].
Qed.

Lemma datasets_round_trip (testCaseId : Z) (i : nat) (datasets ds ys : list json)
    (c c' : converter) :
  convertDatasets testCaseId i datasets c = Ok (ds, c') →
  ApidogReverseConverter.convertDatasets_from i ds = Ok ys →
  length ys = length datasets ∧
  ∀ j dataset y, datasets !! j = Some dataset → ys !! j = Some y →
                 dataset_comes_back (i + j) dataset y.
Proof.
  revert i ds ys c c'. induction datasets as [|dataset datasets IH];
    intros i ds ys c c' Hforward Hreverse.
  - apply ret_Ok in Hforward as [Hds _]. subst ds. injection Hreverse as <-. by split.
  - cbn [convertDatasets] in Hforward.
    apply bind_Ok in Hforward as (d & c1 & Hd & Hforward).
    apply bind_Ok in Hforward as (ds' & c2 & Hds & Hforward).
    apply ret_Ok in Hforward as [Heq _]. subst ds.
    cbn [ApidogReverseConverter.convertDatasets_from] in Hreverse.
    apply result_bind_Ok in Hreverse as (y & Hy & Hreverse).
    apply result_bind_Ok in Hreverse as (ys' & Hys & [= <-]).
    destruct (IH _ _ _ _ _ Hds Hys) as [Hlen Hall]. split; [simpl; lia|].
    intros [|j] dataset' y' Hj Hj'; simpl in Hj, Hj'.
    + injection Hj as <-. injection Hj' as <-. rewrite Nat.add_0_r.
      by apply (dataset_round_trip testCaseId i dataset d y c c1).
    + replace (i + S j)%nat with (S i + j)%nat by lia. by apply Hall.
Qed.

(** X16.  The datasets of a scenario come back one for one and in their
    order: each with its name or the name [Data i+1] of its place, its
    data trimmed, and its [id] and [data_list_id] when it had them. *)
Theorem round_trip_keeps_datasets (randomUUID : nat → string)
    (loadSourceApidog : json → converter → result converter)
    (testCases : ApidogReverseConverter.index) (sourceApidogPath : jsval)
    (scenario testCase back : json) (c c' : converter) (datasets : list json) :
  get "datasets" scenario = Some (JArr datasets) →
  convert randomUUID loadSourceApidog scenario c = Ok (testCase, c') →
  ApidogReverseConverter.convert testCases testCase sourceApidogPath = Ok back →
  ∃ ys,
    get "datasets" back = Some (JArr ys) ∧ length ys = length datasets ∧
    ∀ i dataset y, datasets !! i = Some dataset → ys !! i = Some y →
                   dataset_comes_back i dataset y.
Proof.
  intros Hdatasets Hforward Hreverse.
  apply convert_result in Hforward as (steps & id & ds & c1 & c2 & Hds & ->).
  apply reverse_convert_result in Hreverse as (ys & Hys & Hback).
  rewrite Hdatasets in Hds. cbn [js_or truthy] in Hds.
  exists ys. rewrite Hback by done. split; [done|].
  cbn [get obj_get app String.eqb Ascii.eqb Bool.eqb] in Hys.
  unfold ApidogReverseConverter.convertDatasets, ApidogReverseConverter.processors in Hys.
  cbn [truthy mbind result_mbind result_bind] in Hys.
  by apply (datasets_round_trip id 0 datasets ds ys c1 c2).
Qed.

Lemma round_trip_keeps_datasets_witness :
  ∃ datasets testCase c' back,
    get "datasets" two_datasets = Some (JArr datasets) ∧
    convert uuid no_source two_datasets constructor = Ok (testCase, c') ∧
    ApidogReverseConverter.convert [] testCase None = Ok back ∧
    ∃ ys,
      get "datasets" back = Some (JArr ys) ∧ length ys = length datasets ∧
      ∀ i dataset y, datasets !! i = Some dataset → ys !! i = Some y →
                     dataset_comes_back i dataset y.
Proof.
  eexists _, _, _, _. split; [reflexivity|].
  split; [vm_compute; reflexivity|]. split; [vm_compute; reflexivity|].
  eapply (round_trip_keeps_datasets uuid no_source [] None two_datasets _ _ constructor);
    [reflexivity|vm_compute; reflexivity|vm_compute; reflexivity].
Defined.

(** *** Script steps and conditions *)

Lemma type_of_step (step : json) (t : string) :
  js_or (get "type" step) (JStr "http") = JStr t → t ≠ "http" →
  get "type" step = Some (JStr t).
Proof.
  unfold js_or. destruct (get "type" step) as [v|]; [|congruence].
  destruct (truthy (Some v)); [|congruence]. by intros ->.
Qed.

Lemma script_step_comes_back (step v : json) (c c' : converter)
    (testCases : ApidogReverseConverter.index) (f : json → result json)
    (oy : option json) :
  convertScriptStep step c = Ok (v, c') →
  ApidogReverseConverter.convert_by_type testCases f v = Ok oy →
  ∃ back, oy = Some back ∧ script_comes_back step back.
Proof.
  unfold convertScriptStep. intros Hrun.
  apply bind_Ok in Hrun as (script & ? & [Hscript ->]%lift_Ok & Hrun).
  apply bind_Ok in Hrun as (id & c1 & _ & Hrun).
  apply ret_Ok in Hrun as [Hv _]. subst v.
  destruct (js_or (get "data" step) (JStr "")) as [| | |s| |] eqn:Hs; try done.
  injection Hscript as <-.
  unfold ApidogReverseConverter.convert_by_type.
  cbn [prop get obj_get String.eqb Ascii.eqb Bool.eqb mbind result_mbind result_bind
       strict_eq].
  unfold ApidogReverseConverter.convertScriptStep, ApidogReverseConverter.parameter.
  cbn [get getv obj_get String.eqb Ascii.eqb Bool.eqb].
  assert (∃ x, js_or (Some (JStr (to_crlf s))) (JStr "") = JStr x ∧ to_lf x = to_lf s)
    as (x & -> & Hx).
  { cbn [js_or truthy]. destruct (String.eqb_spec (to_crlf s) "") as [E|_]; cbn [negb].
    - exists "". split; [done|]. by rewrite <- (to_lf_to_crlf s), E.
    - exists (to_crlf s). split; [done|]. apply to_lf_to_crlf. }
  cbn [mbind result_mbind result_bind]. rewrite Hx.
  assert (js_or (Some (js_or (get "name" step) (JStr ""))) (JStr "")
          = js_or (get "name" step) (JStr "")) as -> by apply js_or_idem.
  assert (truthy (Some (js_or (get "name" step) (JStr ""))) = truthy (get "name" step)
          ∧ (truthy (get "name" step) = true →
             Some (js_or (get "name" step) (JStr "")) = get "name" step)) as [Ht Hn].
  { destruct (get "name" step) as [n|]; [|done]. cbn [js_or].
    by destruct (truthy (Some n)) eqn:E. }
  rewrite Ht. cbn [truthy].
  assert (ApidogReverseConverter.step_number
            (JObj [("id", id); ("type", JStr "script");
                   ("disable", if_defined (get "disable" step) JFalse);
                   ("parameters",
                    JObj [("data", JStr (to_crlf s)); ("type", JStr "customScript");
                          ("defaultEnable", default_enable_of step JTrue);
                          ("enable", enable_of step)]);
                   ("name", js_or (get "name" step) (JStr ""));
                   ("number", step_number step)])
          = js_or (get "number" step) (JNum 1)) as ->
    by apply js_or_idem.
  unfold script_comes_back.
  destruct (truthy (get "name" step)) eqn:E; intros [= <-]; (eexists; split; [done|]);
    cbn [get]; repeat split; try done.
  - intros s0 Hs0. rewrite Hs in Hs0. by injection Hs0 as <-.
  - by apply Hn.
  - intros s0 Hs0. rewrite Hs in Hs0. by injection Hs0 as <-.
Qed.

Lemma if_parameters_shape (step : json) :
  ∃ variable operator value,
    if_parameters step
    = [("keyVariable", variable); ("operator", operator); ("valueVariable", JStr value)] ∧
    js_or (Some variable) (JStr "") = variable ∧
    js_or (Some operator) (JStr "equal") = operator.
Proof.
  unfold if_parameters. destruct (truthy (get "parameters" step));
    eexists _, _, _; (split; [done|]); split; apply js_or_idem.
Qed.

Lemma if_step_comes_back (randomUUID : nat → string) (step : json) (c c' : converter)
    (d : delayed) (store : list json) (testCases : ApidogReverseConverter.index)
    (oy : option json) :
  convertIfStep randomUUID step c = Ok (d, c') →
  ApidogReverseConverter.convert_by_type testCases
    (ApidogReverseConverter.convertIfStep testCases) (d store) = Ok oy →
  ∃ back, oy = Some back ∧ condition_comes_back step back.
Proof.
  rewrite convertIfStep_unfold. intros Hrun.
  apply bind_Ok in Hrun as (children & c1 & _ & Hrun).
  apply bind_Ok in Hrun as (id & c2 & _ & Hrun).
  apply ret_Ok in Hrun as [Hd _]. subst d.
  unfold ApidogReverseConverter.convert_by_type.
  cbn [prop get obj_get String.eqb Ascii.eqb Bool.eqb mbind result_mbind result_bind
       strict_eq].
  intros (y & Hy & [= <-])%result_bind_Ok. exists y. split; [done|].
  rewrite reverse_convertIfStep_unfold in Hy.
  cbn [obj_get String.eqb Ascii.eqb Bool.eqb print_all] in Hy. cbv zeta in Hy.
  apply result_bind_Ok in Hy as (converted & _ & [= <-]).
  destruct (if_parameters_shape step) as (variable & operator & value & Hp & Hv & Ho).
  unfold condition_comes_back. rewrite Hp. cbn [get getv].
  cbn [obj_get String.eqb Ascii.eqb Bool.eqb].
  split; [f_equal; apply js_or_idem|]. split; [done|].
  exists variable, operator, value. repeat split.
  rewrite Hv, Ho. do 7 f_equal. cbn [js_or truthy].
  destruct (String.eqb_spec value "") as [->|?]; reflexivity.
Qed.

Lemma one_for_one_step (randomUUID : nat → string) (step : json) (c c' : converter)
    (r : list delayed) :
  one_for_one step = true →
  convert_step randomUUID step c = Ok (r, c') →
  ∃ d, r = [d] ∧
       ∀ store testCases oy,
         ApidogReverseConverter.convert_by_type testCases
           (ApidogReverseConverter.convertIfStep testCases) (d store) = Ok oy →
         ∃ back, oy = Some back ∧ details_come_back step back.
Proof.
  unfold one_for_one. intros Htype H.
  destruct (http_or_delay step) eqn:Hhd.
  { destruct (step_comes_back randomUUID step c c' r Hhd H) as (d & -> & Hd).
    exists d. split; [done|]. intros store testCases oy Hoy.
    destruct (Hd _ _ _ _ Hoy) as (back & -> & _). exists back. split; [done|].
    unfold http_or_delay in Hhd.
    split; intros Ht; rewrite Ht in Hhd; by vm_compute in Hhd. }
  unfold http_or_delay in Hhd. apply orb_false_iff in Hhd as [Hhttp Hdelay].
  rewrite Hhttp, Hdelay in Htype. cbn [orb] in Htype.
  unfold convert_step in H.
  apply bind_Ok in H as (type & ? & [Hp ->]%lift_Ok & H).
  assert (type = get "type" step) as -> by (destruct step; try done; by injection Hp).
  apply orb_true_iff in Htype as [Hscript%strict_eq_true|Hif%strict_eq_true].
  - injection Hscript as Hscript. rewrite Hscript in H.
    change (is_type (JStr "script") "else") with false in H. cbv iota in H.
    unfold convert_child in H.
    apply bind_Ok in H as (type & ? & [Hp' ->]%lift_Ok & H).
    assert (type = get "type" step) as -> by congruence.
    rewrite Hscript in H. vm_compute is_type in H. cbn [orb] in H. cbv iota in H.
    apply bind_Ok in H as (v & c1 & Hv & [-> ->]%ret_Ok).
    exists (now v). split; [done|]. intros store testCases oy Hoy.
    destruct (script_step_comes_back _ _ _ _ _ _ _ Hv Hoy) as (back & -> & Hback).
    exists back. split; [done|]. split; [done|].
    intros Ht. apply type_of_step in Hscript; [congruence|done].
  - injection Hif as Hif. rewrite Hif in H.
    change (is_type (JStr "if") "else") with false in H. cbv iota in H.
    unfold convert_child in H.
    apply bind_Ok in H as (type & ? & [Hp' ->]%lift_Ok & H).
    assert (type = get "type" step) as -> by congruence.
    rewrite Hif in H. vm_compute is_type in H. cbv iota in H.
    apply bind_Ok in H as (d & c1 & Hd & [-> ->]%ret_Ok).
    exists d. split; [done|]. intros store testCases oy Hoy.
    destruct (if_step_comes_back _ _ _ _ _ _ _ _ Hd Hoy) as (back & -> & Hback).
    exists back. split; [done|]. split; [|done].
    intros Ht. apply type_of_step in Hif; [congruence|done].
Qed.

Section Steps.

Variable randomUUID : nat → string.
Variable loadSourceApidog : json → converter → result converter.
Variable testCases : ApidogReverseConverter.index.
Variable sourceApidogPath : jsval.

Lemma round_trip_one_for_one (scenario testCase back : json) (c c' : converter)
    (steps : list json) :
  get "steps" scenario = Some (JArr steps) →
  Forall (λ step, one_for_one step = true) steps →
  convert randomUUID loadSourceApidog scenario c = Ok (testCase, c') →
  ApidogReverseConverter.convert testCases testCase sourceApidogPath = Ok back →
  ∃ ys, get "steps" back = Some (JArr ys) ∧ Forall2 details_come_back steps ys.
Proof.
  intros Hsteps Hkinds Hforward Hreverse.
  unfold convert in Hforward. rewrite Hsteps in Hforward.
  apply bind_Ok in Hforward as (source & ? & [_ ->]%lift_Ok & Hforward).
  apply bind_Ok in Hforward as ([] & c1 & _ & Hforward).
  apply bind_Ok in Hforward as (testCaseId & c2 & _ & Hforward).
  apply bind_Ok in Hforward as (ds & c3 & Hds & Hforward).
  apply bind_Ok in Hforward as (datasets & c4 & _ & Hforward).
  apply bind_Ok in Hforward as (cfinal & ? & [= <- <-] & Hforward).
  apply ret_Ok in Hforward as [-> ->].
  cbn [truthy] in Hds.
  apply bind_Ok in Hds as (l & ? & [[= <-] ->]%lift_Ok & Hds).
  assert (Forall2 (λ step d, ∀ store tcs oy,
            ApidogReverseConverter.convert_by_type tcs
              (ApidogReverseConverter.convertIfStep tcs) (d store) = Ok oy →
            ∃ y, oy = Some y ∧ details_come_back step y) steps ds) as Hcome.
  { eapply conv_flat_mapM_singletons; [|exact Hds].
    eapply Forall_impl; [exact Hkinds|]. intros step Hkind ? r ?.
    by apply one_for_one_step. }
  unfold ApidogReverseConverter.convert in Hreverse.
  apply result_bind_Ok in Hreverse as (name & _ & Hreverse).
  apply result_bind_Ok in Hreverse as (sets & _ & Hreverse).
  apply result_bind_Ok in Hreverse as (ys & Hys & [= <-]).
  exists ys. split; [cbn [get]; apply obj_get_obj_set_eq|].
  cbn [get app obj_get String.eqb Ascii.eqb Bool.eqb] in Hys. unfold print_all in Hys.
  eapply filter_mapM_all; [|exact Hys].
  apply Forall2_fmap_r. eapply Forall2_impl; [exact Hcome|].
  intros step d Hd oy. apply Hd.
Qed.

(** X17.  In a scenario of http, delay, script and if steps, every script
    step comes back in its place with its script, the line ends as line
    feeds, with its name when it has one, and with its flags [enable],
    [default_enable] and [disable], which are [true], [true] and [false]
    where the step does not give them. *)
Theorem round_trip_keeps_scripts (scenario testCase back : json) (c c' : converter)
    (steps : list json) :
  get "steps" scenario = Some (JArr steps) →
  Forall (λ step, one_for_one step = true) steps →
  convert randomUUID loadSourceApidog scenario c = Ok (testCase, c') →
  ApidogReverseConverter.convert testCases testCase sourceApidogPath = Ok back →
  ∃ ys,
    get "steps" back = Some (JArr ys) ∧ length ys = length steps ∧
    ∀ i step y, steps !! i = Some step → ys !! i = Some y →
                get "type" step = Some (JStr "script") → script_comes_back step y.
Proof.
  intros Hsteps Hkinds Hforward Hreverse.
  destruct (round_trip_one_for_one _ _ _ _ _ _ Hsteps Hkinds Hforward Hreverse)
    as (ys & Hys & Hall).
  exists ys. split; [done|]. split; [symmetry; by eapply Forall2_length|].
  intros i step y Hi Hy Ht.
  destruct (Forall2_lookup_l _ _ _ _ _ Hall Hi) as (y' & Hy' & [Hscript _]).
  rewrite Hy in Hy'. injection Hy' as <-. by apply Hscript.
Qed.

(** X18.  In such a scenario every [if] step comes back in its place with the
    condition that the forward converter read from it: the variable, the
    operator ([equal] where there is none) and the value, which has
    become a string. *)
Theorem round_trip_keeps_conditions (scenario testCase back : json) (c c' : converter)
    (steps : list json) :
  get "steps" scenario = Some (JArr steps) →
  Forall (λ step, one_for_one step = true) steps →
  convert randomUUID loadSourceApidog scenario c = Ok (testCase, c') →
  ApidogReverseConverter.convert testCases testCase sourceApidogPath = Ok back →
  ∃ ys,
    get "steps" back = Some (JArr ys) ∧ length ys = length steps ∧
    ∀ i step y, steps !! i = Some step → ys !! i = Some y →
                get "type" step = Some (JStr "if") → condition_comes_back step y.
Proof.
  intros Hsteps Hkinds Hforward Hreverse.
  destruct (round_trip_one_for_one _ _ _ _ _ _ Hsteps Hkinds Hforward Hreverse)
    as (ys & Hys & Hall).
  exists ys. split; [done|]. split; [symmetry; by eapply Forall2_length|].
  intros i step y Hi Hy Ht.
  destruct (Forall2_lookup_l _ _ _ _ _ Hall Hi) as (y' & Hy' & [_ Hif]).
  rewrite Hy in Hy'. injection Hy' as <-. by apply Hif.
Qed.

End Steps.

Lemma round_trip_keeps_scripts_witness :
  ∃ steps testCase c' back,
    get "steps" two_datasets = Some (JArr steps) ∧
    Forall (λ step, one_for_one step = true) steps ∧
    convert uuid no_source two_datasets constructor = Ok (testCase, c') ∧
    ApidogReverseConverter.convert [] testCase None = Ok back ∧
    ∃ ys,
      get "steps" back = Some (JArr ys) ∧ length ys = length steps ∧
      ∀ i step y, steps !! i = Some step → ys !! i = Some y →
                  get "type" step = Some (JStr "script") → script_comes_back step y.
Proof.
  eexists _, _, _, _. split; [reflexivity|]. split; [by repeat constructor|].
  split; [vm_compute; reflexivity|]. split; [vm_compute; reflexivity|].
  eapply (round_trip_keeps_scripts uuid no_source [] None two_datasets _ _ constructor);
    [reflexivity|by repeat constructor|vm_compute; reflexivity|vm_compute; reflexivity].
Defined.

Lemma round_trip_keeps_conditions_witness :
  ∃ steps testCase c' back,
    get "steps" two_datasets = Some (JArr steps) ∧
    Forall (λ step, one_for_one step = true) steps ∧
    convert uuid no_source two_datasets constructor = Ok (testCase, c') ∧
    ApidogReverseConverter.convert [] testCase None = Ok back ∧
    ∃ ys,
      get "steps" back = Some (JArr ys) ∧ length ys = length steps ∧
      ∀ i step y, steps !! i = Some step → ys !! i = Some y →
                  get "type" step = Some (JStr "if") → condition_comes_back step y.
Proof.
  eexists _, _, _, _. split; [reflexivity|]. split; [by repeat constructor|].
  split; [vm_compute; reflexivity|]. split; [vm_compute; reflexivity|].
  eapply (round_trip_keeps_conditions uuid no_source [] None two_datasets _ _ constructor);
    [reflexivity|by repeat constructor|vm_compute; reflexivity|vm_compute; reflexivity].
Defined.

(** *** The request of an http step *)

Lemma step_name_truthy (step : json) : truthy (Some (step_name step)) = true.
Proof. unfold step_name. by apply js_or_default_truthy. Qed.

Lemma http_step_case_back (step parentModuleId : json) (c c' : converter) (d : delayed)
    (store : list json) (oy : option json) :
  convertHttpStep step parentModuleId c = Ok (d, c') →
  ApidogReverseConverter.convertHttpStep (d store) = Ok oy →
  ∃ resolved bindId hfs y,
    resolve_api c step = Ok resolved ∧
    d store = http_step (step_name step) (step_number step) bindId (JObj hfs) ∧
    oy = Some (JObj y) ∧
    obj_get "name" y = Some (step_name step) ∧
    (disableResponseValidation step = true →
     obj_get "disable_response_validation" y = Some JTrue) ∧
    obj_get "auth" y
    = obj_get "auth" (ApidogReverseConverter.with_auth (Some (JObj hfs)) []) ∧
    obj_get "path" y = (if truthy (obj_get "path" hfs) then obj_get "path" hfs else None) ∧
    (∀ m, obj_get "method" hfs = Some (JStr m) → m ≠ "" →
          obj_get "method" y = Some (JStr (toUpperCase m))) ∧
    (∃ pre pre',
       convertPreProcessors
         (js_or (get "pre_processors" step) (js_or (get "preProcessors" step) (JArr [])))
       = Ok pre ∧
       ApidogReverseConverter.convertPreProcessors (Some (JArr pre)) = Ok pre' ∧
       obj_get "pre_processors" y = match pre' with [] => None | _ => Some (JArr pre') end) ∧
    match resolved with
    | Some ref =>
        obj_get "auth" hfs
        = Some (override_auth step
                  (js_or (get "auth" (default JNull (api_of (store_get c ref))))
                     (JObj [])))
    | None =>
        obj_get "auth" hfs = Some (JObj []) ∧
        obj_get "path" hfs = Some (js_or (get "path" step) (JStr "/")) ∧
        ∃ m, js_or (get "method" step) (JStr "get") = JStr m ∧
             obj_get "method" hfs = Some (JStr (toLowerCase m))
    end.
Proof.
  intros (resolved & pre & Hres & Hpre & Hd)%convertHttpStep_case Hback.
  destruct (Hd store) as (bindId & hfs & Hstore & Hp & Hid & Hcase). clear Hd.
  rewrite Hstore in Hback.
  apply (convertHttpStep_fields _ hfs) in Hback
    as (y & -> & Hname & Hauth & Hflag & Hpath & Hmethod & Hpres); [|done].
  exists resolved, bindId, hfs, y. split; [done|]. split; [done|]. split; [done|].
  split.
  { rewrite Hname. cbn [get http_step obj_get String.eqb Ascii.eqb Bool.eqb].
    f_equal. apply js_or_truthy, step_name_truthy. }
  split; [by intros Hdis; apply Hflag, Hid|].
  split; [done|]. split; [done|]. split; [done|]. split; [|done].
  destruct (Hpres pre Hp) as (pre' & Hpre' & Hy). by exists pre, pre'.
Qed.

(** X19.  An http step converted and converted back has its name, or the
    name [Step n] of its number, and is marked
    [disable_response_validation] when the step disabled the validation
    of the response. *)
Theorem http_step_keeps_name_and_validation (step parentModuleId : json)
    (c c' : converter) (d : delayed) (store : list json) (oy : option json) :
  convertHttpStep step parentModuleId c = Ok (d, c') →
  ApidogReverseConverter.convertHttpStep (d store) = Ok oy →
  ∃ back,
    oy = Some back ∧ get "name" back = Some (step_name step) ∧
    (disableResponseValidation step = true →
     get "disable_response_validation" back = Some JTrue).
Proof.
  intros Hforward Hback.
  destruct (http_step_case_back _ _ _ _ _ _ _ Hforward Hback)
    as (resolved & bindId & hfs & y & _ & _ & -> & Hname & Hflag & _).
  by exists (JObj y).
Qed.

Lemma toLowerCase_nonempty (m : string) : m ≠ "" → toLowerCase m ≠ "".
Proof. by destruct m. Qed.

(** X20.  The bearer token of an http step comes back when the API of the
    step is found in the source collection; a step whose API is not
    found comes back without its authorisation. *)
Theorem http_step_auth_needs_api (step parentModuleId auth : json)
    (c c' : converter) (d : delayed) (store : list json) (oy : option json)
    (resolved : option nat) :
  convertHttpStep step parentModuleId c = Ok (d, c') →
  ApidogReverseConverter.convertHttpStep (d store) = Ok oy →
  resolve_api c step = Ok resolved →
  get "auth" step = Some auth → get "type" auth = Some (JStr "bearer") →
  ∃ back,
    oy = Some back ∧
    get "auth" back = match resolved with
                      | Some _ => Some (bearer_auth (get "token" auth))
                      | None => None
                      end.
Proof.
  intros Hforward Hback Hres Hauth Htype.
  destruct (http_step_case_back _ _ _ _ _ _ _ Hforward Hback)
    as (resolved' & bindId & hfs & y & Hres' & _ & -> & _ & _ & Hy & _ & _ & _ & Hcase).
  rewrite Hres in Hres'. injection Hres' as <-.
  exists (JObj y). split; [done|]. cbn [get]. rewrite Hy.
  unfold ApidogReverseConverter.with_auth. cbn [getv get].
  destruct resolved as [ref|].
  - rewrite Hcase. unfold override_auth. rewrite Hauth.
    assert (truthy (Some auth) = true) as -> by (by destruct auth).
    cbn [getv]. rewrite Htype.
    cbn [strict_eq String.eqb Ascii.eqb Bool.eqb truthy get obj_get andb].
    unfold bearer_auth. cbn [getv get obj_get obj_set String.eqb Ascii.eqb Bool.eqb].
    by rewrite js_or_idem.
  - by destruct Hcase as [-> _].
Qed.

(** X21.  An http step whose API is not found in the source collection comes
    back with its path, or [/], and with its method, or [get], in upper
    case. *)
Theorem unresolved_http_step_keeps_path_and_method (step parentModuleId : json)
    (c c' : converter) (d : delayed) (store : list json) (oy : option json) :
  convertHttpStep step parentModuleId c = Ok (d, c') →
  ApidogReverseConverter.convertHttpStep (d store) = Ok oy →
  resolve_api c step = Ok None →
  ∃ back m,
    oy = Some back ∧
    get "path" back = Some (js_or (get "path" step) (JStr "/")) ∧
    js_or (get "method" step) (JStr "get") = JStr m ∧
    get "method" back = Some (JStr (toUpperCase (toLowerCase m))).
Proof.
  intros Hforward Hback Hres.
  destruct (http_step_case_back _ _ _ _ _ _ _ Hforward Hback)
    as (resolved' & bindId & hfs & y & Hres' & _ & -> & _ & _ & _ & Hpath & Hmethod & _
        & Hcase).
  rewrite Hres in Hres'. injection Hres' as <-.
  destruct Hcase as (_ & Hp & m & Hm & Hm').
  exists (JObj y), m. split; [done|]. cbn [get]. split; [|split; [done|]].
  - rewrite Hpath, Hp. by rewrite js_or_default_truthy.
  - apply Hmethod; [done|]. apply toLowerCase_nonempty. intros ->.
    unfold js_or in Hm. destruct (get "method" step) as [v|]; [|done].
    destruct (truthy (Some v)) eqn:E; [|done]. by subst v.
Qed.

Lemma http_step_keeps_name_and_validation_witness :
  ∃ d c' oy,
    convertHttpStep (authorised_step "Search") default_module loaded = Ok (d, c') ∧
    ApidogReverseConverter.convertHttpStep (d []) = Ok oy ∧
    ∃ back,
      oy = Some back ∧ get "name" back = Some (step_name (authorised_step "Search")) ∧
      (disableResponseValidation (authorised_step "Search") = true →
       get "disable_response_validation" back = Some JTrue).
Proof.
  eexists _, _, _. split; [vm_compute; reflexivity|]. split; [vm_compute; reflexivity|].
  eapply (http_step_keeps_name_and_validation (authorised_step "Search") default_module
            loaded _ _ []); vm_compute; reflexivity.
Defined.

Lemma http_step_auth_needs_api_witness :
  ∃ d c' oy,
    convertHttpStep (authorised_step "Search") default_module loaded = Ok (d, c') ∧
    ApidogReverseConverter.convertHttpStep (d []) = Ok oy ∧
    resolve_api loaded (authorised_step "Search") = Ok (Some 0%nat) ∧
    get "auth" (authorised_step "Search")
    = Some (JObj [("type", JStr "bearer"); ("token", JStr "t0")]) ∧
    get "type" (JObj [("type", JStr "bearer"); ("token", JStr "t0")])
    = Some (JStr "bearer") ∧
    ∃ back,
      oy = Some back ∧
      get "auth" back
      = Some (bearer_auth (get "token" (JObj [("type", JStr "bearer");
                                               ("token", JStr "t0")]))).
Proof.
  eexists _, _, _. split; [vm_compute; reflexivity|]. split; [vm_compute; reflexivity|].
  split; [vm_compute; reflexivity|]. split; [reflexivity|]. split; [reflexivity|].
  eapply (http_step_auth_needs_api (authorised_step "Search") default_module _
            loaded _ _ [] _ (Some 0%nat));
    [vm_compute; reflexivity|vm_compute; reflexivity|vm_compute; reflexivity
    |reflexivity|reflexivity].
Defined.

Lemma unresolved_http_step_keeps_path_and_method_witness :
  ∃ d c' oy,
    convertHttpStep (authorised_step "Orders") default_module loaded = Ok (d, c') ∧
    ApidogReverseConverter.convertHttpStep (d []) = Ok oy ∧
    resolve_api loaded (authorised_step "Orders") = Ok None ∧
    ∃ back m,
      oy = Some back ∧
      get "path" back = Some (js_or (get "path" (authorised_step "Orders")) (JStr "/")) ∧
      js_or (get "method" (authorised_step "Orders")) (JStr "get") = JStr m ∧
      get "method" back = Some (JStr (toUpperCase (toLowerCase m))).
Proof.
  eexists _, _, _. split; [vm_compute; reflexivity|]. split; [vm_compute; reflexivity|].
  split; [vm_compute; reflexivity|].
  eapply (unresolved_http_step_keeps_path_and_method (authorised_step "Orders")
            default_module loaded _ _ []); vm_compute; reflexivity.
Defined.

(** *** The scripts before a request *)

Lemma script_processor_back (p : json) :
  is_script p = true →
  ∃ fs, p = JObj fs ∧
        (fs ← as_processor p;
         if strict_eq (obj_get "type" fs) (Some (JStr "customScript"))
         then Ok (customScript_processor p) else Ok (other_processor fs))
        = Ok (customScript_processor p) ∧
        ApidogReverseConverter.converted_processor (customScript_processor p)
        = script_back p.
Proof.
  unfold is_script. destruct p as [| | | | |fs]; try done. cbn [get]. intros Ht.
  exists fs. split; [done|]. split.
  - cbn [as_processor mbind result_mbind result_bind]. by rewrite Ht.
  - unfold ApidogReverseConverter.converted_processor, customScript_processor, script_back.
    cbn [get obj_get String.eqb Ascii.eqb Bool.eqb strict_eq js_or truthy negb if_defined
         default].
    by rewrite to_lf_to_crlf.
Qed.

Lemma scripts_round_trip (l pre pre' : list json) :
  Forall (λ p, is_script p = true) l →
  convertPreProcessors (JArr l) = Ok pre →
  ApidogReverseConverter.convertPreProcessors (Some (JArr pre)) = Ok pre' →
  pre' = script_back <$> l.
Proof.
  intros Hl. unfold convertPreProcessors. cbn [truthy negb elements mbind result_mbind
    result_bind].
  destruct l as [|p0 l0] eqn:El; [by intros [= <-] [= <-]|]. rewrite <- El in *. clear El.
  intros Hpre%result_mapM_Forall2.
  unfold ApidogReverseConverter.convertPreProcessors, ApidogReverseConverter.processors.
  cbn [truthy mbind result_mbind result_bind]. clear p0 l0.
  revert pre pre' Hpre. induction Hl as [|p l Hp _ IH]; intros pre pre' Hpre.
  - apply Forall2_nil_inv_l in Hpre as ->. by intros [= <-].
  - apply Forall2_cons_inv_l in Hpre as (x & pre0 & Hx & Hpre & ->).
    destruct (script_processor_back p Hp) as (fs & -> & Hfwd & Hback).
    rewrite Hfwd in Hx. injection Hx as <-.
    intros (oy & zs & Hy & Hzs & ->)%filter_mapM_cons.
    cbn in Hy. injection Hy as <-. rewrite fmap_cons. f_equal.
    + exact Hback.
    + by apply (IH pre0).
Qed.

(** X22.  The pre-processors of an http step, when all of them are scripts,
    come back one for one: each with its script, the line ends as line
    feeds, and with its flags [enable] and [default_enable], which are
    [true] and [false] where the step does not give them.  A step
    without pre-processors comes back without any. *)
Theorem http_step_keeps_scripts (step parentModuleId : json) (c c' : converter)
    (d : delayed) (store : list json) (oy : option json) (l : list json) :
  convertHttpStep step parentModuleId c = Ok (d, c') →
  ApidogReverseConverter.convertHttpStep (d store) = Ok oy →
  js_or (get "pre_processors" step) (js_or (get "preProcessors" step) (JArr [])) = JArr l →
  Forall (λ p, is_script p = true) l →
  ∃ back,
    oy = Some back ∧
    get "pre_processors" back
    = match l with [] => None | _ => Some (JArr (script_back <$> l)) end.
Proof.
  intros Hforward Hback Hl Hscripts.
  destruct (http_step_case_back _ _ _ _ _ _ _ Hforward Hback)
    as (resolved' & bindId & hfs & y & _ & _ & -> & _ & _ & _ & _ & _
        & (pre & pre' & Hpre & Hpre' & Hy) & _).
  exists (JObj y). split; [done|]. cbn [get]. rewrite Hy, Hl in *.
  rewrite (scripts_round_trip l pre pre' Hscripts Hpre Hpre').
  by destruct l.
Qed.

Lemma http_step_keeps_scripts_witness :
  ∃ d c' oy,
    convertHttpStep (authorised_step "Search") default_module loaded = Ok (d, c') ∧
    ApidogReverseConverter.convertHttpStep (d []) = Ok oy ∧
    js_or (get "pre_processors" (authorised_step "Search"))
      (js_or (get "preProcessors" (authorised_step "Search")) (JArr [])) = JArr two_scripts ∧
    Forall (λ p, is_script p = true) two_scripts ∧
    ∃ back,
      oy = Some back ∧
      get "pre_processors" back
      = match two_scripts with [] => None | _ => Some (JArr (script_back <$> two_scripts)) end.
Proof.
  eexists _, _, _. split; [vm_compute; reflexivity|]. split; [vm_compute; reflexivity|].
  split; [reflexivity|]. split; [by repeat constructor|].
  eapply (http_step_keeps_scripts (authorised_step "Search") default_module loaded _ _ []
            _ two_scripts);
    [vm_compute; reflexivity|vm_compute; reflexivity|reflexivity|by repeat constructor].
Defined.

(** *** The scripts after a request *)

Lemma with_post_processors_spec (httpApiCase : jsval) (y y' : obj) (l : list json) :
  ApidogReverseConverter.with_post_processors httpApiCase y = Ok y' →
  getv "postProcessors" httpApiCase = Some (JArr l) →
  ∃ post,
    ApidogReverseConverter.convertPostProcessors (Some (JArr l)) = Ok post ∧
    obj_get "post_processors" y'
    = match post with [] => obj_get "post_processors" y | _ => Some (JArr post) end.
Proof.
  unfold ApidogReverseConverter.with_post_processors. intros H Hl. rewrite Hl in H.
  cbn [truthy] in H. change (default JNull (Some (JArr l))) with (JArr l) in H.
  destruct l as [|p l].
  - cbn in H. injection H as <-. by exists [].
  - change (ApidogConverter.nonempty (JArr (p :: l))) with (Ok (Some (p :: l))) in H.
    cbn [mbind result_mbind result_bind] in H.
    apply result_bind_Ok in H as (assertions & _ & H).
    apply result_bind_Ok in H as (post & Hpost & H). exists post. split; [done|].
    destruct post; injection H as <-.
    + destruct assertions; [done|]. by rewrite obj_get_obj_set_ne.
    + apply obj_get_obj_set_eq.
Qed.

Lemma reverse_http_post_processors (step : json) (h : obj) (oy : option json)
    (l : list json) :
  ApidogReverseConverter.convertHttpStep step = Ok oy →
  get "httpApiCase" step = Some (JObj h) →
  obj_get "postProcessors" h = Some (JArr l) →
  ∃ y post,
    oy = Some (JObj y) ∧
    ApidogReverseConverter.convertPostProcessors (Some (JArr l)) = Ok post ∧
    obj_get "post_processors" y = match post with [] => None | _ => Some (JArr post) end.
Proof.
  unfold ApidogReverseConverter.convertHttpStep. intros H Hcase Hl.
  rewrite Hcase in H. cbn [truthy negb] in H.
  apply result_bind_Ok in H as (y1 & H1 & H).
  apply result_bind_Ok in H as (rbo & Hrbo & H).
  apply result_bind_Ok in H as (y2 & H2 & H).
  apply result_bind_Ok in H as (y3 & H3 & H).
  apply result_bind_Ok in H as (y4 & H4 & H).
  injection H as <-.
  destruct (with_post_processors_spec _ _ _ l H4 Hl) as (post & Hpost & Hy4).
  eexists _, post. split; [done|]. split; [done|].
  rewrite with_response_validation_other by done. rewrite Hy4.
  destruct post; [|done].
  rewrite (with_pre_processors_other _ _ _ _ H3) by done.
  rewrite (with_parameter_overrides_other _ _ _ _ H2) by done.
  rewrite with_request_body_other, with_auth_other by done.
  by rewrite (with_path_and_method_other _ _ _ _ H1) by done.
Qed.

Lemma filter_mapM_skip {A B : Type} (f : A → result (option B)) (l1 l2 : list A)
    (ys : list B) :
  Forall (λ x, f x = Ok None) l1 →
  ApidogReverseConverter.filter_mapM f (l1 ++ l2) = Ok ys →
  ApidogReverseConverter.filter_mapM f l2 = Ok ys.
Proof.
  intros Hl1. revert ys. induction Hl1 as [|x l1 Hx _ IH]; intros ys; [done|].
  cbn [app]. intros (oy & zs & Hy & Hzs & ->)%filter_mapM_cons.
  rewrite Hx in Hy. injection Hy as <-. by apply IH.
Qed.

Lemma post_script_back (p : json) :
  is_script p = true →
  convertPostProcessor p = Ok (customScript_processor p).
Proof.
  unfold is_script. destruct p as [| | | | |fs]; try done. cbn [get]. intros Ht.
  unfold convertPostProcessor. cbn [as_processor mbind result_mbind result_bind].
  assert (obj_get "type" fs = Some (JStr "customScript")) as ->
    by (by apply strict_eq_true in Ht).
  done.
Qed.

Lemma post_scripts_round_trip (assertions : json) (l post back : list json) :
  Forall (λ p, is_script p = true) l →
  mergePostProcessors assertions (JArr l) = Ok post →
  ApidogReverseConverter.convertPostProcessors (Some (JArr post)) = Ok back →
  back = script_back <$> l.
Proof.
  intros Hl. unfold mergePostProcessors.
  intros (a & Ha & H)%result_bind_Ok.
  apply result_bind_Ok in H as (fromAssertions & Hfrom & H).
  apply result_bind_Ok in H as (p & Hp & H).
  apply result_bind_Ok in H as (fromCustom & Hcustom & [= <-]).
  unfold ApidogReverseConverter.convertPostProcessors, ApidogReverseConverter.processors.
  cbn [truthy mbind result_mbind result_bind]. intros Hback.
  apply filter_mapM_skip in Hback.
  2: { destruct a as [a|]; [|injection Hfrom as <-; done].
       unfold convertAssertions in Hfrom. destruct (negb _); [by injection Hfrom as <-|].
       apply result_bind_Ok in Hfrom as (la & _ & Hfrom%result_mapM_Forall2).
       clear -Hfrom. induction Hfrom as [|x y la ys Hx _ IH]; [done|].
       constructor; [|done]. destruct x; try done; by injection Hx as <-. }
  destruct l as [|p0 l0] eqn:El.
  { injection Hp as <-. injection Hcustom as <-. by injection Hback as <-. }
  rewrite <- El in *. assert (p = Some l) as -> by (rewrite El in Hp |- *; by injection Hp).
  unfold convertPostProcessors in Hcustom. cbn [truthy negb elements] in Hcustom.
  cbn [mbind result_mbind result_bind] in Hcustom.
  apply result_mapM_Forall2 in Hcustom. clear El p0 l0 Hp.
  revert fromCustom back Hcustom Hback.
  induction Hl as [|p l Hp _ IH]; intros fromCustom back Hcustom Hback.
  - apply Forall2_nil_inv_l in Hcustom as ->. by injection Hback as <-.
  - apply Forall2_cons_inv_l in Hcustom as (x & rest & Hx & Hrest & ->).
    rewrite (post_script_back p Hp) in Hx. injection Hx as <-.
    apply filter_mapM_cons in Hback as (oy & zs & Hy & Hzs & ->).
    destruct (script_processor_back p Hp) as (fs & -> & _ & Hsb).
    cbn in Hy. injection Hy as <-. rewrite fmap_cons. f_equal.
    + exact Hsb.
    + by apply (IH rest).
Qed.

(** X23.  The post-processors of an http step, when all of them are scripts,
    come back one for one, whatever assertions the step has besides:
    each with its script, the line ends as line feeds, and with its
    flags.  A step without post-processors comes back without any. *)
Theorem http_step_keeps_post_scripts (step parentModuleId : json) (c c' : converter)
    (d : delayed) (store : list json) (oy : option json) (l : list json) :
  convertHttpStep step parentModuleId c = Ok (d, c') →
  ApidogReverseConverter.convertHttpStep (d store) = Ok oy →
  js_or (get "post_processors" step) (js_or (get "postProcessors" step) (JArr [])) = JArr l →
  Forall (λ p, is_script p = true) l →
  ∃ back,
    oy = Some back ∧
    get "post_processors" back
    = match l with [] => None | _ => Some (JArr (script_back <$> l)) end.
Proof.
  intros Hforward Hback Hl Hscripts.
  apply convertHttpStep_printed in Hforward
    as (q0 & q & c1 & c2 & post & _ & Hpost & Hd).
  destruct (Hd store) as (hfs & _ & _ & Hcase & _ & Hfield).
  destruct (reverse_http_post_processors _ _ _ _ Hback Hcase Hfield)
    as (y & back & -> & Hconv & Hy).
  exists (JObj y). split; [done|]. cbn [get]. rewrite Hy. rewrite Hl in Hpost.
  rewrite (post_scripts_round_trip _ l post back Hscripts Hpost Hconv).
  by destruct l.
Qed.

Lemma http_step_keeps_post_scripts_witness :
  ∃ d c' oy,
    convertHttpStep checked_step default_module loaded = Ok (d, c') ∧
    ApidogReverseConverter.convertHttpStep (d []) = Ok oy ∧
    js_or (get "post_processors" checked_step)
      (js_or (get "postProcessors" checked_step) (JArr [])) = JArr two_scripts ∧
    Forall (λ p, is_script p = true) two_scripts ∧
    ∃ back,
      oy = Some back ∧
      get "post_processors" back
      = match two_scripts with [] => None | _ => Some (JArr (script_back <$> two_scripts)) end.
Proof.
  eexists _, _, _. split; [vm_compute; reflexivity|]. split; [vm_compute; reflexivity|].
  split; [reflexivity|]. split; [by repeat constructor|].
  eapply (http_step_keeps_post_scripts checked_step default_module loaded _ _ []
            _ two_scripts);
    [vm_compute; reflexivity|vm_compute; reflexivity|reflexivity|by repeat constructor].
Defined.

End RoundTripLaws.
(** ** The indexes of the source file *)

Module IndexLaws.
Import JsonFacts ApidogConverter ConverterNotions ConverterExamples ConverterViews
  ConverterFacts ReverseNotions ReverseFacts RoundTripNotions RoundTripExamples
  RoundTripViews RoundTripFacts ConverterLaws ReverseLaws RoundTripLaws IndexViews.

(** *** Maps *)

Lemma map_get_map_set (k k' v : json) (m : list (json * json)) :
  map_get k (map_set k' v m)
  = if strict_eq (Some k) (Some k') then Some v else map_get k m.
Proof.
  induction m as [|[k'' v''] m IH]; cbn [map_set map_get]; [done|].
  destruct (strict_eq (Some k') (Some k'')) eqn:E1; cbn [map_get].
  - apply strict_eq_true in E1. injection E1 as <-.
    by destruct (strict_eq (Some k) (Some k')).
  - destruct (strict_eq (Some k) (Some k'')) eqn:E2; [|exact IH].
    destruct (strict_eq (Some k) (Some k')) eqn:E3; [|done].
    apply strict_eq_true in E3. injection E3 as <-. congruence.
Qed.

Lemma last_such_app (test : json → bool) (l1 l2 : list json) :
  last_such test (l1 ++ l2)
  = from_option Some (last_such test l1) (last_such test l2).
Proof.
  unfold last_such. rewrite List.filter_app.
  destruct (List.filter test l2) as [|x l] eqn:E using rev_ind.
  - by rewrite app_nil_r.
  - by rewrite app_assoc, !last_snoc.
Qed.

Lemma entered_nil (test : json → json → bool) (m : list (json * json)) :
  entered test [] m m.
Proof. by intros k. Qed.

Lemma entered_app (test : json → json → bool) (l1 l2 : list json)
    (m1 m2 m3 : list (json * json)) :
  entered test l1 m1 m2 → entered test l2 m2 m3 → entered test (l1 ++ l2) m1 m3.
Proof.
  intros H1 H2 k. rewrite H2, H1, last_such_app.
  by destruct (last_such (test k) l2).
Qed.

Lemma entered_one (test : json → json → bool) (item : json) (m : list (json * json))
    (key : json) :
  (∀ k, test k item = strict_eq (Some k) (Some key)) →
  entered test [item] m (map_set key item m).
Proof.
  intros Htest k. rewrite map_get_map_set. unfold last_such. cbn [List.filter].
  rewrite Htest. by destruct (strict_eq (Some k) (Some key)).
Qed.

Lemma entered_none (test : json → json → bool) (item : json) (m : list (json * json)) :
  (∀ k, test k item = false) → entered test [item] m m.
Proof. intros Htest k. unfold last_such. cbn [List.filter]. by rewrite Htest. Qed.

Lemma strict_eq_sym (a b : jsval) : strict_eq a b = strict_eq b a.
Proof.
  destruct a as [[]|], b as [[]|]; cbn [strict_eq]; try done.
  - by destruct b, b0.
  - apply Z.eqb_sym.
  - apply String.eqb_sym.
Qed.

(** A loop that enters the items it meets. *)
Lemma foldM_entered {S B : Type} (R : list B → S → S → Prop)
    (f : json → S → result S) (g : json → list B) (l : list json) :
  (∀ s, R [] s s) →
  (∀ l1 l2 s1 s2 s3, R l1 s1 s2 → R l2 s2 s3 → R (l1 ++ l2) s1 s3) →
  Forall (λ x, ∀ s s', f x s = Ok s' → R (g x) s s') l →
  ∀ s s', foldM f l s = Ok s' → R (flat_map g l) s s'.
Proof.
  intros Hnil Happ Hl. induction Hl as [|x l Hx _ IH]; intros s s'.
  - intros [= <-]. apply Hnil.
  - cbn [foldM flat_map]. intros (s1 & H1 & H2)%result_bind_Ok.
    eapply Happ; [by apply Hx|by apply IH].
Qed.

Lemma flat_map_singleton {A : Type} (l : list A) : flat_map (λ x, [x]) l = l.
Proof. induction l as [|x l IH]; [done|]. cbn [flat_map app]. by rewrite IH. Qed.

(** *** The index of the forward converter *)

Lemma index_test_case_entered (item : json) (maps maps' : test_case_maps) :
  index_test_case item maps = Ok maps' →
  entered test_case_named [item] maps.1 maps'.1 ∧
  entered test_case_identified [item] maps.2 maps'.2.
Proof.
  unfold index_test_case. intros (name & Hname & H)%result_bind_Ok.
  assert (name = get "name" item) as -> by (destruct item; cbn in Hname |- *; congruence).
  destruct (truthy (get "name" item)) eqn:En; cbn [andb] in H.
  2: { injection H as <-.
       split; apply entered_none; intros k;
         unfold test_case_named, test_case_identified, is_test_case; by rewrite En. }
  destruct (truthy (get "steps" item)) eqn:Es; cbn [andb] in H.
  2: { injection H as <-.
       split; apply entered_none; intros k;
         unfold test_case_named, test_case_identified, is_test_case; by rewrite En, Es. }
  injection H as <-. cbn [fst snd]. split.
  - apply entered_one. intros k. unfold test_case_named, is_test_case, named.
    rewrite En, Es. cbn [andb].
    destruct (get "name" item) as [name|]; [|done]. apply strict_eq_sym.
  - destruct (truthy (get "id" item)) eqn:Ei.
    + apply entered_one. intros k. unfold test_case_identified, is_test_case, identified.
      rewrite En, Es, Ei. cbn [andb].
      destruct (get "id" item) as [id|]; [|done]. apply strict_eq_sym.
    + apply entered_none. intros k. unfold test_case_identified, is_test_case, identified.
      by rewrite En, Es, Ei.
Qed.

Lemma indexTestCasesIn_entered (collection : json) (maps maps' : test_case_maps) :
  indexTestCasesIn collection maps = Ok maps' →
  entered test_case_named (items_in collection) maps.1 maps'.1 ∧
  entered test_case_identified (items_in collection) maps.2 maps'.2.
Proof.
  set (R := λ (l : list json) (s s' : test_case_maps),
              entered test_case_named l s.1 s'.1 ∧
              entered test_case_identified l s.2 s'.2).
  assert (∀ s, R [] s s) as Hnil by (intros s; split; apply entered_nil).
  assert (∀ l1 l2 s1 s2 s3, R l1 s1 s2 → R l2 s2 s3 → R (l1 ++ l2) s1 s3) as Happ.
  { intros l1 l2 s1 s2 s3 [H1 H2] [H3 H4]. split; by eapply entered_app. }
  set (P := λ v, ∀ s s', indexTestCasesIn v s = Ok s' → R (items_in v) s s').
  cut (P collection ∧ match collection with JArr l => Forall P l | _ => True end).
  { intros [H _]. by apply H. }
  clear maps maps'.
  induction collection as [| | | |l IH|fs IH] using json_nested_ind; subst P;
    cbn beta; (split; [|try done]); try (by intros m m' [= <-]; apply Hnil).
  - eapply Forall_impl; [exact IH|]. by intros x [Hx _].
  - intros m m'. cbn [indexTestCasesIn items_in].
    intros (m1 & H1 & H2)%result_bind_Ok.
    rewrite with_field_get in H2. rewrite with_field_get.
    apply (Happ _ _ m m1 m').
    + destruct (obj_get "items" fs) as [[| | | |items|]|]; cbn [truthy] in H1;
        repeat match type of H1 with
               | context [if ?c then _ else _] => destruct c
               end;
        try done; try (injection H1 as <-; apply Hnil).
      rewrite <- (flat_map_singleton items) at 1.
      eapply (foldM_entered R); [done|done| |exact H1].
      apply Forall_forall. intros x _ s0 s0'. apply index_test_case_entered.
    + destruct (obj_get "children" fs) as [children|] eqn:Ec;
        [|injection H2 as <-; apply Hnil].
      destruct children as [| | | |l|]; cbn [truthy] in H2;
        repeat match type of H2 with
               | context [if ?c then _ else _] => destruct c
               end;
        try done; try (injection H2 as <-; apply Hnil).
      eapply (foldM_entered R); [done|done| |exact H2].
      rewrite Forall_forall in IH.
      apply MergerLaws.obj_get_elem, IH in Ec as [_ Hl].
      exact Hl.
Qed.

Lemma indexTestCases_entered (collections : json) (maps maps' : test_case_maps) :
  indexTestCases collections maps = Ok maps' →
  entered test_case_named (all_items collections) maps.1 maps'.1 ∧
  entered test_case_identified (all_items collections) maps.2 maps'.2.
Proof.
  unfold indexTestCases, all_items.
  destruct collections as [| | | |l|]; try done.
  - intros [= <-]. split; apply entered_nil.
  - intros H.
    apply (foldM_entered
             (λ (l : list json) (s s' : test_case_maps),
                entered test_case_named l s.1 s'.1 ∧
                entered test_case_identified l s.2 s'.2)
             indexTestCasesIn items_in) in H; [done|..].
    + intros s; split; apply entered_nil.
    + intros l1 l2 s1 s2 s3 [H1 H2] [H3 H4]. split; by eapply entered_app.
    + apply Forall_forall. intros x _ s s'. apply indexTestCasesIn_entered.
Qed.

(** X24.  The forward converter finds a test case of the source file by its
    name, and by its id: after [indexTestCases] on empty maps, the
    entry of [testCases] for a key is the last item of the collections
    that has a truthy name, truthy steps and that name, and the entry of
    [testCasesById] the last such item with that id; there is no entry
    when there is no such item. *)
Theorem indexTestCases_finds_last_test_case (collections : json)
    (byName byId : list (json * json)) (k : json) :
  indexTestCases collections ([], []) = Ok (byName, byId) →
  map_get k byName = last_such (test_case_named k) (all_items collections) ∧
  map_get k byId = last_such (test_case_identified k) (all_items collections).
Proof.
  intros [H1 H2]%indexTestCases_entered. cbn [fst snd] in H1, H2.
  split; [rewrite (H1 k)|rewrite (H2 k)]; cbn [map_get]; by destruct last_such.
Qed.

Lemma indexTestCases_finds_last_test_case_witness :
  ∃ byName byId,
    indexTestCases source_cases ([], []) = Ok (byName, byId) ∧
    map_get (JStr "Login") byName
    = last_such (test_case_named (JStr "Login")) (all_items source_cases) ∧
    map_get (JStr "Login") byId
    = last_such (test_case_identified (JStr "Login")) (all_items source_cases).
Proof.
  eexists _, _. split; [vm_compute; reflexivity|].
  apply (indexTestCases_finds_last_test_case source_cases _ _ (JStr "Login")).
  vm_compute. reflexivity.
Defined.

(** *** The index of the reverse converter *)

Lemma reverse_map_set (k v : json) (m : list (json * json)) :
  ApidogReverseConverter.map_set k v m = map_set k v m.
Proof. reflexivity. Qed.

Lemma reverse_index_test_case_entered (item : json)
    (maps maps' : ApidogReverseConverter.index * ApidogReverseConverter.index) :
  ApidogReverseConverter.index_test_case item maps = Ok maps' →
  entered identified [item] maps.1 maps'.1 ∧ entered named [item] maps.2 maps'.2.
Proof.
  unfold ApidogReverseConverter.index_test_case. intros (id & Hid & H)%result_bind_Ok.
  assert (id = get "id" item) as -> by (destruct item; cbn in Hid |- *; congruence).
  injection H as <-. cbn [fst snd]. rewrite !reverse_map_set. split.
  - destruct (truthy (get "id" item)) eqn:Ei.
    + apply entered_one. intros k. unfold identified. rewrite Ei. cbn [andb].
      destruct (get "id" item) as [id|]; [|done]. apply strict_eq_sym.
    + apply entered_none. intros k. unfold identified. by rewrite Ei.
  - destruct (truthy (get "name" item)) eqn:En.
    + apply entered_one. intros k. unfold named. rewrite En. cbn [andb].
      destruct (get "name" item) as [name|]; [|done]. apply strict_eq_sym.
    + apply entered_none. intros k. unfold named. by rewrite En.
Qed.

Lemma reverse_indexTestCasesIn_entered (collection : json)
    (maps maps' : ApidogReverseConverter.index * ApidogReverseConverter.index) :
  ApidogReverseConverter.indexTestCasesIn collection maps = Ok maps' →
  entered identified (items_in collection) maps.1 maps'.1 ∧
  entered named (items_in collection) maps.2 maps'.2.
Proof.
  set (R := λ (l : list json)
              (s s' : ApidogReverseConverter.index * ApidogReverseConverter.index),
              entered identified l s.1 s'.1 ∧ entered named l s.2 s'.2).
  assert (∀ s, R [] s s) as Hnil by (intros s; split; apply entered_nil).
  assert (∀ l1 l2 s1 s2 s3, R l1 s1 s2 → R l2 s2 s3 → R (l1 ++ l2) s1 s3) as Happ.
  { intros l1 l2 s1 s2 s3 [H1 H2] [H3 H4]. split; by eapply entered_app. }
  set (P := λ v, ∀ s s', ApidogReverseConverter.indexTestCasesIn v s = Ok s'
                         → R (items_in v) s s').
  cut (P collection ∧ match collection with JArr l => Forall P l | _ => True end).
  { intros [H _]. by apply H. }
  clear maps maps'.
  induction collection as [| | | |l IH|fs IH] using json_nested_ind; subst P;
    cbn beta; (split; [|try done]); try (by intros m m' [= <-]; apply Hnil).
  - eapply Forall_impl; [exact IH|]. by intros x [Hx _].
  - intros m m'. cbn [ApidogReverseConverter.indexTestCasesIn items_in].
    intros (m1 & H1 & H2)%result_bind_Ok.
    rewrite with_field_get in H2. rewrite with_field_get.
    apply (Happ _ _ m m1 m').
    + destruct (obj_get "items" fs) as [[| | | |items|]|]; cbn [truthy] in H1;
        repeat match type of H1 with
               | context [if ?c then _ else _] => destruct c
               end;
        try done; try (injection H1 as <-; apply Hnil).
      rewrite <- (flat_map_singleton items) at 1.
      eapply (foldM_entered R); [done|done| |exact H1].
      apply Forall_forall. intros x _ s0 s0'. apply reverse_index_test_case_entered.
    + destruct (obj_get "children" fs) as [children|] eqn:Ec;
        [|injection H2 as <-; apply Hnil].
      destruct children as [| | | |l|]; cbn [truthy] in H2;
        repeat match type of H2 with
               | context [if ?c then _ else _] => destruct c
               end;
        try done; try (injection H2 as <-; apply Hnil).
      eapply (foldM_entered R); [done|done| |exact H2].
      rewrite Forall_forall in IH.
      apply MergerLaws.obj_get_elem, IH in Ec as [_ Hl].
      exact Hl.
Qed.

Lemma reverse_indexTestCases_entered (collections : json)
    (maps maps' : ApidogReverseConverter.index * ApidogReverseConverter.index) :
  ApidogReverseConverter.indexTestCases collections maps = Ok maps' →
  entered identified (all_items collections) maps.1 maps'.1 ∧
  entered named (all_items collections) maps.2 maps'.2.
Proof.
  unfold ApidogReverseConverter.indexTestCases, all_items.
  destruct collections as [| | | |l|]; try done.
  - intros [= <-]. split; apply entered_nil.
  - intros H.
    apply (foldM_entered
             (λ (l : list json)
                (s s' : ApidogReverseConverter.index * ApidogReverseConverter.index),
                entered identified l s.1 s'.1 ∧ entered named l s.2 s'.2)
             ApidogReverseConverter.indexTestCasesIn items_in) in H; [done|..].
    + intros s; split; apply entered_nil.
    + intros l1 l2 s1 s2 s3 [H1 H2] [H3 H4]. split; by eapply entered_app.
    + apply Forall_forall. intros x _ s s'. apply reverse_indexTestCasesIn_entered.
Qed.

(** X25.  The reverse converter finds an item of the source file by its id,
    and by its name, whether it has steps or not: after [indexTestCases]
    on empty maps, the entry of [testCases] for a key is the last item of
    the collections with that truthy id, and the entry of
    [testCasesByName] the last item with that truthy name; there is no
    entry when there is no such item. *)
Theorem reverse_indexTestCases_finds_last_item (collections : json)
    (byId byName : ApidogReverseConverter.index) (k : json) :
  ApidogReverseConverter.indexTestCases collections ([], []) = Ok (byId, byName) →
  map_get k byId = last_such (identified k) (all_items collections) ∧
  map_get k byName = last_such (named k) (all_items collections).
Proof.
  intros [H1 H2]%reverse_indexTestCases_entered. cbn [fst snd] in H1, H2.
  split; [rewrite (H1 k)|rewrite (H2 k)]; cbn [map_get]; by destruct last_such.
Qed.

Lemma reverse_indexTestCases_finds_last_item_witness :
  ∃ byId byName,
    ApidogReverseConverter.indexTestCases source_cases ([], []) = Ok (byId, byName) ∧
    map_get (JNum 56) byId = last_such (identified (JNum 56)) (all_items source_cases) ∧
    map_get (JNum 56) byName = last_such (named (JNum 56)) (all_items source_cases).
Proof.
  eexists _, _. split; [vm_compute; reflexivity|].
  apply (reverse_indexTestCases_finds_last_item source_cases _ _ (JNum 56)).
  vm_compute. reflexivity.
Defined.

(** *** References to test cases *)

Lemma last_such_Some (test : json → bool) (l : list json) (x : json) :
  last_such test l = Some x → x ∈ l ∧ test x = true.
Proof.
  unfold last_such. intros H%last_Some_elem_of.
  apply list_elem_of_In, List.filter_In in H as [H1 H2].
  by apply list_elem_of_In in H1.
Qed.

Lemma last_such_None (test : json → bool) (l : list json) (x : json) :
  last_such test l = None → x ∈ l → test x = false.
Proof.
  unfold last_such. intros H%last_None Hx.
  destruct (test x) eqn:E; [|done].
  assert (x ∈ List.filter test l) as Hin
    by (apply list_elem_of_In, List.filter_In; by rewrite <- list_elem_of_In).
  rewrite H in Hin. by apply elem_of_nil in Hin.
Qed.

Lemma named_get (k item : json) :
  named k item = true → get "name" item = Some k ∧ truthy (Some k) = true.
Proof.
  unfold named. intros [H1 H2%strict_eq_true]%andb_prop. by rewrite <- H2.
Qed.

Lemma identified_get (k item : json) :
  identified k item = true → get "id" item = Some k ∧ truthy (Some k) = true.
Proof.
  unfold identified. intros [H1 H2%strict_eq_true]%andb_prop. by rewrite <- H2.
Qed.

Section Reference.
Variable randomUUID : nat → string.

(** The reverse converter finds the test case of a reference by the id
    that the forward converter has written. *)
Lemma lookup_related_found (collections : json) (ids names : ApidogReverseConverter.index)
    (item : json) (z : Z) (n : string) (testCase : jsval) :
  ApidogReverseConverter.indexTestCases collections ([], []) = Ok (ids, names) →
  item ∈ all_items collections → get "id" item = Some (JNum z) → z ≠ 0 →
  (∀ other, other ∈ all_items collections → has_id z other →
            named (JStr n) other = true) →
  ApidogReverseConverter.lookup_related ids (JNum z) = Ok testCase →
  ∃ found, testCase = Some found ∧ get "name" found = Some (JStr n) ∧ n ≠ "".
Proof.
  intros [Hids _]%reverse_indexTestCases_entered Hitem Hid Hz Hsame.
  cbn [fst snd] in Hids. unfold ApidogReverseConverter.lookup_related.
  cbn [js_String parseInt mbind result_mbind result_bind].
  rewrite !Hids. cbn [map_get].
  assert (∀ found, found ∈ all_items collections → has_id z found →
                   get "name" found = Some (JStr n) ∧ n ≠ "" ∧ truthy (Some found) = true)
    as Hfound.
  { intros found Hin Hhas. apply Hsame, named_get in Hhas as [Hname Hn]; [|done].
    split; [done|]. split.
    - intros ->. done.
    - destruct found; try done. }
  destruct (last_such (identified (JStr (pretty z))) (all_items collections))
    as [found|] eqn:E1; cbn [from_option].
  - apply last_such_Some in E1 as [Hin [Hfid _]%identified_get].
    destruct (Hfound found Hin) as (Hname & Hn & Ht); [by right|].
    rewrite Ht. intros [= <-]. by exists found.
  - cbn [truthy].
    destruct (last_such (identified (JNum z)) (all_items collections))
      as [found|] eqn:E2; cbn [from_option].
    + apply last_such_Some in E2 as [Hin [Hfid _]%identified_get].
      destruct (Hfound found Hin) as (Hname & Hn & Ht); [by left|].
      intros [= <-]. by exists found.
    + apply (last_such_None _ _ item) in E2; [|done].
      unfold identified in E2. rewrite Hid in E2. cbn [truthy strict_eq] in E2.
      rewrite Z.eqb_refl, andb_true_r in E2.
      apply negb_false_iff, Z.eqb_eq in E2. done.
Qed.

(** X26.  A reference by name to a test case of the source file comes back as
    a reference by name.  The step names the test case [n] by [ref_name]
    and has no truthy [ref_id] or [refId]; both converters have indexed
    the same collections; the last test case named [n] has the number
    [z], not 0, for its id, and all items of the collections with that id
    are named [n].  Then the step that comes back has [n] for its
    [ref_name] and no [ref_id]; its own [name] is [n] as well, whatever
    the name of the step was. *)
Theorem reference_by_name_comes_back (collections : json)
    (byName byId : list (json * json)) (ids names : ApidogReverseConverter.index)
    (step testCaseRef back item : json) (n : string) (z : Z) (c c' : converter) :
  indexTestCases collections ([], []) = Ok (byName, byId) →
  ApidogReverseConverter.indexTestCases collections ([], []) = Ok (ids, names) →
  testCases c = Some byName →
  truthy (get "ref_id" step) = false → truthy (get "refId" step) = false →
  get "ref_name" step = Some (JStr n) →
  last_such (test_case_named (JStr n)) (all_items collections) = Some item →
  get "id" item = Some (JNum z) → z ≠ 0 →
  (∀ other, other ∈ all_items collections → has_id z other →
            named (JStr n) other = true) →
  convertTestCaseRefStep randomUUID step c = Ok (testCaseRef, c') →
  ApidogReverseConverter.convertTestCaseRefStep ids testCaseRef = Ok back →
  get "ref_name" back = Some (JStr n) ∧ get "ref_id" back = None ∧
  get "name" back = Some (JStr n) ∧
  get "number" back = Some (step_number step).
Proof.
  intros Hfwd Hrev Hc Hid1 Hid2 Hname Hlast Hid Hz Hsame Hstep Hback.
  apply indexTestCases_entered in Hfwd as [HbyName _]. cbn [fst snd] in HbyName.
  specialize (HbyName (JStr n)).
  apply last_such_Some in Hlast as Hitem. destruct Hitem as [Hin Htest].
  apply andb_prop in Htest as [_ [Hn Htruthy]%named_get].
  assert (n ≠ "") as Hne by (intros ->; done).
  assert (truthy (Some item) = true) as Hti by (destruct item; done).
  (* the forward step *)
  unfold convertTestCaseRefStep in Hstep. rewrite bind_this in Hstep.
  rewrite Hid1, Hid2, Hname, !Htruthy, Hc in Hstep.
  change (default JNull (Some (JStr n))) with (JStr n) in Hstep.
  cbn [lookup_test_case mbind result_mbind result_bind] in Hstep.
  rewrite HbyName, Hlast in Hstep. cbn [from_option] in Hstep.
  rewrite Hti in Hstep.
  cbn [getv] in Hstep. rewrite Hid, Hn in Hstep.
  cbn [parseInt result_bind] in Hstep.
  rewrite (js_or_truthy _ _ Htruthy) in Hstep.
  apply bind_Ok in Hstep as ([relatedId testCaseName] & c1 & [[= <- <-] ->]%lift_Ok & Hstep).
  destruct (Z.eqb_spec z 0) as [?|_]; [done|].
  apply bind_Ok in Hstep as (relatedId & c2 & [-> ->]%ret_Ok & Hstep).
  apply bind_Ok in Hstep as (id & c3 & _ & [Heq _]%ret_Ok). subst testCaseRef.
  (* the step that comes back *)
  unfold ApidogReverseConverter.convertTestCaseRefStep in Hback.
  cbn [get obj_get String.eqb Ascii.eqb Bool.eqb] in Hback.
  apply result_bind_Ok in Hback as (y & Hy & [= <-]).
  assert (truthy (Some (JNum z)) = true) as Htz
    by (cbn [truthy]; by apply negb_true_iff, Z.eqb_neq).
  rewrite Htz in Hy. cbn [default] in Hy.
  apply result_bind_Ok in Hy as (testCase & Hfound & Hy).
  destruct (lookup_related_found _ _ _ _ _ _ _ Hrev Hin Hid Hz Hsame Hfound)
    as (found & -> & Hfname & _).
  assert (truthy (Some found) = true) as Htf by (destruct found; done).
  cbn [getv] in Hy. rewrite Htf, Hfname, Htruthy in Hy. cbn [andb default] in Hy.
  injection Hy as <-.
  assert ((n =? "")%string = false) as Hn0 by (by apply String.eqb_neq).
  repeat split; destruct (_ && _); cbn [get default];
    rewrite ?obj_get_obj_set_ne by done;
    cbn [obj_get obj_set String.eqb Ascii.eqb Bool.eqb negb];
    rewrite ?Hn0; cbn [negb]; try done;
    unfold ApidogReverseConverter.step_number, step_number;
    cbn [get obj_get String.eqb Ascii.eqb Bool.eqb]; by rewrite js_or_idem.
Qed.

End Reference.

Lemma reference_by_name_comes_back_witness :
  ∃ byName byId ids names testCaseRef c' back,
    indexTestCases source_cases ([], []) = Ok (byName, byId) ∧
    ApidogReverseConverter.indexTestCases source_cases ([], []) = Ok (ids, names) ∧
    testCases with_source_cases = Some byName ∧
    truthy (get "ref_id" run_login) = false ∧ truthy (get "refId" run_login) = false ∧
    get "ref_name" run_login = Some (JStr "Login") ∧
    last_such (test_case_named (JStr "Login")) (all_items source_cases)
    = Some (case_of "Login" 58) ∧
    get "id" (case_of "Login" 58) = Some (JNum 58) ∧ 58 ≠ 0 ∧
    (∀ other, other ∈ all_items source_cases → has_id 58 other →
              named (JStr "Login") other = true) ∧
    convertTestCaseRefStep (λ _, "uuid") run_login with_source_cases
    = Ok (testCaseRef, c') ∧
    ApidogReverseConverter.convertTestCaseRefStep ids testCaseRef = Ok back ∧
    get "ref_name" back = Some (JStr "Login") ∧ get "ref_id" back = None ∧
    get "name" back = Some (JStr "Login") ∧
    get "number" back = Some (step_number run_login).
Proof.
  assert (∀ other, other ∈ all_items source_cases → has_id 58 other →
                   named (JStr "Login") other = true) as Hsame.
  { intros other Hin Hid. vm_compute in Hin.
    repeat (apply elem_of_cons in Hin as [->|Hin]; [by destruct Hid|]).
    by apply elem_of_nil in Hin. }
  eexists _, _, _, _, _, _, _.
  split; [vm_compute; reflexivity|]. split; [vm_compute; reflexivity|].
  split; [reflexivity|]. split; [reflexivity|]. split; [reflexivity|].
  split; [reflexivity|]. split; [vm_compute; reflexivity|]. split; [reflexivity|].
  split; [done|]. split; [exact Hsame|].
  split; [vm_compute; reflexivity|]. split; [vm_compute; reflexivity|].
  eapply (reference_by_name_comes_back (λ _, "uuid") source_cases _ _ _ _ run_login _ _
            (case_of "Login" 58) "Login" 58 with_source_cases);
    [vm_compute; reflexivity|vm_compute; reflexivity|reflexivity|reflexivity|reflexivity
    |reflexivity|vm_compute; reflexivity|reflexivity|done|exact Hsame
    |vm_compute; reflexivity|vm_compute; reflexivity].
Defined.

(** *** The API index *)

Lemma alist_get_alist_set {A : Type} (k k' : string) (v : A) (l : list (string * A)) :
  alist_get k (alist_set k' v l) = if String.eqb k k' then Some v else alist_get k l.
Proof.
  induction l as [|[k0 v0] l IH]; cbn [alist_set alist_get]; [done|].
  destruct (String.eqb_spec k' k0) as [<-|Hne]; cbn [alist_get].
  - by destruct (String.eqb k k').
  - destruct (String.eqb_spec k k0) as [->|Hne0]; [|exact IH].
    by destruct (String.eqb_spec k0 k').
Qed.

Lemma foldM_app {A S : Type} (f : A → S → result S) (l1 l2 : list A) (s : S) :
  foldM f (l1 ++ l2) s = foldM f l1 s ≫= foldM f l2.
Proof.
  revert s. induction l1 as [|x l1 IH]; intros s; [done|].
  cbn [app foldM]. destruct (f x s) as [s1| |]; [|done..]. apply IH.
Qed.

Lemma indexed_nil (c : converter) :
  apiStore c = [] → apiByPath c = [] → apiDefinitions c = [] → indexed [] c.
Proof.
  intros H1 H2 H3. unfold indexed. rewrite H1, H2, H3. split; [done|].
  split; [done|]. split.
  - intros p entry Hin. by apply elem_of_nil in Hin.
  - intros n ref. cbn [alist_get refs_of]. split.
    + by intros ?%elem_of_nil.
    + by intros (entry & ? & _).
Qed.

Lemma has_name_truthy (item : json) (v : json) :
  get "name" item = Some v → truthy (Some item) = true.
Proof. by destruct item. Qed.

Lemma index_api_indexed (apis : list (jsval * json)) (currentPath : jsval) (item : json)
    (c c' : converter) :
  indexed apis c → index_api currentPath item c = Ok c' →
  indexed (apis ++ [(currentPath, item)]) c'.
Proof.
  intros (Hstore & Hstrings & Hpaths & Hnames). unfold index_api.
  intros (n & Hn & H)%result_bind_Ok.
  assert (get "name" item = Some (JStr n)) as Hname.
  { destruct (get "name" item) as [[]|]; try done. by injection Hn as ->. }
  injection H as <-.
  assert (length (apiStore c) = length apis) as Hlen by (by rewrite Hstore, length_fmap).
  assert (full_path (currentPath, item) = template currentPath +:+ "/" +:+ n) as Hfull
    by (unfold full_path; cbn [fst snd]; by rewrite Hname).
  unfold indexed. cbn [apiStore apiByPath apiDefinitions]. split; [|split; [|split]].
  - by rewrite Hstore, fmap_app.
  - apply Forall_app. split; [done|]. apply Forall_singleton. by exists n.
  - intros p. rewrite alist_get_alist_set, Hlen.
    destruct (String.eqb_spec p (template currentPath +:+ "/" +:+ n)) as [->|Hne].
    + split.
      * exists (currentPath, item). by rewrite list_lookup_middle.
      * intros i entry Hi%lookup_lt_Some _. rewrite length_app in Hi. cbn in Hi. lia.
    + specialize (Hpaths p). destruct (alist_get p (apiByPath c)) as [ref|].
      * destruct Hpaths as [(entry & Hentry & Hp) Hlast]. split.
        -- exists entry. split; [|done]. by apply lookup_app_l_Some.
        -- intros i entry' Hi Hp'. apply lookup_app_Some in Hi as [Hi|[_ Hi]].
           ++ by eapply Hlast.
           ++ apply list_lookup_singleton_Some in Hi as [_ <-]. congruence.
      * intros entry [Hin|Hin%list_elem_of_singleton]%elem_of_app.
        -- by apply Hpaths.
        -- subst entry. congruence.
  - intros n' ref. rewrite alist_get_alist_set.
    destruct (String.eqb_spec n' n) as [->|Hne].
    + assert (refs_of (Some
                (match alist_get n (apiDefinitions c) with
                 | Some (OneApi existing) =>
                     if truthy (store_get c existing)
                     then ManyApis
                            [(existing,
                              findPathForItem
                                (Converter (nextId c) (uuidCalls c) (apiStore c ++ [item])
                                   (apiDefinitions c)
                                   (alist_set (template currentPath +:+ "/" +:+ n)
                                      (length apis) (apiByPath c))
                                   (testCases c) (testCasesById c)) existing);
                             (length apis, template currentPath +:+ "/" +:+ n)]
                     else OneApi (length apis)
                 | Some (ManyApis entries) =>
                     ManyApis (entries ++ [(length apis, template currentPath +:+ "/" +:+ n)])
                 | None => OneApi (length apis)
                 end))
              = refs_of (alist_get n (apiDefinitions c)) ++ [length apis]) as Hrefs.
      { pose proof (Hnames n) as Hn1.
        destruct (alist_get n (apiDefinitions c)) as [[existing|entries]|]; cbn [refs_of].
        - destruct (proj1 (Hn1 existing)) as (entry & Hentry & Hename);
            [apply list_elem_of_singleton; done|].
          unfold store_get. rewrite Hstore, list_lookup_fmap, Hentry. cbn [fmap option_fmap option_map].
          by rewrite (has_name_truthy _ _ Hename).
        - by rewrite fmap_app.
        - done. }
      rewrite Hlen, Hrefs. rewrite elem_of_app, list_elem_of_singleton, Hnames. split.
      * intros [(entry & Hentry & Hename)| ->].
        -- exists entry. split; [by apply lookup_app_l_Some|done].
        -- exists (currentPath, item). by rewrite list_lookup_middle.
      * intros (entry & [Hentry|[Hge Hentry]]%lookup_app_Some & Hename).
        -- left. by exists entry.
        -- right. apply list_lookup_singleton_Some in Hentry as [Hi _]. lia.
    + rewrite Hnames. split.
      * intros (entry & Hentry & Hename). exists entry.
        split; [by apply lookup_app_l_Some|done].
      * intros (entry & [Hentry|[Hge Hentry]]%lookup_app_Some & Hename).
        -- by exists entry.
        -- apply list_lookup_singleton_Some in Hentry as [_ <-].
           cbn [snd] in Hename. congruence.
Qed.

Lemma index_apis_indexed (l apis : list (jsval * json)) (c c' : converter) :
  indexed apis c →
  foldM (λ entry, index_api entry.1 entry.2) l c = Ok c' →
  indexed (apis ++ l) c'.
Proof.
  revert apis c. induction l as [|[cp item] l IH]; intros apis c Hc.
  - intros [= <-]. by rewrite app_nil_r.
  - cbn [foldM fst snd]. intros (c1 & H1 & H2)%result_bind_Ok.
    rewrite (assoc_L app apis [_] l : apis ++ (cp, item) :: l = (apis ++ [(cp, item)]) ++ l).
    eapply IH; [|exact H2]. by eapply index_api_indexed.
Qed.

Lemma indexApiCollectionIn_apis (parentPath : jsval) (collection : json)
    (c c' : converter) :
  indexApiCollectionIn parentPath collection c = Ok c' →
  foldM (λ entry, index_api entry.1 entry.2) (apis_in parentPath collection) c = Ok c'.
Proof.
  set (R := λ (l : list (jsval * json)) (s s' : converter),
              foldM (λ entry, index_api entry.1 entry.2) l s = Ok s').
  assert (∀ s, R [] s s) as Hnil by done.
  assert (∀ l1 l2 s1 s2 s3, R l1 s1 s2 → R l2 s2 s3 → R (l1 ++ l2) s1 s3) as Happ.
  { intros l1 l2 s1 s2 s3 H1 H2. unfold R. by rewrite foldM_app, H1. }
  set (P := λ v, ∀ pp s s', indexApiCollectionIn pp v s = Ok s' → R (apis_in pp v) s s').
  cut (P collection ∧ match collection with JArr l => Forall P l | _ => True end).
  { intros [H _]. by apply H. }
  clear parentPath c c'.
  induction collection as [| | | |l IH|fs IH] using json_nested_ind; subst P;
    cbn beta; (split; [|try done]); try (by intros pp m m' [= <-]; apply Hnil).
  - eapply Forall_impl; [exact IH|]. by intros x [Hx _].
  - intros pp m m'. cbn [indexApiCollectionIn apis_in].
    intros (m1 & H1 & H2)%result_bind_Ok.
    rewrite with_field_get in H1, H2. rewrite !with_field_get.
    rewrite Forall_forall in IH.
    apply (Happ _ _ m m1 m').
    + destruct (obj_get "items" fs) as [items|] eqn:Ei;
        [|injection H1 as <-; apply Hnil].
      destruct items as [| | | |l|]; cbn [truthy] in H1;
        repeat match type of H1 with
               | context [if ?c then _ else _] => destruct c
               end;
        try done; try (injection H1 as <-; apply Hnil).
      eapply (foldM_entered R); [done|done| |exact H1].
      apply MergerLaws.obj_get_elem, IH in Ei as [_ Hl].
      eapply Forall_impl; [exact Hl|]. intros item Hitem s s'. cbn beta.
      intros (name & Hname & H)%result_bind_Ok.
      assert (name = get "name" item) as ->
        by (destruct item; cbn in Hname |- *; congruence).
      unfold is_api. destruct (truthy (get "name" item) && truthy (get "api" item)).
      * unfold R. cbn [foldM fst snd]. by rewrite H.
      * destruct (truthy (get "items" item)); [by apply Hitem|].
        injection H as <-. apply Hnil.
    + destruct (obj_get "children" fs) as [children|] eqn:Ec;
        [|injection H2 as <-; apply Hnil].
      destruct children as [| | | |l|]; cbn [truthy] in H2;
        repeat match type of H2 with
               | context [if ?c then _ else _] => destruct c
               end;
        try done; try (injection H2 as <-; apply Hnil).
      eapply (foldM_entered R); [done|done| |exact H2].
      apply MergerLaws.obj_get_elem, IH in Ec as [_ Hl].
      eapply Forall_impl; [exact Hl|]. intros x Hx s s'. apply Hx.
Qed.

Lemma indexSourceApidog_indexed (sourceApidog : json) (c : converter) :
  indexSourceApidog sourceApidog constructor = Ok c →
  indexed (all_apis sourceApidog) c.
Proof.
  unfold indexSourceApidog. intros (apiCollection & Hcoll & H)%result_bind_Ok.
  assert (apiCollection = get "apiCollection" sourceApidog) as ->
    by (destruct sourceApidog; cbn in Hcoll |- *; congruence).
  apply result_bind_Ok in H as (c1 & H1 & H).
  apply result_bind_Ok in H as (maps & _ & [= <-]).
  assert (indexed (all_apis sourceApidog) c1) as (Hs & Hstr & Hp & Hn); [|done].
  unfold all_apis.
  destruct (get "apiCollection" sourceApidog) as [apiCollection|];
    [|injection H1 as <-; by apply indexed_nil].
  unfold indexApiCollection in H1. cbn [default] in H1.
  destruct apiCollection as [| | | |l|]; cbn [truthy] in H1;
    repeat match type of H1 with
           | context [if ?c then _ else _] => destruct c
           end;
    try done; try (injection H1 as <-; by apply indexed_nil).
  apply (index_apis_indexed _ [] constructor); [by apply indexed_nil|].
  apply (foldM_entered
           (λ (l : list (jsval * json)) (s s' : converter),
              foldM (λ entry, index_api entry.1 entry.2) l s = Ok s')
           (indexApiCollectionIn (Some (JStr ""))) (apis_in (Some (JStr "")))) in H1;
    [done|done| |].
  - intros l1 l2 s1 s2 s3 Ha Hb. by rewrite foldM_app, Ha.
  - apply Forall_forall. intros x _ s s'. apply indexApiCollectionIn_apis.
Qed.

Lemma indexed_store (apis : list (jsval * json)) (c : converter) (ref : nat)
    (entry : jsval * json) :
  indexed apis c → apis !! ref = Some entry →
  store_get c ref = Some entry.2 ∧ truthy (Some entry.2) = true.
Proof.
  intros (Hstore & Hstrings & _) Hentry. unfold store_get.
  rewrite Hstore, list_lookup_fmap, Hentry. split; [done|].
  rewrite Forall_forall in Hstrings.
  destruct (Hstrings entry) as [n Hn]; [by eapply list_elem_of_lookup_2|].
  by eapply has_name_truthy.
Qed.

Lemma indexed_store_inv (apis : list (jsval * json)) (c : converter) (ref : nat)
    (item : json) :
  indexed apis c → store_get c ref = Some item →
  ∃ entry, apis !! ref = Some entry ∧ entry.2 = item.
Proof.
  intros (Hstore & _). unfold store_get. rewrite Hstore, list_lookup_fmap.
  destruct (apis !! ref) as [entry|]; [|done]. intros [= <-]. by exists entry.
Qed.

(** X27.  An API of the source file is found in its folder.  After the source
    file is loaded, [findApiByName] with the name of an API and the path
    of its collection returns the last API of the file with that path and
    name.  The path is not empty: the function is not called with an
    empty folder path, which would stand for no folder. *)
Theorem findApiByName_finds_api_in_folder (sourceApidog : json) (c : converter)
    (i : nat) (currentPath : jsval) (item : json) (n : string) :
  indexSourceApidog sourceApidog constructor = Ok c →
  all_apis sourceApidog !! i = Some (currentPath, item) →
  get "name" item = Some (JStr n) →
  template currentPath ≠ "" →
  ∃ ref entry,
    findApiByName c (JStr n) (JStr (template currentPath)) = Ok (Some ref) ∧
    all_apis sourceApidog !! ref = Some entry ∧ store_get c ref = Some entry.2 ∧
    full_path entry = full_path (currentPath, item) ∧ (i ≤ ref)%nat.
Proof.
  intros Hc%indexSourceApidog_indexed Hi Hname _.
  pose proof Hc as (_ & _ & Hpaths & _).
  assert (full_path (currentPath, item) = template currentPath +:+ "/" +:+ n) as Hfull
    by (unfold full_path; cbn [fst snd]; by rewrite Hname).
  specialize (Hpaths (template currentPath +:+ "/" +:+ n)).
  unfold findApiByName. cbn [js_String].
  destruct (alist_get (template currentPath +:+ "/" +:+ n) (apiByPath c)) as [ref|].
  - destruct Hpaths as [(entry & Hentry & Hp) Hlast].
    destruct (indexed_store _ _ _ _ Hc Hentry) as [Hstore Htruthy].
    exists ref, entry. cbn [mbind option_bind]. rewrite Hstore, Htruthy.
    split; [done|]. split; [done|]. split; [done|]. split; [congruence|].
    by eapply Hlast.
  - exfalso. eapply Hpaths; [|exact Hfull]. by eapply list_elem_of_lookup_2.
Qed.

Lemma findApiByName_finds_api_in_folder_witness :
  ∃ c,
    indexSourceApidog source_apis constructor = Ok c ∧
    all_apis source_apis !! 2%nat
    = Some (Some (JStr "Root/Admin"), api_named "Search" "/admin/search") ∧
    get "name" (api_named "Search" "/admin/search") = Some (JStr "Search") ∧
    template (Some (JStr "Root/Admin")) ≠ "" ∧
    ∃ ref entry,
      findApiByName c (JStr "Search") (JStr (template (Some (JStr "Root/Admin"))))
      = Ok (Some ref) ∧
      all_apis source_apis !! ref = Some entry ∧ store_get c ref = Some entry.2 ∧
      full_path entry
      = full_path (Some (JStr "Root/Admin"), api_named "Search" "/admin/search") ∧
      (2 ≤ ref)%nat.
Proof.
  eexists. split; [vm_compute; reflexivity|]. split; [vm_compute; reflexivity|].
  split; [reflexivity|]. split; [done|].
  eapply (findApiByName_finds_api_in_folder source_apis _ 2 (Some (JStr "Root/Admin"))
            (api_named "Search" "/admin/search") "Search");
    [vm_compute; reflexivity|vm_compute; reflexivity|reflexivity|done].
Defined.

Lemma path_truthy_api (item p : json) :
  strict_eq (getv "path" (get "api" item)) (Some p) = true →
  truthy (api_of (Some item)) = true ∧ truthy (Some item) = true.
Proof.
  intros H%strict_eq_true. unfold api_of.
  destruct item as [| | | | |fs]; try done. cbn [truthy getv].
  destruct (get "api" (JObj fs)) as [[| | | | |afs]|]; done.
Qed.

Lemma findApiByNameAndPath_finds (apis : list (jsval * json)) (c : converter)
    (i : nat) (currentPath : jsval) (item : json) (n : string) (p : json) :
  indexed apis c →
  apis !! i = Some (currentPath, item) →
  get "name" item = Some (JStr n) →
  strict_eq (getv "path" (get "api" item)) (Some p) = true → truthy (Some p) = true →
  ∃ ref entry,
    findApiByNameAndPath c (JStr n) p JNull = Ok (Some ref) ∧
    apis !! ref = Some entry ∧ get "name" entry.2 = Some (JStr n) ∧
    strict_eq (getv "path" (get "api" entry.2)) (Some p) = true.
Proof.
  intros Hc Hi Hname Hpath Hp. pose proof Hc as (_ & _ & _ & Hnames).
  unfold findApiByNameAndPath. change (truthy (Some JNull)) with false. cbv iota.
  cbn [mbind result_mbind result_bind string_key].
  assert (i ∈ refs_of (alist_get n (apiDefinitions c))) as Hin
    by (apply Hnames; by exists (currentPath, item)).
  destruct (alist_get n (apiDefinitions c)) as [[ref|entries]|] eqn:Edefs;
    cbn [refs_of] in Hin.
  - apply list_elem_of_singleton in Hin as <-. by exists i, (currentPath, item).
  - rewrite Hp.
    apply list_elem_of_fmap in Hin as ([i' path] & -> & Hin). cbn [fst] in *.
    destruct (List.find _ entries) as [entry0|] eqn:Efind.
    + apply List.find_some in Efind as [Hin0 Htest].
      assert (entry0.1 ∈ refs_of (alist_get n (apiDefinitions c))) as Hin1.
      { rewrite Edefs. cbn [refs_of]. apply list_elem_of_fmap. exists entry0.
        split; [done|]. by apply list_elem_of_In. }
      apply Hnames in Hin1 as (entry & Hentry & Hename).
      destruct (indexed_store _ _ _ _ Hc Hentry) as [Hstore Htruthy].
      rewrite Hstore in Htest. apply andb_prop in Htest as [_ Htest].
      exists entry0.1, entry. split; [done|]. split; [done|]. split; [done|].
      unfold api_of in Htest. by rewrite Htruthy in Htest.
    + exfalso. eapply List.find_none in Efind; [|apply list_elem_of_In; exact Hin].
      cbn [fst] in Efind.
      destruct (indexed_store _ _ _ _ Hc Hi) as [Hstore Htruthy]. cbn [snd] in *.
      rewrite Hstore in Efind.
      destruct (path_truthy_api _ _ Hpath) as [Hapi _]. rewrite Hapi in Efind.
      unfold api_of in Efind. rewrite Htruthy in Efind. cbn [andb] in Efind.
      cbn [getv] in Efind. congruence.
  - by apply elem_of_nil in Hin.
Qed.

(** X28.  An http step that gives the name and the path of an API of the
    source file is resolved, and to an API with that path: by path and
    method when an API has them, and else by name and path. *)
Theorem http_step_resolves_to_api_with_its_path (sourceApidog : json) (c : converter)
    (step : json) (i : nat) (currentPath : jsval) (item : json) (n : string) (p : json) :
  indexSourceApidog sourceApidog constructor = Ok c →
  all_apis sourceApidog !! i = Some (currentPath, item) →
  get "name" item = Some (JStr n) → n ≠ "" →
  strict_eq (getv "path" (get "api" item)) (Some p) = true → truthy (Some p) = true →
  get "name" step = Some (JStr n) → get "path" step = Some p →
  truthy (get "folder" step) = false →
  ∃ ref entry,
    resolve_api c step = Ok (Some ref) ∧
    all_apis sourceApidog !! ref = Some entry ∧ store_get c ref = Some entry.2 ∧
    strict_eq (getv "path" (get "api" entry.2)) (Some p) = true.
Proof.
  intros Hc%indexSourceApidog_indexed Hi Hname Hn Hpath Hp Hsname Hspath Hfolder.
  unfold resolve_api.
  assert (step_name step = JStr n) as ->.
  { unfold step_name. rewrite Hsname. apply js_or_truthy. cbn [truthy].
    by apply negb_true_iff, String.eqb_neq. }
  assert (js_or (get "folder" step) JNull = JNull) as ->.
  { unfold js_or. destruct (get "folder" step); [|done]. by rewrite Hfolder. }
  rewrite Hspath, (js_or_truthy _ _ Hp), Hp.
  destruct (findApiByMethodAndPath c _ p) as [ref|] eqn:Efind.
  - unfold findApiByMethodAndPath in Efind. rewrite Hp in Efind.
    destruct (List.find _ (apiByPath c)) as [found|] eqn:E; [|done].
    injection Efind as <-. apply List.find_some in E as [_ Htest].
    apply andb_prop in Htest as [[Hapi Hfpath]%andb_prop _].
    destruct (store_get c found.2) as [it|] eqn:Est; [|done].
    destruct (indexed_store_inv _ _ _ _ Hc Est) as (entry & Hentry & <-).
    destruct (indexed_store _ _ _ _ Hc Hentry) as [_ Htruthy].
    exists found.2, entry. split; [done|]. split; [done|]. split; [done|].
    unfold api_of in Hfpath. by rewrite Htruthy in Hfpath.
  - destruct (findApiByNameAndPath_finds _ _ _ _ _ _ _ Hc Hi Hname Hpath Hp)
      as (ref & entry & -> & Hentry & _ & Hepath).
    destruct (indexed_store _ _ _ _ Hc Hentry) as [Hstore _].
    exists ref, entry. cbn [mbind result_mbind result_bind option_bind].
    rewrite Hstore. destruct (path_truthy_api _ _ Hepath) as [-> _]. done.
Qed.

Lemma http_step_resolves_to_api_with_its_path_witness :
  ∃ c,
    indexSourceApidog source_apis constructor = Ok c ∧
    all_apis source_apis !! 2%nat
    = Some (Some (JStr "Root/Admin"), api_named "Search" "/admin/search") ∧
    get "name" (api_named "Search" "/admin/search") = Some (JStr "Search") ∧
    "Search" ≠ "" ∧
    strict_eq (getv "path" (get "api" (api_named "Search" "/admin/search")))
      (Some (JStr "/admin/search")) = true ∧
    truthy (Some (JStr "/admin/search")) = true ∧
    get "name" search_admin = Some (JStr "Search") ∧
    get "path" search_admin = Some (JStr "/admin/search") ∧
    truthy (get "folder" search_admin) = false ∧
    ∃ ref entry,
      resolve_api c search_admin = Ok (Some ref) ∧
      all_apis source_apis !! ref = Some entry ∧ store_get c ref = Some entry.2 ∧
      strict_eq (getv "path" (get "api" entry.2)) (Some (JStr "/admin/search")) = true.
Proof.
  eexists. split; [vm_compute; reflexivity|]. split; [vm_compute; reflexivity|].
  split; [reflexivity|]. split; [done|]. split; [reflexivity|]. split; [reflexivity|].
  split; [reflexivity|]. split; [reflexivity|]. split; [reflexivity|].
  eapply (http_step_resolves_to_api_with_its_path source_apis _ search_admin 2
            (Some (JStr "Root/Admin")) (api_named "Search" "/admin/search") "Search"
            (JStr "/admin/search"));
    [vm_compute; reflexivity|vm_compute; reflexivity|reflexivity|done|reflexivity
    |reflexivity|reflexivity|reflexivity|reflexivity].
Defined.

End IndexLaws.
